(* ===== verification/_CoqProject ===== *)
-Q . S2P
Prelude.v
Fuel.v
Owner.v
CxxString.v
Lines.v
StrOrder.v
FsPath.v
Json.v
Charconv.v
Event.v
Stop.v
FdTable.v
Syscall.v
Memory.v
SyscallDecoder.v
DecoderSpec.v
Report.v
Policy.v
Risk.v
Tracer.v
TracerScript.v
TracerSpec.v
TracerReports.v
TracerTasks.v
TracerSignals.v
Program.v
Monitor.v
Archive.v
ArchiveSpec.v
Network.v
Capture.v
CaptureSpec.v
Seccomp.v
Sandbox.v
SandboxSetup.v
SandboxRun.v
TracerSession.v
CapturedRun.v
Storage.v
StorageSpec.v
Statements.v
StatementsSpec.v
Connection.v
Fingerprint.v
Package.v
Inspect.v
Rootfs.v
Guardian.v
Sessions.v
Diff.v
Artifacts.v
Observation.v
ObservedTrace.v
Observe.v
Scan.v
ScanSpec.v
Returns.v
Aur.v
Build.v
BuildSpec.v
Analyze.v
AnalyzeSpec.v
Cli.v
CliSpec.v
Main.v
MainSpec.v
Fixture.v
UnitTests.v
