(* ===== verification/Prelude.v ===== *)
(** * ExeCell: a verification development

    ExeCell runs a program under [ptrace], turns its stops into a stream of
    events (files, network, processes, failed calls), passes the events to
    reporters and a policy, and scans and builds Arch packages in a sandbox.
    This library models the parts of it that carry its logic and proves what
    makes them correct.  Definitions are executable and follow the source
    function by function; file and function names below are relative to the
    repository's include/execell and src directories.

    ** The program and the files that model it

    The tracer (src/trace):
    - Stop: [classify_stop] and [resume_signal] of stop.cpp, against the
      documented encoding of wait statuses.
    - FdTable: the descriptor table of one traced process (fd_table.cpp).
    - Syscall: the name table of syscall.cpp, the register frame of
      architecture.cpp.
    - Memory: [read_process_memory_string] (memory.cpp).
    - SyscallDecoder, DecoderSpec: [on_entry] and [on_exit] with every branch
      (syscall_decoder.cpp), and an abstract specification of what a completed
      call does to the known descriptors, which they refine.
    - Tracer: the registry of tasks (task_registry.hpp), the wrappers of
      linux/ptrace.hpp and linux/wait.hpp, [~TraceSession], and [trace::run]
      as a step function on the variables that live across iterations.
    - TracerScript: a scripted operating system on which the loop can be run.
    - TracerReports: the tracer is parametric in its reporter, so that a run
      leaves any reporter as the events of one trace leave it.
    - TracerSpec, TracerTasks: the trace of a run, termination, requests to
      stop; independence of the tasks, the refinement of the decoder's
      specification under any interleaving, and what an exec does to it.
    - TracerSignals: the calls of the tracer in order; every stop is answered
      by one restart.
    - TracerSession: the child of [trace::run], and the two ends of a session:
      a program that could not be started, a process id that is in use again.
    - Program, Monitor: programs as the system calls they make and the signals
      that reach them, alone and as a traced process with all its stops; the
      class [TracedProcess] states of a kernel what ptrace(2) and waitpid(2)
      promise the tracer of one process.  On every such kernel, and for a
      program that is one process, the tracer's loop over the stops is a monitor
      that runs the program itself.

    Events flow from the tracer to reporters (include/execell/event,
    src/report, src/policy):
    - Event: the variant of event.hpp.
    - Report: the class [Reporter] is the interface of reporter.hpp; the
      tracer is proved against it.  [StickyReporter] is the promise that a
      request to stop is not withdrawn.  Summary, JsonReporter and
      TerminalReporter are its instances; a stream is the text written so far.
    - Policy: the rule engine, and the reporter that puts it in front of any
      other reporter and discharges [StickyReporter].

    The sandbox (src/sandbox, src/process, include/execell/core):
    - Seccomp: [default_package_syscalls] and [install_seccomp].
    - Sandbox: [validate], [validate_cgroup], backend.cpp and [attestation].
    - SandboxSetup: [write_file], [configure_cgroup], [set_limits] and the
      steps of the child of [sandbox::run].
    - SandboxRun: the parent's side of [run], [setup_user_namespace], their
      composition with the child of SandboxSetup and [configure_cgroup], and
      process.cpp.
    - Capture, CaptureSpec: [run_captured], which drains two pipes under a
      limit and a deadline; a scripted system on which it runs.
    - CapturedRun: the child of [run_captured] composed with [run]: its
      descriptors, its status, the signals the parent sends, and the processes
      these end.
    - Owner: the class [Owner] of movable objects that own resources, any
      number of them as a transition system, and [UniqueFd]; database handles
      and archive readers are owners too.

    Packages (src/risk, src/package):
    - Risk: factors, score, level and action (risk.cpp).
    - Archive, ArchiveSpec: the libarchive adapter (archive.cpp).
    - Network: the mirror check (network.cpp).
    - Rootfs: the sessions of rootfs.cpp over Btrfs snapshots, with their moves,
      on a file system that may refuse to remove a path.
    - Guardian: the guardian process beside the file system, and what it does
      when the program dies.
    - Sessions: any number of sessions of a program as a transition system over
      the functions of Rootfs; what an operation removes is no other's.
    - Observation: the trace lines of [StderrTraceReporter] in sandbox.cpp and
      their extraction, and [run_one] of observation.cpp.
    - ObservedTrace: the tracer, the reporter on standard error and the
      extraction composed.
    - Observe: [observe], its worker threads as a transition system over what
      [run_one] leaves in the slots.
    - Storage, StorageSpec: the database of observations (storage.cpp) on
      queries; what these do to the tables is an interface, of which a database
      in memory is an instance.
    - Statements, StatementsSpec, Connection: storage.cpp as calls of SQLite,
      with the class [Statement], its destructor and the exceptions; the laws of
      the calls, rules for sequences of them, and the refinement of Storage; a
      connection that obeys the laws, made from any queries.
    - Package, Fingerprint, Inspect, Diff, Artifacts: the parts of package.cpp
      that read .PKGINFO and write into a root, compute fingerprints, inspect
      an archive with its signature, compare two states of a root, and write,
      read back and remove reports.
    - Scan, ScanSpec: [scan] of package.cpp, which composes Inspect, Rootfs,
      Diff, Observation, Risk, Storage and Artifacts stage by stage.
    - Returns: the scan, and the parent of a sandbox, return.
    - Aur: the manifest of a PKGBUILD (aur.cpp).
    - Build, BuildSpec: [build::run], on Aur, Rootfs and captured runs.

    The program (src/analyze, src/main.cpp):
    - Analyze, AnalyzeSpec: [analyze::run] and its documents, on the tracer,
      the policy, the JSON reporter, the risk engine and captured runs.
    - Cli, CliSpec: the command line as a function from the words to a command
      with its options, and the package commands with their exit codes.
    - Main, MainSpec: [main], which runs each command with its component or
      prints the usage; from the words of a command to its document and exit
      code.

    Fixture: the program the manual traces (examples/manual_fixture.cpp), alone
    and under a policy.

    UnitTests: the assertions of the repository's tests, evaluated on the model.

    Shared: this file (results, machine integers, automation), Fuel (results
    that are the same for every large enough fuel), CxxString (the
    string operations of the standard library, and the index loop over
    components that several functions share), Lines (searching a text and
    searching its lines), StrOrder ([std::set] and [std::map] of strings),
    Charconv ([std::from_chars]), FsPath ([std::filesystem::path] with
    [lexically_normal]), Json (a reader for compact JSON, the judge of what the
    program prints).

    ** What the theorems show

    - Tracing: a stop is classified as what the kernel encoded; the tables of
      the tasks refine the specification of their calls, whatever the
      interleaving; each task is independent of the others and a child
      inherits its parent's table; events are numbered without gap; every
      stop is answered by one restart of its task with the signal due; a run
      ends with the root's exit code or fails; it terminates when the tracees
      stop finitely often.  A traced program that makes no process does what it
      does alone without the signals the tracer drops, up to the event at which
      the reporter asks to stop; only an execve is prevented, any other call has
      been made ([only_execve_prevented]).
    - Reports: what the JSON reporter prints parses back to the events; the
      terminal shows one line per event; the summary counts.
    - Policy and risk: an event is denied exactly when a rule forbids it, with
      one violation of the first rule; nothing is dropped on the way to the
      next reporter; scores are clamped sums, and evidence never lowers a
      verdict.
    - Sandbox: the seccomp program decides exactly the allowlist; validation
      accepts exactly the acceptable configurations; the program runs only
      after every setup step of the child, its cgroup and its user mapping; a
      captured run returns, since it kills its child at the deadline, and returns
      the output up to the limit and the program's status; the one signal it
      sends ends exactly the processes that their group, death signal and tracer
      expose to it.
    - Archives and roots: accepted names and links are confined; accepted
      archives respect the limits; an entry reads back; a session is isolated
      only when it was made of fresh snapshots; released, or after a crash once
      its guardian is armed, it leaves only what the file system refuses to
      remove (its read-only source snapshot); no session removes what another
      holds; descriptors, database handles and archive readers give each resource
      back once.
    - Scans and builds: what holds of a package that is accepted, from the
      words of the command line to an exit status of zero; the two scores are
      percentages; the lists of changes are exact; the documents, .PKGINFO and
      the command line read back; what is stored is what is compared, and an
      observation is stored whole or not at all; the calls of SQLite do what
      the queries do and leave no statement open.
    - Analysis: the verdict in terms of the trace; the document reads back as
      the trace with its violations.
    - The program: what the commands trace and inspect print reads back as the
      complete trace of the program, and they exit as it did.
    - Observations: from the stops of a traced run to the events recorded of
      it, whatever the program prints in between; an observation is always
      isolated; under any interleaving the merged result is that of running a
      first part of the tasks in their order.
    - Where the code departs from what it means to do, a theorem says how
      (exec and the phases, renameat, control characters in JSON, the host of
      a URL with a password, sizes counted twice, spellings of denied paths,
      forged trace lines, tasks an observation silently drops, the user map of
      an unprivileged sandbox, a pipe used after it was closed, directories
      removed on a collision of names or left by a guardian that was not armed,
      read-only snapshots that are never removed, processes that survive a
      timeout, verdicts that are not those of the plan, a policy that acts on a call that has
      been made and not on one that failed, installations and builds that read a
      file too early or ask a stream too much, a sandboxed analysis without
      its policy).

    ** Conventions and bounds

    Integers are [Z] kept at their width by [u16], [u32], [u64], [s32], [s64];
    a signed overflow (the risk score) is an undefined outcome, [None].
    [std::expected] is [expected].  What is not in the repository (the kernel,
    libarchive, SQLite, the tools a sandbox runs, the file system, the BPF
    interpreter, [inet_ntop] on IPv6) is a parameter with the documented
    behaviour it needs as named hypotheses (often a class of laws: [Bpf],
    [ReleaseLaws], [RootfsLaws], [SealLaws], [ObservedFs], [KillLaws],
    [CaptureProgress], [StagingLaws]), and each theorem
    with such hypotheses is applied to a concrete instance.  Loops that are
    not structural take fuel: the component loop, the string read, the
    escape loop and the extraction of trace lines are proved never to exhaust the fuel they are given; the
    tracer's loop, [waitpid] under interruption, and the archive loops
    return whenever the fuel exceeds a measure of what the parameter has
    left ([run_terminates], [list_terminates]); a captured run returns when
    the clock reaches the deadline and SIGKILL ends its child, whose wait may be
    interrupted for ever until then ([captured_returns]).  A scan and the parent
    of a sandbox return when the archive is finite and signals interrupt writes
    and waits finitely often ([scan_returns], [sandbox_run_returns]); that an
    observation records boundedly many factors follows from its worker pool
    ([bounded_observation]).  The guardian takes three steps before it is armed
    ([ran] counts them).

    ** Not modelled

    Diagnostics on standard error; the tests that start processes and their
    fixtures.  The machine of Program is one process, which stops at the event
    of a call that makes another, but does not run that one (tasks and their
    interleaving are in TracerTasks); its theorems are about programs whose calls
    have no event ([plain]).  Of the writes to its standard output only the text
    is kept.  Paths are compared as texts: a session whose directories lie inside
    another's workspace, or under another spelling of it, is not told apart.  The strong typedefs of
    core/types.hpp stand for their values.  What the tools do that ExeCell
    starts (rm, makepkg, pacman, gpgv) is left to parameters. *)

From stdpp Require Export base tactics decidable option list gmap strings pretty.
From Stdlib Require Export ZArith Lia Ascii.

(** ** Scopes and notations *)

Declare Scope execell_scope.
Delimit Scope execell_scope with execell.
#[global] Open Scope Z_scope.

(** The value of a fallible call: [std::expected<T, E>]. *)
Inductive expected (T E : Type) : Type :=
| Ok (value : T)
| Err (error : E).
Arguments Ok {T E} value.
Arguments Err {T E} error.

Definition expected_bind {T U E : Type} (m : expected T E) (k : T → expected U E)
    : expected U E :=
  match m with
  | Ok v => k v
  | Err e => Err e
  end.

Notation "'try!' x ':=' m 'in' k" := (expected_bind m (λ x, k))
  (at level 10, x pattern, m at level 100, k at level 200)
  : execell_scope.
#[global] Open Scope execell_scope.

Definition is_ok {T E : Type} (m : expected T E) : bool :=
  match m with Ok _ => true | Err _ => false end.

(** ** Automation databases

    [execell_str] normalises concatenations; [execell] holds the facts that
    close the common side conditions. *)
Create Rewrite HintDb execell_str.
Create HintDb execell.

(** Splits every [if] and [match] of the goal, closing the contradictory cases. *)
Ltac crush_match :=
  repeat (case_match; simplify_eq/=; try done).

(** Splits the integer comparisons of the goal and evaluates the tests on them. *)
Ltac split_cmp :=
  repeat (match goal with
          | |- context [Z.leb ?a ?b] => destruct (Z.leb_spec a b)
          | |- context [Z.ltb ?a ?b] => destruct (Z.ltb_spec a b)
          | |- context [Z.eqb ?a ?b] => destruct (Z.eqb_spec a b)
          end; cbn [andb orb negb]; try lia; try done).

#[export] Instance expected_eq_dec {T E} `{EqDecision T, EqDecision E} :
  EqDecision (expected T E).
Proof. solve_decision. Defined.

(** ** Machine integers

    The integers of the program are kept at their width: an unsigned value is
    reduced modulo [2^w], a signed one to the two's complement representative
    (the conversions of C++20 and later). *)

Definition u16 (z : Z) : Z := z mod 2 ^ 16.
Definition u32 (z : Z) : Z := z mod 2 ^ 32.
Definition u64 (z : Z) : Z := z mod 2 ^ 64.

Definition s32 (z : Z) : Z :=
  let m := u32 z in if m <? 2 ^ 31 then m else m - 2 ^ 32.

Definition s64 (z : Z) : Z :=
  let m := u64 z in if m <? 2 ^ 63 then m else m - 2 ^ 64.

Lemma u64_small z : 0 ≤ z < 2 ^ 64 → u64 z = z.
Proof. apply Z.mod_small. Qed.

Lemma u32_small z : 0 ≤ z < 2 ^ 32 → u32 z = z.
Proof. apply Z.mod_small. Qed.

Lemma u64_range z : 0 ≤ u64 z < 2 ^ 64.
Proof. apply Z.mod_pos_bound. lia. Qed.

Lemma u32_range z : 0 ≤ u32 z < 2 ^ 32.
Proof. apply Z.mod_pos_bound. lia. Qed.

Lemma s32_range z : - 2 ^ 31 ≤ s32 z < 2 ^ 31.
Proof. unfold s32. pose proof (u32_range z). case_match; lia. Qed.

Lemma s32_small z : 0 ≤ z < 2 ^ 31 → s32 z = z.
Proof. intros ?. unfold s32. rewrite u32_small by lia. case_match; lia. Qed.

Lemma s64_small z : 0 ≤ z < 2 ^ 63 → s64 z = z.
Proof. intros ?. unfold s64. rewrite u64_small by lia. case_match; lia. Qed.

Lemma u64_add_l x y : u64 (u64 x + y) = u64 (x + y).
Proof. unfold u64. by rewrite Zplus_mod_idemp_l. Qed.

Lemma s64_neg_small z : - 2 ^ 63 ≤ z < 0 → s64 (u64 z) = z.
Proof.
  intros ?. unfold s64, u64. rewrite Z.mod_mod by lia.
  replace (z mod 2 ^ 64) with (z + 2 ^ 64)
    by (symmetry; rewrite <- (Z.mod_add z 1) by lia; apply Z.mod_small; lia).
  case_match; lia.
Qed.
