(* ===== verification/Fuel.v ===== *)
(** * Computations with fuel

    Loops of the program that are not structural take fuel and give [None] when
    it runs out.  [eventually P f]: every large enough fuel gives the same
    result, and it satisfies [P].  The rules below follow the monad of [option]
    and the unfolding of a loop, so that a termination proof is an induction on
    a measure of what the loop uses up. *)

From S2P Require Import Prelude.

Definition eventually {A} (P : A → Prop) (f : nat → option A) : Prop :=
  ∃ n r, P r ∧ ∀ fuel, (n ≤ fuel)%nat → f fuel = Some r.

(** A result, whatever it is. *)
Notation returns := (eventually (λ _, True)).

Section Rules.
Context {A B : Type}.
Implicit Types (P : A → Prop) (Q : B → Prop).

Lemma eventually_ret P r : P r → eventually P (λ _, Some r).
Proof. intros H. by exists 0%nat, r. Qed.

Lemma eventually_weaken P P' (f : nat → option A) :
  (∀ r, P r → P' r) → eventually P f → eventually P' f.
Proof. intros H (n & r & HP & Hf). exists n, r. auto. Qed.

Lemma eventually_bind P Q (f : nat → option A) (g : nat → A → option B) :
  eventually P f → (∀ r, P r → eventually Q (λ n, g n r)) →
  eventually Q (λ n, f n ≫= g n).
Proof.
  intros (n & r & HP & Hf) Hg. destruct (Hg r HP) as (m & s & HQ & Hs).
  exists (n + m)%nat, s. split; [done|]. intros fuel Hle.
  rewrite (Hf fuel) by lia. cbn. apply Hs. lia.
Qed.

(** One turn of a loop: the fuel of the body is one less. *)
Lemma eventually_step P (f g : nat → option A) :
  (∀ n, f (S n) = g n) → eventually P g → eventually P f.
Proof.
  intros Hfg (n & r & HP & Hg). exists (S n), r. split; [done|].
  intros [|fuel] Hle; [lia|]. rewrite Hfg. apply Hg. lia.
Qed.

(** One more than enough is enough. *)
Lemma eventually_succ P (f : nat → option A) : eventually P f → eventually P (λ n, f (S n)).
Proof. intros (n & r & HP & Hf). exists n, r. split; [done|]. intros fuel Hle. apply Hf. lia. Qed.

End Rules.

Lemma returns_ret {A} (r : A) : returns (λ _, Some r).
Proof. by apply eventually_ret. Qed.
#[export] Hint Resolve returns_ret : core.

(** Unfolding one turn of the loop at the head of the goal. *)
Tactic Notation "turn" reference(f) :=
  eapply eventually_step; [intros ?; cbn [f]; reflexivity|]; cbv beta.
