(* ===== verification/Owner.v ===== *)
(** * Owners of resources (include/execell/core/unique_fd.hpp)

    Classes of the program that own what the operating system or a library hands
    out ([UniqueFd] a descriptor, a [Database] and a [Reader] their handle) are
    movable and not copyable.  The class [Owner] is what they share: what an
    object holds, and its destructor and moves.  Any number of such objects
    under any sequence of operations is a transition system in which a
    resource is given back at most once, and not lost; an object acquires only
    what nobody holds, as open(2) and malloc(3) give it.  [UniqueFd] is modelled
    here, the others with their components; the sessions, whose names the
    program makes up itself, are in Sessions.v. *)

From S2P Require Import Prelude.

(** ** Objects that own *)

(** The resources that some object must still give back, and whether one has
    been given back that was not to be. *)
Definition Resources (R : Type) `{Countable R} : Type := gset R * bool.

Definition give_back `{Countable R} (w : Resources R) (r : R) : Resources R :=
  if bool_decide (r ∈ w.1) then (w.1 ∖ {[r]}, w.2) else (w.1, true).

(** What a class of owners promises: its destructor gives back what the object
    holds, in order; a move hands it over and leaves an object that holds
    nothing. *)
Class Owner (T R : Type) `{Countable R} := {
  holds : T → list R;
  destroy : Resources R → T → Resources R;
  (** the new object and what is left of the other *)
  move_construct : T → T * T;
  move_assign : Resources R → T → T → Resources R * T * T;

  destroy_gives_back w t : destroy w t = foldl give_back w (holds t);
  construct_takes t : holds (move_construct t).1 = holds t;
  construct_leaves t : holds (move_construct t).2 = [];
  assign_gives_back w t u : (move_assign w t u).1.1 = foldl give_back w (holds t);
  assign_takes w t u : holds (move_assign w t u).1.2 = holds u;
  assign_leaves w t u : holds (move_assign w t u).2 = [];
}.
#[global] Hint Mode Owner ! - - - : typeclass_instances.

Section Owners.
Context {T R : Type} `{Owner T R}.

(** Objects by name, and the resources.  [own_give] is a [release()] that
    leaves the resource to the caller, [own_reset] one that gives it back. *)
Inductive owner_step : gmap nat T * Resources R → gmap nat T * Resources R → Prop :=
| own_acquire owners w i t :
    owners !! i = None → NoDup (holds t) → (∀ r, r ∈ holds t → r ∉ w.1) →
    owner_step (owners, w) (<[i := t]> owners, (list_to_set (holds t) ∪ w.1, w.2))
| own_give owners w i t t' :
    owners !! i = Some t → holds t' = [] →
    owner_step (owners, w) (<[i := t']> owners, (w.1 ∖ list_to_set (holds t), w.2))
| own_reset owners w i t t' :
    owners !! i = Some t → holds t' = [] →
    owner_step (owners, w) (<[i := t']> owners, destroy w t)
| own_construct owners w i j u :
    owners !! i = None → owners !! j = Some u →
    owner_step (owners, w)
      (let '(t', u') := move_construct u in (<[i := t']> (<[j := u']> owners), w))
| own_assign owners w i j t u :
    i ≠ j → owners !! i = Some t → owners !! j = Some u →
    owner_step (owners, w)
      (let '(w', t', u') := move_assign w t u in (<[i := t']> (<[j := u']> owners), w'))
| own_destroy owners w i t :
    owners !! i = Some t →
    owner_step (owners, w) (delete i owners, destroy w t).

(** ** What all of them hold *)

Definition all_held (owners : gmap nat T) : list R := map_to_list owners ≫= λ p, holds p.2.

(** Every resource is held by one object, and the held ones are those that are
    to be given back. *)
Definition owners_wf (s : gmap nat T * Resources R) : Prop :=
  NoDup (all_held s.1) ∧ s.2 = (list_to_set (all_held s.1), false).

Lemma all_held_insert owners i t :
  owners !! i = None → all_held (<[i := t]> owners) ≡ₚ holds t ++ all_held owners.
Proof. intros Hi. unfold all_held. by rewrite map_to_list_insert. Qed.

Lemma all_held_delete owners i t :
  owners !! i = Some t → all_held owners ≡ₚ holds t ++ all_held (delete i owners).
Proof.
  intros Hi. rewrite <- all_held_insert by apply lookup_delete_eq. by rewrite insert_delete_id.
Qed.

Lemma all_held_update owners i t :
  all_held (<[i := t]> owners) ≡ₚ holds t ++ all_held (delete i owners).
Proof. rewrite <- insert_delete_eq. apply all_held_insert, lookup_delete_eq. Qed.

(** An object that holds nothing may take the place of one that is gone. *)
Lemma all_held_empty owners i t :
  holds t = [] → all_held (<[i := t]> owners) ≡ₚ all_held (delete i owners).
Proof. intros Ht. by rewrite all_held_update, Ht. Qed.

(** The resources of one object pass to another name. *)
Lemma all_held_pass owners i j t u v :
  i ≠ j → owners !! j = Some u → holds t = holds u → holds v = [] →
  all_held (<[i := t]> (<[j := v]> owners)) ≡ₚ all_held (delete i owners).
Proof.
  intros Hij Hj Ht Hv. rewrite all_held_update, (delete_insert_ne _ i j), all_held_empty, Ht by done.
  symmetry. apply all_held_delete. by rewrite lookup_delete_ne.
Qed.

Lemma give_back_all l k :
  NoDup (l ++ k) →
  foldl give_back (list_to_set (l ++ k) : gset R, false) l = (list_to_set k, false).
Proof.
  induction l as [|r l IH]; [done|]. cbn. intros [Hr Hl]%NoDup_cons. unfold give_back at 2.
  rewrite bool_decide_eq_true_2 by set_solver. cbn.
  replace (_ ∖ _) with (list_to_set (l ++ k) : gset R) by set_solver. by apply IH.
Qed.

Lemma owners_wf_perm owners w l k :
  owners_wf (owners, w) → all_held owners ≡ₚ l ++ k →
  NoDup k ∧ w = (list_to_set (l ++ k), false) ∧ foldl give_back w l = (list_to_set k, false).
Proof.
  intros [Hn Hw] Hp. cbn in Hn, Hw. rewrite Hp in Hn.
  assert (w = (list_to_set (l ++ k), false)) as ->.
  { rewrite Hw. f_equal. by apply list_to_set_perm_L. }
  split_and!; [by apply NoDup_app in Hn as (? & ? & ?)|done|by apply give_back_all].
Qed.

(** States that hold the same are equally good. *)
Lemma owners_wf_intro owners w k :
  all_held owners ≡ₚ k → NoDup k → w = (list_to_set k, false) → owners_wf (owners, w).
Proof.
  intros Hp Hn ->. split; cbn; [by rewrite Hp|]. f_equal. symmetry. by apply list_to_set_perm_L.
Qed.

Lemma owner_step_wf s s' : owners_wf s → owner_step s s' → owners_wf s'.
Proof.
  intros Hwf Hs. destruct Hs as [owners w i t Hi Hn Hf|owners w i t t' Hi Ht|owners w i t t' Hi Ht
    |owners w i j u Hi Hj|owners w i j t u Hij Hi Hj|owners w i t Hi].
  - destruct Hwf as [Hd Hw]. cbn in Hd, Hw. subst w.
    eapply owners_wf_intro; [by apply all_held_insert| |by rewrite list_to_set_app_L].
    apply NoDup_app. split_and!; [done| |done]. intros r Hr Hr'. by eapply Hf; [|apply elem_of_list_to_set].
  - edestruct (owners_wf_perm _ _ _ _ Hwf (all_held_delete _ _ _ Hi)) as (Hn & -> & _).
    destruct Hwf as [Hd _]. cbn in Hd. rewrite (all_held_delete _ _ _ Hi) in Hd.
    eapply owners_wf_intro; [by apply all_held_empty|done|]. cbn. f_equal.
    apply NoDup_app in Hd as (_ & Hd & _). set_solver.
  - edestruct (owners_wf_perm _ _ _ _ Hwf (all_held_delete _ _ _ Hi)) as (Hn & _ & Hw).
    eapply owners_wf_intro; [by apply all_held_empty|done|]. by rewrite destroy_gives_back.
  - assert (i ≠ j) as Hij by congruence.
    pose proof (construct_takes u). pose proof (construct_leaves u).
    destruct (move_construct u) as [t' u']. destruct Hwf as [Hn Hw].
    eapply owners_wf_intro; [|exact Hn|exact Hw]. cbn.
    by rewrite (all_held_pass owners i j t' u u'), delete_id.
  - pose proof (assign_takes w t u). pose proof (assign_leaves w t u).
    pose proof (assign_gives_back w t u) as Hg. destruct (move_assign w t u) as [[w' t'] u'].
    edestruct (owners_wf_perm _ _ _ _ Hwf (all_held_delete _ _ _ Hi)) as (Hn & _ & Hw).
    eapply owners_wf_intro; [by apply (all_held_pass owners i j t' u u')|done|]. cbn in Hg. by rewrite Hg.
  - edestruct (owners_wf_perm _ _ _ _ Hwf (all_held_delete _ _ _ Hi)) as (Hn & _ & Hw).
    eapply owners_wf_intro; [done|done|]. by rewrite destroy_gives_back.
Qed.

Lemma reachable_owners_wf s : rtc owner_step (∅, (∅, false)) s → owners_wf s.
Proof.
  intros Hr. remember (∅, (∅, false)) as s0.
  assert (owners_wf s0) as Hs0.
  { subst. by eapply (owners_wf_intro _ _ []); [|apply NoDup_nil_2|]. }
  clear Heqs0. induction Hr; eauto using owner_step_wf.
Qed.

Lemma held_by_one s i j t u r :
  owners_wf s → s.1 !! i = Some t → s.1 !! j = Some u → r ∈ holds t → r ∈ holds u → i = j.
Proof.
  intros [Hn _] Hi Hj Ht Hu. destruct (decide (i = j)) as [|Hij]; [done|]. exfalso.
  rewrite (all_held_delete _ _ _ Hi) in Hn. apply NoDup_app in Hn as (_ & Hd & _).
  apply (Hd r Ht). rewrite (all_held_delete (delete i s.1) j u) by by rewrite lookup_delete_ne.
  set_solver.
Qed.

(** What the objects of a reachable state hold is to be given back, by one
    object; no object has given back what it did not hold, and when all are
    gone everything has been given back. *)
Lemma owners_give_back_once s :
  rtc owner_step (∅, (∅, false)) s →
  s.2.2 = false ∧
  (∀ i t r, s.1 !! i = Some t → r ∈ holds t →
     r ∈ s.2.1 ∧ ∀ j u, s.1 !! j = Some u → r ∈ holds u → j = i) ∧
  (s.1 = ∅ → s.2.1 = ∅).
Proof.
  intros Hwf%reachable_owners_wf. pose proof Hwf as [Hn Hw]. rewrite Hw. cbn. split_and!; [done| |].
  - intros i t r Hi Hr. split; [|intros j u Hj Hu; by eapply held_by_one].
    rewrite (list_to_set_perm_L _ _ (all_held_delete _ _ _ Hi)). set_solver.
  - intros ->. done.
Qed.

End Owners.

(** ** The owner of a descriptor *)

Module UniqueFd.

Definition t : Type := Z.

(** The descriptor the owner holds is given away, and the owner left empty. *)
Definition release (owner : t) : Z * t := (owner, -1).

Section Close.
Context {W : Type} (close : W → Z → W).

Definition reset (w : W) (owner : t) (fd : Z) : W * t :=
  (if 0 <=? owner then close w owner else w, fd).

(** [UniqueFd(UniqueFd&&)] *)
Definition move_construct (other : t) : t * t := release other.

(** [operator=(UniqueFd&&)] of two different owners: the world, the target and
    the source. *)
Definition move_assign (w : W) (owner other : t) : W * t * t :=
  let '(fd, other) := release other in
  let '(w, owner) := reset w owner fd in
  (w, owner, other).

(** [~UniqueFd] *)
Definition destroy (w : W) (owner : t) : W := (reset w owner (-1)).1.

End Close.

(** The descriptor an owner holds; a negative one is none. *)
Definition held (owner : t) : list Z := if 0 <=? owner then [owner] else [].

#[global] Instance owner : Owner t Z.
Proof.
  refine {|
    holds := held; Owner.destroy := destroy give_back;
    Owner.move_construct := move_construct; Owner.move_assign := move_assign give_back |}.
  all: unfold destroy, move_assign, reset, held; try done.
  all: intros w fd; intros; by destruct (0 <=? fd).
Defined.

End UniqueFd.

(** Whatever is done with owners of descriptors (acquisition, release,
    reset, move, destruction, in any order and number), no descriptor is closed
    that is not held, no two owners hold the same one, and none is lost. *)
Theorem owners_close_once (s : gmap nat UniqueFd.t * Resources Z) :
  rtc owner_step (∅, (∅, false)) s →
  s.2.2 = false ∧
  (∀ i j fd, s.1 !! i = Some fd → s.1 !! j = Some fd → 0 ≤ fd → i = j ∧ fd ∈ s.2.1) ∧
  (s.1 = ∅ → s.2.1 = ∅).
Proof.
  intros (Hc & Ho & He)%owners_give_back_once. split_and!; [done| |done].
  intros i j fd Hi Hj H0.
  assert (fd ∈ UniqueFd.held fd) as Hfd.
  { unfold UniqueFd.held. destruct (Z.leb_spec 0 fd); [set_solver|lia]. }
  destruct (Ho i fd fd Hi Hfd) as [? Hu]. split; [symmetry; by eapply Hu|done].
Qed.

Lemma owners_close_once_witness :
  ∃ s : gmap nat UniqueFd.t * Resources Z,
    rtc owner_step (∅, (∅, false)) s ∧ s.1 !! 0%nat = Some (-1) ∧ s.2.2 = false.
Proof.
  assert (∃ s : gmap nat UniqueFd.t * Resources Z,
    rtc owner_step (∅, (∅, false)) s ∧ s.1 !! 0%nat = Some (-1)) as (s & Hs & Hi).
  { eexists. split; [eapply rtc_l; [|apply rtc_once]|].
    - apply (own_acquire (T := UniqueFd.t) ∅ (∅, false) 0 3);
        [reflexivity|apply NoDup_singleton|set_solver].
    - apply (own_reset (T := UniqueFd.t) _ _ 0 3 (-1)); reflexivity.
    - reflexivity. }
  exists s. split_and!; [exact Hs|exact Hi|]. apply (owners_close_once _ Hs).
Defined.

(** ** Owners of a pointer

    A class whose only member is a pointer to something of a C library, null
    after a move: [Database] and the [Reader] of an archive. *)

Module Pointer.

Definition t : Type := option Z.

(** The move constructor: [std::exchange(other.pointer, nullptr)]. *)
Definition move_construct (other : t) : t * t := (other, None).

Section Free.
Context {W : Type} (free : W → Z → W).

(** The destructor. *)
Definition destroy (w : W) (pointer : t) : W :=
  match pointer with None => w | Some p => free w p end.

(** The move assignment of two different objects. *)
Definition move_assign (w : W) (pointer other : t) : W * t * t :=
  let w := match pointer with None => w | Some p => free w p end in
  (w, other, None).

End Free.

#[global] Instance owner : Owner t Z.
Proof.
  refine {|
    holds := option_list; Owner.destroy := destroy give_back;
    Owner.move_construct := move_construct; Owner.move_assign := move_assign give_back |}.
  all: intros; try done; by destruct t0.
Defined.

End Pointer.

(** What a pointer designates is freed once, by the last object it was moved to. *)
Theorem pointers_free_once (s : gmap nat Pointer.t * Resources Z) :
  rtc owner_step (∅, (∅, false)) s →
  s.2.2 = false ∧
  (∀ i j p, s.1 !! i = Some (Some p) → s.1 !! j = Some (Some p) → i = j) ∧
  (s.1 = ∅ → s.2.1 = ∅).
Proof.
  intros (Hc & Ho & He)%owners_give_back_once. split_and!; [done| |done].
  intros i j p Hi Hj. destruct (Ho i _ p Hi) as [_ Hu]; [set_solver|].
  symmetry. eapply Hu; [exact Hj|set_solver].
Qed.
