(* ===== verification/CxxString.v ===== *)
(** * The operations of [std::string] and [std::string_view] the program uses

    A [std::string] is a Rocq [string] (a sequence of bytes, NUL included);
    [npos] is [None].  [find] and [substr] are given by [str_drop]/[str_take],
    so that an index loop over a string can be related to a structural
    recursion over its suffixes. *)

From S2P Require Import Prelude.

(** ** Characters *)

(** The double quote, written by its code so that no literal needs a doubled one. *)
Definition dquote : ascii := "034"%char.
Definition backslash : ascii := "\"%char.
Definition newline : ascii := "010"%char.
Definition carriage_return : ascii := "013"%char.
Definition tab : ascii := "009"%char.
Definition nul : ascii := "000"%char.

(** [static_cast<unsigned char>(c)] as an integer. *)
Definition code (c : ascii) : Z := Z.of_N (N_of_ascii c).

Definition str (c : ascii) : string := String c "".

(** A literal with every single quote standing for a double quote. *)
Fixpoint quoted (s : string) : string :=
  match s with
  | "" => ""
  | String c s => String (if bool_decide (c = "'"%char) then dquote else c) (quoted s)
  end.

Definition str_length (s : string) : nat := String.length s.

(** [s.size()] as an integer. *)
Definition size (s : string) : Z := Z.of_nat (str_length s).

(** ** Prefixes, suffixes and substrings *)

Fixpoint str_drop (n : nat) (s : string) : string :=
  match n, s with
  | O, _ => s
  | S n, "" => ""
  | S n, String _ s => str_drop n s
  end.

Fixpoint str_take (n : nat) (s : string) : string :=
  match n, s with
  | O, _ => ""
  | S n, "" => ""
  | S n, String c s => String c (str_take n s)
  end.

(** [s.substr(pos, count)] for [pos <= s.size()]. *)
Definition substr (s : string) (pos count : nat) : string :=
  str_take count (str_drop pos s).

(** [s.starts_with(p)] *)
Fixpoint starts_with (s p : string) {struct p} : bool :=
  match p, s with
  | "", _ => true
  | String a p, String b s => bool_decide (a = b) && starts_with s p
  | String _ _, "" => false
  end.

(** [s.ends_with(p)] *)
Definition ends_with (s p : string) : bool :=
  (str_length p <=? str_length s)%nat
  && bool_decide (str_drop (str_length s - str_length p) s = p).

(** Position of the first suffix of [s] that satisfies [f]. *)
Fixpoint find_suffix (f : string → bool) (s : string) : option nat :=
  if f s then Some O
  else match s with
       | "" => None
       | String _ s => S <$> find_suffix f s
       end.

(** [s.find(p, pos)] *)
Definition find_str (s p : string) (pos : nat) : option nat :=
  if (pos <=? str_length s)%nat
  then Nat.add pos <$> find_suffix (λ t, starts_with t p) (str_drop pos s)
  else None.

(** [s.find(c, pos)] *)
Definition find_char (s : string) (c : ascii) (pos : nat) : option nat :=
  find_str s (str c) pos.

Fixpoint str_elem (c : ascii) (s : string) : bool :=
  match s with
  | "" => false
  | String d s => bool_decide (c = d) || str_elem c s
  end.

(** [s.find_first_of(set, pos)] *)
Definition find_first_of (s set : string) (pos : nat) : option nat :=
  if (pos <=? str_length s)%nat
  then Nat.add pos <$> find_suffix
         (λ t, match t with "" => false | String c _ => str_elem c set end) (str_drop pos s)
  else None.

(** [s.find(p) != npos] *)
Definition contains_str (s p : string) : bool := bool_decide (is_Some (find_str s p 0)).
Definition contains_char (s : string) (c : ascii) : bool := str_elem c s.

(** [std::to_string] and [operator<<] on an integer. *)
Definition to_string (z : Z) : string := pretty z.

Definition bool_text (b : bool) : string := if b then "true" else "false".

Fixpoint concat_str (l : list string) : string :=
  match l with
  | [] => ""
  | s :: l => s +:+ concat_str l
  end.

(** [values[0] + sep + values[1] + ...] *)
Fixpoint join (sep : string) (l : list string) : string :=
  match l with
  | [] => ""
  | [s] => s
  | s :: l => s +:+ sep +:+ join sep l
  end.

(** ** Lemmas *)

Lemma app_String c s t : String c s +:+ t = String c (s +:+ t).
Proof. done. Qed.

Lemma app_empty_l t : "" +:+ t = t.
Proof. done. Qed.

Lemma app_empty_r s : s +:+ "" = s.
Proof. induction s as [|c s IH]; [done|]. by rewrite app_String, IH. Qed.

Lemma app_assoc_str s t u : (s +:+ t) +:+ u = s +:+ t +:+ u.
Proof. induction s as [|c s IH]; [done|]. by rewrite !app_String, IH. Qed.

Lemma str_length_app s t : str_length (s +:+ t) = (str_length s + str_length t)%nat.
Proof. induction s as [|c s IH]; [done|]. rewrite app_String. simpl. by rewrite IH. Qed.

Lemma size_app s t : size (s +:+ t) = size s + size t.
Proof. unfold size. rewrite str_length_app. lia. Qed.

Lemma size_nonneg s : 0 ≤ size s.
Proof. unfold size. lia. Qed.

Lemma size_empty : size "" = 0.
Proof. done. Qed.

Lemma size_String c s : size (String c s) = 1 + size s.
Proof. unfold size. simpl. lia. Qed.

Lemma str_drop_0 s : str_drop 0 s = s.
Proof. done. Qed.

Lemma str_drop_drop n m s : str_drop n (str_drop m s) = str_drop (m + n) s.
Proof. revert s; induction m as [|m IH]; intros [|c s]; simpl; [done..| |]; [by destruct n|apply IH]. Qed.

Lemma str_drop_length s : str_drop (str_length s) s = "".
Proof. induction s; [done|]. done. Qed.

Lemma str_length_drop n s : str_length (str_drop n s) = (str_length s - n)%nat.
Proof. revert s; induction n as [|n IH]; intros [|c s]; simpl; [done..|]. apply IH. Qed.

Lemma str_take_length s n : (str_length s ≤ n)%nat → str_take n s = s.
Proof.
  revert n; induction s as [|c s IH]; intros [|n] Hn; simpl in *; [done|done|lia|].
  rewrite IH; [done|]. unfold str_length in *. lia.
Qed.

Lemma str_length_take n s : str_length (str_take n s) = Nat.min n (str_length s).
Proof.
  revert s; induction n as [|n IH]; intros [|c s]; simpl; [done..|].
  unfold str_length in *. simpl. by rewrite IH.
Qed.

Lemma str_take_drop n s : str_take n s +:+ str_drop n s = s.
Proof.
  revert s; induction n as [|n IH]; intros [|c s]; simpl; [done..|].
  by rewrite app_String, IH.
Qed.

Lemma str_drop_app s t : str_drop (str_length s) (s +:+ t) = t.
Proof. induction s as [|c s IH]; [done|]. rewrite app_String. apply IH. Qed.

Lemma str_take_app s t : str_take (str_length s) (s +:+ t) = s.
Proof. induction s as [|c s IH]; [done|]. rewrite app_String. simpl. by rewrite IH. Qed.

Lemma starts_with_spec s p : starts_with s p = true ↔ ∃ t, s = p +:+ t.
Proof.
  revert s; induction p as [|a p IH]; intros s; simpl.
  - split; [by exists s|by destruct s].
  - destruct s as [|b s]; [split; [done|by intros [t ?]]|].
    simpl. rewrite andb_true_iff, bool_decide_eq_true, IH. split.
    + intros [-> [t ->]]. by exists t.
    + intros [t Ht]. rewrite app_String in Ht. simplify_eq. split; [done|by exists t].
Qed.

Lemma starts_with_app p t : starts_with (p +:+ t) p = true.
Proof. apply starts_with_spec. by exists t. Qed.

Lemma starts_with_refl p : starts_with p p = true.
Proof. apply starts_with_spec. exists "". by rewrite app_empty_r. Qed.

Lemma ends_with_spec s p : ends_with s p = true ↔ ∃ t, s = t +:+ p.
Proof.
  unfold ends_with. rewrite andb_true_iff, Nat.leb_le, bool_decide_eq_true. split.
  - intros [Hl Hd]. exists (str_take (str_length s - str_length p) s).
    rewrite <- Hd at 2. by rewrite str_take_drop.
  - intros [t ->]. rewrite str_length_app. split; [lia|].
    by replace (str_length t + str_length p - str_length p)%nat with (str_length t)
      by lia; rewrite str_drop_app.
Qed.

Lemma str_elem_app c s t : str_elem c (s +:+ t) = str_elem c s || str_elem c t.
Proof. induction s as [|d s IH]; [done|]. rewrite app_String. simpl. by rewrite IH, orb_assoc. Qed.

Lemma find_suffix_Some f s n :
  find_suffix f s = Some n →
  (n ≤ str_length s)%nat ∧ f (str_drop n s) = true ∧
  ∀ m, (m < n)%nat → f (str_drop m s) = false.
Proof.
  revert n; induction s as [|c s IH]; intros n; simpl; case_match; intros Hf; simplify_eq.
  - repeat split; [simpl; lia|done|lia].
  - repeat split; [simpl; lia|done|lia].
  - destruct (find_suffix f s) as [k|] eqn:Hk; simplify_eq/=.
    destruct (IH k eq_refl) as (Hle & Ht & Hlt). repeat split; [lia|done|].
    intros [|m] Hm; [done|]. apply Hlt. lia.
Qed.

Lemma find_suffix_None f s m : find_suffix f s = None → f (str_drop m s) = false.
Proof.
  revert m; induction s as [|c s IH]; intros m; simpl; case_match; intros Hf; simplify_eq.
  - by destruct m.
  - destruct (find_suffix f s) eqn:Hk; simplify_eq/=. destruct m as [|m]; [done|]. by apply IH.
Qed.

#[export] Hint Rewrite app_String app_empty_l app_empty_r app_assoc_str
  str_length_app size_app size_empty size_String str_drop_app str_take_app : execell_str.

(** Joining two non-empty lists. *)
Lemma join_app sep ws vs :
  ws ≠ [] → vs ≠ [] → join sep (ws ++ vs) = join sep ws +:+ sep +:+ join sep vs.
Proof.
  intros Hw Hv. induction ws as [|w ws IH]; [done|].
  destruct ws as [|x ws]; [by destruct vs|].
  change (w +:+ sep +:+ join sep ((x :: ws) ++ vs)
          = (w +:+ sep +:+ join sep (x :: ws)) +:+ sep +:+ join sep vs).
  rewrite IH by done. by rewrite !app_assoc_str.
Qed.

(** ** Splitting at a separator *)

(** The components of [s] between occurrences of [c]; never empty. *)
Fixpoint split_on (c : ascii) (s : string) : list string :=
  match s with
  | "" => [""]
  | String d s =>
      if bool_decide (d = c) then "" :: split_on c s
      else match split_on c s with
           | w :: ws => String d w :: ws
           | [] => [str d]
           end
  end.

Lemma split_on_cons c s : ∃ w ws, split_on c s = w :: ws.
Proof.
  destruct s as [|d s]; simpl; [by eexists _, _|].
  case_match; [by eexists _, _|]. case_match; by eexists _, _.
Qed.

Lemma join_split_on c s : join (str c) (split_on c s) = s.
Proof.
  induction s as [|d s IH]; [done|]. simpl.
  destruct (split_on_cons c s) as (w & ws & E). rewrite E in IH |- *.
  case_bool_decide as Hd; [subst d|].
  - etrans; [|exact (f_equal (String c) IH)]. done.
  - destruct ws; simpl in *; [by rewrite IH|].
    by rewrite <- IH, app_String.
Qed.

Lemma split_on_no_sep c s w : w ∈ split_on c s → str_elem c w = false.
Proof.
  revert w; induction s as [|d s IH]; intros w; simpl.
  - rewrite list_elem_of_singleton. by intros ->.
  - destruct (split_on_cons c s) as (x & ws & E). rewrite E in IH |- *.
    case_bool_decide as Hd; subst; rewrite elem_of_cons.
    + intros [->|Hin]; [done|]. by apply IH.
    + intros [->|Hin]; simpl.
      * rewrite bool_decide_eq_false_2 by congruence. simpl. apply IH. left.
      * apply IH. by right.
Qed.

(** Text appended without a separator extends the last component. *)
Lemma split_on_app_last c s t l :
  split_on c s = l ++ [""] → str_elem c t = false → split_on c (s +:+ t) = l ++ [t].
Proof.
  intros Hs Ht. revert l Hs. induction s as [|d s IH]; intros l; simpl.
  - intros E. assert (l = []) as -> by (destruct l as [|? [|??]]; simplify_eq/=; done).
    clear E. rewrite app_empty_l. simpl. induction t as [|d t IHt]; [done|]. simpl in *.
    apply orb_false_iff in Ht as [Hd Ht]. apply bool_decide_eq_false in Hd.
    rewrite bool_decide_eq_false_2 by congruence. by rewrite (IHt Ht).
  - case_bool_decide as Hd.
    + destruct l as [|w l]; intros E; [destruct (split_on_cons c s) as (?&?&E'); by rewrite E' in E|].
      injection E as <- E. by rewrite (IH l E).
    + destruct (split_on_cons c s) as (x & ws & E'). rewrite E' in *. intros E.
      destruct l as [|w l]; [by simplify_eq/=|]. injection E as <- E.
      by rewrite (IH (x :: l)) by (by rewrite E).
Qed.

Lemma split_on_snoc c s : split_on c (s +:+ str c) = split_on c s ++ [""].
Proof.
  induction s as [|d s IH]; simpl; [by rewrite bool_decide_eq_true_2|].
  case_bool_decide; rewrite IH; [done|].
  destruct (split_on_cons c s) as (x & ws & ->). done.
Qed.

(** The step of an index loop: the first component of a suffix ends where
    [find_char] says, and what follows it is the rest of the split. *)
Lemma split_on_find c s :
  split_on c s =
  match find_suffix (λ t, starts_with t (str c)) s with
  | None => [s]
  | Some n => str_take n s :: split_on c (str_drop (S n) s)
  end.
Proof.
  induction s as [|d s IH]; [done|]. simpl.
  destruct (decide (d = c)) as [->|Hd].
  - rewrite !bool_decide_eq_true_2 by done. by destruct s.
  - rewrite !bool_decide_eq_false_2 by congruence. simpl. rewrite IH.
    by destruct (find_suffix _ s).
Qed.

Lemma find_char_drop s c pos :
  (pos ≤ str_length s)%nat →
  find_char s c pos =
  Nat.add pos <$> find_suffix (λ t, starts_with t (str c)) (str_drop pos s).
Proof. intros Hp. unfold find_char, find_str. by rewrite (proj2 (Nat.leb_le _ _) Hp). Qed.

Lemma contains_str_spec s p : contains_str s p = true ↔ ∃ a b, s = a +:+ p +:+ b.
Proof.
  unfold contains_str. rewrite bool_decide_eq_true. unfold find_str. simpl. split.
  - intros [n Hn]. destruct (find_suffix _ s) as [k|] eqn:Hk; simplify_eq/=.
    destruct (find_suffix_Some _ _ _ Hk) as (_ & Ht & _).
    apply starts_with_spec in Ht as [b Hb]. exists (str_take n s), b.
    by rewrite <- Hb, str_take_drop.
  - intros (a & b & ->). destruct (find_suffix _ _) as [k|] eqn:Hk; [by eexists|].
    apply (find_suffix_None _ _ (str_length a)) in Hk.
    by rewrite str_drop_app, starts_with_app in Hk.
Qed.

(** ** Characters of printed integers *)

Fixpoint str_forall (P : ascii → bool) (s : string) : bool :=
  match s with
  | "" => true
  | String c s => P c && str_forall P s
  end.

Lemma str_forall_app P s t : str_forall P (s +:+ t) = str_forall P s && str_forall P t.
Proof. induction s as [|c s IH]; [done|]. rewrite app_String. simpl. by rewrite IH, andb_assoc. Qed.

Lemma str_forall_elem P c s : str_forall P s = true → P c = false → str_elem c s = false.
Proof.
  induction s as [|d s IH]; [done|]. simpl. intros [Hd Hs]%andb_true_iff Hc.
  apply orb_false_iff. split; [|by apply IH].
  apply bool_decide_eq_false. intros ->. congruence.
Qed.

Definition is_digit (c : ascii) : bool := (48 <=? code c) && (code c <=? 57).

Definition is_numeral_char (c : ascii) : bool := is_digit c || bool_decide (c = "-"%char).

Lemma pretty_N_char_digit x : is_digit (pretty_N_char x) = true.
Proof. unfold pretty_N_char. by repeat case_match. Qed.

Lemma pretty_N_go_digits x s :
  str_forall is_digit s = true → str_forall is_digit (pretty_N_go x s) = true.
Proof.
  revert s. induction (N.lt_wf_0 x) as [x _ IH]; intros s Hs.
  destruct (decide (x = 0%N)) as [->|]; [done|].
  rewrite pretty_N_go_step by lia. apply IH; [apply N.div_lt; lia|].
  simpl. by rewrite pretty_N_char_digit.
Qed.

Lemma pretty_N_go_length x s :
  (x ≠ 0)%N → (str_length s < str_length (pretty_N_go x s))%nat.
Proof.
  revert s. induction (N.lt_wf_0 x) as [x _ IH]; intros s Hx.
  rewrite pretty_N_go_step by lia. destruct (decide (x / 10 = 0)%N) as [E|E].
  - rewrite E. simpl. unfold str_length. simpl. lia.
  - etrans; [|apply IH; [apply N.div_lt; lia|done]]. simpl. unfold str_length. lia.
Qed.

(** A natural number is printed as a non-empty string of digits. *)
Lemma to_string_digits z :
  0 ≤ z → str_forall is_digit (to_string z) = true ∧ to_string z ≠ "".
Proof.
  intros Hz. unfold to_string, pretty, pretty_Z.
  assert (∀ n : N, str_forall is_digit (pretty n) = true ∧ pretty n ≠ "") as HN.
  { intros n. unfold pretty, pretty_N. case_decide as Hn; [done|]. split.
    - by apply pretty_N_go_digits.
    - intros E. pose proof (pretty_N_go_length n "" Hn) as Hl. rewrite E in Hl.
      unfold str_length in Hl. simpl in Hl. lia. }
  destruct z as [|p|p]; [done|apply (HN (Npos p))|lia].
Qed.

Lemma to_string_numeral z :
  str_forall is_numeral_char (to_string z) = true ∧ to_string z ≠ "".
Proof.
  assert (∀ s, str_forall is_digit s = true → str_forall is_numeral_char s = true) as Hm.
  { intros s. induction s as [|c s IH]; [done|]. simpl. intros [Hc Hs]%andb_true_iff.
    unfold is_numeral_char. rewrite Hc. by apply IH. }
  destruct (decide (0 ≤ z)) as [Hz|Hz].
  - destruct (to_string_digits z Hz). auto.
  - destruct z as [|p|p]; [lia|lia|].
    change (to_string (Z.neg p)) with (String "-" (to_string (Z.pos p))).
    destruct (to_string_digits (Z.pos p)) as [Hd _]; [lia|].
    split; [|done]. simpl. by apply Hm.
Qed.

Lemma to_string_no_char c z : is_numeral_char c = false → str_elem c (to_string z) = false.
Proof. apply str_forall_elem. apply to_string_numeral. Qed.

(** ** The component loop

    Several functions of the program walk over the components of a string with
    an index:
<<
    while (begin <= s.size()) {
        end = s.find(sep, begin);
        component = s.substr(begin, end == npos ? s.size() - begin : end - begin);
        if (test(component)) return ...;
        if (end == npos) break;
        begin = end + 1;
    }
>>
    [component_loop] is that loop: [Some true] when the test holds of a
    component, [None] when the fuel runs out. *)
Fixpoint component_loop (fuel : nat) (test : string → bool) (sep : ascii) (s : string)
    (begin : nat) : option bool :=
  match fuel with
  | O => None
  | S fuel =>
      if (begin <=? str_length s)%nat then
        let last := find_char s sep begin in
        let component :=
          substr s begin (match last with
                          | None => str_length s - begin
                          | Some last => last - begin
                          end) in
        if test component then Some true
        else match last with
             | None => Some false
             | Some last => component_loop fuel test sep s (last + 1)
             end
      else Some false
  end.

Lemma find_sep_Some sep s n :
  find_suffix (λ t, starts_with t (str sep)) s = Some n → (n < str_length s)%nat.
Proof.
  intros E. destruct (find_suffix_Some _ _ _ E) as (Hle & Ht & _).
  destruct (decide (n = str_length s)) as [->|]; [by rewrite str_drop_length in Ht|lia].
Qed.

Lemma component_loop_split fuel test sep s begin :
  (begin ≤ str_length s)%nat → (str_length s - begin < fuel)%nat →
  component_loop fuel test sep s begin = Some (existsb test (split_on sep (str_drop begin s))).
Proof.
  revert begin. induction fuel as [|fuel IH]; intros begin Hb Hf; [lia|]. cbn [component_loop].
  rewrite (proj2 (Nat.leb_le _ _) Hb), find_char_drop, (split_on_find sep (str_drop begin s)) by done.
  destruct (find_suffix _ (str_drop begin s)) as [n|] eqn:E; cbn [fmap option_fmap option_map].
  - apply find_sep_Some in E. rewrite str_length_drop in E. cbn [existsb]. unfold substr.
    replace (begin + n - begin)%nat with n by lia.
    destruct (test _); [done|]. rewrite IH by lia. rewrite str_drop_drop.
    by replace (begin + S n)%nat with (begin + n + 1)%nat by lia.
  - unfold substr. rewrite str_take_length by (rewrite str_length_drop; lia).
    cbn [existsb]. rewrite orb_false_r. by destruct (test _).
Qed.

(** From the beginning, the loop tests the components of the whole string. *)
Lemma component_loop_spec test sep s :
  component_loop (S (str_length s)) test sep s 0 = Some (existsb test (split_on sep s)).
Proof. rewrite component_loop_split by lia. done. Qed.

(** [std::string(raw)] of the characters up to the first NUL. *)
Fixpoint from_c_str (s : string) : string :=
  match s with
  | "" => ""
  | String c s => if bool_decide (c = nul) then "" else String c (from_c_str s)
  end.

Lemma from_c_str_no_nul s : str_elem nul (from_c_str s) = false.
Proof.
  induction s as [|c s IH]; [done|]. simpl. case_bool_decide as H; [done|].
  simpl. rewrite bool_decide_eq_false_2 by congruence. done.
Qed.

Lemma from_c_str_id s : str_elem nul s = false → from_c_str s = s.
Proof.
  induction s as [|c s IH]; [done|]. simpl. rewrite orb_false_iff. intros [Hc Hs].
  apply bool_decide_eq_false in Hc. rewrite bool_decide_eq_false_2 by congruence. by rewrite IH.
Qed.
