(* ===== verification/Lines.v ===== *)
(** * Lines of a text

    Searching a text for a pattern without newlines is searching its lines:
    lemmas on the search functions of CxxString that the readers of
    line-oriented texts share (.PKGINFO, PKGBUILD, the trace on standard
    error). *)

From S2P Require Import Prelude CxxString.

Lemma starts_with_take s p t :
  str_elem newline p = false → starts_with (s +:+ String newline t) p = starts_with s p.
Proof.
  revert p. induction s as [|c s IH]; intros [|d p] Hp; try done.
  - cbn [str_elem] in Hp. apply orb_false_iff in Hp as [Hd _]. apply bool_decide_eq_false in Hd.
    change ("" +:+ String newline t) with (String newline t). cbn [starts_with].
    by rewrite bool_decide_eq_false_2 by congruence.
  - cbn [str_elem] in Hp. apply orb_false_iff in Hp as [_ Hp]. rewrite app_String. cbn [starts_with].
    by rewrite IH.
Qed.

(** A pattern is found in a text whose first line is [l] where it is in [l], or
    else in the rest. *)
Lemma find_line p l t :
  p ≠ "" → str_elem newline p = false →
  find_suffix (λ t, starts_with t p) (l +:+ String newline t) =
  match find_suffix (λ t, starts_with t p) l with
  | Some n => Some n
  | None => (λ n, (str_length l + S n)%nat) <$> find_suffix (λ t, starts_with t p) t
  end.
Proof.
  intros Hne Hp. assert (starts_with "" p = false) as H0 by by destruct p.
  assert (∀ t, starts_with (String newline t) p = false) as Hn.
  { intros t'. rewrite <- H0. apply (starts_with_take "" p t' Hp). }
  induction l as [|c l IH].
  - change ("" +:+ String newline t) with (String newline t).
    cbn [find_suffix]. rewrite Hn, H0. by destruct (find_suffix _ t).
  - rewrite app_String. cbn [find_suffix]. rewrite <- app_String, starts_with_take by done.
    destruct (starts_with (String c l) p); [done|]. rewrite IH.
    destruct (find_suffix _ l); [done|]. by destruct (find_suffix _ t).
Qed.

Lemma find_from p a s :
  find_str (a +:+ s) p (str_length a) =
  Nat.add (str_length a) <$> find_suffix (λ t, starts_with t p) s.
Proof.
  unfold find_str. rewrite (proj2 (Nat.leb_le _ _)) by (rewrite str_length_app; lia).
  by rewrite str_drop_app.
Qed.

Lemma starts_with_str c d t : starts_with (String c t) (str d) = bool_decide (d = c).
Proof. cbn [starts_with str]. by rewrite andb_true_r. Qed.

Lemma find_newline_line l t :
  str_elem newline l = false →
  find_suffix (λ t, starts_with t (str newline)) (l +:+ String newline t) = Some (str_length l).
Proof.
  induction l as [|c l IH]; intros Hl.
  - change ("" +:+ String newline t) with (String newline t). cbn [find_suffix].
    change (String newline t) with (str newline +:+ t). by rewrite starts_with_app.
  - cbn [str_elem] in Hl. apply orb_false_iff in Hl as [Hc Hl]. apply bool_decide_eq_false in Hc.
    rewrite app_String. cbn [find_suffix].
    rewrite starts_with_str, bool_decide_eq_false_2 by congruence. by rewrite IH.
Qed.

Lemma find_newline_none l :
  str_elem newline l = false → find_suffix (λ t, starts_with t (str newline)) l = None.
Proof.
  induction l as [|c l IH]; intros Hl; [done|].
  cbn [str_elem] in Hl. apply orb_false_iff in Hl as [Hc Hl]. apply bool_decide_eq_false in Hc.
  cbn [find_suffix]. rewrite starts_with_str, bool_decide_eq_false_2 by congruence.
  by rewrite IH.
Qed.

Lemma str_elem_drop c n s : str_elem c s = false → str_elem c (str_drop n s) = false.
Proof.
  revert n. induction s as [|d s IH]; intros [|n] Hs; try done. cbn [str_drop].
  cbn [str_elem] in Hs. apply orb_false_iff in Hs as [_ Hs]. by apply IH.
Qed.

Lemma str_drop_app_le n s t : (n ≤ str_length s)%nat → str_drop n (s +:+ t) = str_drop n s +:+ t.
Proof.
  revert n. induction s as [|c s IH]; intros [|n] Hn; try done.
  - unfold str_length in Hn. simpl in Hn. lia.
  - rewrite app_String. cbn [str_drop]. apply IH. unfold str_length in *. simpl in Hn. lia.
Qed.

Lemma find_fits p l n :
  find_suffix (λ t, starts_with t p) l = Some n → (n + str_length p ≤ str_length l)%nat.
Proof.
  intros E. destruct (find_suffix_Some _ _ _ E) as (Hle & Ht & _).
  apply starts_with_spec in Ht as [t Ht]. apply (f_equal str_length) in Ht.
  rewrite str_length_drop, str_length_app in Ht. lia.
Qed.

(** The rest of the line from [begin] on, as the readers cut it out. *)
Definition line_rest (text : string) (begin : nat) : string :=
  substr text begin (match find_char text newline begin with
                     | None => str_length text - begin
                     | Some e => e - begin
                     end)%nat.

Lemma line_rest_last a l n :
  str_elem newline l = false → (n ≤ str_length l)%nat →
  line_rest (a +:+ l) (str_length a + n) = str_drop n l.
Proof.
  intros Hl Hn. unfold line_rest. rewrite find_char_drop by (rewrite str_length_app; lia).
  assert (str_drop (str_length a + n) (a +:+ l) = str_drop n l) as Hd
    by by rewrite <- str_drop_drop, str_drop_app.
  rewrite Hd, find_newline_none by by apply str_elem_drop. cbn [fmap option_fmap option_map].
  unfold substr. rewrite Hd. apply str_take_length. rewrite str_length_drop, str_length_app. lia.
Qed.

Lemma line_rest_line a l t n :
  str_elem newline l = false → (n ≤ str_length l)%nat →
  line_rest (a +:+ l +:+ String newline t) (str_length a + n) = str_drop n l.
Proof.
  intros Hl Hn. unfold line_rest. rewrite find_char_drop by (rewrite !str_length_app; lia).
  assert (str_drop (str_length a + n) (a +:+ l +:+ String newline t) = str_drop n l +:+ String newline t)
    as Hd by (rewrite <- str_drop_drop, str_drop_app; by apply str_drop_app_le).
  rewrite Hd, find_newline_line by by apply str_elem_drop. cbn [fmap option_fmap option_map].
  unfold substr. rewrite Hd.
  replace (str_length a + n + str_length (str_drop n l) - (str_length a + n))%nat
    with (str_length (str_drop n l)) by lia. apply str_take_app.
Qed.

Lemma split_on_length c s : (length (split_on c s) ≤ S (str_length s))%nat.
Proof.
  induction s as [|d s IH]; [simpl; lia|]. cbn [split_on].
  change (str_length (String d s)) with (S (str_length s)).
  destruct (split_on_cons c s) as (w & ws & E). rewrite E in *. case_bool_decide; simpl in *; lia.
Qed.

Lemma split_newline_cons l t :
  str_elem newline l = false → split_on newline (l +:+ String newline t) = l :: split_on newline t.
Proof.
  induction l as [|c l IH]; intros Hl.
  - change ("" +:+ String newline t) with (String newline t). cbn [split_on].
    by rewrite bool_decide_eq_true_2.
  - cbn [str_elem] in Hl. apply orb_false_iff in Hl as [Hc Hl]. apply bool_decide_eq_false in Hc.
    rewrite app_String. cbn [split_on]. rewrite bool_decide_eq_false_2 by congruence.
    by rewrite IH.
Qed.

