(* ===== verification/StrOrder.v ===== *)
(** * Ordered containers of texts

    [std::set<std::string>] and [std::map<std::string, T>] as the lists of their
    elements in ascending order, and [std::set_difference]. *)

From Stdlib Require Import Sorting.Sorted.
From S2P Require Import Prelude CxxString.

(** ** Sets of texts *)

(** [std::string]'s order. *)
Fixpoint str_ltb (s t : string) : bool :=
  match s, t with
  | _, EmptyString => false
  | EmptyString, String _ _ => true
  | String c s, String d t => (code c <? code d) || ((code c =? code d) && str_ltb s t)
  end.

(** [std::set<std::string>::insert] on the ascending list of elements. *)
Fixpoint set_insert (x : string) (l : list string) : list string :=
  match l with
  | [] => [x]
  | y :: l' => if str_ltb x y then x :: l else if str_ltb y x then y :: set_insert x l' else l
  end.

Definition set_of (l : list string) : list string := foldl (λ s x, set_insert x s) [] l.

(** [std::set_difference]: one pass over two ascending lists. *)
Fixpoint set_difference (a : list string) : list string → list string :=
  fix go (b : list string) : list string :=
    match a, b with
    | [], _ => []
    | _, [] => a
    | x :: a', y :: b' =>
        if str_ltb x y then x :: set_difference a' b
        else if str_ltb y x then go b'
        else set_difference a' b'
    end.

Lemma code_inj c d : code c = code d → c = d.
Proof. unfold code. intros H. apply N2Z.inj in H. rewrite <- (ascii_N_embedding c), <- (ascii_N_embedding d). by rewrite H. Qed.

Lemma str_ltb_irrefl s : str_ltb s s = false.
Proof. induction s as [|c s IH]; [done|]. cbn. by rewrite Z.ltb_irrefl, Z.eqb_refl, IH. Qed.

Lemma str_ltb_cons c d s t :
  str_ltb (String c s) (String d t) = true ↔ code c < code d ∨ (c = d ∧ str_ltb s t = true).
Proof.
  cbn [str_ltb]. rewrite orb_true_iff, andb_true_iff, Z.ltb_lt, Z.eqb_eq.
  split; (intros [?|[? ?]]; [by left|right]).
  - split; [by apply code_inj|done].
  - by subst.
Qed.

Lemma str_ltb_trans s t u : str_ltb s t = true → str_ltb t u = true → str_ltb s u = true.
Proof.
  revert t u. induction s as [|c s IH]; intros [|d t] [|e u]; try done.
  rewrite !str_ltb_cons. intros [?|[-> ?]] [?|[-> ?]]; [left; lia|by left|by left|right]. eauto.
Qed.

Lemma str_ltb_total s t : str_ltb s t = false → str_ltb t s = false → s = t.
Proof.
  revert t. induction s as [|c s IH]; intros [|d t]; try done. cbn [str_ltb].
  rewrite !orb_false_iff, !andb_false_iff, !Z.ltb_ge, !Z.eqb_neq.
  intros [Hle [Hne|Hs]] [Hle' [Hne'|Hs']]; try (exfalso; lia).
  f_equal; [apply code_inj; lia|by apply IH].
Qed.

Definition str_lt (s t : string) : Prop := str_ltb s t = true.

#[export] Instance str_lt_trans : Transitive str_lt.
Proof. intros s t u. apply str_ltb_trans. Qed.

Lemma set_insert_elem x y l : x ∈ set_insert y l ↔ x = y ∨ x ∈ l.
Proof.
  induction l as [|z l IH]; cbn [set_insert]; [set_solver|].
  destruct (str_ltb y z) eqn:E1; [set_solver|]. destruct (str_ltb z y) eqn:E2; [set_solver|].
  rewrite (str_ltb_total _ _ E1 E2). set_solver.
Qed.

Lemma set_insert_sorted y l : StronglySorted str_lt l → StronglySorted str_lt (set_insert y l).
Proof.
  induction 1 as [|z l Hs IH Hz]; cbn [set_insert]; [repeat constructor|].
  destruct (str_ltb y z) eqn:E1.
  - constructor; [by constructor|]. constructor; [done|]. eapply Forall_impl; [done|].
    intros u. by apply str_ltb_trans.
  - destruct (str_ltb z y) eqn:E2; [|by constructor].
    constructor; [done|]. apply Forall_forall. intros u [->|Hu]%set_insert_elem; [done|].
    by eapply Forall_forall in Hz.
Qed.

Lemma set_of_spec l : StronglySorted str_lt (set_of l) ∧ ∀ x, x ∈ set_of l ↔ x ∈ l.
Proof.
  unfold set_of. assert (∀ s, StronglySorted str_lt s →
    StronglySorted str_lt (foldl (λ s x, set_insert x s) s l) ∧
    ∀ x, x ∈ foldl (λ s x, set_insert x s) s l ↔ x ∈ s ∨ x ∈ l) as H.
  { induction l as [|y l IH]; intros s Hs; cbn [foldl]; [set_solver|].
    destruct (IH (set_insert y s) (set_insert_sorted _ _ Hs)) as [H1 H2]. split; [done|].
    intros x. rewrite H2, set_insert_elem. set_solver. }
  destruct (H [] (SSorted_nil _)) as [H1 H2]. split; [done|]. intros x. rewrite H2. set_solver.
Qed.

Lemma sorted_head_notin x y l : StronglySorted str_lt (y :: l) → str_lt x y → x ∉ y :: l.
Proof.
  intros [_ Hy]%StronglySorted_inv Hx [->|Hin]%elem_of_cons.
  - unfold str_lt in Hx. by rewrite str_ltb_irrefl in Hx.
  - rewrite Forall_forall in Hy. pose proof (str_ltb_trans _ _ _ Hx (Hy _ Hin)) as H.
    by rewrite str_ltb_irrefl in H.
Qed.

Lemma set_difference_spec a b :
  StronglySorted str_lt a → StronglySorted str_lt b →
  StronglySorted str_lt (set_difference a b) ∧ ∀ x, x ∈ set_difference a b ↔ x ∈ a ∧ x ∉ b.
Proof.
  revert b. induction a as [|y a IHa]; intros b Ha Hb.
  { destruct b; cbn; split; try constructor; set_solver. }
  induction b as [|z b IHb]; [cbn; set_solver|].
  change (set_difference (y :: a) (z :: b)) with
    (if str_ltb y z then y :: set_difference a (z :: b)
     else if str_ltb z y then set_difference (y :: a) b else set_difference a b).
  pose proof (StronglySorted_inv Ha) as [Ha' Hya]. pose proof (StronglySorted_inv Hb) as [Hb' Hzb].
  destruct (str_ltb y z) eqn:E1.
  - destruct (IHa (z :: b) Ha' Hb) as [Hs He]. split.
    + constructor; [done|]. apply Forall_forall. intros u [Hu _]%He. by eapply Forall_forall in Hya.
    + intros x. rewrite !elem_of_cons, He. pose proof (sorted_head_notin y z b Hb E1). set_solver.
  - destruct (str_ltb z y) eqn:E2.
    + destruct (IHb Hb') as [Hs He]. split; [done|]. intros x. rewrite He.
      pose proof (sorted_head_notin z y a Ha E2). set_solver.
    + pose proof (str_ltb_total _ _ E1 E2) as ->. destruct (IHa b Ha' Hb') as [Hs He].
      split; [done|]. intros x. rewrite He, !elem_of_cons.
      rewrite Forall_forall in Hya. split; [|set_solver]. intros [Hx Hn]. split; [set_solver|].
      intros [->|?]; [|done]. specialize (Hya _ Hx). unfold str_lt in Hya. by rewrite str_ltb_irrefl in Hya.
Qed.

Lemma difference_of_sets a b :
  StronglySorted str_lt (set_difference (set_of a) (set_of b)) ∧
  ∀ x, x ∈ set_difference (set_of a) (set_of b) ↔ x ∈ a ∧ x ∉ b.
Proof.
  destruct (set_of_spec a) as [Ha Ea], (set_of_spec b) as [Hb Eb].
  destruct (set_difference_spec _ _ Ha Hb) as [Hs He]. split; [done|].
  intros x. by rewrite He, Ea, Eb.
Qed.

(** ** Maps *)

Section Map.
Context {T : Type}.

(** [std::map::find]. *)
Fixpoint map_get (k : string) (m : list (string * T)) : option T :=
  match m with
  | [] => None
  | (k', v) :: m => if bool_decide (k = k') then Some v else map_get k m
  end.

(** [m[k] = v]. *)
Fixpoint map_set (k : string) (v : T) (m : list (string * T)) : list (string * T) :=
  match m with
  | [] => [(k, v)]
  | (k', v') :: m' =>
      if str_ltb k k' then (k, v) :: m
      else if str_ltb k' k then (k', v') :: map_set k v m'
      else (k, v) :: m'
  end.

Lemma map_get_set k k' v m : map_get k (map_set k' v m) = if decide (k = k') then Some v else map_get k m.
Proof.
  induction m as [|[y w] m IH]; cbn [map_set map_get].
  - by repeat case_decide || case_bool_decide.
  - destruct (str_ltb k' y) eqn:E1; [cbn [map_get]; by case_bool_decide; case_decide|].
    destruct (str_ltb y k') eqn:E2; cbn [map_get].
    + rewrite IH. case_bool_decide as Hk; [|done]. case_decide as Hk'; [|done].
      subst. by rewrite str_ltb_irrefl in E2.
    + pose proof (str_ltb_total _ _ E1 E2) as ->. by case_bool_decide; case_decide.
Qed.

Lemma map_set_keys k v m x : x ∈ map fst (map_set k v m) ↔ x = k ∨ x ∈ map fst m.
Proof.
  induction m as [|[y w] m IH]; cbn [map_set map fst]; [set_solver|].
  destruct (str_ltb k y) eqn:E1; [cbn; set_solver|].
  destruct (str_ltb y k) eqn:E2; cbn [map fst]; [set_solver|].
  pose proof (str_ltb_total _ _ E1 E2) as ->. set_solver.
Qed.

Lemma map_set_sorted k v m :
  StronglySorted str_lt (map fst m) → StronglySorted str_lt (map fst (map_set k v m)).
Proof.
  induction m as [|[y w] m IH]; cbn [map_set map fst]; intros Hs; [repeat constructor|].
  pose proof (StronglySorted_inv Hs) as [Hm Hy].
  destruct (str_ltb k y) eqn:E1.
  - cbn [map fst]. constructor; [done|]. constructor; [done|]. eapply Forall_impl; [exact Hy|].
    intros u. by apply str_ltb_trans.
  - destruct (str_ltb y k) eqn:E2; cbn [map fst].
    + constructor; [by apply IH|]. apply Forall_forall. intros u [->|Hu]%map_set_keys; [done|].
      by eapply Forall_forall in Hy.
    + pose proof (str_ltb_total _ _ E1 E2) as ->. by constructor.
Qed.

Lemma sorted_keys_nodup (l : list string) : StronglySorted str_lt l → NoDup l.
Proof.
  induction 1 as [|y l _ IH Hy]; [constructor|]. constructor; [|done]. intros Hin.
  rewrite Forall_forall in Hy. specialize (Hy _ Hin). unfold str_lt in Hy. by rewrite str_ltb_irrefl in Hy.
Qed.

(** [map_get] is the lookup of the finite map with the same entries. *)
Lemma map_get_gmap k (m : list (string * T)) : map_get k m = (list_to_map m : gmap string T) !! k.
Proof.
  induction m as [|[y w] m IH]; [done|]. cbn [map_get list_to_map foldr uncurry fst snd].
  case_bool_decide as Hk.
  - subst. by rewrite lookup_insert_eq.
  - rewrite lookup_insert_ne by done. apply IH.
Qed.

Lemma map_get_elem k v (m : list (string * T)) :
  NoDup (map fst m) → map_get k m = Some v ↔ (k, v) ∈ m.
Proof. intros Hn. rewrite map_get_gmap. symmetry. by apply elem_of_list_to_map. Qed.

Lemma map_get_keys k (m : list (string * T)) : is_Some (map_get k m) ↔ k ∈ map fst m.
Proof.
  induction m as [|[y w] m IH]; cbn [map_get map fst]; [split; [by intros []|set_solver]|].
  rewrite elem_of_cons, <- IH. case_bool_decide as Hk; split; try (by eauto); intros [?|?]; by eauto.
Qed.

End Map.
