(* ===== verification/FsPath.v ===== *)
(** * [std::filesystem::path] on POSIX, as far as the program uses it

    A path is the string it was made from.  [path_append] is [operator/],
    [lexically_normal] the normal form of the standard ([fs.path.generic]),
    computed over the components with a stack. *)

From S2P Require Import Prelude CxxString.

Definition slash : ascii := "/"%char.

Definition is_absolute (p : string) : bool := starts_with p "/".

Fixpoint last_char (s : string) : option ascii :=
  match s with
  | "" => None
  | String c "" => Some c
  | String _ s => last_char s
  end.

(** [has_filename()]: the path does not end in a separator and is not empty. *)
Definition has_filename (p : string) : bool :=
  match last_char p with
  | None => false
  | Some c => negb (bool_decide (c = slash))
  end.

(** [a / b] *)
Definition path_append (a b : string) : string :=
  if is_absolute b then b
  else if has_filename a then a +:+ "/" +:+ b else a +:+ b.

(** A component that names a directory entry. *)
Definition is_name (c : string) : Prop := c ≠ "" ∧ c ≠ "." ∧ c ≠ "..".

#[export] Instance is_name_dec c : Decision (is_name c).
Proof. unfold is_name. apply _. Defined.

(** One component of the normalisation; the stack is innermost first. *)
Definition normal_step (absolute : bool) (stack : list string) (c : string) : list string :=
  if bool_decide (c = "" ∨ c = ".") then stack
  else if bool_decide (c = "..") then
    match stack with
    | [] => if absolute then [] else [".."]
    | top :: rest => if bool_decide (top = "..") then ".." :: stack else rest
    end
  else c :: stack.

Definition normal_stack (absolute : bool) (comps : list string) : list string :=
  foldl (normal_step absolute) [] comps.

(** Whether the normal form keeps a trailing separator. *)
Definition trailing (comps stack : list string) : bool :=
  match last comps, stack with
  | Some c, top :: _ => negb (bool_decide (is_name c)) && negb (bool_decide (top = ".."))
  | _, _ => false
  end.

Definition lexically_normal (p : string) : string :=
  if bool_decide (p = "") then ""
  else
    let comps := split_on slash p in
    let stack := normal_stack (is_absolute p) comps in
    let body := join "/" (reverse stack) +:+ (if trailing comps stack then "/" else "") in
    if is_absolute p then "/" +:+ body
    else if bool_decide (stack = []) then "." else body.

(** [operator<<]: the path in double quotes, its quotes and backslashes escaped. *)
Definition quoted_path (p : string) : string :=
  str dquote +:+
  concat_str (map (λ c, if bool_decide (c = dquote) || bool_decide (c = backslash)
                        then String backslash (str c) else str c) (String.list_ascii_of_string p)) +:+
  str dquote.

(** [filename()]: what follows the last separator. *)
Definition filename (p : string) : string := default "" (last (split_on slash p)).

(** The components up to the last one that is not empty. *)
Fixpoint trim_empty (comps : list string) : list string :=
  match comps with
  | [] => []
  | c :: comps =>
      match trim_empty comps with
      | [] => if bool_decide (c = "") then [] else [c]
      | comps' => c :: comps'
      end
  end.

(** [parent_path()]: without the filename and the separators before it. *)
Definition parent_path (p : string) : string :=
  let parent := join "/" (trim_empty (removelast (split_on slash p))) in
  if bool_decide (parent = "") && is_absolute p then "/" else parent.

(** ** Components of normal forms *)

Lemma split_on_single c s : str_elem c s = false → split_on c s = [s].
Proof.
  induction s as [|d s IH]; [done|]. cbn [str_elem split_on].
  rewrite orb_false_iff. intros [Hd Hs]. apply bool_decide_eq_false in Hd.
  rewrite bool_decide_eq_false_2 by congruence. by rewrite IH.
Qed.

Lemma split_on_app c s t :
  str_elem c s = false → split_on c (s +:+ str c +:+ t) = s :: split_on c t.
Proof.
  induction s as [|d s IH].
  - intros _. change (split_on c (String c t) = "" :: split_on c t).
    cbn [split_on]. by rewrite bool_decide_eq_true_2.
  - cbn [str_elem]. rewrite orb_false_iff. intros [Hd Hs]. apply bool_decide_eq_false in Hd.
    rewrite app_String. cbn [split_on]. rewrite bool_decide_eq_false_2 by congruence.
    by rewrite IH.
Qed.

Lemma split_on_join c ws :
  ws ≠ [] → Forall (λ w, str_elem c w = false) ws → split_on c (join (str c) ws) = ws.
Proof.
  intros Hne Hws. induction Hws as [|w ws Hw Hws IH]; [done|].
  destruct ws as [|x ws]; [by apply split_on_single|].
  change (split_on c (w +:+ str c +:+ join (str c) (x :: ws)) = w :: x :: ws).
  rewrite split_on_app by done. by rewrite IH.
Qed.

Definition clean_name (c : string) : Prop := is_name c ∧ str_elem slash c = false.

Lemma normal_step_clean stack c :
  str_elem slash c = false → Forall clean_name stack → Forall clean_name (normal_step true stack c).
Proof.
  intros Hc Hs. unfold normal_step. case_bool_decide as H1; [done|].
  case_bool_decide as H2.
  - destruct Hs as [|top rest Htop Hrest]; [done|].
    rewrite bool_decide_eq_false_2; [done|]. destruct Htop as [(? & ? & ?) _]. done.
  - constructor; [|done]. split; [|done]. split_and!; tauto.
Qed.

Lemma normal_stack_clean p : Forall clean_name (normal_stack true (split_on slash p)).
Proof.
  unfold normal_stack.
  assert (Forall (λ w, str_elem slash w = false) (split_on slash p)) as Hp.
  { apply Forall_forall. intros w Hw. by eapply split_on_no_sep. }
  assert (Forall clean_name []) as Hs by constructor.
  revert Hs. generalize (@nil string).
  induction Hp as [|c cs Hc Hcs IH]; intros stack Hs; [done|].
  apply IH. by apply normal_step_clean.
Qed.

Lemma normal_step_name b stack c : is_name c → normal_step b stack c = c :: stack.
Proof.
  intros (? & ? & ?). unfold normal_step.
  rewrite !bool_decide_eq_false_2; [done|done|]. tauto.
Qed.

Lemma normal_stack_names cs stack :
  Forall is_name cs → foldl (normal_step true) stack cs = reverse cs ++ stack.
Proof.
  intros H. revert stack. induction H as [|c cs Hc Hcs IH]; intros stack; [done|].
  simpl. rewrite normal_step_name, IH by done. by rewrite reverse_cons, <- app_assoc.
Qed.

(** The body of an absolute normal form, from its names and the trailing flag. *)
Definition normal_form (names : list string) (slash_end : bool) : string :=
  "/" +:+ join "/" names +:+ (if slash_end then "/" else "").

Lemma lexically_normal_absolute p :
  is_absolute p = true →
  ∃ names b, Forall clean_name names ∧ (names = [] → b = false) ∧
             lexically_normal p = normal_form names b.
Proof.
  intros Ha. unfold lexically_normal. rewrite Ha.
  rewrite bool_decide_eq_false_2 by (by intros ->).
  exists (reverse (normal_stack true (split_on slash p))),
         (trailing (split_on slash p) (normal_stack true (split_on slash p))).
  split_and!; [apply Forall_reverse, normal_stack_clean| |done].
  intros Hr. rewrite <- (reverse_involutive (normal_stack _ _)), Hr. simpl.
  unfold trailing. by destruct (last _).
Qed.

Lemma join_app_empty ws : ws ≠ [] → join "/" (ws ++ [""]) = join "/" ws +:+ "/".
Proof.
  induction ws as [|w ws IH]; [done|]. intros _. destruct ws as [|x ws]; [done|].
  change (w +:+ "/" +:+ join "/" ((x :: ws) ++ [""]) = (w +:+ "/" +:+ join "/" (x :: ws)) +:+ "/").
  rewrite IH by done. by rewrite !app_assoc_str.
Qed.

Lemma split_normal_form names b :
  Forall clean_name names → (names = [] → b = false) →
  split_on slash (normal_form names b) =
  "" :: (if bool_decide (names = []) then [""] else names ++ (if b then [""] else [])).
Proof.
  intros Hn Hb. unfold normal_form.
  change ("/" +:+ ?x) with (String slash x). cbn [split_on].
  rewrite bool_decide_eq_true_2 by done. f_equal.
  assert (Forall (λ w, str_elem slash w = false) names) as Hs
    by (eapply Forall_impl; [done|]; by intros w [_ ?]).
  case_bool_decide as Hnil.
  - subst. by rewrite Hb.
  - destruct b.
    + rewrite <- join_app_empty by done. apply split_on_join; [by destruct names|].
      apply Forall_app. split; [done|]. by repeat constructor.
    + rewrite app_empty_r, app_nil_r. by apply split_on_join.
Qed.

Lemma normal_form_absolute names b : is_absolute (normal_form names b) = true.
Proof. apply starts_with_app. Qed.

Lemma lexically_normal_fixpoint names b :
  Forall clean_name names → (names = [] → b = false) →
  lexically_normal (normal_form names b) = normal_form names b.
Proof.
  intros Hn Hb. unfold lexically_normal.
  rewrite normal_form_absolute, split_normal_form by done.
  rewrite bool_decide_eq_false_2 by done.
  assert (Forall is_name names) as Hi by (eapply Forall_impl; [done|]; by intros w [? _]).
  unfold normal_stack. cbn [foldl]. change (normal_step true [] "") with (@nil string).
  case_bool_decide as Hnil; [subst; by rewrite Hb|].
  destruct b.
  - rewrite foldl_app, (normal_stack_names names), app_nil_r by done. cbn [foldl].
    change (normal_step true (reverse names) "") with (reverse names).
    rewrite reverse_involutive. unfold trailing, normal_form.
    rewrite last_cons, last_snoc. destruct (reverse names) as [|top rest] eqn:E.
    { apply (f_equal reverse) in E. by rewrite reverse_involutive in E. }
    rewrite !bool_decide_eq_false_2; [done| |by intros [? _]].
    intros ->. assert (".." ∈ names) as Hin.
    { apply elem_of_reverse. rewrite E. left. }
    rewrite Forall_forall in Hi. by destruct (Hi _ Hin) as (_ & _ & ?).
  - rewrite app_nil_r, normal_stack_names, app_nil_r, reverse_involutive by done.
    unfold trailing, normal_form. rewrite last_cons.
    destruct (last names) as [c|] eqn:E; [|by apply last_None in E].
    rewrite (bool_decide_eq_true_2 (is_name c)); [by destruct (reverse names)|].
    rewrite Forall_forall in Hi. apply Hi. apply last_Some in E as [l' ->].
    apply elem_of_app. right. left.
Qed.

(** ** Names below an absolute base *)

(** The names of a relative path that has no dot, dot-dot or empty component. *)
Definition plain_relative (p : string) : Prop := Forall is_name (split_on slash p).

#[export] Instance plain_relative_dec p : Decision (plain_relative p).
Proof. unfold plain_relative. apply _. Defined.

Lemma plain_relative_clean p : plain_relative p → Forall clean_name (split_on slash p).
Proof.
  unfold plain_relative. rewrite !Forall_forall. intros H w Hw. split; [by apply H|].
  by eapply split_on_no_sep.
Qed.

Lemma plain_relative_not_absolute p : plain_relative p → is_absolute p = false.
Proof.
  unfold plain_relative, is_absolute. destruct p as [|c p]; [done|]. cbn [split_on starts_with].
  case_bool_decide as Hc; subst.
  - intros H. inversion H as [|? ? [Hn _]]. done.
  - intros _. rewrite bool_decide_eq_false_2; [done|]. by intros <-.
Qed.

Lemma join_not_slash_end names :
  names ≠ [] → Forall clean_name names → has_filename ("/" +:+ join "/" names) = true.
Proof.
  intros Hne Hn. unfold has_filename.
  assert (∀ s t c, last_char t = Some c → last_char (s +:+ t) = Some c) as Hl.
  { intros s t c Ht. induction s as [|d s IH]; [done|]. rewrite app_String.
    cbn [last_char]. by destruct (s +:+ t). }
  assert (∃ c, last_char (join "/" names) = Some c ∧ c ≠ slash) as (c & Hc & Hs).
  { induction Hn as [|w ws [[Hw _] Hs] Hws IH]; [done|]. destruct ws as [|x ws].
    - simpl. clear -Hw Hs. induction w as [|d w IH]; [done|]. cbn [str_elem] in Hs.
      apply orb_false_iff in Hs as [Hd Hs]. apply bool_decide_eq_false in Hd.
      destruct w as [|e w]; [by exists d|]. by apply IH.
    - destruct IH as (c & Hc & Hs'); [done|]. exists c. split; [|done].
      change (last_char (w +:+ "/" +:+ join "/" (x :: ws)) = Some c).
      rewrite <- app_assoc_str. by apply Hl. }
  rewrite (Hl _ _ _ Hc). by rewrite bool_decide_eq_false_2.
Qed.

(** Appending a plain relative path to an absolute one in normal form and
    normalising keeps both as they are. *)
Lemma normal_append_plain names p :
  names ≠ [] → Forall clean_name names → plain_relative p →
  lexically_normal (path_append ("/" +:+ join "/" names) p)
  = "/" +:+ join "/" names +:+ "/" +:+ p.
Proof.
  intros Hne Hn Hp. unfold path_append.
  rewrite plain_relative_not_absolute, join_not_slash_end by done.
  rewrite app_assoc_str.
  assert (split_on slash p ≠ []) as Hs.
  { destruct (split_on_cons slash p) as (? & ? & ->). done. }
  rewrite <- (join_split_on slash p) at 1 2. change (str slash) with "/".
  rewrite <- (join_app "/" names (split_on slash p)) by done.
  pose proof (lexically_normal_fixpoint (names ++ split_on slash p) false) as Hf.
  unfold normal_form in Hf. rewrite app_empty_r in Hf. apply Hf; [|done].
  apply Forall_app. split; [done|]. by apply plain_relative_clean.
Qed.
