(* ===== verification/Json.v ===== *)
(** * JSON documents

    The reader against which the program's hand-written JSON output is judged:
    a recursive-descent parser for compact JSON (RFC 8259 without insignificant
    white space, integer numbers, strings as byte sequences), the documents it
    returns, and a printer for them parameterised by how the program escapes a
    character.  [parse_print] is the round trip for every document whose
    strings the escape function encodes correctly. *)

From S2P Require Import Prelude CxxString.

Unset Elimination Schemes.
Inductive json : Type :=
| JNum (z : Z)
| JStr (s : string)
| JBool (b : bool)
| JArr (l : list json)
| JObj (fields : list (string * json)).
Set Elimination Schemes.

(** ** The parser *)

Definition hex_value (c : ascii) : option Z :=
  if is_digit c then Some (code c - 48)
  else if (97 <=? code c) && (code c <=? 102) then Some (code c - 87)
  else if (65 <=? code c) && (code c <=? 70) then Some (code c - 55)
  else None.

(** The four digits after a [\u], as a byte. *)
Definition parse_hex4 (s : string) : option (ascii * string) :=
  match s with
  | String a (String b (String c (String d rest))) =>
      a ← hex_value a; b ← hex_value b; c ← hex_value c; d ← hex_value d;
      let v := 4096 * a + 256 * b + 16 * c + d in
      if v <? 128 then Some (ascii_of_N (Z.to_N v), rest) else None
  | _ => None
  end.

(** The character of an escape sequence, the backslash already read. *)
Definition parse_escape (s : string) : option (ascii * string) :=
  match s with
  | "" => None
  | String c rest =>
      if bool_decide (c = dquote) then Some (dquote, rest)
      else if bool_decide (c = backslash) then Some (backslash, rest)
      else if bool_decide (c = "/"%char) then Some ("/"%char, rest)
      else if bool_decide (c = "n"%char) then Some (newline, rest)
      else if bool_decide (c = "r"%char) then Some (carriage_return, rest)
      else if bool_decide (c = "t"%char) then Some (tab, rest)
      else if bool_decide (c = "b"%char) then Some ("008"%char, rest)
      else if bool_decide (c = "f"%char) then Some ("012"%char, rest)
      else if bool_decide (c = "u"%char) then parse_hex4 rest
      else None
  end.

(** One character of a string literal; raw control characters are refused. *)
Definition parse_char (s : string) : option (ascii * string) :=
  match s with
  | "" => None
  | String c rest =>
      if bool_decide (c = backslash) then parse_escape rest
      else if code c <? 32 then None
      else Some (c, rest)
  end.

(** The rest of a string literal, its opening quote already read. *)
Fixpoint parse_chars (fuel : nat) (s : string) : option (string * string) :=
  match fuel with
  | O => None
  | S fuel =>
      if starts_with s (str dquote) then Some ("", str_drop 1 s)
      else
        '(c, rest) ← parse_char s;
        '(t, rest) ← parse_chars fuel rest;
        Some (String c t, rest)
  end.

Definition parse_string (s : string) : option (string * string) :=
  if starts_with s (str dquote)
  then parse_chars (S (str_length s)) (str_drop 1 s) else None.

Fixpoint read_digits (acc : N) (s : string) : N * string :=
  match s with
  | "" => (acc, "")
  | String c rest =>
      if is_digit c then read_digits (acc * 10 + Z.to_N (code c - 48)) rest else (acc, s)
  end.

(** A natural number; at least one digit. *)
Definition parse_nat (s : string) : option (N * string) :=
  match s with
  | "" => None
  | String c _ => if is_digit c then Some (read_digits 0 s) else None
  end.

Definition parse_int (s : string) : option (Z * string) :=
  if starts_with s "-"
  then '(n, rest) ← parse_nat (str_drop 1 s); Some (- Z.of_N n, rest)
  else '(n, rest) ← parse_nat s; Some (Z.of_N n, rest).

(** [s] without the expected prefix. *)
Definition expect (p s : string) : option string :=
  if starts_with s p then Some (str_drop (str_length p) s) else None.

Fixpoint parse_value (fuel : nat) (s : string) : option (json * string) :=
  match fuel with
  | O => None
  | S fuel =>
      if starts_with s (str dquote) then
        '(t, rest) ← parse_string s; Some (JStr t, rest)
      else if starts_with s "[]" then Some (JArr [], str_drop 2 s)
      else if starts_with s "[" then
        '(l, rest) ← parse_elements fuel (str_drop 1 s); Some (JArr l, rest)
      else if starts_with s "{}" then Some (JObj [], str_drop 2 s)
      else if starts_with s "{" then
        '(l, rest) ← parse_members fuel (str_drop 1 s); Some (JObj l, rest)
      else if starts_with s "true" then Some (JBool true, str_drop 4 s)
      else if starts_with s "false" then Some (JBool false, str_drop 5 s)
      else '(z, rest) ← parse_int s; Some (JNum z, rest)
  end
with parse_elements (fuel : nat) (s : string) : option (list json * string) :=
  match fuel with
  | O => None
  | S fuel =>
      '(v, rest) ← parse_value fuel s;
      match expect "]" rest with
      | Some rest => Some ([v], rest)
      | None =>
          rest ← expect "," rest;
          '(l, rest) ← parse_elements fuel rest; Some (v :: l, rest)
      end
  end
with parse_members (fuel : nat) (s : string) : option (list (string * json) * string) :=
  match fuel with
  | O => None
  | S fuel =>
      '(k, rest) ← parse_string s;
      rest ← expect ":" rest;
      '(v, rest) ← parse_value fuel rest;
      match expect "}" rest with
      | Some rest => Some ([(k, v)], rest)
      | None =>
          rest ← expect "," rest;
          '(l, rest) ← parse_members fuel rest; Some ((k, v) :: l, rest)
      end
  end.

(** A whole document. *)
Definition parse_document (s : string) : option json :=
  match parse_value (S (str_length s)) s with
  | Some (v, "") => Some v
  | _ => None
  end.

(** ** The printer *)

Fixpoint escape_with (enc : ascii → string) (s : string) : string :=
  match s with
  | "" => ""
  | String c s => enc c +:+ escape_with enc s
  end.

Section Print.
Context (enc : ascii → string).

Definition print_string (s : string) : string :=
  str dquote +:+ escape_with enc s +:+ str dquote.

Fixpoint print_json (v : json) : string :=
  match v with
  | JNum z => to_string z
  | JStr s => print_string s
  | JBool b => bool_text b
  | JArr l => "[" +:+ join "," (map print_json l) +:+ "]"
  | JObj l =>
      "{" +:+ join "," (map (λ kv, print_string kv.1 +:+ ":" +:+ print_json kv.2) l) +:+ "}"
  end.

(** The escape of [c] reads back as [c] and does not look like the end of the string. *)
Definition encodes (c : ascii) : Prop :=
  ∀ rest, parse_char (enc c +:+ rest) = Some (c, rest) ∧
          starts_with (enc c +:+ rest) (str dquote) = false.

Fixpoint encodes_str (s : string) : Prop :=
  match s with
  | "" => True
  | String c s => encodes c ∧ encodes_str s
  end.

Fixpoint encodable (v : json) : Prop :=
  match v with
  | JNum _ | JBool _ => True
  | JStr s => encodes_str s
  | JArr l => foldr (λ v P, encodable v ∧ P) True l
  | JObj l => foldr (λ kv P, (encodes_str kv.1 ∧ encodable kv.2) ∧ P) True l
  end.

End Print.

(** ** Size of a document, the fuel its parse takes *)

Fixpoint json_size (v : json) : nat :=
  match v with
  | JNum _ | JStr _ | JBool _ => 1
  | JArr l => S (foldr (λ v n, S (json_size v + n)) O l)
  | JObj l => S (foldr (λ kv n, S (json_size kv.2 + n)) O l)
  end%nat.

(** Induction over documents through their lists. *)
Section json_ind'.
Variable P : json → Prop.
Hypothesis Hnum : ∀ z, P (JNum z).
Hypothesis Hstr : ∀ s, P (JStr s).
Hypothesis Hbool : ∀ b, P (JBool b).
Hypothesis Harr : ∀ l, Forall P l → P (JArr l).
Hypothesis Hobj : ∀ l, Forall (λ kv, P kv.2) l → P (JObj l).

Fixpoint json_ind' (v : json) : P v :=
  match v with
  | JNum z => Hnum z
  | JStr s => Hstr s
  | JBool b => Hbool b
  | JArr l => Harr l ((fix go l : Forall P l :=
      match l with [] => Forall_nil_2 _ | v :: l => Forall_cons_2 _ _ _ (json_ind' v) (go l) end) l)
  | JObj l => Hobj l ((fix go l : Forall (λ kv, P kv.2) l :=
      match l with
      | [] => Forall_nil_2 _
      | kv :: l => Forall_cons_2 _ _ _ (json_ind' kv.2) (go l)
      end) l)
  end.
End json_ind'.

(** ** Strings *)

Section Strings.
Context (enc : ascii → string).

Lemma encodes_nonempty c : encodes enc c → (1 ≤ str_length (enc c))%nat.
Proof.
  intros H. destruct (enc c) eqn:E; [|unfold str_length; simpl; lia].
  destruct (H "") as [H1 _]. by rewrite E in H1.
Qed.

Lemma escape_with_length s : encodes_str enc s → (str_length s ≤ str_length (escape_with enc s))%nat.
Proof.
  induction s as [|c s IH]; [done|]. intros [Hc Hs]. cbn [escape_with].
  rewrite str_length_app. pose proof (encodes_nonempty c Hc). specialize (IH Hs).
  unfold str_length in *. simpl. lia.
Qed.

Lemma parse_chars_escape fuel s rest :
  encodes_str enc s → (str_length s < fuel)%nat →
  parse_chars fuel (escape_with enc s +:+ str dquote +:+ rest) = Some (s, rest).
Proof.
  revert s. induction fuel as [|fuel IH]; intros s Hs Hf; [lia|]. destruct s as [|c s].
  - cbn [escape_with parse_chars]. rewrite app_empty_l, starts_with_app. done.
  - destruct Hs as [Hc Hs]. cbn [escape_with parse_chars]. rewrite app_assoc_str.
    destruct (Hc (escape_with enc s +:+ str dquote +:+ rest)) as [-> ->]. simpl.
    rewrite IH; [done|done|]. unfold str_length in *. simpl in Hf. lia.
Qed.

Lemma parse_string_print s rest :
  encodes_str enc s → parse_string (print_string enc s +:+ rest) = Some (s, rest).
Proof.
  intros Hs. unfold print_string, parse_string.
  rewrite app_assoc_str, starts_with_app, app_assoc_str.
  change (str_drop 1 (str dquote +:+ ?x)) with x. apply parse_chars_escape; [done|].
  rewrite !str_length_app. pose proof (escape_with_length s Hs). lia.
Qed.

Lemma print_string_quote s rest : starts_with (print_string enc s +:+ rest) (str dquote) = true.
Proof. unfold print_string. rewrite app_assoc_str. apply starts_with_app. Qed.

End Strings.

(** ** Numbers *)

Definition no_digit (s : string) : bool :=
  match s with "" => true | String c _ => negb (is_digit c) end.

Lemma read_digits_stop acc s : no_digit s = true → read_digits acc s = (acc, s).
Proof. destruct s as [|c s]; [done|]. simpl. intros ->%negb_true_iff. done. Qed.

Lemma pretty_N_char_value x :
  (x < 10)%N → Z.to_N (code (pretty_N_char x) - 48) = x.
Proof.
  intros Hx. assert (x = 0 ∨ x = 1 ∨ x = 2 ∨ x = 3 ∨ x = 4 ∨ x = 5 ∨ x = 6 ∨ x = 7 ∨ x = 8 ∨ x = 9)%N
    as Hc by lia.
  by repeat destruct Hc as [->|Hc]; subst.
Qed.

Lemma read_digits_go x s : read_digits 0 (pretty_N_go x s) = read_digits x s.
Proof.
  revert s. induction (N.lt_wf_0 x) as [x _ IH]; intros s.
  destruct (decide (x = 0%N)) as [->|]; [done|].
  rewrite pretty_N_go_step, IH by (try apply N.div_lt; lia). cbn [read_digits].
  rewrite pretty_N_char_digit, pretty_N_char_value by (apply N.mod_lt; lia).
  f_equal. pose proof (N.div_mod x 10). lia.
Qed.

Lemma pretty_N_go_app x s t : pretty_N_go x s +:+ t = pretty_N_go x (s +:+ t).
Proof.
  revert s. induction (N.lt_wf_0 x) as [x _ IH]; intros s.
  destruct (decide (x = 0%N)) as [->|]; [done|].
  rewrite !(pretty_N_go_step x), IH by (try apply N.div_lt; lia). done.
Qed.

Lemma parse_nat_print (n : N) rest :
  no_digit rest = true → parse_nat (pretty n +:+ rest) = Some (n, rest).
Proof.
  intros Hr. unfold pretty, pretty_N. case_decide as Hn.
  - subst. simpl. by rewrite read_digits_stop.
  - rewrite pretty_N_go_app. change ("" +:+ rest) with rest.
    pose proof (read_digits_go n rest) as Hd. rewrite (read_digits_stop n) in Hd by done.
    pose proof (pretty_N_go_digits n "" eq_refl) as Hall.
    pose proof (pretty_N_go_length n "" Hn) as Hlen.
    pose proof (pretty_N_go_app n "" rest) as Happ. change ("" +:+ rest) with rest in Happ.
    destruct (pretty_N_go n "") as [|c t] eqn:E; [unfold str_length in Hlen; simpl in Hlen; lia|].
    rewrite <- Happ in Hd |- *. rewrite app_String in *. simpl in Hall.
    apply andb_true_iff in Hall as [Hc _]. unfold parse_nat. by rewrite Hc, Hd.
Qed.

Lemma to_string_nonneg (n : N) : to_string (Z.of_N n) = pretty n.
Proof. by destruct n. Qed.

Lemma to_string_head z : ∃ c t, to_string z = String c t ∧ is_numeral_char c = true.
Proof.
  destruct (to_string_numeral z) as [Hall Hne]. destruct (to_string z) as [|c t]; [done|].
  simpl in Hall. apply andb_true_iff in Hall as [? _]. eauto.
Qed.

Lemma parse_int_print z rest :
  no_digit rest = true → parse_int (to_string z +:+ rest) = Some (z, rest).
Proof.
  intros Hr. unfold parse_int. destruct (decide (0 ≤ z)) as [Hz|Hz].
  - rewrite <- (Z2N.id z), to_string_nonneg by done.
    assert (starts_with (pretty (Z.to_N z) +:+ rest) "-" = false) as ->.
    { rewrite <- to_string_nonneg. destruct (to_string_digits (Z.of_N (Z.to_N z))) as [Hd Hne]; [lia|].
      destruct (to_string _) as [|c t]; [done|]. simpl in Hd |- *.
      apply andb_true_iff in Hd as [Hc _]. rewrite bool_decide_eq_false_2; [done|].
      intros <-. done. }
    rewrite parse_nat_print by done. done.
  - destruct z as [|p|p]; [lia|lia|].
    change (to_string (Z.neg p)) with ("-" +:+ pretty (N.pos p)).
    rewrite app_assoc_str, starts_with_app. change (str_drop 1 ("-" +:+ ?x)) with x.
    rewrite parse_nat_print by done. done.
Qed.

(** ** Round trip *)

Lemma starts_with_other c t h p : h ≠ c → starts_with (String c t) (String h p) = false.
Proof. intros H. simpl. by rewrite bool_decide_eq_false_2. Qed.

Lemma expect_app p rest : expect p (p +:+ rest) = Some rest.
Proof. unfold expect. by rewrite starts_with_app, str_drop_app. Qed.

Section RoundTrip.
Context (enc : ascii → string).

(** The statement for one document, in any context that does not continue a number. *)
Definition parses (v : json) : Prop :=
  ∀ fuel rest, (json_size v ≤ fuel)%nat → no_digit rest = true →
  parse_value fuel (print_json enc v +:+ rest) = Some (v, rest).

Lemma parses_num z : parses (JNum z).
Proof.
  intros [|fuel] rest Hf Hr; [simpl in Hf; lia|]. cbn [parse_value print_json].
  destruct (to_string_head z) as (c & t & E & Hc).
  assert (∀ h p, is_numeral_char h = false →
    starts_with (to_string z +:+ rest) (String h p) = false) as Hs.
  { intros h p Hh. rewrite E, app_String. apply starts_with_other. intros ->. congruence. }
  unfold str. rewrite !Hs by done. by rewrite parse_int_print.
Qed.

Lemma parses_str s : encodes_str enc s → parses (JStr s).
Proof.
  intros Hs [|fuel] rest Hf Hr; [simpl in Hf; lia|]. cbn [parse_value print_json].
  by rewrite print_string_quote, parse_string_print.
Qed.

Lemma parses_bool b : parses (JBool b).
Proof. intros [|fuel] rest Hf Hr; [simpl in Hf; lia|]. destruct b; reflexivity. Qed.

Lemma json_size_pos v : (1 ≤ json_size v)%nat.
Proof. destruct v; simpl; lia. Qed.

Lemma join_cons2 (a b : string) l :
  join "," (a :: b :: l) = a +:+ "," +:+ join "," (b :: l).
Proof. done. Qed.

(** The start of a printed document is never a closing bracket. *)
Lemma print_json_head v rest h :
  h = "]"%char ∨ h = "}"%char → starts_with (print_json enc v +:+ rest) (str h) = false.
Proof.
  intros Hh. assert (is_numeral_char h = false ∧ h ≠ dquote ∧ h ≠ "t"%char ∧ h ≠ "f"%char
    ∧ h ≠ "["%char ∧ h ≠ "{"%char) as (H1 & H2 & H3 & H4 & H5 & H6)
    by (destruct Hh as [->| ->]; split_and!; try reflexivity; intros E; discriminate E).
  destruct v as [z|s|b|l|l]; cbn [print_json].
  - destruct (to_string_head z) as (c & t & -> & Hc). apply starts_with_other. congruence.
  - unfold print_string. by apply starts_with_other.
  - destruct b; by apply starts_with_other.
  - by apply starts_with_other.
  - by apply starts_with_other.
Qed.

Lemma parses_elements l fuel rest :
  l ≠ [] → Forall parses l →
  (foldr (λ v n, S (json_size v + n)) O l ≤ fuel)%nat →
  parse_elements fuel (join "," (map (print_json enc) l) +:+ "]" +:+ rest) = Some (l, rest).
Proof.
  revert fuel. induction l as [|v l IH]; intros fuel Hne Hl Hf; [done|].
  apply Forall_cons in Hl as [Hv Hl]. simpl in Hf. destruct fuel as [|fuel]; [lia|].
  cbn [parse_elements map]. destruct l as [|w l].
  - cbn [map join]. rewrite Hv by (simpl in *; done || lia). cbn [mbind option_bind].
    by rewrite expect_app.
  - cbn [map]. rewrite join_cons2, app_assoc_str. rewrite Hv by (done || lia).
    cbn [mbind option_bind]. rewrite app_assoc_str.
    assert (expect "]" ("," +:+ join "," (print_json enc w :: map (print_json enc) l)
                        +:+ "]" +:+ rest) = None) as -> by done.
    rewrite expect_app. cbn [mbind option_bind]. cbn [map] in IH.
    rewrite (IH fuel); [done|done|done|]. simpl in *. lia.
Qed.

Lemma parses_members l fuel rest :
  l ≠ [] → Forall (λ kv, encodes_str enc kv.1 ∧ parses kv.2) l →
  (foldr (λ kv n, S (json_size kv.2 + n)) O l ≤ fuel)%nat →
  parse_members fuel
    (join "," (map (λ kv, print_string enc kv.1 +:+ ":" +:+ print_json enc kv.2) l)
     +:+ "}" +:+ rest) = Some (l, rest).
Proof.
  revert fuel. induction l as [|[k v] l IH]; intros fuel Hne Hl Hf; [done|].
  apply Forall_cons in Hl as [[Hk Hv] Hl]. simpl in Hf, Hk, Hv. destruct fuel as [|fuel]; [lia|].
  cbn [parse_members map fst snd]. destruct l as [|[k' w] l].
  - cbn [map join]. rewrite app_assoc_str, parse_string_print by done. cbn [mbind option_bind].
    rewrite app_assoc_str, expect_app. cbn [mbind option_bind].
    rewrite Hv by (simpl in *; done || lia). cbn [mbind option_bind]. by rewrite expect_app.
  - cbn [map fst snd]. rewrite join_cons2, !app_assoc_str, parse_string_print by done.
    cbn [mbind option_bind]. rewrite expect_app. cbn [mbind option_bind].
    rewrite Hv by (done || lia). cbn [mbind option_bind].
    match goal with |- context [expect "}" (?x +:+ ?y)] =>
      assert (expect "}" (x +:+ y) = None) as -> by done end.
    rewrite expect_app. cbn [mbind option_bind]. cbn [map fst snd] in IH.
    rewrite (IH fuel); [done|done|done|]. simpl in *. lia.
Qed.

Lemma foldr_and_Forall {A} (P : A → Prop) (l : list A) :
  foldr (λ x Q, P x ∧ Q) True l ↔ Forall P l.
Proof.
  induction l as [|x l IH]; simpl; [by split|]. rewrite Forall_cons, IH. done.
Qed.

Lemma print_json_parses v : encodable enc v → parses v.
Proof.
  induction v as [z|s|b|l IH|l IH] using json_ind'; intros He.
  - apply parses_num.
  - by apply parses_str.
  - apply parses_bool.
  - cbn [encodable] in He. rewrite foldr_and_Forall in He.
    intros [|fuel] rest Hf Hr; [simpl in Hf; lia|]. destruct l as [|v l]; [done|].
    cbn [parse_value print_json]. rewrite !app_assoc_str.
    assert (starts_with ("[" +:+ join "," (map (print_json enc) (v :: l)) +:+ "]" +:+ rest)
              (str dquote) = false) as -> by done.
    assert (starts_with ("[" +:+ join "," (map (print_json enc) (v :: l)) +:+ "]" +:+ rest) "[]"
            = false) as ->.
    { change (starts_with (join "," (map (print_json enc) (v :: l)) +:+ "]" +:+ rest) (str "]"%char)
              = false).
      destruct l; cbn [map join]; rewrite ?app_assoc_str; apply print_json_head; by left. }
    rewrite starts_with_app. change (str_drop 1 ("[" +:+ ?x)) with x.
    rewrite parses_elements; [done|done| |simpl in *; lia].
    apply Forall_forall. intros w Hw. rewrite !Forall_forall in *. auto.
  - cbn [encodable] in He.
    rewrite (foldr_and_Forall (λ kv, encodes_str enc kv.1 ∧ encodable enc kv.2)) in He.
    intros [|fuel] rest Hf Hr; [simpl in Hf; lia|]. destruct l as [|[k v] l]; [done|].
    cbn [parse_value print_json]. rewrite !app_assoc_str.
    assert (∀ x, starts_with ("{" +:+ x) (str dquote) = false) as -> by done.
    assert (∀ x, starts_with ("{" +:+ x) "[]" = false) as -> by done.
    assert (∀ x, starts_with ("{" +:+ x) "[" = false) as -> by done.
    match goal with |- context [starts_with ("{" +:+ ?x) "{}"] =>
      assert (starts_with ("{" +:+ x) "{}" = false) as -> end.
    { destruct l; cbn [map join fst snd]; rewrite ?app_assoc_str; unfold print_string; done. }
    rewrite starts_with_app. change (str_drop 1 ("{" +:+ ?x)) with x.
    rewrite parses_members; [done|done| |simpl in *; lia].
    apply Forall_forall. intros w Hw. rewrite !Forall_forall in *.
    destruct (He w Hw) as [? ?]. auto.
Qed.

Lemma join_length l :
  (foldr (λ s n, S (str_length s + n)) O l ≤ S (str_length (join "," l)))%nat.
Proof.
  induction l as [|a l IH]; [simpl; lia|]. destruct l as [|b l]; [simpl; lia|].
  rewrite join_cons2, !str_length_app. change (str_length ",") with 1%nat.
  cbn [foldr] in *. lia.
Qed.

Lemma foldr_size_le {A} (f g : A → nat) l :
  Forall (λ x, (f x ≤ g x)%nat) l →
  (foldr (λ x n, S (f x + n)) O l ≤ foldr (λ x n, S (g x + n)) O l)%nat.
Proof. induction 1; simpl; lia. Qed.

Lemma foldr_map_size {A} (f : A → string) l :
  foldr (λ s n, S (str_length s + n)) O (map f l)
  = foldr (λ x n, S (str_length (f x) + n)) O l.
Proof. induction l as [|x l IH]; [done|]. simpl. by rewrite IH. Qed.

Lemma json_size_print v : (json_size v ≤ str_length (print_json enc v))%nat.
Proof.
  induction v as [z|s|b|l IH|l IH] using json_ind'; cbn [json_size print_json].
  - destruct (to_string_head z) as (c & t & -> & _). unfold str_length. simpl. lia.
  - unfold print_string. rewrite !str_length_app. unfold str. simpl. lia.
  - destruct b; unfold str_length; simpl; lia.
  - rewrite !str_length_app. pose proof (join_length (map (print_json enc) l)) as Hj.
    rewrite foldr_map_size in Hj. pose proof (foldr_size_le json_size _ _ IH) as Hs.
    cbv beta in Hs.
    change (str_length "[") with 1%nat. change (str_length "]") with 1%nat. lia.
  - rewrite !str_length_app.
    pose proof (join_length (map (λ kv, print_string enc kv.1 +:+ ":" +:+ print_json enc kv.2) l))
      as Hj.
    rewrite foldr_map_size in Hj.
    pose proof (foldr_size_le (λ kv : string * json, json_size kv.2)
      (λ kv, str_length (print_string enc kv.1 +:+ ":" +:+ print_json enc kv.2)) l) as Hs.
    change (str_length "{") with 1%nat. change (str_length "}") with 1%nat.
    enough (Forall (λ kv : string * json, (json_size kv.2 ≤
      str_length (print_string enc kv.1 +:+ ":" +:+ print_json enc kv.2))%nat) l)
      as H by (specialize (Hs H); cbv beta in Hs; lia).
    eapply Forall_impl; [done|]. intros kv Hkv. cbv beta in Hkv. rewrite !str_length_app. lia.
Qed.

(** A printed document reads back as itself. *)
Lemma parse_print v : encodable enc v → parse_document (print_json enc v) = Some v.
Proof.
  intros He. unfold parse_document.
  pose proof (print_json_parses v He (S (str_length (print_json enc v))) "") as Hp.
  rewrite app_empty_r in Hp. rewrite Hp; [done| |done].
  pose proof (json_size_print v). lia.
Qed.

End RoundTrip.

(** ** Two encoders that agree *)

(** All characters of the strings of a document. *)
Fixpoint json_chars (P : ascii → bool) (v : json) : bool :=
  match v with
  | JNum _ | JBool _ => true
  | JStr s => str_forall P s
  | JArr l => forallb (json_chars P) l
  | JObj l => forallb (λ kv, str_forall P kv.1 && json_chars P kv.2) l
  end.

Lemma escape_with_agree (e1 e2 : ascii → string) P s :
  (∀ c, P c = true → e1 c = e2 c) → str_forall P s = true → escape_with e1 s = escape_with e2 s.
Proof.
  intros He. induction s as [|c s IH]; [done|]. cbn [str_forall escape_with]. rewrite andb_true_iff.
  intros [Hc Hs]. by rewrite He, IH.
Qed.

Lemma forallb_map_ext {A B} (P : A → bool) (f g : A → B) l :
  forallb P l = true → Forall (λ a, P a = true → f a = g a) l → map f l = map g l.
Proof.
  induction l as [|a l IH]; [done|]. cbn [forallb map]. rewrite andb_true_iff, Forall_cons.
  intros [Ha Hl] [Hf Hall]. by rewrite Hf, IH.
Qed.

(** A document whose characters two encoders treat alike is printed alike. *)
Lemma print_json_agree (e1 e2 : ascii → string) P v :
  (∀ c, P c = true → e1 c = e2 c) → json_chars P v = true → print_json e1 v = print_json e2 v.
Proof.
  intros He. induction v as [z|s|b|l IH|l IH] using json_ind'; cbn [json_chars print_json]; intros Hv;
    try done.
  - unfold print_string. by rewrite (escape_with_agree e1 e2 P).
  - by rewrite (forallb_map_ext (json_chars P) _ (print_json e2)).
  - do 3 f_equal. eapply forallb_map_ext; [exact Hv|]. eapply Forall_impl; [exact IH|].
    intros [k v] Hkv. cbn in *. rewrite andb_true_iff. intros [Hk Hc]. unfold print_string.
    by rewrite (escape_with_agree e1 e2 P), Hkv.
Qed.

(** A document is encodable when the encoder can encode its characters. *)
Lemma json_chars_encodable enc P v :
  (∀ s, str_forall P s = true → encodes_str enc s) → json_chars P v = true → encodable enc v.
Proof.
  intros He. induction v as [z|s|b|l IH|l IH] using json_ind'; cbn [json_chars encodable]; intros Hv;
    auto.
  - rewrite (foldr_and_Forall (encodable enc)). rewrite forallb_forall in Hv.
    rewrite Forall_forall in *. intros x Hx. apply IH; [done|]. by apply Hv, list_elem_of_In.
  - rewrite (foldr_and_Forall (λ kv, encodes_str enc kv.1 ∧ encodable enc kv.2)).
    rewrite forallb_forall in Hv. rewrite Forall_forall in *. intros x Hx.
    apply list_elem_of_In in Hx as Hx'. apply Hv, andb_true_iff in Hx' as [Hk Hc]. split; auto.
Qed.
