(* ===== verification/Charconv.v ===== *)
(** * <charconv>: std::from_chars on unsigned 64-bit integers

    As src/main.cpp (base 10) and src/package/rootfs.cpp (base 16) use it. *)

From S2P Require Import Prelude CxxString Json.

(** The value of a digit in base 10 or 16. *)
Definition digit_value (base : Z) (c : ascii) : option Z :=
  match hex_value c with
  | Some v => if v <? base then Some v else None
  | None => None
  end.

(** The longest prefix of digits: its value and what follows, with the value so
    far unbounded. *)
Fixpoint read_number (base acc : Z) (s : string) : Z * string :=
  match s with
  | "" => (acc, s)
  | String c t =>
      match digit_value base c with
      | Some v => read_number base (acc * base + v) t
      | None => (acc, s)
      end
  end.

(** [from_chars(first, last, value, base)]: [None] when [ec] is set (no digit, or
    out of range), else the value and the text from [ptr] on. *)
Definition from_chars (base : Z) (s : string) : option (Z * string) :=
  match s with
  | "" => None
  | String c _ =>
      match digit_value base c with
      | None => None
      | Some _ =>
          let '(value, rest) := read_number base 0 s in
          if value <? 2 ^ 64 then Some (value, rest) else None
      end
  end.

(** The guard [error != std::errc{} || end != value.data() + value.size()]: the
    number, when the whole text is one. *)
Definition parse_u64 (s : string) : option Z :=
  match from_chars 10 s with
  | Some (value, "") => Some value
  | _ => None
  end.

(** ** What parse_u64 accepts *)

(** The number a text of digits denotes. *)
Definition decimal (s : string) : Z := (read_number 10 0 s).1.

Lemma digit_value_decimal c : digit_value 10 c = if is_digit c then Some (code c - 48) else None.
Proof. destruct c as [[] [] [] [] [] [] [] []]; reflexivity. Qed.

Lemma read_number_digits acc s : str_forall is_digit s = true → (read_number 10 acc s).2 = "".
Proof.
  revert acc. induction s as [|c s IH]; intros acc; [done|]. cbn [str_forall read_number].
  rewrite andb_true_iff. intros [Hc Hs]. rewrite digit_value_decimal, Hc. by apply IH.
Qed.

Lemma read_number_rest acc s : (read_number 10 acc s).2 = "" → str_forall is_digit s = true.
Proof.
  revert acc. induction s as [|c s IH]; intros acc; [done|]. cbn [str_forall read_number].
  rewrite digit_value_decimal. destruct (is_digit c); [|done]. intros H. by apply IH in H.
Qed.

Lemma parse_u64_iff s n :
  parse_u64 s = Some n ↔ s ≠ "" ∧ str_forall is_digit s = true ∧ decimal s = n ∧ n < 2 ^ 64.
Proof.
  unfold parse_u64, from_chars, decimal. destruct s as [|c t]; [split; [done|by intros []]|].
  rewrite digit_value_decimal. destruct (is_digit c) eqn:Ec.
  - pose proof (read_number_digits 0 (String c t)) as H1.
    pose proof (read_number_rest 0 (String c t)) as H2.
    destruct (read_number 10 0 (String c t)) as [v rest]. cbn [snd fst] in *.
    destruct (Z.ltb_spec v (2 ^ 64)) as [Hv|Hv].
    + destruct rest as [|d rest].
      * split; [intros [= <-]; by auto|]. by intros (_ & _ & -> & _).
      * split; [done|]. intros (_ & Hd & _). by specialize (H1 Hd).
    + split; [done|]. intros (_ & _ & -> & ?). lia.
  - split; [done|]. intros (_ & Hd & _). cbn [str_forall] in Hd. by rewrite Ec in Hd.
Qed.

Lemma read_number_nat acc s :
  read_number 10 (Z.of_N acc) s = (Z.of_N (read_digits acc s).1, (read_digits acc s).2).
Proof.
  revert acc. induction s as [|c s IH]; intros acc; [done|]. cbn [read_number read_digits].
  rewrite digit_value_decimal. destruct (is_digit c) eqn:Ec; [|done]. rewrite <- IH. f_equal.
  unfold is_digit in Ec. lia.
Qed.

Lemma decimal_print n : 0 ≤ n → decimal (to_string n) = n.
Proof.
  intros Hn. unfold decimal. pose proof (parse_nat_print (Z.to_N n) "" eq_refl) as H.
  rewrite app_empty_r, <- to_string_nonneg, Z2N.id in H by done. unfold parse_nat in H.
  destruct (to_string n) as [|c t]; [done|]. destruct (is_digit c); [|done].
  change 0 with (Z.of_N 0). rewrite read_number_nat. apply (inj Some) in H. rewrite H. cbn [fst]. lia.
Qed.

Lemma parse_u64_print n : 0 ≤ n < 2 ^ 64 → parse_u64 (to_string n) = Some n.
Proof.
  intros Hn. apply parse_u64_iff.
  destruct (to_string_digits n) as [Hd Hne]; [lia|]. split_and!; [|done| |lia].
  - by intros E; rewrite E in Hne.
  - apply decimal_print. lia.
Qed.

(** A numeric option is accepted exactly when it is written in decimal
    digits only and its value fits 64 bits, and then it is read as that value;
    every 64-bit number reads back from its decimal text. *)
Theorem numbers_read_exactly s n :
  (parse_u64 s = Some n ↔ s ≠ "" ∧ str_forall is_digit s = true ∧ decimal s = n ∧ n < 2 ^ 64) ∧
  (0 ≤ n < 2 ^ 64 → parse_u64 (to_string n) = Some n).
Proof. split; [apply parse_u64_iff|apply parse_u64_print]. Qed.
