(* ===== verification/Event.v ===== *)
(** * Events (include/execell/event/event.hpp)

    The variant [execell::event::Event] with one constructor per alternative.
    The generic visitors of the program test with [requires { value.path; }]
    which members an alternative has; the [_of] accessors below are those
    tests, [None] where the alternative has no such member. *)

From S2P Require Import Prelude CxxString.

Record EventContext := mkContext { ctx_pid : Z; ctx_sequence : Z }.

(** [EventContext{}] *)
Definition empty_context : EventContext := mkContext 0 0.

#[export] Instance EventContext_eq_dec : EqDecision EventContext.
Proof. solve_decision. Defined.

Inductive Event : Type :=
| FileOpened (fd : Z) (path : string) (context : EventContext)
| FileRead (fd : Z) (path : string) (bytes : Z) (context : EventContext)
| FileWritten (fd : Z) (path : string) (bytes : Z) (context : EventContext)
| FileClosed (fd : Z) (path : string) (context : EventContext)
| FileDeleted (path : string) (context : EventContext)
| FileRenamed (from to : string) (context : EventContext)
| DirectoryCreated (path : string) (context : EventContext)
| FileModeChanged (path : string) (mode : Z) (context : EventContext)
| SocketCreated (fd domain type protocol : Z) (context : EventContext)
| NetworkConnected (fd : Z) (endpoint : string) (context : EventContext)
| NetworkBound (fd : Z) (endpoint : string) (context : EventContext)
| NetworkListening (fd backlog : Z) (context : EventContext)
| NetworkAccepted (fd : Z) (endpoint : string) (context : EventContext)
| SyscallFailed (pid : Z) (syscall : string) (error : Z) (context : EventContext)
| TraceStarted (pid : Z) (context : EventContext)
| TraceFinished (pid status : Z) (signaled : bool) (context : EventContext)
| PolicyViolation (rule resource : string) (context : EventContext)
| ProcessSpawned (pid parent_pid : Z) (context : EventContext)
| ProcessExec (pid : Z) (path : string) (context : EventContext)
| ProcessExited (pid status : Z) (signaled : bool) (context : EventContext).

#[export] Instance Event_eq_dec : EqDecision Event.
Proof. solve_decision. Defined.

(** [std::visit([](const auto& value) { return value.context; }, event)] *)
Definition context_of (e : Event) : EventContext :=
  match e with
  | FileOpened _ _ c | FileRead _ _ _ c | FileWritten _ _ _ c | FileClosed _ _ c
  | FileDeleted _ c | FileRenamed _ _ c | DirectoryCreated _ c | FileModeChanged _ _ c
  | SocketCreated _ _ _ _ c | NetworkConnected _ _ c | NetworkBound _ _ c
  | NetworkListening _ _ c | NetworkAccepted _ _ c | SyscallFailed _ _ _ c
  | TraceStarted _ c | TraceFinished _ _ _ c | PolicyViolation _ _ c
  | ProcessSpawned _ _ c | ProcessExec _ _ c | ProcessExited _ _ _ c => c
  end.

(** [std::visit([&](auto& value) { value.context = c; }, event)] *)
Definition set_context (c : EventContext) (e : Event) : Event :=
  match e with
  | FileOpened fd p _ => FileOpened fd p c
  | FileRead fd p b _ => FileRead fd p b c
  | FileWritten fd p b _ => FileWritten fd p b c
  | FileClosed fd p _ => FileClosed fd p c
  | FileDeleted p _ => FileDeleted p c
  | FileRenamed a b _ => FileRenamed a b c
  | DirectoryCreated p _ => DirectoryCreated p c
  | FileModeChanged p m _ => FileModeChanged p m c
  | SocketCreated fd d t p _ => SocketCreated fd d t p c
  | NetworkConnected fd e _ => NetworkConnected fd e c
  | NetworkBound fd e _ => NetworkBound fd e c
  | NetworkListening fd b _ => NetworkListening fd b c
  | NetworkAccepted fd e _ => NetworkAccepted fd e c
  | SyscallFailed p s e _ => SyscallFailed p s e c
  | TraceStarted p _ => TraceStarted p c
  | TraceFinished p s g _ => TraceFinished p s g c
  | PolicyViolation r s _ => PolicyViolation r s c
  | ProcessSpawned p q _ => ProcessSpawned p q c
  | ProcessExec p s _ => ProcessExec p s c
  | ProcessExited p s g _ => ProcessExited p s g c
  end.

(** [value.path] *)
Definition path_of (e : Event) : option string :=
  match e with
  | FileOpened _ p _ | FileRead _ p _ _ | FileWritten _ p _ _ | FileClosed _ p _
  | FileDeleted p _ | DirectoryCreated p _ | FileModeChanged p _ _
  | ProcessExec _ p _ => Some p
  | _ => None
  end.

(** [value.endpoint] *)
Definition endpoint_of (e : Event) : option string :=
  match e with
  | NetworkConnected _ p _ | NetworkBound _ p _ | NetworkAccepted _ p _ => Some p
  | _ => None
  end.

(** [value.bytes] *)
Definition bytes_of (e : Event) : option Z :=
  match e with
  | FileRead _ _ b _ | FileWritten _ _ b _ => Some b
  | _ => None
  end.

(** [value.fd] *)
Definition fd_of (e : Event) : option Z :=
  match e with
  | FileOpened fd _ _ | FileRead fd _ _ _ | FileWritten fd _ _ _ | FileClosed fd _ _
  | SocketCreated fd _ _ _ _ | NetworkConnected fd _ _ | NetworkBound fd _ _
  | NetworkListening fd _ _ | NetworkAccepted fd _ _ => Some fd
  | _ => None
  end.

(** [value.mode] *)
Definition mode_of (e : Event) : option Z :=
  match e with
  | FileModeChanged _ m _ => Some m
  | _ => None
  end.

(** [value.rule], [value.resource] *)
Definition rule_of (e : Event) : option (string * string) :=
  match e with
  | PolicyViolation r s _ => Some (r, s)
  | _ => None
  end.

(** [value.syscall], [value.error] *)
Definition syscall_of (e : Event) : option (string * Z) :=
  match e with
  | SyscallFailed _ s n _ => Some (s, n)
  | _ => None
  end.

(** [value.status], [value.signaled] *)
Definition status_of (e : Event) : option (Z * bool) :=
  match e with
  | TraceFinished _ s g _ | ProcessExited _ s g _ => Some (s, g)
  | _ => None
  end.

(** [value.parent_pid] *)
Definition parent_pid_of (e : Event) : option Z :=
  match e with
  | ProcessSpawned _ p _ => Some p
  | _ => None
  end.

Lemma context_of_set c e : context_of (set_context c e) = c.
Proof. by destruct e. Qed.

Lemma set_context_set c d e : set_context c (set_context d e) = set_context c e.
Proof. by destruct e. Qed.

#[export] Hint Rewrite context_of_set set_context_set : execell_str.
