(* ===== verification/Stop.v ===== *)
(** * Wait-status classification (include/execell/trace/stop.hpp, src/trace/stop.cpp)

    [classify_stop] with the wait-status macros of <sys/wait.h>, and
    [resume_signal].  [wait_event] lists the statuses the kernel reports for a
    tracee whose options are the ones the tracer sets; [encode_status] is
    their documented encoding, against which the classification is proved. *)

From S2P Require Import Prelude.

(** ** <signal.h> and <sys/wait.h> on Linux x86_64 *)

Definition SIGKILL : Z := 9.
Definition SIGTRAP : Z := 5.
Definition SIGSTOP : Z := 19.
Definition SIGTSTP : Z := 20.
Definition SIGTTIN : Z := 21.
Definition SIGTTOU : Z := 22.

Definition WTERMSIG (status : Z) : Z := Z.land status 127.
Definition WEXITSTATUS (status : Z) : Z := Z.shiftr (Z.land status 65280) 8.
Definition WSTOPSIG (status : Z) : Z := WEXITSTATUS status.
Definition WIFEXITED (status : Z) : bool := WTERMSIG status =? 0.
(** [((signed char)((status & 0x7f) + 1) >> 1) > 0] *)
Definition WIFSIGNALED (status : Z) : bool :=
  let b := WTERMSIG status + 1 in
  0 <? Z.shiftr (if b <? 128 then b else b - 256) 1.
Definition WIFSTOPPED (status : Z) : bool := Z.land status 255 =? 127.

(** ** The code *)

Inductive StopKind : Type :=
| exited | signaled | syscall | ptrace_event | signal | group_stop | unknown.

#[export] Instance StopKind_eq_dec : EqDecision StopKind.
Proof. solve_decision. Defined.

Record Stop := mkStop {
  stop_pid : Z;
  stop_raw_status : Z;
  stop_kind : StopKind;
  stop_signal : Z;
  stop_ptrace_event : Z;
  stop_exit_status : Z
}.

Definition classify_stop (pid status : Z) : Stop :=
  if WIFEXITED status then
    mkStop pid status exited 0 0 (WEXITSTATUS status)
  else if WIFSIGNALED status then
    mkStop pid status signaled (WTERMSIG status) 0 0
  else if negb (WIFSTOPPED status) then
    mkStop pid status unknown 0 0 0
  else
    let sig := WSTOPSIG status in
    if sig =? Z.lor SIGTRAP 128 then
      mkStop pid status syscall sig 0 0
    else if (sig =? SIGTRAP) && negb (Z.shiftr (u32 status) 16 =? 0) then
      mkStop pid status ptrace_event sig (Z.shiftr (u32 status) 16) 0
    else if (sig =? SIGSTOP) || (sig =? SIGTSTP) || (sig =? SIGTTIN) || (sig =? SIGTTOU) then
      mkStop pid status group_stop sig 0 0
    else
      mkStop pid status signal sig 0 0.

Definition resume_signal (stop : Stop) : Z :=
  match stop_kind stop with
  | signal => if stop_signal stop =? SIGTRAP then 0 else stop_signal stop
  | _ => 0
  end.

(** ** What the kernel reports *)

Inductive wait_event : Type :=
| WExited (status : Z)
| WKilled (sig : Z) (core : bool)
| WSyscallStop
| WEventStop (event : Z)
| WSignalStop (sig : Z).

Definition wait_event_wf (w : wait_event) : Prop :=
  match w with
  | WExited n => 0 ≤ n < 256
  | WKilled s _ => 1 ≤ s ≤ 64
  | WSyscallStop => True
  | WEventStop e => 1 ≤ e < 2 ^ 15
  | WSignalStop s => 1 ≤ s ≤ 64
  end.

Definition encode_status (w : wait_event) : Z :=
  match w with
  | WExited n => n * 256
  | WKilled s core => s + (if core then 128 else 0)
  | WSyscallStop => (SIGTRAP + 128) * 256 + 127
  | WEventStop e => e * 65536 + SIGTRAP * 256 + 127
  | WSignalStop s => s * 256 + 127
  end.

Definition is_group_stop (s : Z) : bool :=
  (s =? SIGSTOP) || (s =? SIGTSTP) || (s =? SIGTTIN) || (s =? SIGTTOU).

(** The kind and payload each report must be classified as. *)
Definition expected_stop (pid : Z) (w : wait_event) : Stop :=
  let st := encode_status w in
  match w with
  | WExited n => mkStop pid st exited 0 0 n
  | WKilled s _ => mkStop pid st signaled s 0 0
  | WSyscallStop => mkStop pid st syscall (SIGTRAP + 128) 0 0
  | WEventStop e => mkStop pid st ptrace_event SIGTRAP e 0
  | WSignalStop s => mkStop pid st (if is_group_stop s then group_stop else signal) s 0 0
  end.

(** ** Bit fields of a status as quotients and remainders *)

Lemma WTERMSIG_mod st : WTERMSIG st = st mod 128.
Proof. apply (Z.land_ones st 7). lia. Qed.

Lemma land_255_mod st : Z.land st 255 = st mod 256.
Proof. apply (Z.land_ones st 8). lia. Qed.

Lemma WEXITSTATUS_div st : WEXITSTATUS st = (st / 256) mod 256.
Proof.
  unfold WEXITSTATUS. rewrite Z.shiftr_land, Z.shiftr_div_pow2 by lia.
  apply (Z.land_ones (st / 2 ^ 8) 8). lia.
Qed.

Lemma event_field_div st : 0 ≤ st < 2 ^ 32 → Z.shiftr (u32 st) 16 = st / 65536.
Proof. intros. rewrite u32_small, Z.shiftr_div_pow2 by lia. done. Qed.

Lemma status_exited n : 0 ≤ n < 256 → (n * 256) mod 128 = 0 ∧ (n * 256) / 256 mod 256 = n.
Proof.
  intros. split.
  - replace (n * 256) with ((n * 2) * 128) by lia. apply Z.mod_mul. lia.
  - rewrite Z.div_mul by lia. apply Z.mod_small. lia.
Qed.

Lemma status_stopped x s :
  0 ≤ s < 256 →
  let st := x * 65536 + s * 256 + 127 in
  st mod 128 = 127 ∧ st mod 256 = 127 ∧ (st / 256) mod 256 = s ∧ st / 65536 = x.
Proof.
  intros Hs st. subst st.
  assert ((x * 65536 + s * 256 + 127) / 256 = x * 256 + s) as E.
  { symmetry. apply Z.div_unique_pos with 127; lia. }
  repeat split.
  - symmetry. apply Z.mod_unique_pos with (x * 512 + s * 2); lia.
  - symmetry. apply Z.mod_unique_pos with (x * 256 + s); lia.
  - rewrite E. symmetry. apply Z.mod_unique_pos with x; lia.
  - symmetry. apply Z.div_unique_pos with (s * 256 + 127); lia.
Qed.

Lemma status_killed s (core : bool) :
  1 ≤ s ≤ 64 → (s + (if core then 128 else 0)) mod 128 = s.
Proof.
  intros. destruct core.
  - symmetry. apply Z.mod_unique_pos with 1; lia.
  - rewrite Z.add_0_r. apply Z.mod_small. lia.
Qed.

(** A stopped status is classified from its two fields. *)
Lemma classify_stopped pid x s :
  0 ≤ s < 256 → 0 ≤ x < 2 ^ 15 →
  let st := x * 65536 + s * 256 + 127 in
  classify_stop pid st =
    if s =? 133 then mkStop pid st syscall s 0 0
    else if (s =? SIGTRAP) && negb (x =? 0) then mkStop pid st ptrace_event s x 0
    else if is_group_stop s then mkStop pid st group_stop s 0 0
    else mkStop pid st signal s 0 0.
Proof.
  intros Hs Hx st. destruct (status_stopped x s Hs) as (E1 & E2 & E3 & E4).
  fold st in E1, E2, E3, E4.
  unfold classify_stop, WIFEXITED, WIFSIGNALED, WIFSTOPPED, WSTOPSIG.
  rewrite WTERMSIG_mod, land_255_mod, WEXITSTATUS_div, E1, E2, E3.
  rewrite event_field_div by (unfold st; lia). rewrite E4. done.
Qed.

(** ** Properties *)

Lemma classify_encode pid w :
  wait_event_wf w → classify_stop pid (encode_status w) = expected_stop pid w.
Proof.
  unfold expected_stop. destruct w as [n|s core| |e|s]; simpl; intros Hw.
  - destruct (status_exited n Hw) as [E1 E2].
    unfold classify_stop, WIFEXITED. by rewrite WTERMSIG_mod, WEXITSTATUS_div, E1, E2.
  - unfold classify_stop, WIFEXITED, WIFSIGNALED.
    rewrite WTERMSIG_mod, status_killed by done.
    destruct (Z.eqb_spec s 0); [lia|]. destruct (Z.ltb_spec (s + 1) 128); [|lia].
    rewrite Z.shiftr_div_pow2 by lia.
    destruct (Z.ltb_spec 0 ((s + 1) / 2 ^ 1)) as [|Hle]; [done|].
    assert (1 ≤ (s + 1) / 2 ^ 1) by (apply Z.div_le_lower_bound; lia). lia.
  - done.
  - rewrite classify_stopped by (unfold SIGTRAP; lia).
    destruct (Z.eqb_spec e 0); [lia|]. done.
  - change (s * 256 + 127) with (0 * 65536 + s * 256 + 127).
    rewrite classify_stopped by lia. destruct (Z.eqb_spec s 133); [lia|].
    rewrite andb_false_r. by destruct (is_group_stop s).
Qed.

Lemma resume_signal_encode pid w :
  wait_event_wf w →
  resume_signal (classify_stop pid (encode_status w)) =
  match w with
  | WSignalStop s => if is_group_stop s || (s =? SIGTRAP) then 0 else s
  | _ => 0
  end.
Proof.
  intros Hw. rewrite classify_encode by done.
  destruct w as [| | | |s]; try done. unfold expected_stop, resume_signal. simpl.
  by destruct (is_group_stop s).
Qed.

(** C36: every wait report of the kernel (exit, kill, syscall stop, ptrace
    event stop, signal stop) is decoded to the stop it encodes, with its pid,
    exit code, signal and event number, and the signal chosen for the restart
    is the one of an ordinary signal stop and none otherwise. *)
Theorem classify_stop_correct pid w :
  wait_event_wf w →
  classify_stop pid (encode_status w) = expected_stop pid w ∧
  resume_signal (classify_stop pid (encode_status w)) =
    match w with
    | WSignalStop s => if is_group_stop s || (s =? SIGTRAP) then 0 else s
    | _ => 0
    end.
Proof. intros Hw. split; [by apply classify_encode|by apply resume_signal_encode]. Qed.

Lemma classify_stop_correct_witness :
  classify_stop 7 (encode_status (WSignalStop 15)) = expected_stop 7 (WSignalStop 15) ∧
  resume_signal (classify_stop 7 (encode_status (WSignalStop 15))) = 15.
Proof. apply (classify_stop_correct 7 (WSignalStop 15)). simpl. unfold SIGTRAP. lia. Defined.
