(* ===== verification/FdTable.v ===== *)
(** * The descriptor table of a tracee
    (include/execell/trace/fd_table.hpp, src/trace/fd_table.cpp)

    [FdTable::entries_] is a finite map from descriptor numbers to paths.
    Every operation is characterised by what it does to [lookup]. *)

From S2P Require Import Prelude.

Module FdTable.

(** [std::unordered_map<int, std::string> entries_] *)
Abbreviation t := (gmap Z string).

Definition empty : t := ∅.

(** [entries_.insert_or_assign(fd, path)] *)
Definition track (fd : Z) (path : string) (table : t) : t := <[fd := path]> table.

Definition lookup (fd : Z) (table : t) : option string := table !! fd.

Definition contains (fd : Z) (table : t) : bool := bool_decide (is_Some (table !! fd)).

(** [entries_.erase(fd)] *)
Definition close (fd : Z) (table : t) : t := delete fd table.

Definition duplicate (source_fd target_fd : Z) (table : t) : t :=
  match lookup source_fd table with
  | None => close target_fd table
  | Some path => track target_fd path table
  end.

(** The test [fd >= first && fd <= last] on [static_cast<unsigned>(fd)]. *)
Definition in_close_range (first last fd : Z) : Prop := first ≤ u32 fd ∧ u32 fd ≤ last.

#[export] Instance in_close_range_dec first last fd : Decision (in_close_range first last fd).
Proof. unfold in_close_range. apply _. Defined.

(** Erases, in one pass over the entries, those whose key is in the range. *)
Definition close_range (first last : Z) (table : t) : t :=
  filter (λ kv, ¬ in_close_range first last kv.1) table.

(** ** Behaviour of the operations *)

Lemma lookup_track fd fd' path table :
  lookup fd' (track fd path table) = if decide (fd = fd') then Some path else lookup fd' table.
Proof. unfold lookup, track. by rewrite lookup_insert. Qed.

Lemma lookup_close fd fd' table :
  lookup fd' (close fd table) = if decide (fd = fd') then None else lookup fd' table.
Proof. unfold lookup, close. by rewrite lookup_delete. Qed.

Lemma close_untracked fd table : lookup fd table = None → close fd table = table.
Proof. apply delete_id. Qed.

Lemma lookup_duplicate source target fd table :
  lookup fd (duplicate source target table) =
  if decide (target = fd) then lookup source table else lookup fd table.
Proof.
  unfold duplicate. destruct (lookup source table) as [p|] eqn:E;
    [rewrite lookup_track|rewrite lookup_close]; by case_decide.
Qed.

Lemma lookup_close_range first last fd table :
  lookup fd (close_range first last table) =
  if decide (in_close_range first last fd) then None else lookup fd table.
Proof.
  unfold lookup, close_range. case_decide as Hr.
  - apply map_lookup_filter_None. right. intros x _ Hn. by apply Hn.
  - destruct (table !! fd) as [p|] eqn:E.
    + by apply map_lookup_filter_Some.
    + apply map_lookup_filter_None. by left.
Qed.

Lemma contains_lookup fd table : contains fd table = true ↔ is_Some (lookup fd table).
Proof. apply bool_decide_eq_true. Qed.

(** Two tables are the same state exactly when every lookup agrees. *)
Lemma ext table1 table2 : (∀ fd, lookup fd table1 = lookup fd table2) → table1 = table2.
Proof. apply map_eq. Qed.

(** Closing a range is closing each descriptor of it: nothing else changes. *)
Lemma close_range_singleton fd table :
  0 ≤ fd < 2 ^ 31 → (∀ k, is_Some (lookup k table) → 0 ≤ k < 2 ^ 31) →
  close_range fd fd table = close fd table.
Proof.
  intros Hfd Hwf. apply ext. intros k. rewrite lookup_close_range, lookup_close.
  unfold in_close_range.
  destruct (lookup k table) as [p|] eqn:Hk; [|by do 2 case_decide].
  assert (0 ≤ k < 2 ^ 31) by eauto. assert (u32 k = k) by (apply u32_small; lia).
  do 2 case_decide; try done; lia.
Qed.

End FdTable.

#[export] Hint Rewrite FdTable.lookup_track FdTable.lookup_close FdTable.lookup_duplicate
  FdTable.lookup_close_range : execell_str.
