(* ===== verification/Syscall.v ===== *)
(** * System calls and registers
    (include/execell/trace/syscall.hpp, src/trace/syscall.cpp,
     include/execell/trace/syscall_frame.hpp, src/trace/architecture.cpp)

    The numbers are those of <sys/syscall.h> on Linux x86_64, where every
    [#ifdef SYS_...] of the sources is taken. *)

From S2P Require Import Prelude CxxString.

(** ** <sys/syscall.h> *)

Definition SYS_read : Z := 0.
Definition SYS_write : Z := 1.
Definition SYS_open : Z := 2.
Definition SYS_close : Z := 3.
Definition SYS_fstat : Z := 5.
Definition SYS_poll : Z := 7.
Definition SYS_lseek : Z := 8.
Definition SYS_mmap : Z := 9.
Definition SYS_mprotect : Z := 10.
Definition SYS_munmap : Z := 11.
Definition SYS_brk : Z := 12.
Definition SYS_rt_sigaction : Z := 13.
Definition SYS_rt_sigprocmask : Z := 14.
Definition SYS_rt_sigreturn : Z := 15.
Definition SYS_ioctl : Z := 16.
Definition SYS_pread64 : Z := 17.
Definition SYS_pwrite64 : Z := 18.
Definition SYS_readv : Z := 19.
Definition SYS_writev : Z := 20.
Definition SYS_access : Z := 21.
Definition SYS_pipe : Z := 22.
Definition SYS_sched_yield : Z := 24.
Definition SYS_mremap : Z := 25.
Definition SYS_madvise : Z := 28.
Definition SYS_dup : Z := 32.
Definition SYS_dup2 : Z := 33.
Definition SYS_nanosleep : Z := 35.
Definition SYS_getpid : Z := 39.
Definition SYS_socket : Z := 41.
Definition SYS_connect : Z := 42.
Definition SYS_accept : Z := 43.
Definition SYS_sendto : Z := 44.
Definition SYS_recvfrom : Z := 45.
Definition SYS_sendmsg : Z := 46.
Definition SYS_recvmsg : Z := 47.
Definition SYS_shutdown : Z := 48.
Definition SYS_bind : Z := 49.
Definition SYS_listen : Z := 50.
Definition SYS_getsockname : Z := 51.
Definition SYS_getpeername : Z := 52.
Definition SYS_setsockopt : Z := 54.
Definition SYS_getsockopt : Z := 55.
Definition SYS_clone : Z := 56.
Definition SYS_fork : Z := 57.
Definition SYS_vfork : Z := 58.
Definition SYS_execve : Z := 59.
Definition SYS_exit : Z := 60.
Definition SYS_wait4 : Z := 61.
Definition SYS_kill : Z := 62.
Definition SYS_uname : Z := 63.
Definition SYS_fcntl : Z := 72.
Definition SYS_fsync : Z := 74.
Definition SYS_fdatasync : Z := 75.
Definition SYS_truncate : Z := 76.
Definition SYS_ftruncate : Z := 77.
Definition SYS_getcwd : Z := 79.
Definition SYS_chdir : Z := 80.
Definition SYS_fchdir : Z := 81.
Definition SYS_rename : Z := 82.
Definition SYS_mkdir : Z := 83.
Definition SYS_rmdir : Z := 84.
Definition SYS_link : Z := 86.
Definition SYS_unlink : Z := 87.
Definition SYS_symlink : Z := 88.
Definition SYS_readlink : Z := 89.
Definition SYS_chmod : Z := 90.
Definition SYS_fchmod : Z := 91.
Definition SYS_chown : Z := 92.
Definition SYS_fchown : Z := 93.
Definition SYS_umask : Z := 95.
Definition SYS_getrlimit : Z := 97.
Definition SYS_sysinfo : Z := 99.
Definition SYS_ptrace : Z := 101.
Definition SYS_getuid : Z := 102.
Definition SYS_getgid : Z := 104.
Definition SYS_geteuid : Z := 107.
Definition SYS_getegid : Z := 108.
Definition SYS_setpgid : Z := 109.
Definition SYS_getppid : Z := 110.
Definition SYS_setsid : Z := 112.
Definition SYS_setresuid : Z := 117.
Definition SYS_getresuid : Z := 118.
Definition SYS_setresgid : Z := 119.
Definition SYS_getresgid : Z := 120.
Definition SYS_getpgid : Z := 121.
Definition SYS_capget : Z := 125.
Definition SYS_capset : Z := 126.
Definition SYS_sigaltstack : Z := 131.
Definition SYS_prctl : Z := 157.
Definition SYS_arch_prctl : Z := 158.
Definition SYS_setrlimit : Z := 160.
Definition SYS_gettid : Z := 186.
Definition SYS_setxattr : Z := 188.
Definition SYS_lsetxattr : Z := 189.
Definition SYS_fsetxattr : Z := 190.
Definition SYS_listxattr : Z := 194.
Definition SYS_llistxattr : Z := 195.
Definition SYS_flistxattr : Z := 196.
Definition SYS_removexattr : Z := 197.
Definition SYS_lremovexattr : Z := 198.
Definition SYS_fremovexattr : Z := 199.
Definition SYS_futex : Z := 202.
Definition SYS_sched_getaffinity : Z := 204.
Definition SYS_getdents64 : Z := 217.
Definition SYS_set_tid_address : Z := 218.
Definition SYS_clock_gettime : Z := 228.
Definition SYS_exit_group : Z := 231.
Definition SYS_tgkill : Z := 234.
Definition SYS_waitid : Z := 247.
Definition SYS_openat : Z := 257.
Definition SYS_mkdirat : Z := 258.
Definition SYS_fchownat : Z := 260.
Definition SYS_newfstatat : Z := 262.
Definition SYS_unlinkat : Z := 263.
Definition SYS_renameat : Z := 264.
Definition SYS_linkat : Z := 265.
Definition SYS_symlinkat : Z := 266.
Definition SYS_readlinkat : Z := 267.
Definition SYS_fchmodat : Z := 268.
Definition SYS_faccessat : Z := 269.
Definition SYS_ppoll : Z := 271.
Definition SYS_set_robust_list : Z := 273.
Definition SYS_utimensat : Z := 280.
Definition SYS_accept4 : Z := 288.
Definition SYS_dup3 : Z := 292.
Definition SYS_pipe2 : Z := 293.
Definition SYS_prlimit64 : Z := 302.
Definition SYS_syncfs : Z := 306.
Definition SYS_renameat2 : Z := 316.
Definition SYS_getrandom : Z := 318.
Definition SYS_memfd_create : Z := 319.
Definition SYS_execveat : Z := 322.
Definition SYS_statx : Z := 332.
Definition SYS_rseq : Z := 334.
Definition SYS_clone3 : Z := 435.
Definition SYS_close_range : Z := 436.
Definition SYS_openat2 : Z := 437.
Definition SYS_faccessat2 : Z := 439.

(** ** Names *)

(** [syscall_name]: the [case] labels of the switch, in order. *)
Definition syscall_table : list (Z * string) :=
  [(SYS_read, "read");
   (SYS_write, "write");
   (SYS_open, "open");
   (SYS_close, "close");
   (SYS_fstat, "fstat");
   (SYS_lseek, "lseek");
   (SYS_mmap, "mmap");
   (SYS_mprotect, "mprotect");
   (SYS_munmap, "munmap");
   (SYS_brk, "brk");
   (SYS_ioctl, "ioctl");
   (SYS_readv, "readv");
   (SYS_writev, "writev");
   (SYS_access, "access");
   (SYS_sched_yield, "sched_yield");
   (SYS_dup, "dup");
   (SYS_dup2, "dup2");
   (SYS_nanosleep, "nanosleep");
   (SYS_getpid, "getpid");
   (SYS_socket, "socket");
   (SYS_connect, "connect");
   (SYS_accept, "accept");
   (SYS_accept4, "accept4");
   (SYS_sendto, "sendto");
   (SYS_recvfrom, "recvfrom");
   (SYS_bind, "bind");
   (SYS_listen, "listen");
   (SYS_clone, "clone");
   (SYS_clone3, "clone3");
   (SYS_fork, "fork");
   (SYS_vfork, "vfork");
   (SYS_execve, "execve");
   (SYS_execveat, "execveat");
   (SYS_exit, "exit");
   (SYS_exit_group, "exit_group");
   (SYS_wait4, "wait4");
   (SYS_kill, "kill");
   (SYS_uname, "uname");
   (SYS_fcntl, "fcntl");
   (SYS_fsync, "fsync");
   (SYS_fdatasync, "fdatasync");
   (SYS_getcwd, "getcwd");
   (SYS_chdir, "chdir");
   (SYS_fchdir, "fchdir");
   (SYS_rename, "rename");
   (SYS_renameat, "renameat");
   (SYS_renameat2, "renameat2");
   (SYS_mkdir, "mkdir");
   (SYS_mkdirat, "mkdirat");
   (SYS_rmdir, "rmdir");
   (SYS_link, "link");
   (SYS_unlink, "unlink");
   (SYS_unlinkat, "unlinkat");
   (SYS_symlink, "symlink");
   (SYS_readlink, "readlink");
   (SYS_chmod, "chmod");
   (SYS_fchmod, "fchmod");
   (SYS_chown, "chown");
   (SYS_fchown, "fchown");
   (SYS_umask, "umask");
   (SYS_getuid, "getuid");
   (SYS_getgid, "getgid");
   (SYS_geteuid, "geteuid");
   (SYS_getegid, "getegid");
   (SYS_getppid, "getppid");
   (SYS_arch_prctl, "arch_prctl");
   (SYS_set_tid_address, "set_tid_address");
   (SYS_openat, "openat");
   (SYS_openat2, "openat2");
   (SYS_newfstatat, "newfstatat");
   (SYS_statx, "statx");
   (SYS_set_robust_list, "set_robust_list");
   (SYS_prlimit64, "prlimit64");
   (SYS_getrandom, "getrandom");
   (SYS_memfd_create, "memfd_create");
   (SYS_rseq, "rseq");
   (SYS_close_range, "close_range")].

Fixpoint switch (z : Z) (cases : list (Z * string)) (default : string) : string :=
  match cases with
  | [] => default
  | (label, name) :: cases => if z =? label then name else switch z cases default
  end.

Definition syscall_name (syscall : Z) : string := switch syscall syscall_table "unknown".

(** ** Registers *)

(** The fields of [user_regs_struct] that are read; each an unsigned 64-bit word. *)
Record user_regs_struct := mkRegs {
  reg_rdi : Z; reg_rsi : Z; reg_rdx : Z; reg_r10 : Z; reg_r8 : Z; reg_r9 : Z;
  reg_rax : Z; reg_orig_rax : Z
}.

Definition regs_wf (r : user_regs_struct) : Prop :=
  Forall (λ v, 0 ≤ v < 2 ^ 64)
    [reg_rdi r; reg_rsi r; reg_rdx r; reg_r10 r; reg_r8 r; reg_r9 r; reg_rax r; reg_orig_rax r].

Record SyscallFrame := mkFrame {
  frame_number : Z;
  frame_arguments : list Z;
  frame_result : Z
}.

(** [X86_64Architecture::decode] *)
Definition decode (r : user_regs_struct) : SyscallFrame :=
  mkFrame (s64 (reg_orig_rax r))
    [reg_rdi r; reg_rsi r; reg_rdx r; reg_r10 r; reg_r8 r; reg_r9 r]
    (s64 (reg_rax r)).

(** ** Facts *)

Lemma switch_elem z n cases default :
  NoDup cases.*1 → (z, n) ∈ cases → switch z cases default = n.
Proof.
  induction cases as [|[l m] cases IH]; simpl; intros Hnd Hin; [by apply elem_of_nil in Hin|].
  apply NoDup_cons in Hnd as [Hl Hnd]. apply elem_of_cons in Hin as [?|Hin]; simplify_eq.
  - by rewrite Z.eqb_refl.
  - destruct (Z.eqb_spec z l) as [->|]; [|by apply IH].
    exfalso. apply Hl. apply list_elem_of_fmap. by exists (l, n).
Qed.

Lemma switch_default z cases default : z ∉ cases.*1 → switch z cases default = default.
Proof.
  induction cases as [|[l m] cases IH]; simpl; intros Hn; [done|].
  apply not_elem_of_cons in Hn as [? ?]. destruct (Z.eqb_spec z l); [done|]. by apply IH.
Qed.

Lemma syscall_table_labels : NoDup syscall_table.*1.
Proof. apply (bool_decide_unpack _). vm_compute. done. Qed.

Lemma syscall_table_names : NoDup syscall_table.*2.
Proof. apply (bool_decide_unpack _). vm_compute. done. Qed.

Lemma syscall_name_known z n : (z, n) ∈ syscall_table → syscall_name z = n.
Proof. apply switch_elem, syscall_table_labels. Qed.
