(* ===== verification/Memory.v ===== *)
(** * Strings of a tracee's memory (include/execell/trace/memory.hpp, src/trace/memory.cpp)

    [ptrace(PTRACE_PEEKDATA, ...)] is a parameter: a function from a pid and an
    address to the returned [long] and the value of [errno] after the call
    ([errno] is cleared before it).  [memory_backed] states what ptrace(2)
    documents of it for a memory given as a partial map from addresses to
    bytes.  The outer loop runs on fuel; [max_words] iterations are always
    enough ([read_loop_total]). *)

From S2P Require Import Prelude CxxString.

Definition peekdata : Type := Z → Z → Z * Z.

Definition word_size : nat := 8.
Definition max_string_size : Z := 4096.
Definition max_words : nat := 512.

Inductive MemoryReadStatus : Type := complete | truncated | invalid_address.

#[export] Instance MemoryReadStatus_eq_dec : EqDecision MemoryReadStatus.
Proof. solve_decision. Defined.

Record MemoryRead := mkRead {
  read_value : string;
  read_status : MemoryReadStatus;
  read_bytes : Z
}.

#[export] Instance MemoryRead_eq_dec : EqDecision MemoryRead.
Proof. solve_decision. Defined.

(** [reinterpret_cast<const char*>(&data)]: the bytes of a word, lowest first. *)
Fixpoint le_bytes (n : nat) (w : Z) : list ascii :=
  match n with
  | O => []
  | S n => ascii_of_N (Z.to_N (w mod 256)) :: le_bytes n (w / 256)
  end.

Definition word_bytes (data : Z) : list ascii := le_bytes word_size (u64 data).

(** The [for] loop over the bytes of one word: [inl] is a [return], [inr] the
    value with which the [while] loop goes on. *)
Fixpoint scan_word (bytes : list ascii) (value : string) : MemoryRead + string :=
  match bytes with
  | [] => inr value
  | b :: bytes =>
      if bool_decide (b = nul) then inl (mkRead value complete (size value))
      else
        let value := value +:+ str b in
        if max_string_size <=? size value
        then inl (mkRead value truncated (size value))
        else scan_word bytes value
  end.

Section Read.
Context (peek : peekdata) (pid : Z).

(** The [while] loop; [None] is running out of fuel. *)
Fixpoint read_loop (fuel : nat) (address : Z) (value : string) : option MemoryRead :=
  match fuel with
  | O => None
  | S fuel =>
      if size value <? max_string_size then
        let '(data, errno) := peek pid (u64 (address + size value)) in
        if (data =? -1) && negb (errno =? 0)
        then Some (mkRead value invalid_address (size value))
        else match scan_word (word_bytes data) value with
             | inl result => Some result
             | inr value => read_loop fuel address value
             end
      else Some (mkRead value truncated (size value))
  end.

Definition read_process_memory_string (address : Z) : MemoryRead :=
  default (mkRead "" truncated 0) (read_loop max_words address "").

Definition read_process_string_value (address : Z) : string :=
  read_value (read_process_memory_string address).

End Read.

(** ** The memory behind [ptrace] *)

Fixpoint le_value (bs : list ascii) : Z :=
  match bs with
  | [] => 0
  | b :: bs => code b + 256 * le_value bs
  end.

(** The [n] bytes from [a] on, when all of them are mapped. *)
Fixpoint mem_bytes (mem : Z → option ascii) (n : nat) (a : Z) : option (list ascii) :=
  match n with
  | O => Some []
  | S n => b ← mem a; bs ← mem_bytes mem n (a + 1); Some (b :: bs)
  end.

(** PTRACE_PEEKDATA returns the word at an address whose bytes are all mapped,
    leaving [errno] alone, and fails with [-1] and [errno] set elsewhere. *)
Definition memory_backed (peek : peekdata) (pid : Z) (mem : Z → option ascii) : Prop :=
  ∀ a, match mem_bytes mem word_size a with
       | Some bs => peek pid a = (s64 (le_value bs), 0)
       | None => ∃ e, peek pid a = (-1, e) ∧ e ≠ 0
       end.

(** What the reader must return for the bytes found at the address. *)
Fixpoint until_nul (bs : list ascii) : string :=
  match bs with
  | [] => ""
  | b :: bs => if bool_decide (b = nul) then "" else String b (until_nul bs)
  end.

Definition c_string (bs : list ascii) : MemoryRead :=
  let s := until_nul bs in
  if size s <? max_string_size then mkRead s complete (size s)
  else mkRead (str_take (Z.to_nat max_string_size) s) truncated max_string_size.

(** ** Bytes and words *)

Lemma length_le_bytes n w : length (le_bytes n w) = n.
Proof. revert w; induction n as [|n IH]; intros w; simpl; [done|]. by rewrite IH. Qed.

Lemma code_range b : 0 ≤ code b < 256.
Proof. unfold code. pose proof (N_ascii_bounded b). lia. Qed.

Lemma le_value_range bs : 0 ≤ le_value bs < 256 ^ Z.of_nat (length bs).
Proof.
  induction bs as [|b bs IH]; cbn [length le_value]; [lia|].
  pose proof (code_range b). rewrite Nat2Z.inj_succ, Z.pow_succ_r by lia. lia.
Qed.

Lemma ascii_of_code b : ascii_of_N (Z.to_N (code b)) = b.
Proof. unfold code. rewrite N2Z.id. apply ascii_N_embedding. Qed.

Lemma le_bytes_value bs : le_bytes (length bs) (le_value bs) = bs.
Proof.
  induction bs as [|b bs IH]; cbn [length le_value le_bytes]; [done|].
  pose proof (code_range b).
  replace ((code b + 256 * le_value bs) mod 256) with (code b)
    by (apply Z.mod_unique_pos with (le_value bs); lia).
  replace ((code b + 256 * le_value bs) / 256) with (le_value bs)
    by (apply Z.div_unique_pos with (code b); lia).
  by rewrite ascii_of_code, IH.
Qed.

Lemma u64_s64 z : 0 ≤ z < 2 ^ 64 → u64 (s64 z) = z.
Proof.
  intros. unfold s64. rewrite (u64_small z) by lia. case_match; [by apply u64_small|].
  unfold u64. symmetry. apply Z.mod_unique_pos with (-1); lia.
Qed.

Lemma word_bytes_value bs : length bs = word_size → word_bytes (s64 (le_value bs)) = bs.
Proof.
  intros Hl. pose proof (le_value_range bs) as Hr. rewrite Hl in Hr.
  change (256 ^ Z.of_nat word_size) with (2 ^ 64) in Hr.
  unfold word_bytes. rewrite u64_s64 by done.
  rewrite <- Hl. apply le_bytes_value.
Qed.

Lemma mem_bytes_length mem n a bs : mem_bytes mem n a = Some bs → length bs = n.
Proof.
  revert a bs; induction n as [|n IH]; intros a bs; simpl; intros H; simplify_eq/=; [done|].
  destruct (mem a), (mem_bytes mem n (a + 1)) eqn:E; simplify_eq/=. f_equal. by eapply IH.
Qed.

Lemma mem_bytes_app mem n m a bs :
  mem_bytes mem (n + m) a = Some bs →
  mem_bytes mem n a = Some (take n bs) ∧
  mem_bytes mem m (a + Z.of_nat n) = Some (drop n bs).
Proof.
  revert a bs; induction n as [|n IH]; intros a bs; simpl.
  - rewrite Z.add_0_r. by rewrite take_0, drop_0.
  - intros H. destruct (mem a) as [b|]; simplify_eq/=.
    destruct (mem_bytes mem (n + m) (a + 1)) as [cs|] eqn:E; simplify_eq/=.
    destruct (IH _ _ E) as [-> H2]. split; [done|].
    rewrite <- H2. f_equal. lia.
Qed.

(** ** The scan of one word *)

Lemma scan_word_spec bytes value :
  size value < max_string_size →
  scan_word bytes value =
  let s := until_nul bytes in
  if max_string_size <=? size value + size s then
    inl (mkRead (value +:+ str_take (Z.to_nat (max_string_size - size value)) s)
           truncated max_string_size)
  else if size s <? Z.of_nat (length bytes)
  then inl (mkRead (value +:+ s) complete (size value + size s))
  else inr (value +:+ s).
Proof.
  revert value. induction bytes as [|b bytes IH]; intros value Hv; cbn [scan_word until_nul].
  - cbn zeta. rewrite size_empty, app_empty_r.
    destruct (Z.leb_spec max_string_size (size value + 0)); [lia|]. done.
  - pose proof (size_nonneg (until_nul bytes)). case_bool_decide as Hb.
    + cbn zeta. rewrite size_empty, app_empty_r.
      destruct (Z.leb_spec max_string_size (size value + 0)); [lia|].
      by rewrite Z.add_0_r.
    + cbn zeta. rewrite !size_app, !size_String. change (size (str b)) with 1.
      destruct (Z.leb_spec max_string_size (size value + 1)) as [Hle|Hlt].
      * assert (max_string_size = size value + 1) as Hm by lia.
        destruct (Z.leb_spec max_string_size (size value + (1 + size (until_nul bytes)))); [|lia].
        replace (max_string_size - size value) with 1 by lia.
        rewrite <- Hm. by destruct (until_nul bytes).
      * rewrite IH by (rewrite size_app; exact Hlt). cbn zeta.
        rewrite size_app, !app_assoc_str. change (size (str b)) with 1.
        rewrite !Z.add_assoc. cbn [length]. rewrite Nat2Z.inj_succ.
        replace (Z.to_nat (max_string_size - size value))
          with (S (Z.to_nat (max_string_size - (size value + 1)))) by lia.
        replace (1 + size (until_nul bytes) <? Z.succ (Z.of_nat (length bytes)))
          with (size (until_nul bytes) <? Z.of_nat (length bytes))
          by (apply eq_bool_prop_intro; rewrite !Is_true_true, !Z.ltb_lt; lia).
        done.
Qed.

Lemma until_nul_size bs : size (until_nul bs) ≤ Z.of_nat (length bs).
Proof.
  induction bs as [|b bs IH]; cbn [until_nul length]; [done|].
  case_bool_decide; [rewrite size_empty; lia|]. rewrite size_String. lia.
Qed.

Lemma until_nul_app bs cs :
  until_nul (bs ++ cs) =
  if size (until_nul bs) <? Z.of_nat (length bs) then until_nul bs
  else until_nul bs +:+ until_nul cs.
Proof.
  induction bs as [|b bs IH]; [done|]. cbn [until_nul length app].
  rewrite Nat2Z.inj_succ. case_bool_decide as Hb.
  - rewrite size_empty. destruct (Z.ltb_spec 0 (Z.succ (Z.of_nat (length bs)))); [done|lia].
  - rewrite IH, size_String.
    destruct (Z.ltb_spec (size (until_nul bs)) (Z.of_nat (length bs))),
      (Z.ltb_spec (1 + size (until_nul bs)) (Z.succ (Z.of_nat (length bs)))); try lia; done.
Qed.

Lemma until_nul_no_nul bs : str_elem nul (until_nul bs) = false.
Proof.
  induction bs as [|b bs IH]; [done|]. cbn [until_nul].
  case_bool_decide as Hb; [done|]. cbn [str_elem].
  rewrite bool_decide_eq_false_2 by congruence. done.
Qed.

Lemma str_take_app_ge n s t :
  (str_length s ≤ n)%nat → str_take n (s +:+ t) = s +:+ str_take (n - str_length s) t.
Proof.
  revert n; induction s as [|c s IH]; intros n Hn; simpl in *.
  - by rewrite Nat.sub_0_r.
  - destruct n as [|n]; [lia|]. rewrite !app_String. simpl. rewrite IH; [done|].
    unfold str_length in *. lia.
Qed.

Lemma str_take_app_le n s t : (n ≤ str_length s)%nat → str_take n (s +:+ t) = str_take n s.
Proof.
  revert n; induction s as [|c s IH]; intros [|n] Hn; simpl in *; [done|lia|done|].
  f_equal. apply IH. unfold str_length in *. lia.
Qed.

Lemma str_elem_take c n s : str_elem c s = false → str_elem c (str_take n s) = false.
Proof.
  revert n; induction s as [|d s IH]; intros [|n]; simpl; [done..|].
  rewrite !orb_false_iff. intros [-> ?]. split; [done|]. by apply IH.
Qed.

(** ** Every read returns, with a bounded value *)

(** What a value returned by the reader satisfies, whatever the tracee's memory. *)
Definition read_ok (r : MemoryRead) : Prop :=
  size (read_value r) ≤ max_string_size ∧ str_elem nul (read_value r) = false ∧
  read_bytes r = size (read_value r).

(** One word either ends the read or adds its eight bytes to the value. *)
Lemma scan_word_step bytes value :
  length bytes = word_size → size value < max_string_size → str_elem nul value = false →
  match scan_word bytes value with
  | inl r => read_ok r
  | inr v => size v = size value + 8 ∧ size v < max_string_size ∧ str_elem nul v = false
  end.
Proof.
  intros Hl Hv Hn. rewrite scan_word_spec by done. cbn zeta.
  pose proof (until_nul_size bytes) as Hs. pose proof (until_nul_no_nul bytes) as Hu.
  pose proof (size_nonneg value). rewrite Hl in *. unfold word_size in *.
  destruct (Z.leb_spec max_string_size (size value + size (until_nul bytes)));
    [|destruct (Z.ltb_spec (size (until_nul bytes)) (Z.of_nat 8))]; unfold read_ok; simpl;
    rewrite ?size_app, ?str_elem_app, ?Hn, ?Hu, ?(str_elem_take _ _ _ Hu).
  - assert (size (str_take (Z.to_nat (max_string_size - size value)) (until_nul bytes)) =
            max_string_size - size value) as ->
      by (unfold size in *; rewrite str_length_take; lia).
    split_and!; [lia|done|lia].
  - split_and!; lia.
  - split_and!; lia.
Qed.

Lemma read_loop_total peek pid fuel address value :
  size value < max_string_size → str_elem nul value = false →
  max_string_size ≤ size value + 8 * Z.of_nat fuel →
  ∃ r, read_loop peek pid fuel address value = Some r ∧ read_ok r.
Proof.
  revert value. induction fuel as [|fuel IH]; intros value Hv Hn Hf; [lia|].
  cbn [read_loop]. destruct (Z.ltb_spec (size value) max_string_size); [|lia].
  destruct (peek _ _) as [data errno]. case_match.
  { eexists; split; [done|]. unfold read_ok. simpl. split_and!; [lia|done|done]. }
  pose proof (scan_word_step (word_bytes data) value (length_le_bytes _ _) Hv Hn) as Hstep.
  destruct (scan_word _ _) as [r|v]; [by eexists|].
  destruct Hstep as (E & ? & ?). apply IH; [done|done|lia].
Qed.

Lemma read_process_memory_string_ok peek pid address :
  read_ok (read_process_memory_string peek pid address).
Proof.
  unfold read_process_memory_string.
  destruct (read_loop_total peek pid max_words address "") as (r & -> & Hr); done.
Qed.

(** ** Reading from a backed memory *)

Section Backed.
Context (peek : peekdata) (pid : Z) (mem : Z → option ascii).
Hypothesis Hbacked : memory_backed peek pid mem.

Lemma peek_backed a bs :
  mem_bytes mem word_size a = Some bs → peek pid a = (s64 (le_value bs), 0).
Proof. intros H. pose proof (Hbacked a) as Hb. by rewrite H in Hb. Qed.

(** The loop, started after [value] was read, over the words that follow. *)
Lemma read_loop_backed n fuel address value bs :
  size value < max_string_size → 0 ≤ address →
  address + size value + 8 * Z.of_nat n ≤ 2 ^ 64 →
  mem_bytes mem (8 * n) (address + size value) = Some bs →
  (n ≤ fuel)%nat →
  size (until_nul bs) < 8 * Z.of_nat n ∨ max_string_size ≤ size value + 8 * Z.of_nat n →
  read_loop peek pid fuel address value =
  Some (let s := value +:+ until_nul bs in
        if size s <? max_string_size then mkRead s complete (size s)
        else mkRead (str_take (Z.to_nat max_string_size) s) truncated max_string_size).
Proof.
  revert fuel value bs. induction n as [|n IH]; intros fuel value bs Hv Ha Hw Hm Hf Hend.
  { simpl in Hm. simplify_eq. pose proof (size_nonneg (until_nul [])). lia. }
  destruct fuel as [|fuel]; [lia|]. cbn [read_loop].
  destruct (Z.ltb_spec (size value) max_string_size); [|lia].
  pose proof (size_nonneg value) as Hv0.
  replace (8 * S n)%nat with (8 + 8 * n)%nat in Hm by lia.
  apply mem_bytes_app in Hm as [H1 H2].
  pose proof (take_drop 8 bs) as Ebs. revert H1 H2 Ebs.
  generalize (take 8 bs) (drop 8 bs). intros w r H1 H2 <-.
  rewrite u64_small, (peek_backed _ _ H1) by lia. rewrite andb_false_r.
  pose proof (mem_bytes_length _ _ _ _ H1) as Hl.
  rewrite word_bytes_value, scan_word_spec by done. cbn zeta.
  rewrite !until_nul_app in Hend |- *. rewrite !Hl in *.
  pose proof (until_nul_size w) as Hs. rewrite Hl in Hs.
  unfold word_size in *. cbn zeta.
  destruct (Z.ltb_spec (size (until_nul w)) (Z.of_nat 8)) as [Hlt|Hge].
  - rewrite size_app. destruct (Z.leb_spec max_string_size (size value + size (until_nul w))),
      (Z.ltb_spec (size value + size (until_nul w)) max_string_size); try lia; [|done].
    rewrite str_take_app_ge by (unfold size in *; lia).
    by replace (Z.to_nat max_string_size - str_length value)%nat
      with (Z.to_nat (max_string_size - size value)) by (unfold size; lia).
  - assert (size (until_nul w) = 8) as Hw8 by lia. rewrite Hw8. rewrite !size_app, Hw8.
    pose proof (size_nonneg (until_nul r)).
    destruct (Z.leb_spec max_string_size (size value + 8)).
    + destruct (Z.ltb_spec (size value + (8 + size (until_nul r))) max_string_size); [lia|].
      rewrite str_take_app_ge by (unfold size in *; lia).
      replace (Z.to_nat max_string_size - str_length value)%nat
        with (Z.to_nat (max_string_size - size value)) by (unfold size; lia).
      rewrite !str_take_app_le by (unfold size in *; lia). done.
    + rewrite IH with (bs := r); rewrite ?size_app, ?Hw8; try lia.
      * cbn zeta. by rewrite ?size_app, ?app_assoc_str, ?Hw8, <- ?Z.add_assoc.
      * rewrite Z.add_assoc. exact H2.
      * rewrite size_app, Hw8 in Hend. lia.
Qed.

(** The loop over full words without NUL followed by a word that is not
    entirely mapped. *)
Lemma read_loop_unmapped n fuel address value bs :
  0 ≤ address → address + size value + 8 * Z.of_nat n < 2 ^ 64 →
  mem_bytes mem (8 * n) (address + size value) = Some bs →
  size (until_nul bs) = 8 * Z.of_nat n →
  size value + 8 * Z.of_nat n < max_string_size →
  mem_bytes mem word_size (address + size value + 8 * Z.of_nat n) = None →
  (n < fuel)%nat →
  read_loop peek pid fuel address value =
  Some (mkRead (value +:+ until_nul bs) invalid_address (size value + 8 * Z.of_nat n)).
Proof.
  revert fuel value bs. induction n as [|n IH]; intros fuel value bs Ha Hw Hm Hnn Hmax Hedge Hf;
    (destruct fuel as [|fuel]; [lia|]); cbn [read_loop]; pose proof (size_nonneg value);
    (destruct (Z.ltb_spec (size value) max_string_size); [|lia]); rewrite u64_small by lia.
  { simpl in Hm. simplify_eq. rewrite Z.mul_0_r, Z.add_0_r in Hedge.
    pose proof (Hbacked (address + size value)) as Hb. rewrite Hedge in Hb.
    destruct Hb as (e & -> & He). rewrite app_empty_r, Z.mul_0_r, Z.add_0_r.
    destruct (Z.eqb_spec e 0); done. }
  replace (8 * S n)%nat with (8 + 8 * n)%nat in Hm by lia.
  apply mem_bytes_app in Hm as [H1 H2].
  pose proof (take_drop 8 bs) as Ebs. revert H1 H2 Ebs.
  generalize (take 8 bs) (drop 8 bs). intros w r H1 H2 <-.
  rewrite (peek_backed _ _ H1), andb_false_r.
  pose proof (mem_bytes_length _ _ _ _ H1) as Hl.
  pose proof (mem_bytes_length _ _ _ _ H2) as Hlr.
  rewrite word_bytes_value, scan_word_spec by done. cbn zeta.
  rewrite until_nul_app in Hnn |- *. rewrite Hl in *.
  pose proof (until_nul_size w) as Hs. pose proof (until_nul_size r) as Hs'.
  rewrite Hl in Hs. unfold word_size in *.
  destruct (Z.ltb_spec (size (until_nul w)) (Z.of_nat 8)) as [Hlt|Hge].
  { rewrite ?size_app in Hnn. lia. }
  rewrite size_app in Hnn. assert (size (until_nul w) = 8) as Hw8 by lia. rewrite Hw8.
  destruct (Z.leb_spec max_string_size (size value + 8)); [lia|].
  rewrite IH with (bs := r); rewrite ?size_app, ?Hw8; try lia.
  - rewrite app_assoc_str. do 2 f_equal. lia.
  - rewrite Z.add_assoc. exact H2.
  - rewrite <- Hedge. f_equal. lia.
Qed.

End Backed.

(** A [ptrace] backed by a given memory, EFAULT elsewhere. *)
Definition peek_of (mem : Z → option ascii) : peekdata := λ _ a,
  match mem_bytes mem word_size a with
  | Some bs => (s64 (le_value bs), 0)
  | None => (-1, 14)
  end.

Lemma peek_of_backed mem pid : memory_backed (peek_of mem) pid mem.
Proof. intros a. unfold peek_of. case_match; [done|]. by exists 14. Qed.

(** A memory with [bs] mapped from [base] on and nothing else. *)
Definition mem_of_list (base : Z) (bs : list ascii) : Z → option ascii := λ a,
  if (base <=? a) && (a <? base + Z.of_nat (length bs)) then bs !! Z.to_nat (a - base) else None.

(** ** Properties *)

(** C37: with [ptrace] reading the tracee's memory, a string whose words are
    mapped is read exactly: up to its NUL, or its first 4096 bytes with status
    [truncated] when no NUL comes before. *)
Theorem read_mapped_string peek pid mem address n bs :
  memory_backed peek pid mem → 0 ≤ address → address + 8 * Z.of_nat n ≤ 2 ^ 64 →
  mem_bytes mem (8 * n) address = Some bs → (n ≤ max_words)%nat →
  size (until_nul bs) < 8 * Z.of_nat n ∨ max_string_size ≤ 8 * Z.of_nat n →
  read_process_memory_string peek pid address = c_string bs.
Proof.
  intros Hb Ha Hw Hm Hn Hend. unfold read_process_memory_string.
  rewrite (read_loop_backed _ _ _ Hb n _ _ "" bs);
    rewrite ?size_empty, ?Z.add_0_r, ?Z.add_0_l; done.
Qed.

Lemma read_mapped_string_witness :
  let bs := String.list_ascii_of_string ("/etc/passwd" +:+ str nul +:+ "junk") in
  read_process_memory_string (peek_of (mem_of_list 4096 bs)) 42 4096
  = mkRead "/etc/passwd" complete 11.
Proof.
  cbn zeta. rewrite (read_mapped_string _ _ (mem_of_list 4096 (String.list_ascii_of_string
    ("/etc/passwd" +:+ str nul +:+ "junk"))) _ 2
    (String.list_ascii_of_string ("/etc/passwd" +:+ str nul +:+ "junk")));
    [vm_compute; reflexivity|apply peek_of_backed|lia|lia|vm_compute; reflexivity
    |unfold max_words; lia|left; vm_compute; reflexivity].
Defined.

(** Whatever [ptrace] answers, the read returns, its value has at most 4096
    bytes and no NUL, and [bytes] is its length. *)
Theorem read_bounded peek pid address :
  (∃ r, read_loop peek pid max_words address "" = Some r) ∧
  size (read_value (read_process_memory_string peek pid address)) ≤ 4096 ∧
  str_elem nul (read_value (read_process_memory_string peek pid address)) = false ∧
  read_bytes (read_process_memory_string peek pid address)
  = size (read_value (read_process_memory_string peek pid address)).
Proof.
  split; [|apply read_process_memory_string_ok].
  destruct (read_loop_total peek pid max_words address "") as (r & ? & _); [done|done|done|].
  by exists r.
Qed.

(** A string that ends less than a word before the end of its mapping is
    cut: the word that holds its NUL is not entirely mapped, so the read
    returns only the full words before it, with status [invalid_address]. *)
Theorem read_cut_at_mapping_end peek pid mem address n bs :
  memory_backed peek pid mem → 0 ≤ address → address + 8 * Z.of_nat n < 2 ^ 64 →
  mem_bytes mem (8 * n) address = Some bs → size (until_nul bs) = 8 * Z.of_nat n →
  (n < max_words)%nat → mem_bytes mem word_size (address + 8 * Z.of_nat n) = None →
  read_process_memory_string peek pid address
  = mkRead (until_nul bs) invalid_address (8 * Z.of_nat n).
Proof.
  intros Hb Ha Hw Hm Hnn Hn Hedge. unfold read_process_memory_string.
  assert (8 * Z.of_nat n < max_string_size).
  { unfold max_words, max_string_size in *. lia. }
  rewrite (read_loop_unmapped _ _ _ Hb n _ _ "" bs); rewrite ?size_empty, ?Z.add_0_r; done.
Qed.

Lemma read_cut_at_mapping_end_witness :
  read_process_memory_string
    (peek_of (mem_of_list 4096 (String.list_ascii_of_string ("/etc/shadow" +:+ str nul)))) 42 4096
  = mkRead "/etc/sha" invalid_address 8.
Proof.
  rewrite (read_cut_at_mapping_end _ _ (mem_of_list 4096 (String.list_ascii_of_string
    ("/etc/shadow" +:+ str nul))) _ 1 (String.list_ascii_of_string "/etc/sha"));
    [vm_compute; reflexivity|apply peek_of_backed|lia|lia|vm_compute; reflexivity..
    |unfold max_words; lia|vm_compute; reflexivity].
Defined.
