(* ===== verification/SyscallDecoder.v ===== *)
(** * The system-call decoder
    (include/execell/trace/syscall_decoder.hpp, src/trace/syscall_decoder.cpp)

    [on_entry] and [on_exit] with every branch of the source, in its order.
    What the decoder reads from the tracee is a parameter, the record
    [Tracee]: its memory through [ptrace(PTRACE_PEEKDATA)], [inet_ntop] on an
    IPv6 address, and the bytes that follow the local [sockaddr_storage] on
    the tracer's stack, which the construction of a string from [sun_path]
    reaches when the tracee's address has no NUL. *)

From S2P Require Import Prelude CxxString FsPath Event FdTable Syscall Memory.

Record Tracee := mkTracee {
  tracee_peek : peekdata;
  inet_ntop6 : list ascii → option string;
  after_storage : string
}.

(** ** <fcntl.h>, <sys/socket.h> *)

Definition AT_FDCWD : Z := -100.
Definition F_DUPFD : Z := 0.
Definition F_DUPFD_CLOEXEC : Z := 1030.
Definition AF_UNIX : Z := 1.
Definition AF_INET : Z := 2.
Definition AF_INET6 : Z := 10.
(** [sizeof(sockaddr_storage)] *)
Definition storage_size : Z := 128.

(** ** Strings and addresses of the tracee *)

Definition read_process_string (tr : Tracee) (pid address : Z) : string :=
  read_value (read_process_memory_string (tracee_peek tr) pid address).

Definition resolve_path (pid dirfd : Z) (path : string) : string :=
  if bool_decide (path = "") || starts_with path "/" then path
  else
    let base :=
      if dirfd =? AT_FDCWD then "/proc/" +:+ to_string pid +:+ "/cwd"
      else "/proc/" +:+ to_string pid +:+ "/fd/" +:+ to_string dirfd in
    lexically_normal (path_append base path).

(** The copy loop of [read_endpoint]: the bytes fetched from [offset] on, word
    by word; [None] when a word cannot be read.  [limit] is at most 128, so 16
    words are all there is. *)
Fixpoint fetch_words (tr : Tracee) (pid address limit : Z) (fuel : nat) (offset : Z)
    : option (list ascii) :=
  match fuel with
  | O => Some []
  | S fuel =>
      if offset <? limit then
        let '(word, errno) := tracee_peek tr pid (u64 (address + offset)) in
        if (word =? -1) && negb (errno =? 0) then None
        else
          let copy_size := Z.to_nat (Z.min 8 (limit - offset)) in
          rest ← fetch_words tr pid address limit fuel (offset + 8);
          Some (take copy_size (word_bytes word) ++ rest)
      else Some []
  end.

(** [sockaddr_storage storage{}] after the copies: zero-filled to its size. *)
Definition storage_of (bytes : list ascii) : list ascii :=
  bytes ++ replicate (Z.to_nat storage_size - length bytes) nul.

Definition byte_at (bytes : list ascii) (i : nat) : Z := code (default nul (bytes !! i)).

Definition ss_family (storage : list ascii) : Z := byte_at storage 0 + 256 * byte_at storage 1.
(** [ntohs(sin_port)] *)
Definition sin_port (storage : list ascii) : Z := 256 * byte_at storage 2 + byte_at storage 3.

(** [inet_ntop(AF_INET, &sin_addr, ...)] *)
Definition inet_ntop4 (storage : list ascii) : string :=
  to_string (byte_at storage 4) +:+ "." +:+ to_string (byte_at storage 5) +:+ "." +:+
  to_string (byte_at storage 6) +:+ "." +:+ to_string (byte_at storage 7).

(** [std::string{unix_address->sun_path}]: up to the first NUL from byte 2 on,
    past the end of the storage when it holds none. *)
Definition sun_path (tr : Tracee) (storage : list ascii) : string :=
  let path := until_nul (drop 2 storage) in
  if bool_decide (nul ∈ drop 2 storage) then path else path +:+ after_storage tr.

Definition read_endpoint (tr : Tracee) (pid address length : Z) : string :=
  let limit := Z.min length storage_size in
  match fetch_words tr pid address limit 16 0 with
  | None => ""
  | Some bytes =>
      let storage := storage_of bytes in
      if ss_family storage =? AF_INET then
        inet_ntop4 storage +:+ ":" +:+ to_string (sin_port storage)
      else if ss_family storage =? AF_INET6 then
        match inet_ntop6 tr (take 16 (drop 8 storage)) with
        | None => ""
        | Some text => "[" +:+ text +:+ "]:" +:+ to_string (sin_port storage)
        end
      else if ss_family storage =? AF_UNIX then sun_path tr storage
      else "family=" +:+ to_string (ss_family storage)
  end.

(** ** The state of a decoder *)

Record Decoder := mkDecoder {
  current_syscall : Z;
  pending_path : string;
  pending_path_two : string;
  pending_endpoint : string;
  pending_socket_domain : Z;
  pending_socket_type : Z;
  pending_socket_protocol : Z;
  pending_mode : Z;
  pending_fd : Z;
  pending_dirfd : Z;
  pending_target_fd : Z;
  pending_close_range_end : Z
}.

(** The member initialisers, and the resets at the start of [on_entry]. *)
Definition cleared (syscall : Z) : Decoder :=
  mkDecoder syscall "" "" "" 0 0 0 0 (-1) AT_FDCWD (-1) 0.

Definition new_decoder : Decoder := cleared (-1).

Definition set_path (p : string) (d : Decoder) : Decoder :=
  mkDecoder (current_syscall d) p (pending_path_two d) (pending_endpoint d)
    (pending_socket_domain d) (pending_socket_type d) (pending_socket_protocol d)
    (pending_mode d) (pending_fd d) (pending_dirfd d) (pending_target_fd d)
    (pending_close_range_end d).
Definition set_path_two (p : string) (d : Decoder) : Decoder :=
  mkDecoder (current_syscall d) (pending_path d) p (pending_endpoint d)
    (pending_socket_domain d) (pending_socket_type d) (pending_socket_protocol d)
    (pending_mode d) (pending_fd d) (pending_dirfd d) (pending_target_fd d)
    (pending_close_range_end d).
Definition set_endpoint (e : string) (d : Decoder) : Decoder :=
  mkDecoder (current_syscall d) (pending_path d) (pending_path_two d) e
    (pending_socket_domain d) (pending_socket_type d) (pending_socket_protocol d)
    (pending_mode d) (pending_fd d) (pending_dirfd d) (pending_target_fd d)
    (pending_close_range_end d).
Definition set_socket (domain type protocol : Z) (d : Decoder) : Decoder :=
  mkDecoder (current_syscall d) (pending_path d) (pending_path_two d) (pending_endpoint d)
    domain type protocol (pending_mode d) (pending_fd d) (pending_dirfd d)
    (pending_target_fd d) (pending_close_range_end d).
Definition set_mode (m : Z) (d : Decoder) : Decoder :=
  mkDecoder (current_syscall d) (pending_path d) (pending_path_two d) (pending_endpoint d)
    (pending_socket_domain d) (pending_socket_type d) (pending_socket_protocol d)
    m (pending_fd d) (pending_dirfd d) (pending_target_fd d) (pending_close_range_end d).
Definition set_fd (fd : Z) (d : Decoder) : Decoder :=
  mkDecoder (current_syscall d) (pending_path d) (pending_path_two d) (pending_endpoint d)
    (pending_socket_domain d) (pending_socket_type d) (pending_socket_protocol d)
    (pending_mode d) fd (pending_dirfd d) (pending_target_fd d) (pending_close_range_end d).
Definition set_target_fd (fd : Z) (d : Decoder) : Decoder :=
  mkDecoder (current_syscall d) (pending_path d) (pending_path_two d) (pending_endpoint d)
    (pending_socket_domain d) (pending_socket_type d) (pending_socket_protocol d)
    (pending_mode d) (pending_fd d) (pending_dirfd d) fd (pending_close_range_end d).
Definition set_close_range_end (e : Z) (d : Decoder) : Decoder :=
  mkDecoder (current_syscall d) (pending_path d) (pending_path_two d) (pending_endpoint d)
    (pending_socket_domain d) (pending_socket_type d) (pending_socket_protocol d)
    (pending_mode d) (pending_fd d) (pending_dirfd d) (pending_target_fd d) e.

(** [syscall == a || syscall == b || ...] *)
Definition one_of (syscall : Z) (l : list Z) : bool := existsb (Z.eqb syscall) l.

(** ** Entry of a system call *)

(** The branches of [on_entry] for [mkdirat], file modes, descriptor ranges, [execve] and
    the descriptor calls, which come after those for sockets and path names. *)
Definition entry_rest (tr : Tracee) (pid : Z) (registers : user_regs_struct) (d : Decoder)
    : Decoder * option Event :=
  let syscall := current_syscall d in
  let rdi := reg_rdi registers in
  let rsi := reg_rsi registers in
  let rdx := reg_rdx registers in
  let text := read_process_string tr pid in
  if syscall =? SYS_mkdirat then
    (set_fd (s32 rdx) (set_path (resolve_path pid (s32 rdi) (text rsi)) d), None)
  else if syscall =? SYS_chmod then
    (set_mode (u32 rsi) (set_path (text rdi) d), None)
  else if syscall =? SYS_fchmod then
    (set_mode (u32 rsi) (set_fd (s32 rdi) d), None)
  else if (syscall =? SYS_fcntl) && ((rsi =? F_DUPFD) || (rsi =? F_DUPFD_CLOEXEC)) then
    (set_fd (s32 rdi) d, None)
  else if syscall =? SYS_fchmodat then
    (set_mode (u32 rdx) (set_path (resolve_path pid (s32 rdi) (text rsi)) d), None)
  else if syscall =? SYS_close_range then
    (set_close_range_end (u32 rsi) (set_fd (s32 rdi) d), None)
  else if syscall =? SYS_execve then
    let d := set_path (text rdi) d in
    (d, Some (ProcessExec pid (pending_path d) empty_context))
  else if one_of syscall [SYS_read; SYS_write; SYS_close; SYS_pread64; SYS_pwrite64;
                          SYS_readv; SYS_writev] then
    (set_fd (s32 rdi) d, None)
  else (d, None).

Definition on_entry (tr : Tracee) (pid : Z) (registers : user_regs_struct) (d : Decoder)
    : Decoder * option Event :=
  let frame := decode registers in
  let d := cleared (frame_number frame) in
  let syscall := current_syscall d in
  let rdi := reg_rdi registers in
  let rsi := reg_rsi registers in
  let rdx := reg_rdx registers in
  let text := read_process_string tr pid in
  if syscall =? SYS_socket then
    (set_socket (s32 rdi) (s32 rsi) (s32 rdx) d, None)
  else if one_of syscall [SYS_connect; SYS_bind] then
    (set_endpoint (read_endpoint tr pid rsi rdx) (set_fd (s32 rdi) d), None)
  else if syscall =? SYS_listen then
    (set_target_fd (s32 rsi) (set_fd (s32 rdi) d), None)
  else if one_of syscall [SYS_accept; SYS_accept4] then
    let d := set_fd (s32 rdi) d in
    if negb (rsi =? 0) && negb (rdx =? 0)
    then (set_endpoint (read_endpoint tr pid rsi rdx) d, None)
    else (d, None)
  else if one_of syscall [SYS_dup; SYS_dup2; SYS_dup3] then
    (set_target_fd (s32 rsi) (set_fd (s32 rdi) d), None)
  else if one_of syscall [SYS_openat; SYS_open; SYS_openat2] then
    let address := if syscall =? SYS_open then rdi else rsi in
    (set_path (resolve_path pid (if syscall =? SYS_open then AT_FDCWD else s32 rdi)
                 (text address)) d, None)
  else if one_of syscall [SYS_rename; SYS_renameat2] then
    (set_path_two (resolve_path pid AT_FDCWD (text rsi))
       (set_path (resolve_path pid AT_FDCWD (text rdi)) d), None)
  else if one_of syscall [SYS_renameat; SYS_renameat2] then
    (set_path_two (resolve_path pid (s32 rdi) (text rdx))
       (set_path (resolve_path pid (s32 rdi) (text rsi)) d), None)
  else if syscall =? SYS_unlink then
    (set_path (resolve_path pid AT_FDCWD (text rdi)) d, None)
  else if syscall =? SYS_unlinkat then
    (set_path (resolve_path pid (s32 rdi) (text rsi)) d, None)
  else if syscall =? SYS_mkdir then
    (set_fd (s32 rsi) (set_path (resolve_path pid AT_FDCWD (text rdi)) d), None)
  else entry_rest tr pid registers d.

(** ** Exit of a system call *)

(** The branches of [on_exit] for descriptors: [fchmod] and its relatives, the
    failures that are reported, duplication, reads, writes and [close]. *)
Definition exit_rest (pid result : Z) (d : Decoder) (fd_table : FdTable.t)
    : FdTable.t * option Event :=
  let syscall := current_syscall d in
  (* fchmod falls through to the rest when the descriptor is not tracked *)
  match (if (syscall =? SYS_fchmod) && (result =? 0)
         then FdTable.lookup (pending_fd d) fd_table else None) with
  | Some path => (fd_table, Some (FileModeChanged path (pending_mode d) empty_context))
  | None =>
  if (syscall =? SYS_fchmodat) && (result =? 0) then
    (fd_table, Some (FileModeChanged (pending_path d) (pending_mode d) empty_context))
  else if (syscall =? SYS_fcntl) && (0 <=? result) && (0 <=? pending_fd d) then
    (FdTable.duplicate (pending_fd d) (s32 result) fd_table, None)
  else if (syscall =? SYS_close_range) && (result =? 0) then
    (FdTable.close_range (u32 (pending_fd d)) (pending_close_range_end d) fd_table, None)
  else if (result <? 0) &&
          one_of syscall [SYS_openat; SYS_read; SYS_write; SYS_close; SYS_connect; SYS_bind] then
    (fd_table, Some (SyscallFailed pid (syscall_name syscall) (s32 (- result)) empty_context))
  else if one_of syscall [SYS_dup; SYS_dup2; SYS_dup3] && (0 <=? result) then
    (FdTable.duplicate (pending_fd d) (s32 result) fd_table, None)
  else if one_of syscall [SYS_read; SYS_pread64; SYS_readv] && (0 <=? result) then
    match FdTable.lookup (pending_fd d) fd_table with
    | None => (fd_table, None)
    | Some path => (fd_table, Some (FileRead (pending_fd d) path (u64 result) empty_context))
    end
  else if one_of syscall [SYS_write; SYS_pwrite64; SYS_writev] && (0 <=? result) then
    match FdTable.lookup (pending_fd d) fd_table with
    | None => (fd_table, None)
    | Some path => (fd_table, Some (FileWritten (pending_fd d) path (u64 result) empty_context))
    end
  else if (syscall =? SYS_close) && (result =? 0) then
    match FdTable.lookup (pending_fd d) fd_table with
    | None => (fd_table, None)
    | Some path =>
        (FdTable.close (pending_fd d) fd_table,
         Some (FileClosed (pending_fd d) path empty_context))
    end
  else (fd_table, None)
  end.

Definition on_exit (pid : Z) (registers : user_regs_struct) (d : Decoder) (fd_table : FdTable.t)
    : FdTable.t * option Event :=
  let result := frame_result (decode registers) in
  let syscall := current_syscall d in
  if (syscall =? SYS_socket) && (0 <=? result) then
    (fd_table, Some (SocketCreated (s32 result) (pending_socket_domain d)
                       (pending_socket_type d) (pending_socket_protocol d) empty_context))
  else if (syscall =? SYS_connect) && (result =? 0) then
    (fd_table, Some (NetworkConnected (pending_fd d) (pending_endpoint d) empty_context))
  else if (syscall =? SYS_bind) && (result =? 0) then
    (fd_table, Some (NetworkBound (pending_fd d) (pending_endpoint d) empty_context))
  else if (syscall =? SYS_listen) && (result =? 0) then
    (fd_table, Some (NetworkListening (pending_fd d) (pending_target_fd d) empty_context))
  else if one_of syscall [SYS_accept; SYS_accept4] && (0 <=? result) then
    (fd_table, Some (NetworkAccepted (s32 result) (pending_endpoint d) empty_context))
  else if one_of syscall [SYS_openat; SYS_open; SYS_openat2] && (0 <=? result) then
    let fd := s32 result in
    (FdTable.track fd (pending_path d) fd_table,
     Some (FileOpened fd (pending_path d) empty_context))
  else if one_of syscall [SYS_unlink; SYS_unlinkat] && (result =? 0) then
    (fd_table, Some (FileDeleted (pending_path d) empty_context))
  else if one_of syscall [SYS_rename; SYS_renameat; SYS_renameat2] && (result =? 0) then
    (fd_table, Some (FileRenamed (pending_path d) (pending_path_two d) empty_context))
  else if one_of syscall [SYS_mkdir; SYS_mkdirat] && (result =? 0) then
    (fd_table, Some (DirectoryCreated (pending_path d) empty_context))
  else if (syscall =? SYS_chmod) && (result =? 0) then
    (fd_table, Some (FileModeChanged (pending_path d) (pending_mode d) empty_context))
  else exit_rest pid result d fd_table.
