(* ===== verification/DecoderSpec.v ===== *)
(** * What the decoder promises

    An abstract specification of the descriptor table ([fd_spec]: which entry
    every completed system call adds, copies or removes) and of the file events
    ([io_spec]), a refinement of [on_entry] followed by [on_exit] to it, and
    the properties of the strings the decoder reads. *)

From S2P Require Import Prelude CxxString FsPath Event FdTable Syscall Memory SyscallDecoder.

(** ** Completed system calls *)

(** A call the tracer saw whole: the registers at its entry and at its exit. *)
Record completed := mkCompleted {
  at_entry : user_regs_struct;
  at_exit : user_regs_struct
}.

Definition nr (c : completed) : Z := s64 (reg_orig_rax (at_entry c)).
Definition result (c : completed) : Z := s64 (reg_rax (at_exit c)).
Definition arg0 (c : completed) : Z := reg_rdi (at_entry c).
Definition arg1 (c : completed) : Z := reg_rsi (at_entry c).

(** The two stops of a completed call, handled one after the other. *)
Definition handle (tr : Tracee) (pid : Z) (c : completed) (st : Decoder * FdTable.t)
    : (Decoder * FdTable.t) * list Event :=
  let '(d, e1) := on_entry tr pid (at_entry c) st.1 in
  let '(table, e2) := on_exit pid (at_exit c) d st.2 in
  ((d, table), option_list e1 ++ option_list e2).

(** ** Specification *)

(** The path a call of the open family names. *)
Definition opened_path (tr : Tracee) (pid : Z) (c : completed) : string :=
  if nr c =? SYS_open
  then resolve_path pid AT_FDCWD (read_process_string tr pid (arg0 c))
  else resolve_path pid (s32 (arg0 c)) (read_process_string tr pid (arg1 c)).

Definition is_dup (c : completed) : bool :=
  one_of (nr c) [SYS_dup; SYS_dup2; SYS_dup3]
  || ((nr c =? SYS_fcntl) && ((arg1 c =? F_DUPFD) || (arg1 c =? F_DUPFD_CLOEXEC))
      && (0 <=? s32 (arg0 c))).

Definition is_open (c : completed) : bool := one_of (nr c) [SYS_openat; SYS_open; SYS_openat2].

(** What a call does to the path known for descriptor [fd]. *)
Definition fd_spec (tr : Tracee) (pid : Z) (c : completed) (known : Z → option string)
    (fd : Z) : option string :=
  if is_open c && (0 <=? result c) then
    if decide (s32 (result c) = fd) then Some (opened_path tr pid c) else known fd
  else if is_dup c && (0 <=? result c) then
    if decide (s32 (result c) = fd) then known (s32 (arg0 c)) else known fd
  else if (nr c =? SYS_close) && (result c =? 0) then
    if decide (s32 (arg0 c) = fd) then None else known fd
  else if (nr c =? SYS_close_range) && (result c =? 0) then
    if decide (FdTable.in_close_range (u32 (s32 (arg0 c))) (u32 (arg1 c)) fd)
    then None else known fd
  else known fd.

(** The read and write events of a call. *)
Definition io_spec (c : completed) (known : Z → option string) : list Event :=
  let fd := s32 (arg0 c) in
  match known fd with
  | None => []
  | Some path =>
      if 0 <=? result c then
        if one_of (nr c) [SYS_read; SYS_pread64; SYS_readv]
        then [FileRead fd path (u64 (result c)) empty_context]
        else if one_of (nr c) [SYS_write; SYS_pwrite64; SYS_writev]
        then [FileWritten fd path (u64 (result c)) empty_context]
        else []
      else []
  end.

Definition is_io (e : Event) : bool :=
  match e with FileRead _ _ _ _ | FileWritten _ _ _ _ => true | _ => false end.

(** The specification run over a sequence of calls. *)
Fixpoint fd_spec_run (tr : Tracee) (pid : Z) (cs : list completed) (known : Z → option string)
    : Z → option string :=
  match cs with
  | [] => known
  | c :: cs => fd_spec_run tr pid cs (fd_spec tr pid c known)
  end.

Fixpoint handle_run (tr : Tracee) (pid : Z) (cs : list completed) (st : Decoder * FdTable.t)
    : Decoder * FdTable.t :=
  match cs with
  | [] => st
  | c :: cs => handle_run tr pid cs (handle tr pid c st).1
  end.

(** ** Case analysis on the system call number *)

Lemma one_of_true z l : one_of z l = true ↔ z ∈ l.
Proof.
  unfold one_of. rewrite existsb_exists. split.
  - intros (x & Hx & E). apply Z.eqb_eq in E as ->. by apply list_elem_of_In.
  - intros H. exists z. split; [by apply list_elem_of_In|]. apply Z.eqb_refl.
Qed.

Lemma one_of_false z l : one_of z l = false ↔ z ∉ l.
Proof. rewrite <- one_of_true. by destruct (one_of z l). Qed.

Lemma one_of_cons z x l : one_of z (x :: l) = (z =? x) || one_of z l.
Proof. done. Qed.

Lemma one_of_nil z : one_of z [] = false.
Proof. done. Qed.

(** Evaluates the comparisons of two known numbers. *)
Ltac eval_eqb :=
  repeat match goal with
         | |- context [Z.eqb ?a ?b] =>
             is_const a; is_const b;
             let v := eval vm_compute in (Z.eqb a b) in
             match v with
             | true => change (Z.eqb a b) with true
             | false => change (Z.eqb a b) with false
             end
         end;
  cbn [orb andb negb].

(** Splits on the system call number: one goal per number the code tests, with
    the tests evaluated, and the goal where every test fails. *)
Ltac split_number n :=
  rewrite ?one_of_cons, ?one_of_nil;
  repeat match goal with
         | |- context [Z.eqb n ?k] =>
             let E := fresh "E" in
             destruct (Z.eqb_spec n k) as [->|E]; [eval_eqb|clear E]
         end;
  cbn [orb andb negb].

(** ** The fields [on_entry] sets *)

Section Entry.
Context (tr : Tracee) (pid : Z) (r : user_regs_struct) (d : Decoder).
Let n := s64 (reg_orig_rax r).

Lemma entry_number : current_syscall (on_entry tr pid r d).1 = n.
Proof. unfold on_entry, entry_rest. cbn zeta. by repeat case_match. Qed.

Lemma entry_open :
  one_of n [SYS_openat; SYS_open; SYS_openat2] = true →
  pending_path (on_entry tr pid r d).1 =
  if n =? SYS_open
  then resolve_path pid AT_FDCWD (read_process_string tr pid (reg_rdi r))
  else resolve_path pid (s32 (reg_rdi r)) (read_process_string tr pid (reg_rsi r)).
Proof.
  intros H%one_of_true. unfold on_entry, entry_rest. cbn [decode frame_number cleared current_syscall].
  fold n. repeat (apply elem_of_cons in H as [->|H]; [by eval_eqb|]). by apply elem_of_nil in H.
Qed.

Lemma entry_fd :
  one_of n [SYS_dup; SYS_dup2; SYS_dup3; SYS_close; SYS_close_range; SYS_read; SYS_pread64;
            SYS_readv; SYS_write; SYS_pwrite64; SYS_writev] = true →
  pending_fd (on_entry tr pid r d).1 = s32 (reg_rdi r).
Proof.
  intros H%one_of_true. unfold on_entry, entry_rest. cbn [decode frame_number cleared current_syscall].
  fold n. repeat (apply elem_of_cons in H as [->|H]; [by eval_eqb|]). by apply elem_of_nil in H.
Qed.

Lemma entry_fcntl :
  n = SYS_fcntl →
  pending_fd (on_entry tr pid r d).1 =
  if (reg_rsi r =? F_DUPFD) || (reg_rsi r =? F_DUPFD_CLOEXEC) then s32 (reg_rdi r) else -1.
Proof.
  intros H. unfold on_entry, entry_rest. cbn [decode frame_number cleared current_syscall].
  fold n. rewrite H. rewrite ?one_of_cons, ?one_of_nil. eval_eqb. by case_match.
Qed.

Lemma entry_range_end :
  n = SYS_close_range →
  pending_close_range_end (on_entry tr pid r d).1 = u32 (reg_rsi r).
Proof.
  intros H. unfold on_entry, entry_rest. cbn [decode frame_number cleared current_syscall].
  fold n. rewrite H. rewrite ?one_of_cons, ?one_of_nil. by eval_eqb.
Qed.

End Entry.

(** ** The table after [on_exit] *)

Lemma on_exit_table pid r d t :
  let result := s64 (reg_rax r) in
  let sc := current_syscall d in
  (on_exit pid r d t).1 =
  if one_of sc [SYS_openat; SYS_open; SYS_openat2] && (0 <=? result)
  then FdTable.track (s32 result) (pending_path d) t
  else if (one_of sc [SYS_dup; SYS_dup2; SYS_dup3]
           || ((sc =? SYS_fcntl) && (0 <=? pending_fd d))) && (0 <=? result)
  then FdTable.duplicate (pending_fd d) (s32 result) t
  else if (sc =? SYS_close) && (result =? 0) then FdTable.close (pending_fd d) t
  else if (sc =? SYS_close_range) && (result =? 0)
  then FdTable.close_range (u32 (pending_fd d)) (pending_close_range_end d) t
  else t.
Proof.
  cbn zeta. unfold on_exit, exit_rest. cbn [decode frame_result].
  generalize (s64 (reg_rax r)) (current_syscall d). intros res sc.
  split_number sc; split_cmp; repeat case_match; try done.
  symmetry. by apply FdTable.close_untracked.
Qed.

(** The read and write events of [on_exit]. *)
Lemma on_exit_io pid r d t :
  let result := s64 (reg_rax r) in
  let sc := current_syscall d in
  filter is_io (option_list (on_exit pid r d t).2) =
  match FdTable.lookup (pending_fd d) t with
  | None => []
  | Some path =>
      if 0 <=? result then
        if one_of sc [SYS_read; SYS_pread64; SYS_readv]
        then [FileRead (pending_fd d) path (u64 result) empty_context]
        else if one_of sc [SYS_write; SYS_pwrite64; SYS_writev]
        then [FileWritten (pending_fd d) path (u64 result) empty_context]
        else []
      else []
  end.
Proof.
  cbn zeta. unfold on_exit, exit_rest. cbn [decode frame_result].
  generalize (s64 (reg_rax r)) (current_syscall d). intros res sc.
  destruct (FdTable.lookup (pending_fd d) t); split_number sc; split_cmp;
    repeat case_match; by simplify_eq.
Qed.

Lemma on_entry_io tr pid r d : filter is_io (option_list (on_entry tr pid r d).2) = [].
Proof. unfold on_entry, entry_rest. cbn zeta. by repeat case_match. Qed.

(** ** Refinement of the specification *)

Lemma handle_table tr pid c st :
  (handle tr pid c st).1.2
  = (on_exit pid (at_exit c) (on_entry tr pid (at_entry c) st.1).1 st.2).1.
Proof. unfold handle. destruct (on_entry _ _ _ _) as [d e1]. simpl. by destruct (on_exit _ _ _ _). Qed.

Lemma handle_events tr pid c st :
  (handle tr pid c st).2
  = option_list (on_entry tr pid (at_entry c) st.1).2
    ++ option_list (on_exit pid (at_exit c) (on_entry tr pid (at_entry c) st.1).1 st.2).2.
Proof. unfold handle. destruct (on_entry _ _ _ _) as [d e1]. simpl. by destruct (on_exit _ _ _ _). Qed.

Lemma one_of_sub z l k :
  one_of z l = true → forallb (λ x, one_of x k) l = true → one_of z k = true.
Proof. rewrite one_of_true, forallb_forall. intros H Hk. apply Hk. by apply list_elem_of_In. Qed.

Lemma handle_lookup tr pid c st fd :
  FdTable.lookup fd (handle tr pid c st).1.2
  = fd_spec tr pid c (λ k, FdTable.lookup k st.2) fd.
Proof.
  rewrite handle_table, on_exit_table. cbn zeta. rewrite entry_number.
  fold (nr c) (result c). unfold fd_spec, is_open, is_dup.
  destruct (one_of (nr c) [SYS_openat; SYS_open; SYS_openat2]) eqn:Ho.
  { rewrite entry_open by done.
    apply one_of_true in Ho. unfold opened_path.
    destruct (0 <=? result c); [rewrite !andb_true_r|rewrite !andb_false_r];
      cbn [andb]; [by rewrite FdTable.lookup_track|].
    repeat (apply elem_of_cons in Ho as [E|Ho]; [rewrite E; eval_eqb; reflexivity|]).
    by apply elem_of_nil in Ho. }
  cbn [andb]. destruct (one_of (nr c) [SYS_dup; SYS_dup2; SYS_dup3]) eqn:Hd.
  { rewrite entry_fd by (eapply one_of_sub; [exact Hd|reflexivity]). cbn [orb andb].
    destruct (0 <=? result c); cbn [andb]; [by rewrite FdTable.lookup_duplicate|].
    apply one_of_true in Hd.
    repeat (apply elem_of_cons in Hd as [E|Hd]; [rewrite E; eval_eqb; reflexivity|]).
    by apply elem_of_nil in Hd. }
  cbn [orb]. destruct (Z.eqb_spec (nr c) SYS_fcntl) as [Hf|].
  { rewrite entry_fcntl by done. rewrite Hf. unfold arg0, arg1. eval_eqb.
    destruct ((_ =? F_DUPFD) || _); cbn [andb]; [|done].
    destruct ((0 <=? s32 _) && _); [by rewrite FdTable.lookup_duplicate|done]. }
  cbn [andb]. destruct (Z.eqb_spec (nr c) SYS_close) as [Hc|].
  { rewrite entry_fd by (fold (nr c); rewrite Hc; done). rewrite Hc. unfold arg0. eval_eqb.
    destruct (result c =? 0); [by rewrite FdTable.lookup_close|done]. }
  cbn [andb]. destruct (Z.eqb_spec (nr c) SYS_close_range) as [Hr|]; [|done].
  rewrite entry_fd, entry_range_end by (fold (nr c); rewrite Hr; done). unfold arg0, arg1.
  cbn [andb]. destruct (result c =? 0); [by rewrite FdTable.lookup_close_range|done].
Qed.

Lemma handle_io tr pid c st :
  filter is_io (handle tr pid c st).2 = io_spec c (λ k, FdTable.lookup k st.2).
Proof.
  rewrite handle_events, filter_app, on_entry_io, on_exit_io. cbn zeta. rewrite entry_number.
  fold (nr c) (result c). unfold io_spec. cbn [app].
  destruct (one_of (nr c) [SYS_read; SYS_pread64; SYS_readv]) eqn:Hr.
  { by rewrite entry_fd by (eapply one_of_sub; [exact Hr|reflexivity]). }
  destruct (one_of (nr c) [SYS_write; SYS_pwrite64; SYS_writev]) eqn:Hw.
  { by rewrite entry_fd by (eapply one_of_sub; [exact Hw|reflexivity]). }
  destruct (0 <=? result c); by do 2 case_match.
Qed.

Lemma fd_spec_ext tr pid c known known' :
  (∀ fd, known fd = known' fd) → ∀ fd, fd_spec tr pid c known fd = fd_spec tr pid c known' fd.
Proof. intros H fd. unfold fd_spec. by rewrite !H. Qed.

Lemma fd_spec_run_ext tr pid cs known known' :
  (∀ fd, known fd = known' fd) →
  ∀ fd, fd_spec_run tr pid cs known fd = fd_spec_run tr pid cs known' fd.
Proof.
  revert known known'. induction cs as [|c cs IH]; intros known known' H; [done|].
  apply IH. by apply fd_spec_ext.
Qed.

Lemma handle_run_lookup tr pid cs st fd :
  FdTable.lookup fd (handle_run tr pid cs st).2
  = fd_spec_run tr pid cs (λ k, FdTable.lookup k st.2) fd.
Proof.
  revert st. induction cs as [|c cs IH]; intros st; [done|]. simpl. rewrite IH.
  apply fd_spec_run_ext. intros k. apply handle_lookup.
Qed.

Lemma io_spec_ext c known known' :
  (∀ fd, known fd = known' fd) → io_spec c known = io_spec c known'.
Proof. intros H. unfold io_spec. by rewrite H. Qed.

(** ** Endpoints *)

Lemma fetch_words_length tr pid address limit fuel offset bytes :
  fetch_words tr pid address limit fuel offset = Some bytes →
  Z.of_nat (length bytes) ≤ Z.max 0 (limit - offset).
Proof.
  revert offset bytes. induction fuel as [|fuel IH]; intros offset bytes; cbn [fetch_words].
  { intros. simplify_eq/=. lia. }
  destruct (Z.ltb_spec offset limit); [|intros; simplify_eq/=; lia].
  destruct (tracee_peek _ _ _) as [w e]. case_match; [done|].
  destruct (fetch_words _ _ _ _ fuel _) as [rest|] eqn:E; intros; simplify_eq/=.
  apply IH in E. unfold word_bytes.
  rewrite length_app, length_take, length_le_bytes. unfold word_size. lia.
Qed.

Lemma storage_ends_in_nul bytes :
  Z.of_nat (length bytes) < storage_size → nul ∈ drop 2 (storage_of bytes).
Proof.
  intros Hl. unfold storage_of, storage_size in *.
  apply list_elem_of_lookup. exists 125%nat. rewrite lookup_drop, lookup_app_r by lia.
  apply lookup_replicate. split; [done|lia].
Qed.

(** Names of the base directories of [resolve_path]. *)
Lemma to_string_clean z : clean_name (to_string z).
Proof.
  destruct (to_string_numeral z) as [Hn Hne].
  split; [|by apply to_string_no_char]. split_and!; [done| |]; intros E; by rewrite E in Hn.
Qed.

(** ** Properties *)

(** C5: the descriptor table of a tracee refines its specification: after any
    sequence of completed system calls from a fresh task, every descriptor maps
    to the path that opening, duplicating, closing and range-closing give it,
    and the read and write events of the next call name exactly that path. *)
Theorem decoder_refines_fd_spec tr pid cs c fd :
  let st := handle_run tr pid cs (new_decoder, FdTable.empty) in
  let known := fd_spec_run tr pid cs (λ _, None) in
  FdTable.lookup fd st.2 = known fd ∧
  filter is_io (handle tr pid c st).2 = io_spec c known.
Proof.
  cbn zeta. split.
  - apply (handle_run_lookup tr pid cs (new_decoder, FdTable.empty)).
  - rewrite handle_io. apply io_spec_ext. intros k.
    apply (handle_run_lookup tr pid cs (new_decoder, FdTable.empty)).
Qed.

(** An absolute or empty path is reported as the tracee gave it; a plain
    relative one is reported below the cwd link of the process, and for any
    relative path no dot, dot-dot or empty component is left. *)
Theorem resolve_path_forms pid dirfd path :
  ((path = "" ∨ is_absolute path = true) → resolve_path pid dirfd path = path) ∧
  (plain_relative path →
   resolve_path pid AT_FDCWD path = "/proc/" +:+ to_string pid +:+ "/cwd/" +:+ path) ∧
  (path ≠ "" → is_absolute path = false →
   ∃ names b, Forall clean_name names ∧ resolve_path pid dirfd path = normal_form names b).
Proof.
  split_and!.
  - intros H. unfold resolve_path. fold (is_absolute path).
    destruct H as [->| ->]; [done|]. by rewrite orb_true_r.
  - intros Hp. unfold resolve_path. rewrite (plain_relative_not_absolute _ Hp : starts_with _ _ = _).
    rewrite bool_decide_eq_false_2 by (intros ->; by inversion Hp as [|? ? [? _]]).
    change (AT_FDCWD =? AT_FDCWD) with true. cbn [orb].
    pose proof (normal_append_plain ["proc"; to_string pid; "cwd"] path) as H.
    cbn [join] in H. rewrite !app_assoc_str in H. apply H; [done| |done].
    constructor; [by repeat constructor|].
    constructor; [apply to_string_clean|]. by repeat constructor.
  - intros Hne Ha. unfold resolve_path. fold (is_absolute path).
    rewrite Ha, bool_decide_eq_false_2 by done. cbn [orb].
    destruct (lexically_normal_absolute
      (path_append (if dirfd =? AT_FDCWD then "/proc/" +:+ to_string pid +:+ "/cwd"
        else "/proc/" +:+ to_string pid +:+ "/fd/" +:+ to_string dirfd) path))
      as (names & b & Hn & _ & E); [|by exists names, b].
    unfold path_append. rewrite Ha. by repeat case_match.
Qed.

Lemma resolve_path_forms_witness :
  resolve_path 7 AT_FDCWD "/./etc/shadow" = "/./etc/shadow" ∧
  resolve_path 7 AT_FDCWD "etc/shadow" = "/proc/7/cwd/etc/shadow" ∧
  ∃ names b, Forall clean_name names ∧
             resolve_path 7 AT_FDCWD "../etc/shadow" = normal_form names b.
Proof.
  split_and!.
  - apply (resolve_path_forms 7 AT_FDCWD "/./etc/shadow"). by right.
  - apply (resolve_path_forms 7 AT_FDCWD "etc/shadow"). apply (bool_decide_unpack _).
    vm_compute. done.
  - by apply (resolve_path_forms 7 AT_FDCWD "../etc/shadow").
Defined.

(** A failed openat, read, write, close, connect or bind changes no
    descriptor and is reported as one event with the name of the call and the
    positive error number. *)
Theorem failed_call_reported tr pid c st :
  one_of (nr c) [SYS_openat; SYS_read; SYS_write; SYS_close; SYS_connect; SYS_bind] = true →
  -4095 ≤ result c < 0 →
  (handle tr pid c st).1.2 = st.2 ∧
  (handle tr pid c st).2 = [SyscallFailed pid (syscall_name (nr c)) (- result c) empty_context].
Proof.
  intros Hn Hr. rewrite handle_table, handle_events.
  assert ((on_entry tr pid (at_entry c) st.1).2 = None) as ->.
  { unfold on_entry, entry_rest. cbn [decode frame_number cleared current_syscall].
    fold (nr c). apply one_of_true in Hn. rewrite ?one_of_cons, ?one_of_nil.
    repeat (apply elem_of_cons in Hn as [E|Hn]; [rewrite E; eval_eqb; reflexivity|]).
    by apply elem_of_nil in Hn. }
  assert (on_exit pid (at_exit c) (on_entry tr pid (at_entry c) st.1).1 st.2
    = (st.2, Some (SyscallFailed pid (syscall_name (nr c)) (- result c) empty_context))) as ->;
    [|done].
  unfold on_exit, exit_rest. rewrite entry_number. cbn [decode frame_result]. fold (nr c) (result c).
  destruct (Z.leb_spec 0 (result c)); [lia|]. destruct (Z.ltb_spec (result c) 0); [|lia].
  destruct (Z.eqb_spec (result c) 0); [lia|]. rewrite !andb_false_r, Hn.
  rewrite (s32_small (- result c)) by lia. done.
Qed.

(** An openat that fails with EACCES. *)
Definition failed_openat : completed :=
  mkCompleted (mkRegs (u64 AT_FDCWD) 0 0 0 0 0 (u64 (-38)) SYS_openat)
    (mkRegs (u64 AT_FDCWD) 0 0 0 0 0 (u64 (-13)) SYS_openat).

Lemma failed_call_reported_witness :
  (handle (mkTracee (peek_of (λ _, None)) (λ _, None) "") 9 failed_openat
     (new_decoder, FdTable.empty)).2
  = [SyscallFailed 9 "openat" 13 empty_context].
Proof.
  apply (failed_call_reported _ 9 failed_openat (new_decoder, FdTable.empty));
    [reflexivity|].
  split; vm_compute; done.
Defined.

(** An address shorter than a [sockaddr_storage] is decoded from the
    tracee's bytes alone: what follows the storage in memory plays no part. *)
Theorem endpoint_within_storage peek ntop6 pid address len after after' :
  len < storage_size →
  read_endpoint (mkTracee peek ntop6 after) pid address len
  = read_endpoint (mkTracee peek ntop6 after') pid address len.
Proof.
  intros Hlen. unfold read_endpoint.
  assert (∀ fuel offset,
    fetch_words (mkTracee peek ntop6 after) pid address (Z.min len storage_size) fuel offset
    = fetch_words (mkTracee peek ntop6 after') pid address (Z.min len storage_size) fuel offset)
    as Hf.
  { induction fuel as [|fuel IH]; intros offset; [done|]. cbn [fetch_words tracee_peek].
    by rewrite IH. }
  rewrite Hf. destruct (fetch_words _ _ _ _ _ _) as [bytes|] eqn:E; [|done].
  apply fetch_words_length in E. unfold sun_path.
  rewrite bool_decide_eq_true_2; [done|]. apply storage_ends_in_nul. unfold storage_size in *. lia.
Qed.

Lemma endpoint_within_storage_witness :
  read_endpoint (mkTracee (peek_of (mem_of_list 4096
    (["002"; "000"; "000"; "080"; "127"; "000"; "000"; "001"]%char ++ replicate 8 nul)))
    (λ _, None) "secret") 9 4096 16 = "127.0.0.1:80".
Proof.
  rewrite (endpoint_within_storage _ _ _ _ _ _ ""); [vm_compute; reflexivity|vm_compute; done].
Defined.

(** A tracee that passes a full [sockaddr_storage] of family AF_UNIX
    without a NUL makes the decoder read on: the reported endpoint continues
    with the bytes that follow the storage on the tracer's stack. *)
Theorem endpoint_overread tr pid address len bytes :
  storage_size ≤ len →
  fetch_words tr pid address storage_size 16 0 = Some bytes →
  length bytes = Z.to_nat storage_size → ss_family bytes = AF_UNIX → nul ∉ drop 2 bytes →
  read_endpoint tr pid address len = until_nul (drop 2 bytes) +:+ after_storage tr.
Proof.
  intros Hlen Hf Hl Hfam Hn. unfold read_endpoint. rewrite Z.min_r, Hf by done.
  assert (storage_of bytes = bytes) as ->.
  { unfold storage_of. rewrite Hl, Nat.sub_diag. apply app_nil_r. }
  rewrite Hfam. change (AF_UNIX =? AF_INET) with false. change (AF_UNIX =? AF_INET6) with false.
  change (AF_UNIX =? AF_UNIX) with true. unfold sun_path.
  by rewrite bool_decide_eq_false_2.
Qed.

Lemma endpoint_overread_witness :
  let bytes := "001"%char :: nul :: replicate 126 "A"%char in
  read_endpoint (mkTracee (peek_of (mem_of_list 4096 bytes)) (λ _, None) "secret") 9 4096 4096
  = until_nul (drop 2 bytes) +:+ "secret".
Proof.
  cbn zeta. apply (endpoint_overread (mkTracee _ _ "secret"));
    [vm_compute; done|vm_compute; reflexivity|vm_compute; reflexivity|vm_compute; reflexivity|].
  apply (bool_decide_unpack _). vm_compute. done.
Defined.

(** The new name of a renameat is read at the address held by the third
    argument, the new directory descriptor, and never at the fourth, where the
    call has it; a renameat2 is decoded as a rename, its old directory
    descriptor used as the address of the old name. *)
Theorem renameat_arguments tr pid r d :
  (s64 (reg_orig_rax r) = SYS_renameat →
   pending_path_two (on_entry tr pid r d).1
   = resolve_path pid (s32 (reg_rdi r)) (read_process_string tr pid (reg_rdx r))) ∧
  (s64 (reg_orig_rax r) = SYS_renameat2 →
   pending_path (on_entry tr pid r d).1
   = resolve_path pid AT_FDCWD (read_process_string tr pid (reg_rdi r)) ∧
   pending_path_two (on_entry tr pid r d).1
   = resolve_path pid AT_FDCWD (read_process_string tr pid (reg_rsi r))).
Proof.
  unfold on_entry, entry_rest. cbn [decode frame_number cleared current_syscall].
  rewrite ?one_of_cons, ?one_of_nil. split; intros E; rewrite E; by eval_eqb.
Qed.

Lemma renameat_arguments_witness :
  let text := String.list_ascii_of_string ("/a" +:+ str nul +:+ "_____" +:+ "/b" +:+ str nul +:+ "_____") in
  let tr := mkTracee (peek_of (mem_of_list 4096 text)) (λ _, None) "" in
  let r := mkRegs (u64 AT_FDCWD) 4096 (u64 AT_FDCWD) 4104 0 0 (u64 (-38)) SYS_renameat in
  read_process_string tr 9 (reg_r10 r) = "/b" ∧
  pending_path_two (on_entry tr 9 r new_decoder).1 = "".
Proof.
  cbn zeta. split; [vm_compute; reflexivity|].
  rewrite (proj1 (renameat_arguments _ _ _ _)); [vm_compute; reflexivity|reflexivity].
Defined.
