(* ===== verification/Report.v ===== *)
(** * Reporters (include/execell/report, src/report)

    [execell::report::Reporter] is the interface between the tracer and what
    consumes its events; its implementations here are [Summary],
    [JsonReporter] and [TerminalReporter].  An output stream is the text
    written to it so far. *)

From S2P Require Import Prelude CxxString Json Event.

(** ** The interface *)

(** The two virtual functions of [report::Reporter]. *)
Class Reporter (R : Type) := {
  report : R → Event → R;
  stop_requested : R → bool;
}.

(** What the tracer relies on: a request to stop is never withdrawn. *)
Class StickyReporter (R : Type) `{Reporter R} := {
  stop_requested_sticky r e : stop_requested r = true → stop_requested (report r e) = true;
}.

(** A sequence of events reported one after the other. *)
Definition report_all {R} `{Reporter R} (r : R) (es : list Event) : R := foldl report r es.

Lemma report_all_snoc {R} `{Reporter R} (r : R) es e :
  report_all r (es ++ [e]) = report (report_all r es) e.
Proof. apply foldl_snoc. Qed.

Lemma report_all_app {R} `{Reporter R} (r : R) es fs :
  report_all r (es ++ fs) = report_all (report_all r es) fs.
Proof. apply foldl_app. Qed.

Lemma report_all_sticky {R} `{StickyReporter R} (r : R) es :
  stop_requested r = true → stop_requested (report_all r es) = true.
Proof.
  revert r; induction es as [|e es IH]; intros r Hr; [done|].
  apply IH. by apply stop_requested_sticky.
Qed.

(** ** Summary *)

Module Summary.

Record t := mk {
  files_opened : Z;
  files_read : Z;
  files_written : Z;
  processes_spawned : Z;
  network_attempts : Z;
  failures : Z;
}.

Definition empty : t := mk 0 0 0 0 0 0.

(** [Summary::report]; [++] on a [size_t] wraps. *)
Definition report (s : t) (e : Event) : t :=
  let '(mk o r w p n f) := s in
  match e with
  | FileOpened _ _ _ => mk (u64 (o + 1)) r w p n f
  | FileRead _ _ _ _ => mk o (u64 (r + 1)) w p n f
  | FileWritten _ _ _ _ => mk o r (u64 (w + 1)) p n f
  | ProcessSpawned _ _ _ => mk o r w (u64 (p + 1)) n f
  | NetworkConnected _ _ _ | NetworkBound _ _ _ | NetworkAccepted _ _ _ =>
      mk o r w p (u64 (n + 1)) f
  | SyscallFailed _ _ _ _ => mk o r w p n (u64 (f + 1))
  | _ => s
  end.

#[global] Instance reporter : Reporter t := {
  report := report;
  stop_requested _ := false;
}.

#[global] Instance sticky : StickyReporter t.
Proof. by split. Qed.

(** [Summary::print] *)
Definition print (s : t) : string :=
  concat_str
    ["ExeCell Inspection Report"; str newline;
     "Files opened: "; to_string (files_opened s); str newline;
     "Files read: "; to_string (files_read s); str newline;
     "Files written: "; to_string (files_written s); str newline;
     "Processes spawned: "; to_string (processes_spawned s); str newline;
     "Network attempts: "; to_string (network_attempts s); str newline;
     "Failures: "; to_string (failures s); str newline].

(** The number of events of a kind in a trace. *)
Definition count (p : Event → bool) (es : list Event) : Z :=
  Z.of_nat (length (List.filter p es)).

Definition is_opened (e : Event) : bool := match e with FileOpened _ _ _ => true | _ => false end.
Definition is_read (e : Event) : bool := match e with FileRead _ _ _ _ => true | _ => false end.
Definition is_written (e : Event) : bool :=
  match e with FileWritten _ _ _ _ => true | _ => false end.
Definition is_spawned (e : Event) : bool :=
  match e with ProcessSpawned _ _ _ => true | _ => false end.
Definition is_network (e : Event) : bool :=
  match e with
  | NetworkConnected _ _ _ | NetworkBound _ _ _ | NetworkAccepted _ _ _ => true
  | _ => false
  end.
Definition is_failure (e : Event) : bool :=
  match e with SyscallFailed _ _ _ _ => true | _ => false end.

Lemma count_snoc p es e : count p (es ++ [e]) = count p es + if p e then 1 else 0.
Proof. unfold count. rewrite List.filter_app, length_app. simpl. destruct (p e); simpl; lia. Qed.

(** After any trace each counter of the summary is the number of events
    of its kind, as a 64-bit count; the network counter joins connect, bind
    and accept. *)
Theorem summary_counts es :
  report_all empty es =
  mk (u64 (count is_opened es)) (u64 (count is_read es)) (u64 (count is_written es))
     (u64 (count is_spawned es)) (u64 (count is_network es)) (u64 (count is_failure es)).
Proof.
  induction es as [|e es IH] using rev_ind; [done|].
  rewrite report_all_snoc, IH, !count_snoc.
  destruct e; cbn -[u64]; rewrite ?Z.add_0_r, ?u64_add_l; done.
Qed.

End Summary.

(** ** JsonReporter *)

Module JsonReporter.

Definition hex_digit (z : Z) : ascii :=
  ascii_of_N (Z.to_N (if z <? 10 then 48 + z else 87 + z)).

(** [output << std::hex << value] for a value below 256: no leading zero. *)
Definition hex_text (z : Z) : string :=
  if z <? 16 then str (hex_digit z)
  else String (hex_digit (z / 16)) (str (hex_digit (z mod 16))).

(** The body of the loop of [write_json_string]. *)
Definition write_json_char (c : ascii) : string :=
  if bool_decide (c = dquote) then String backslash (str dquote)
  else if bool_decide (c = backslash) then String backslash (str backslash)
  else if bool_decide (c = newline) then "\n"
  else if bool_decide (c = carriage_return) then "\r"
  else if bool_decide (c = tab) then "\t"
  else if code c <? 32 then "\u00" +:+ hex_text (code c)
  else str c.

(** [write_json_string] *)
Definition write_json_string (s : string) : string :=
  str dquote +:+ escape_with write_json_char s +:+ str dquote.

(** The chain of [if constexpr] that names the event's type. *)
Definition type_name (e : Event) : string :=
  match e with
  | FileOpened _ _ _ => "file.opened"
  | FileRead _ _ _ _ => "file.read"
  | FileWritten _ _ _ _ => "file.written"
  | FileClosed _ _ _ => "file.closed"
  | FileDeleted _ _ => "file.deleted"
  | FileRenamed _ _ _ => "file.renamed"
  | DirectoryCreated _ _ => "directory.created"
  | SocketCreated _ _ _ _ _ => "socket.created"
  | NetworkConnected _ _ _ => "network.connected"
  | NetworkBound _ _ _ => "network.bound"
  | NetworkListening _ _ _ => "network.listening"
  | NetworkAccepted _ _ _ => "network.accepted"
  | SyscallFailed _ _ _ _ => "syscall.failed"
  | ProcessSpawned _ _ _ => "process.spawned"
  | ProcessExec _ _ _ => "process.exec"
  | ProcessExited _ _ _ _ => "process.exited"
  | TraceStarted _ _ => "trace.started"
  | TraceFinished _ _ _ _ => "trace.finished"
  | PolicyViolation _ _ _ => "policy.violation"
  | FileModeChanged _ _ _ => "unknown"
  end.

Definition optional {A} (f : A → string) (o : option A) : string :=
  match o with Some a => f a | None => "" end.

(** What [report] writes for one event. *)
Definition event_text (e : Event) : string :=
  quoted "{'schema_version':1,'type':" +:+ write_json_string (type_name e) +:+
  quoted ",'pid':" +:+ to_string (ctx_pid (context_of e)) +:+
  quoted ",'sequence':" +:+ to_string (ctx_sequence (context_of e)) +:+
  optional (λ p, quoted ",'path':" +:+ write_json_string p) (path_of e) +:+
  optional (λ b, quoted ",'bytes':" +:+ to_string b) (bytes_of e) +:+
  optional (λ f, quoted ",'fd':" +:+ to_string f) (fd_of e) +:+
  optional (λ m, quoted ",'mode':" +:+ to_string m) (mode_of e) +:+
  optional (λ p, quoted ",'endpoint':" +:+ write_json_string p) (endpoint_of e) +:+
  optional (λ r, quoted ",'rule':" +:+ write_json_string r.1 +:+
                 quoted ",'resource':" +:+ write_json_string r.2) (rule_of e) +:+
  optional (λ s, quoted ",'syscall':" +:+ write_json_string s.1 +:+
                 quoted ",'error':" +:+ to_string s.2) (syscall_of e) +:+
  optional (λ s, quoted ",'status':" +:+ to_string s.1 +:+
                 quoted ",'signaled':" +:+ bool_text s.2) (status_of e) +:+
  optional (λ p, quoted ",'parent_pid':" +:+ to_string p) (parent_pid_of e) +:+
  "}".

Record t := mk { output : string; first : bool; finished : bool }.

(** [JsonReporter(output)] on an empty stream. *)
Definition new : t := mk "" true false.

(** [JsonReporter::report] *)
Definition report (r : t) (e : Event) : t :=
  if finished r then r
  else mk (output r +:+ (if first r then "[" else ",") +:+ event_text e) false (finished r).

(** [JsonReporter::finish] *)
Definition finish (r : t) : t :=
  if finished r then r else mk (output r +:+ "]") (first r) true.

#[global] Instance reporter : Reporter t := {
  report := report;
  stop_requested _ := false;
}.

#[global] Instance sticky : StickyReporter t.
Proof. by split. Qed.

(** *** The document an event stands for *)

(** The member of a document that [optional] writes. *)
Definition members {A} (f : A → list (string * json)) (o : option A) : list (string * json) :=
  match o with Some a => f a | None => [] end.

Definition event_json (e : Event) : json :=
  JObj (
    [("schema_version", JNum 1); ("type", JStr (type_name e));
     ("pid", JNum (ctx_pid (context_of e))); ("sequence", JNum (ctx_sequence (context_of e)))] ++
    members (λ p, [("path", JStr p)]) (path_of e) ++
    members (λ b, [("bytes", JNum b)]) (bytes_of e) ++
    members (λ f, [("fd", JNum f)]) (fd_of e) ++
    members (λ m, [("mode", JNum m)]) (mode_of e) ++
    members (λ p, [("endpoint", JStr p)]) (endpoint_of e) ++
    members (λ r, [("rule", JStr r.1); ("resource", JStr r.2)]) (rule_of e) ++
    members (λ s, [("syscall", JStr s.1); ("error", JNum s.2)]) (syscall_of e) ++
    members (λ s, [("status", JNum s.1); ("signaled", JBool s.2)]) (status_of e) ++
    members (λ p, [("parent_pid", JNum p)]) (parent_pid_of e)).

Definition print_member (kv : string * json) : string :=
  print_string write_json_char kv.1 +:+ ":" +:+ print_json write_json_char kv.2.

Definition comma_members (l : list (string * json)) : string :=
  concat_str (map (λ kv, "," +:+ print_member kv) l).

Lemma comma_members_app l k : comma_members (l ++ k) = comma_members l +:+ comma_members k.
Proof.
  unfold comma_members. induction l as [|x l IH]; [done|].
  rewrite <- app_comm_cons. cbn [map concat_str]. by rewrite IH, !app_assoc_str.
Qed.

Lemma join_comma kv l :
  join "," (map print_member (kv :: l)) = print_member kv +:+ comma_members l.
Proof.
  revert kv; induction l as [|x l IH]; intros kv; [by rewrite app_empty_r|].
  change (join "," (map print_member (kv :: x :: l)))
    with (print_member kv +:+ "," +:+ join "," (map print_member (x :: l))).
  rewrite IH. unfold comma_members. cbn [map concat_str]. by rewrite app_assoc_str.
Qed.

Lemma comma_optional {A} (f : A → list (string * json)) o :
  comma_members (members f o) = optional (λ a, comma_members (f a)) o.
Proof. by destruct o. Qed.

Lemma optional_ext {A} (f g : A → string) o : (∀ a, f a = g a) → optional f o = optional g o.
Proof. intros H. destruct o; [apply H|done]. Qed.

(** The text written for an event is its document, printed compactly. *)
Lemma event_text_print e : event_text e = print_json write_json_char (event_json e).
Proof.
  unfold event_json. cbn [print_json].
  change (map _ ?l) with (map print_member l).
  rewrite <- app_comm_cons, join_comma.
  rewrite !comma_members_app, !comma_optional. unfold event_text, write_json_string.
  unfold comma_members, print_member. cbn [map concat_str fst snd print_json].
  destruct e; cbn [optional members path_of bytes_of fd_of mode_of endpoint_of rule_of
    syscall_of status_of parent_pid_of fst snd];
    unfold print_string; autorewrite with execell_str; reflexivity.
Qed.

(** *** What the reader gets back *)

(** The characters whose escape is well formed: all but the control
    characters below 16 that have no short escape. *)
Definition clean_char (c : ascii) : bool :=
  (16 <=? code c) || bool_decide (c = newline) || bool_decide (c = carriage_return)
  || bool_decide (c = tab).

Definition clean (s : string) : bool := str_forall clean_char s.

Definition clean_event (e : Event) : bool :=
  let ok := from_option clean true in
  ok (path_of e) && ok (endpoint_of e) && ok (fst <$> rule_of e) && ok (snd <$> rule_of e)
  && ok (fst <$> syscall_of e).

Lemma clean_char_encodes c : clean_char c = true ↔ encodes write_json_char c.
Proof.
  unfold encodes. split.
  - intros H rest. destruct c as [[] [] [] [] [] [] [] []]; try discriminate H; done.
  - intros H. specialize (H (str dquote)). revert H.
    destruct c as [[] [] [] [] [] [] [] []]; try reflexivity; intros [H _]; discriminate H.
Qed.

Lemma clean_encodes s : clean s = true → encodes_str write_json_char s.
Proof.
  unfold clean. induction s as [|c s IH]; [done|]. cbn [str_forall encodes_str].
  rewrite andb_true_iff. intros [Hc Hs]. split; [by apply clean_char_encodes|auto].
Qed.

Lemma type_name_clean e : clean (type_name e) = true.
Proof. by destruct e. Qed.

Definition encodable_member (kv : string * json) : Prop :=
  encodes_str write_json_char kv.1 ∧ encodable write_json_char kv.2.

Lemma encodable_members {A} (f : A → list (string * json)) o :
  (∀ a, o = Some a → Forall encodable_member (f a)) → Forall encodable_member (members f o).
Proof. destruct o; simpl; auto. Qed.

Lemma num_member k z : clean k = true → encodable_member (k, JNum z).
Proof. split; [by apply clean_encodes|done]. Qed.

Lemma bool_member k b : clean k = true → encodable_member (k, JBool b).
Proof. split; [by apply clean_encodes|done]. Qed.

Lemma str_member k s : clean k = true → clean s = true → encodable_member (k, JStr s).
Proof. split; by apply clean_encodes. Qed.

#[local] Hint Resolve num_member bool_member str_member type_name_clean : execell.

Lemma event_json_encodable e :
  clean_event e = true → encodable write_json_char (event_json e).
Proof.
  unfold clean_event. rewrite !andb_true_iff. intros ((((Hp & He) & Hr) & Hs) & Hn).
  unfold event_json. cbn [encodable]. apply (foldr_and_Forall encodable_member).
  repeat match goal with
         | |- Forall _ (_ ++ _) => apply Forall_app_2
         | |- Forall _ (members _ _) => apply encodable_members; intros ? ?
         end;
    repeat match goal with E : ?o = Some _, H : context [?o] |- _ => rewrite E in H; simpl in H end;
    repeat apply Forall_cons_2; try apply Forall_nil_2; auto with execell.
Qed.

(** The stream after a sequence of events reported to a fresh reporter. *)
Lemma output_report_all es :
  es ≠ [] →
  report_all new es = mk ("[" +:+ join "," (map event_text es)) false false.
Proof.
  induction es as [|e es IH] using rev_ind; [done|]. intros _.
  rewrite report_all_snoc. destruct es as [|f es]; [done|].
  rewrite IH by done. cbn [Report.report reporter]. unfold report. cbn [finished first output].
  f_equal. rewrite map_app, join_app by done. cbn [map]. by rewrite app_assoc_str.
Qed.

Lemma output_parses es :
  es ≠ [] → forallb clean_event es = true →
  parse_document (output (finish (report_all new es))) = Some (JArr (map event_json es)).
Proof.
  intros Hne Hc. rewrite output_report_all by done.
  rewrite (map_ext _ _ event_text_print), <- (map_map event_json (print_json write_json_char)).
  unfold finish. cbn [finished output]. rewrite app_assoc_str.
  apply (parse_print write_json_char (JArr (map event_json es))).
  cbn [encodable]. rewrite foldr_and_Forall, Forall_map. apply Forall_forall. intros e He.
  apply event_json_encodable. rewrite forallb_forall in Hc. apply Hc. by apply list_elem_of_In.
Qed.

(** C8: whatever non-empty sequence of events is reported, the finished stream
    is a JSON document that reads back as the array of the events' objects, in
    order, provided the reported strings avoid the control characters that
    have no short escape and a code below 16. *)
Theorem json_report_parses es :
  es ≠ [] → forallb clean_event es = true →
  parse_document (output (finish (report_all new es))) = Some (JArr (map event_json es)).
Proof. apply output_parses. Qed.

Lemma json_report_parses_witness :
  let es := [TraceStarted 5 (mkContext 5 0); FileOpened 3 (quoted "/a'b") (mkContext 5 1)] in
  parse_document (output (finish (report_all new es))) = Some (JArr (map event_json es)).
Proof. apply json_report_parses; [done|vm_compute; reflexivity]. Defined.

(** A control character below 16 other than newline, carriage return and
    tab is written with too few digits after [\u], and the document with it is
    not JSON. *)
Theorem json_control_character c :
  clean_char c = false →
  parse_document (output (finish (report_all new [FileDeleted (str c) (mkContext 1 0)]))) = None.
Proof.
  intros Hc. destruct c as [[] [] [] [] [] [] [] []]; try discriminate Hc; vm_compute; reflexivity.
Qed.

Lemma json_control_character_witness :
  parse_document (output (finish (report_all new [FileDeleted (str "001"%char) (mkContext 1 0)])))
  = None.
Proof. apply json_control_character. reflexivity. Defined.

(** Finishing is idempotent and final: a second [finish] and every event
    reported after it leave the stream unchanged, and [finish] itself writes
    one closing bracket.  Without any event the bracket closes nothing: the
    stream of an empty trace is not a JSON document. *)
Theorem json_finish_final r es :
  finish (finish r) = finish r ∧
  report_all (finish r) es = finish r ∧
  (finished r = false → output (finish r) = output r +:+ "]") ∧
  parse_document (output (finish new)) = None.
Proof.
  assert (finished (finish r) = true) as Hf.
  { unfold finish. by destruct (finished r) eqn:E. }
  split_and!; [by unfold finish at 1; rewrite Hf| | |done].
  - induction es as [|e es IH] using rev_ind; [done|].
    rewrite report_all_snoc, IH. cbn [Report.report reporter]. unfold report. by rewrite Hf.
  - intros E. unfold finish. by rewrite E.
Qed.

Lemma json_finish_final_witness :
  finish (finish new) = finish new ∧ report_all (finish new) [] = finish new ∧
  (finished new = false → output (finish new) = output new +:+ "]") ∧
  parse_document (output (finish new)) = None.
Proof. apply (json_finish_final new []). Defined.

End JsonReporter.

(** ** TerminalReporter *)

Module TerminalReporter.

(** The line written for an event, without its newline; [None] for the events
    the reporter shows nothing for. *)
Definition line (e : Event) : option string :=
  match e with
  | FileOpened fd path _ =>
      Some (quoted "[FILE] OPEN  '" +:+ path +:+ quoted "' fd=" +:+ to_string fd)
  | FileRead _ path bytes _ =>
      Some (quoted "[FILE] READ  '" +:+ path +:+ quoted "' bytes=" +:+ to_string bytes)
  | FileWritten _ path bytes _ =>
      Some (quoted "[FILE] WRITE '" +:+ path +:+ quoted "' bytes=" +:+ to_string bytes)
  | FileClosed fd path _ =>
      Some (quoted "[FILE] CLOSE '" +:+ path +:+ quoted "' fd=" +:+ to_string fd)
  | FileDeleted path _ => Some (quoted "[FILE] DELETE '" +:+ path +:+ quoted "'")
  | FileRenamed from to _ =>
      Some (quoted "[FILE] RENAME '" +:+ from +:+ quoted "' -> '" +:+ to +:+ quoted "'")
  | DirectoryCreated path _ => Some (quoted "[FILE] MKDIR  '" +:+ path +:+ quoted "'")
  | FileModeChanged path mode _ =>
      Some (quoted "[FILE] CHMOD  '" +:+ path +:+ quoted "' mode=" +:+ to_string mode)
  | SocketCreated fd domain _ _ _ =>
      Some ("[NET] SOCKET fd=" +:+ to_string fd +:+ " domain=" +:+ to_string domain)
  | NetworkConnected fd endpoint _ =>
      Some ("[NET] CONNECT " +:+ endpoint +:+ " fd=" +:+ to_string fd)
  | NetworkBound fd endpoint _ => Some ("[NET] BIND " +:+ endpoint +:+ " fd=" +:+ to_string fd)
  | NetworkListening fd backlog _ =>
      Some ("[NET] LISTEN fd=" +:+ to_string fd +:+ " backlog=" +:+ to_string backlog)
  | NetworkAccepted fd endpoint _ =>
      Some ("[NET] ACCEPT " +:+ endpoint +:+ " fd=" +:+ to_string fd)
  | SyscallFailed pid syscall error _ =>
      Some ("[FAIL] " +:+ syscall +:+ " errno=" +:+ to_string error +:+ " pid=" +:+ to_string pid)
  | ProcessSpawned pid parent_pid _ =>
      Some ("[PROC] SPAWN pid=" +:+ to_string pid +:+ " parent=" +:+ to_string parent_pid)
  | ProcessExec pid path _ =>
      Some (quoted "[PROC] EXEC  '" +:+ path +:+ quoted "' pid=" +:+ to_string pid)
  | ProcessExited pid status signaled _ =>
      Some ("[PROC] EXIT  pid=" +:+ to_string pid +:+ " status=" +:+ to_string status +:+
            (if signaled then " signal" else ""))
  | PolicyViolation rule resource _ =>
      Some ("[POLICY] DENY rule=" +:+ rule +:+ quoted " resource='" +:+ resource +:+ quoted "'")
  | TraceStarted _ _ | TraceFinished _ _ _ _ => None
  end.

(** The text on standard output. *)
Definition t : Type := string.

(** [TerminalReporter::report] *)
Definition report (cout : t) (e : Event) : t :=
  match line e with
  | Some l => cout +:+ l +:+ str newline
  | None => cout
  end.

#[global] Instance reporter : Reporter t := {
  report := report;
  stop_requested _ := false;
}.

#[global] Instance sticky : StickyReporter t.
Proof. by split. Qed.

(** The strings an event is shown with. *)
Definition shown_strings (e : Event) : list string :=
  match e with
  | FileRenamed from to _ => [from; to]
  | _ => option_list (path_of e) ++ option_list (endpoint_of e) ++
         option_list (fst <$> rule_of e) ++ option_list (snd <$> rule_of e) ++
         option_list (fst <$> syscall_of e)
  end.

Definition single_line (e : Event) : bool :=
  forallb (λ s, negb (str_elem newline s)) (shown_strings e).

Lemma line_no_newline e l :
  single_line e = true → line e = Some l → str_elem newline l = false.
Proof.
  unfold single_line. intros Hs Hl.
  destruct e; simpl in Hl; simplify_eq; simpl in Hs;
    rewrite ?andb_true_iff, ?negb_true_iff in Hs; destruct_and?;
    repeat match goal with H : str_elem _ _ = false |- _ => revert H end;
    rewrite ?str_elem_app, ?(to_string_no_char newline) by done; intros;
    repeat match goal with H : str_elem _ _ = false |- _ => rewrite H; clear H end;
    repeat case_match; reflexivity.
Qed.

(** The terminal output is one line per shown event, in order: when no
    string of the trace holds a newline, splitting the text at its newlines
    gives back the lines of the events (and the empty rest after the last). *)
Theorem terminal_lines es :
  forallb single_line es = true →
  split_on newline (report_all "" es) = omap line es ++ [""].
Proof.
  induction es as [|e es IH] using rev_ind; [done|].
  rewrite forallb_app, andb_true_iff. intros [Hes He]. simpl in He. rewrite andb_true_r in He.
  rewrite report_all_snoc, omap_app. specialize (IH Hes). cbn [Report.report reporter].
  unfold report. simpl. destruct (line e) as [l|] eqn:Hl.
  - rewrite <- app_assoc_str, split_on_snoc, split_on_app_last with (l := omap line es) by
      (done || by eapply line_no_newline). done.
  - by rewrite app_nil_r.
Qed.

Lemma terminal_lines_witness :
  split_on newline (report_all "" [TraceStarted 9 (mkContext 9 0); FileDeleted "/t" (mkContext 9 1)])
  = [quoted "[FILE] DELETE '/t'"; ""].
Proof. apply terminal_lines. reflexivity. Defined.

End TerminalReporter.
