(* ===== verification/Policy.v ===== *)
(** * Policy (include/execell/policy, src/policy)

    The rule engine that judges each event, and the reporter that puts it
    between the tracer and another reporter. *)

From S2P Require Import Prelude CxxString FsPath Event Report.

Inductive Decision := allow | deny.

#[export] Instance Decision_eq_dec : EqDecision Decision.
Proof. solve_decision. Defined.

Record Violation := mkViolation { rule : string; resource : string; context : EventContext }.

Record Config := mkConfig {
  denied_paths : list string;
  denied_endpoints : list string;
  denied_syscalls : list string;
  max_processes : Z;
}.

(** ** The engine *)

Module Engine.

Record t := mk { config : Config; violations : list Violation; process_count : Z }.

(** [Engine(config)] *)
Definition new (c : Config) : t := mk c [] 0.

(** The [resource] the first visitor of [evaluate] leaves. *)
Definition resource_of (e : Event) : string :=
  match path_of e with
  | Some p => p
  | None => default "" (endpoint_of e)
  end.

(** The [syscall] the second visitor leaves. *)
Definition syscall_name_of (e : Event) : string := default "" (fst <$> syscall_of e).

Definition process_spawn (e : Event) : bool :=
  match e with ProcessSpawned _ _ _ => true | _ => false end.

(** [violations_.push_back(...); return Decision::deny;] *)
Definition violate (g : t) (rule resource : string) (e : Event) : Decision * t :=
  (deny, mk (config g) (violations g ++ [mkViolation rule resource (context_of e)])
            (process_count g)).

(** [Engine::evaluate] *)
Definition evaluate (g : t) (e : Event) : Decision * t :=
  let resource := resource_of e in
  let syscall := syscall_name_of e in
  let g := if process_spawn e
           then mk (config g) (violations g) (u64 (process_count g + 1)) else g in
  if existsb (λ denied, starts_with resource denied) (denied_paths (config g))
  then violate g "denied-path" resource e
  else if existsb (λ denied, negb (bool_decide (resource = "")) && starts_with resource denied)
            (denied_endpoints (config g))
  then violate g "denied-endpoint" resource e
  else if existsb (λ denied, bool_decide (syscall = denied)) (denied_syscalls (config g))
  then violate g "denied-syscall" syscall e
  else if process_spawn e && negb (max_processes (config g) =? 0)
          && (max_processes (config g) <? process_count g)
  then violate g "process-limit" "process" e
  else (allow, g).

(** *** What a configuration forbids *)

(** The processes counted once [e] has been seen. *)
Definition counted (g : t) (e : Event) : Z :=
  if process_spawn e then u64 (process_count g + 1) else process_count g.

(** The rules of the configuration, with what each says of an event. *)
Inductive forbids (c : Config) (n : Z) (e : Event) : string → string → Prop :=
| forbids_path d :
    d ∈ denied_paths c → (∃ rest, resource_of e = d +:+ rest) →
    forbids c n e "denied-path" (resource_of e)
| forbids_endpoint d :
    d ∈ denied_endpoints c → resource_of e ≠ "" → (∃ rest, resource_of e = d +:+ rest) →
    forbids c n e "denied-endpoint" (resource_of e)
| forbids_syscall :
    syscall_name_of e ∈ denied_syscalls c →
    forbids c n e "denied-syscall" (syscall_name_of e)
| forbids_process :
    process_spawn e = true → max_processes c ≠ 0 → max_processes c < n →
    forbids c n e "process-limit" "process".

Lemma existsb_prefix r l :
  existsb (λ d, starts_with r d) l = true ↔ ∃ d, d ∈ l ∧ ∃ rest, r = d +:+ rest.
Proof.
  rewrite existsb_exists. setoid_rewrite starts_with_spec.
  setoid_rewrite list_elem_of_In. done.
Qed.

Lemma existsb_prefix_nonempty r l :
  existsb (λ d, negb (bool_decide (r = "")) && starts_with r d) l = true ↔
  r ≠ "" ∧ ∃ d, d ∈ l ∧ ∃ rest, r = d +:+ rest.
Proof.
  rewrite existsb_exists. setoid_rewrite andb_true_iff.
  setoid_rewrite negb_true_iff. setoid_rewrite bool_decide_eq_false.
  setoid_rewrite starts_with_spec. setoid_rewrite list_elem_of_In. split.
  - intros (d & ? & ? & ?). eauto.
  - intros (? & d & ? & ?). eauto.
Qed.

Lemma existsb_eq (s : string) l : existsb (λ d, bool_decide (s = d)) l = true ↔ s ∈ l.
Proof.
  rewrite existsb_exists. setoid_rewrite bool_decide_eq_true.
  setoid_rewrite list_elem_of_In. split; [by intros (d & ? & ->)|by exists s].
Qed.

(** The order in which the rules are tried. *)
Definition rank (r : string) : nat :=
  if bool_decide (r = "denied-path") then 0
  else if bool_decide (r = "denied-endpoint") then 1
  else if bool_decide (r = "denied-syscall") then 2
  else 3.

(** The two outcomes of [evaluate]. *)
Inductive outcome (g : t) (e : Event) : Decision * t → Prop :=
| outcome_allow :
    (∀ r s, ¬ forbids (config g) (counted g e) e r s) →
    outcome g e (allow, mk (config g) (violations g) (counted g e))
| outcome_deny r s :
    forbids (config g) (counted g e) e r s →
    (∀ r' s', forbids (config g) (counted g e) e r' s' → (rank r ≤ rank r')%nat) →
    outcome g e (deny, mk (config g) (violations g ++ [mkViolation r s (context_of e)])
                          (counted g e)).

Lemma evaluate_outcome g e : outcome g e (evaluate g e).
Proof.
  destruct g as [c vs n]. unfold evaluate, violate.
  cbn [config violations process_count].
  set (m := counted (mk c vs n) e).
  assert ((if process_spawn e then mk c vs (u64 (n + 1)) else mk c vs n) = mk c vs m) as ->.
  { unfold m, counted. simpl. by destruct (process_spawn e). }
  cbn [config violations process_count].
  destruct (existsb _ (denied_paths c)) eqn:E1.
  { apply existsb_prefix in E1 as (d & ? & ?). constructor; [by econstructor|].
    intros r' s' _. apply (Nat.le_0_l (rank r')). }
  apply not_true_iff_false in E1. rewrite existsb_prefix in E1.
  destruct (existsb _ (denied_endpoints c)) eqn:E2.
  { apply existsb_prefix_nonempty in E2 as (? & d & ? & ?). constructor; [by econstructor|].
    intros r' s' []; vm_compute; try lia. naive_solver. }
  apply not_true_iff_false in E2. rewrite existsb_prefix_nonempty in E2.
  destruct (existsb _ (denied_syscalls c)) eqn:E3.
  { apply existsb_eq in E3. constructor; [by constructor|].
    intros r' s' []; vm_compute; try lia; naive_solver. }
  apply not_true_iff_false in E3. rewrite existsb_eq in E3.
  destruct (process_spawn e && _ && _) eqn:E4.
  { rewrite !andb_true_iff, negb_true_iff, Z.eqb_neq, Z.ltb_lt in E4. destruct E4 as [[??] ?].
    constructor; [by constructor|]. intros r' s' []; vm_compute; try lia; naive_solver. }
  apply not_true_iff_false in E4.
  rewrite !andb_true_iff, negb_true_iff, Z.eqb_neq, Z.ltb_lt in E4.
  constructor. intros r s []; naive_solver.
Qed.

(** C13: [evaluate] denies an event exactly when some rule of the configuration
    forbids it, records on denial one violation of the first such rule in the
    order path, endpoint, syscall, process limit, with the event's context,
    records nothing otherwise, counts the spawned processes and never changes
    the configuration. *)
Theorem evaluate_correct g e :
  let '(d, g') := evaluate g e in
  config g' = config g ∧
  process_count g' = counted g e ∧
  (d = deny ↔ ∃ r s, forbids (config g) (counted g e) e r s) ∧
  (d = allow → violations g' = violations g) ∧
  (d = deny → ∃ r s,
     violations g' = violations g ++ [mkViolation r s (context_of e)] ∧
     forbids (config g) (counted g e) e r s ∧
     ∀ r' s', forbids (config g) (counted g e) e r' s' → (rank r ≤ rank r')%nat).
Proof. destruct (evaluate_outcome g e); simpl; split_and!; naive_solver. Qed.

Lemma evaluate_correct_witness :
  let g := new (mkConfig ["/etc/shadow"] [] [] 0) in
  let '(d, g') := evaluate g (FileOpened 3 "/etc/shadow" (mkContext 4 2)) in
  d = deny ∧ violations g' = [mkViolation "denied-path" "/etc/shadow" (mkContext 4 2)].
Proof.
  pose proof (evaluate_correct (new (mkConfig ["/etc/shadow"] [] [] 0))
    (FileOpened 3 "/etc/shadow" (mkContext 4 2))) as H.
  split; [|exact eq_refl]. apply H. eexists _, _. eapply forbids_path; [by left|by exists ""].
Defined.

Lemma evaluate_config g e : config (evaluate g e).2 = config g.
Proof. by destruct (evaluate_outcome g e). Qed.

Lemma evaluate_count g e : process_count (evaluate g e).2 = counted g e.
Proof. by destruct (evaluate_outcome g e). Qed.

(** A denial always leaves a violation to report. *)
Lemma evaluate_deny_last g e :
  (evaluate g e).1 = deny →
  ∃ r s, last (violations (evaluate g e).2) = Some (mkViolation r s (context_of e)).
Proof.
  destruct (evaluate_outcome g e) as [|r s]; [done|]. intros _. exists r, s. apply last_snoc.
Qed.

(** A path rule compares the reported text only: the file under a denied
    directory reached through a [.] component is allowed, although its normal
    form is denied. *)
Theorem denied_path_spelling fd ctx :
  let g := new (mkConfig ["/etc"] [] [] 0) in
  lexically_normal "/./etc/shadow" = "/etc/shadow" ∧
  (evaluate g (FileOpened fd "/./etc/shadow" ctx)).1 = allow ∧
  (evaluate g (FileOpened fd (lexically_normal "/./etc/shadow") ctx)).1 = deny.
Proof. done. Qed.

(** A syscall rule only ever denies the report of a failed call: no other
    event is denied by a configuration whose rules are syscall names. *)
Theorem syscall_rule_needs_failure names g e :
  config g = mkConfig [] [] names 0 → "" ∉ names →
  ((evaluate g e).1 = deny ↔ ∃ pid s n ctx, e = SyscallFailed pid s n ctx ∧ s ∈ names).
Proof.
  intros Hg Hne. destruct (evaluate_outcome g e) as [Ha|r s Hf _]; simpl; rewrite Hg in *.
  - split; [done|]. intros (pid & s & n & ctx & -> & Hs). exfalso. by eapply Ha, forbids_syscall.
  - split; [|done]. intros _. destruct Hf as [d Hd|d Hd|Hs|? Hm];
      [by apply not_elem_of_nil in Hd|by apply not_elem_of_nil in Hd| |done].
    simpl in Hs. destruct e; try (by exfalso; apply Hne). eauto 10.
Qed.

Lemma syscall_rule_needs_failure_witness :
  (evaluate (new (mkConfig [] [] ["ptrace"] 0)) (SyscallFailed 4 "ptrace" 1 (mkContext 4 2))).1
  = deny.
Proof.
  apply (syscall_rule_needs_failure ["ptrace"]); [done| |by do 4 eexists; split; [|left]].
  intros H%list_elem_of_singleton. discriminate H.
Defined.

End Engine.

(** ** The policy reporter *)

Module PolicyReporter.

Section Downstream.
Context {R : Type} `{Reporter R}.

Record t := mk { engine : Engine.t; downstream : R; denied : bool }.

(** [Reporter(config, downstream)] *)
Definition new (c : Config) (d : R) : t := mk (Engine.new c) d false.

(** [policy::Reporter::report]; [back()] is the last violation, which
    [Engine.evaluate_deny_last] provides. *)
Definition report (p : t) (e : Event) : t :=
  let d := Report.report (downstream p) e in
  match Engine.evaluate (engine p) e with
  | (allow, g) => mk g d (denied p)
  | (deny, g) =>
      match last (Engine.violations g) with
      | Some v =>
          mk g (Report.report d (PolicyViolation (rule v) (resource v) (context v))) true
      | None => mk g d true
      end
  end.

#[global] Instance reporter : Reporter t := {
  report := report;
  stop_requested := denied;
}.

#[global] Instance sticky : StickyReporter t.
Proof.
  constructor. intros p e Hd. cbn in *. unfold report. repeat case_match; done.
Qed.

(** *** Traces *)

(** The engine after a trace. *)
Definition engine_after (g : Engine.t) (es : list Event) : Engine.t :=
  foldl (λ g e, (Engine.evaluate g e).2) g es.

(** The events the downstream reporter sees: each event, followed by the
    violation it causes, if any. *)
Fixpoint annotate (g : Engine.t) (es : list Event) : list Event :=
  match es with
  | [] => []
  | e :: es =>
      let '(d, g) := Engine.evaluate g e in
      e :: match d, last (Engine.violations g) with
           | deny, Some v => [PolicyViolation (rule v) (resource v) (context v)]
           | _, _ => []
           end ++ annotate g es
  end.

Definition is_violation (e : Event) : bool :=
  match e with PolicyViolation _ _ _ => true | _ => false end.

Lemma report_all_downstream p es :
  downstream (report_all p es) = report_all (downstream p) (annotate (engine p) es).
Proof.
  revert p; induction es as [|e es IH]; intros p; [done|].
  change (report_all p (e :: es)) with (report_all (report p e) es). rewrite IH.
  cbn [annotate]. unfold report. destruct (Engine.evaluate (engine p) e) as [[] g]; [done|].
  by destruct (last (Engine.violations g)).
Qed.

Lemma report_all_engine p es : engine (report_all p es) = engine_after (engine p) es.
Proof.
  revert p; induction es as [|e es IH]; intros p; [done|].
  change (report_all p (e :: es)) with (report_all (report p e) es). rewrite IH.
  unfold engine_after. cbn [foldl]. f_equal. unfold report.
  destruct (Engine.evaluate (engine p) e) as [[] g]; [done|]. by destruct (last _).
Qed.

Lemma annotate_erase g es :
  forallb (λ e, negb (is_violation e)) es = true →
  List.filter (λ e, negb (is_violation e)) (annotate g es) = es.
Proof.
  revert g; induction es as [|e es IH]; intros g; [done|]. cbn [forallb annotate].
  rewrite andb_true_iff. intros [He Hes]. destruct (Engine.evaluate g e) as [d g'].
  cbn [List.filter]. rewrite He, List.filter_app, (IH g' Hes). by repeat case_match.
Qed.

(** The policy reporter passes every event of a trace on to the reporter
    behind it, in order, each denied event followed by one policy violation;
    nothing is dropped: without the violations the trace is the one reported. *)
Theorem policy_forwards_all c d es :
  forallb (λ e, negb (is_violation e)) es = true →
  downstream (report_all (new c d) es) = report_all d (annotate (Engine.new c) es) ∧
  List.filter (λ e, negb (is_violation e)) (annotate (Engine.new c) es) = es.
Proof. intros Hes. split; [apply report_all_downstream|by apply annotate_erase]. Qed.

Lemma denied_violations p es :
  denied p = negb (bool_decide (Engine.violations (engine p) = [])) →
  denied (report_all p es) =
  negb (bool_decide (Engine.violations (engine (report_all p es)) = [])).
Proof.
  revert p; induction es as [|e es IH]; intros p Hp; [done|].
  change (report_all p (e :: es)) with (report_all (report p e) es). apply IH.
  unfold report. destruct (Engine.evaluate_outcome (engine p) e); [done|]. simpl.
  rewrite last_snoc. simpl. by rewrite bool_decide_eq_false_2 by (intros ?%app_eq_nil; naive_solver).
Qed.

(** After any trace the tracer is asked to stop exactly when the engine
    has recorded a violation. *)
Theorem policy_stop_iff_violation c (d : R) es :
  stop_requested (report_all (new c d) es) = true ↔
  Engine.violations (engine (report_all (new c d) es)) ≠ [].
Proof.
  change (stop_requested ?p) with (denied p). rewrite denied_violations by done.
  by rewrite negb_true_iff, bool_decide_eq_false.
Qed.

End Downstream.
Arguments t R : clear implicits.

(** With a process limit [m] as the only rule, the tracer is asked to stop
    exactly when a trace of fewer than [2^64] events spawns more than [m]
    processes. *)
Theorem process_limit_exact {R} `{Reporter R} m (d : R) es :
  0 < m → Z.of_nat (length es) < 2 ^ 64 →
  (stop_requested (report_all (new (mkConfig [] [] [] m) d) es) = true ↔
   m < Summary.count Summary.is_spawned es).
Proof.
  intros Hm. set (p0 := new _ d).
  assert (Z.of_nat (length es) < 2 ^ 64 →
    Engine.config (engine (report_all p0 es)) = mkConfig [] [] [] m ∧
    Engine.process_count (engine (report_all p0 es)) = Summary.count Summary.is_spawned es ∧
    0 ≤ Summary.count Summary.is_spawned es ≤ Z.of_nat (length es) ∧
    (denied (report_all p0 es) = true ↔ m < Summary.count Summary.is_spawned es)) as Hall;
    [|intros Hl; by apply Hall].
  induction es as [|e es IH] using rev_ind; intros Hl.
  { split_and!; try done. split; [done|]. unfold Summary.count. simpl. lia. }
  rewrite length_app in Hl |- *. change (length [e]) with 1%nat in *. destruct IH as (Hc & Hn & Hb & Hd); [lia|].
  rewrite report_all_snoc, Summary.count_snoc. cbn [Report.report reporter].
  set (p := report_all p0 es) in *. unfold report.
  assert (Engine.counted (engine p) e =
          Summary.count Summary.is_spawned es + if Summary.is_spawned e then 1 else 0) as Hk.
  { unfold Engine.counted. destruct e; simpl; rewrite ?Hn, ?Z.add_0_r; try done. apply u64_small. lia. }
  destruct (Engine.evaluate_outcome (engine p) e) as [Ha|r s Hf _]; rewrite Hc, Hk in *.
  - cbn [engine denied Engine.config Engine.process_count].
    split_and!; [done|done|destruct (Summary.is_spawned e); lia..|].
    rewrite Hd. destruct (Summary.is_spawned e) eqn:E; [|by rewrite Z.add_0_r].
    split; [lia|]. intros Hlt. exfalso. eapply Ha, Engine.forbids_process; [by destruct e|simpl; lia..].
  - cbn [Engine.violations]. rewrite last_snoc.
    cbn [engine denied Engine.config Engine.process_count].
    split_and!; [done|done|destruct (Summary.is_spawned e); lia..|]. split; [|done]. intros _.
    destruct Hf as [? Hd'|? Hd'|Hd'|]; try (by apply not_elem_of_nil in Hd'); done.
Qed.

Lemma policy_forwards_all_witness :
  let es := [FileOpened 3 "/etc/shadow" (mkContext 4 2); FileClosed 3 "/tmp/x" (mkContext 4 3)] in
  downstream (report_all (new (mkConfig ["/etc"] [] [] 0) Summary.empty) es) =
    report_all Summary.empty (annotate (Engine.new (mkConfig ["/etc"] [] [] 0)) es) ∧
  List.filter (λ e, negb (is_violation e))
    (annotate (Engine.new (mkConfig ["/etc"] [] [] 0)) es) = es.
Proof. apply policy_forwards_all. reflexivity. Defined.

Lemma process_limit_exact_witness :
  stop_requested (report_all (new (mkConfig [] [] [] 1) Summary.empty)
    [ProcessSpawned 5 4 (mkContext 5 1); ProcessSpawned 6 4 (mkContext 6 2)]) = true.
Proof. apply process_limit_exact; [lia|simpl; lia|]. unfold Summary.count. simpl. lia. Defined.

End PolicyReporter.
