(* ===== verification/Risk.v ===== *)
(** * Risk assessment (include/execell/risk/risk.hpp, src/risk/risk.cpp)

    Weighted factors collected by [Engine::add] and [Engine::reject] and
    condensed by [Engine::assess] to a score, a level and an action.  The score
    is a C++ [int]: its sum is checked, [None] standing for the overflow the
    language leaves undefined. *)

From S2P Require Import Prelude CxxString.

Inductive Level := none | low | medium | high | critical.
Inductive Action := allow | audit | reject_action.

#[export] Instance Level_eq_dec : EqDecision Level.
Proof. solve_decision. Defined.
#[export] Instance Action_eq_dec : EqDecision Action.
Proof. solve_decision. Defined.

Record Factor := mkFactor { name : string; weight : Z; explanation : string }.

Record Finding := mkFinding {
  f_id : string; f_resource : string; f_pid : Z; f_sequence : Z;
  f_explanation : string; f_weight : Z;
}.

Record Assessment := mkAssessment {
  score : Z; level : Level; action : Action;
  factors : list Factor; findings : list Finding;
}.

Module Engine.

Record t := mk { factors_ : list Factor; direct_reject : bool }.

Definition new : t := mk [] false.

(** [Engine::add] *)
Definition add (g : t) (n : string) (w : Z) (x : string) : t :=
  mk (factors_ g ++ [mkFactor n (Z.max 0 w) x]) (direct_reject g).

(** [Engine::reject] *)
Definition reject (g : t) (n x : string) : t :=
  mk (factors_ g ++ [mkFactor n 0 x]) true.

(** [a + b] on [int]; overflow is undefined. *)
Definition checked_add (a b : Z) : option Z :=
  if (- 2 ^ 31 <=? a + b) && (a + b <? 2 ^ 31) then Some (a + b) else None.

(** The finding pushed for a factor. *)
Definition finding_of (f : Factor) : Finding :=
  mkFinding (name f) "" 0 0 (explanation f) (weight f).

(** The loop of [assess]: the score and the findings so far. *)
Fixpoint tally (acc : Z) (fs : list Factor) : option (Z * list Finding) :=
  match fs with
  | [] => Some (acc, [])
  | f :: fs =>
      acc ← checked_add acc (weight f);
      '(total, found) ← tally acc fs;
      Some (total, finding_of f :: found)
  end.

(** The cascade of comparisons of [assess]. *)
Definition classify (rejected : bool) (score : Z) : Level * Action :=
  if rejected then (critical, reject_action)
  else if 75 <=? score then (critical, reject_action)
  else if 50 <=? score then (high, reject_action)
  else if 25 <=? score then (medium, audit)
  else if negb (score =? 0) then (low, allow)
  else (none, allow).

(** [Engine::assess] *)
Definition assess (g : t) : option Assessment :=
  '(total, found) ← tally 0 (factors_ g);
  let score := Z.min total 100 in
  let '(level, action) := classify (direct_reject g) score in
  Some (mkAssessment score level action (factors_ g) found).

End Engine.

(** [to_string(Level)], [to_string(Action)] *)
Definition level_text (l : Level) : string :=
  match l with
  | none => "none" | low => "low" | medium => "medium" | high => "high" | critical => "critical"
  end.

Definition action_text (a : Action) : string :=
  match a with allow => "allow" | audit => "audit" | reject_action => "reject" end.

(** ** Severity *)

Definition level_rank (l : Level) : Z :=
  match l with none => 0 | low => 1 | medium => 2 | high => 3 | critical => 4 end.

Definition action_rank (a : Action) : Z :=
  match a with allow => 0 | audit => 1 | reject_action => 2 end.

(** ** Reachable engines *)

(** The calls a client makes. *)
Inductive call :=
| CAdd (n : string) (w : Z) (x : string)
| CReject (n x : string).

Definition apply_call (g : Engine.t) (c : call) : Engine.t :=
  match c with
  | CAdd n w x => Engine.add g n w x
  | CReject n x => Engine.reject g n x
  end.

Definition run (cs : list call) : Engine.t := foldl apply_call Engine.new cs.

Definition call_weight (c : call) : Z :=
  match c with CAdd _ w _ => Z.max 0 w | CReject _ _ => 0 end.

Definition is_reject (c : call) : bool :=
  match c with CReject _ _ => true | CAdd _ _ _ => false end.

Definition total_weight (cs : list call) : Z := foldr (λ c n, call_weight c + n) 0 cs.

Lemma total_weight_nonneg cs : 0 ≤ total_weight cs.
Proof. induction cs as [|c cs IH]; simpl; [lia|]. destruct c; simpl; lia. Qed.

Lemma total_weight_app cs ds : total_weight (cs ++ ds) = total_weight cs + total_weight ds.
Proof.
  induction cs as [|c cs IH]; [done|].
  change (total_weight ((c :: cs) ++ ds)) with (call_weight c + total_weight (cs ++ ds)).
  change (total_weight (c :: cs)) with (call_weight c + total_weight cs). lia.
Qed.

Definition factor_of (c : call) : Factor :=
  match c with
  | CAdd n w x => mkFactor n (Z.max 0 w) x
  | CReject n x => mkFactor n 0 x
  end.

Lemma run_state cs : run cs = Engine.mk (map factor_of cs) (existsb is_reject cs).
Proof.
  unfold run. induction cs as [|c cs IH] using rev_ind; [done|].
  rewrite foldl_snoc, IH, map_app, existsb_app.
  by destruct c; simpl; rewrite ?orb_false_r, ?orb_true_r.
Qed.

Lemma tally_calls acc cs :
  0 ≤ acc →
  Engine.tally acc (map factor_of cs) =
  if acc + total_weight cs <? 2 ^ 31
  then Some (acc + total_weight cs, map (Engine.finding_of ∘ factor_of) cs)
  else if bool_decide (cs = []) then Some (acc, []) else None.
Proof.
  revert acc; induction cs as [|c cs IH]; intros acc Hacc.
  { simpl. rewrite Z.add_0_r. by case_match. }
  assert (weight (factor_of c) = call_weight c) as Hw by by destruct c.
  assert (0 ≤ call_weight c) as Hc by (destruct c; simpl; lia).
  pose proof (total_weight_nonneg cs) as Ht.
  cbn [map Engine.tally]. unfold Engine.checked_add.
  change (total_weight (c :: cs)) with (call_weight c + total_weight cs). rewrite Hw.
  destruct (Z.leb_spec (- 2 ^ 31) (acc + call_weight c)); [|lia].
  destruct (Z.ltb_spec (acc + call_weight c) (2 ^ 31)); cbn [andb mbind option_bind].
  - rewrite IH by lia. replace (acc + call_weight c + total_weight cs)
      with (acc + (call_weight c + total_weight cs)) by lia.
    destruct (Z.ltb_spec (acc + (call_weight c + total_weight cs)) (2 ^ 31)); [done|].
    case_bool_decide; [|done]. subst cs. simpl in *. lia.
  - destruct (Z.ltb_spec (acc + (call_weight c + total_weight cs)) (2 ^ 31)); [lia|done].
Qed.

Lemma assess_run cs :
  Engine.assess (run cs) =
  if total_weight cs <? 2 ^ 31 then
    let score := Z.min (total_weight cs) 100 in
    let '(l, a) := Engine.classify (existsb is_reject cs) score in
    Some (mkAssessment score l a (map factor_of cs) (map (Engine.finding_of ∘ factor_of) cs))
  else None.
Proof.
  rewrite run_state. unfold Engine.assess. cbn [Engine.factors_ Engine.direct_reject].
  rewrite tally_calls by lia. rewrite Z.add_0_l.
  destruct (Z.ltb_spec (total_weight cs) (2 ^ 31)) as [H|H]; [done|].
  case_bool_decide; [subst; simpl in H; lia|done].
Qed.

(** The assessment of any sequence of [add] and [reject] calls whose
    weights fit an [int]: it exists, its score is the clamped sum of the
    non-negative weights, between 0 and 100, its level and action follow the
    documented thresholds unless a call rejected, every call leaves one factor
    and one finding in order. *)
Theorem assess_correct cs :
  total_weight cs < 2 ^ 31 →
  ∃ a, Engine.assess (run cs) = Some a ∧
    score a = Z.min 100 (total_weight cs) ∧ 0 ≤ score a ≤ 100 ∧
    factors a = map factor_of cs ∧
    findings a = map (Engine.finding_of ∘ factor_of) cs ∧
    (action a = reject_action ↔ existsb is_reject cs = true ∨ 50 ≤ total_weight cs) ∧
    (level a = critical ↔ existsb is_reject cs = true ∨ 75 ≤ total_weight cs) ∧
    (action a = audit ↔ existsb is_reject cs = false ∧ 25 ≤ total_weight cs < 50) ∧
    (level a = none ↔ existsb is_reject cs = false ∧ total_weight cs = 0).
Proof.
  intros Hs. rewrite assess_run. pose proof (total_weight_nonneg cs) as Hn.
  destruct (Z.ltb_spec (total_weight cs) (2 ^ 31)); [|lia].
  cbv zeta. destruct (Engine.classify _ _) as [l a] eqn:E. eexists; split; [done|]. cbn.
  revert E. unfold Engine.classify.
  destruct (existsb is_reject cs), (Z.leb_spec 75 (Z.min (total_weight cs) 100)),
    (Z.leb_spec 50 (Z.min (total_weight cs) 100)), (Z.leb_spec 25 (Z.min (total_weight cs) 100)),
    (Z.eqb_spec (Z.min (total_weight cs) 100) 0); cbn; intros; simplify_eq;
    split_and!; try lia; try done; split; intros; try done; try lia; naive_solver lia.
Qed.

Lemma assess_correct_witness :
  let cs := [CAdd "network" 30 "x"; CAdd "negative" (-5) "y"] in
  ∃ a, Engine.assess (run cs) = Some a ∧
    score a = Z.min 100 (total_weight cs) ∧ 0 ≤ score a ≤ 100 ∧
    factors a = map factor_of cs ∧
    findings a = map (Engine.finding_of ∘ factor_of) cs ∧
    (action a = reject_action ↔ existsb is_reject cs = true ∨ 50 ≤ total_weight cs) ∧
    (level a = critical ↔ existsb is_reject cs = true ∨ 75 ≤ total_weight cs) ∧
    (action a = audit ↔ existsb is_reject cs = false ∧ 25 ≤ total_weight cs < 50) ∧
    (level a = none ↔ existsb is_reject cs = false ∧ total_weight cs = 0).
Proof. apply assess_correct. simpl. lia. Defined.

(** Evidence never lowers the verdict: more calls give a score, a level
    and an action at least as severe. *)
Theorem assess_monotone cs ds a b :
  Engine.assess (run cs) = Some a → Engine.assess (run (cs ++ ds)) = Some b →
  score a ≤ score b ∧ level_rank (level a) ≤ level_rank (level b) ∧
  action_rank (action a) ≤ action_rank (action b).
Proof.
  rewrite !assess_run, total_weight_app, existsb_app.
  pose proof (total_weight_nonneg cs). pose proof (total_weight_nonneg ds).
  destruct (_ <? _); [|done]. destruct (_ <? _); [|done]. cbv zeta. unfold Engine.classify.
  destruct (existsb is_reject cs), (existsb is_reject ds); cbn [orb];
    split_cmp; cbn; intros; simplify_eq; cbn; lia.
Qed.

Lemma assess_monotone_witness :
  ∃ a b, Engine.assess (run [CAdd "n" 30 "x"]) = Some a ∧
  Engine.assess (run ([CAdd "n" 30 "x"] ++ [CReject "r" "y"])) = Some b ∧
  score a ≤ score b ∧ level_rank (level a) ≤ level_rank (level b) ∧
  action_rank (action a) ≤ action_rank (action b).
Proof.
  do 2 eexists. split; [reflexivity|]. split; [reflexivity|].
  exact (assess_monotone [CAdd "n" 30 "x"] [CReject "r" "y"] _ _ eq_refl eq_refl).
Defined.
