(* ===== verification/Tracer.v ===== *)
(** * The tracer (src/trace/tracer.cpp, include/execell/trace/task_registry.hpp,
      trace_session.hpp, include/execell/linux/ptrace.hpp, wait.hpp)

    The event loop of [trace::run] as a step function on an explicit state.
    The operating system is a parameter: a world of any type, and the system
    calls the tracer makes as functions on it (record [Kernel]).  The reporter
    is any instance of the class [Reporter]. *)

From S2P Require Import Prelude CxxString Event Stop FdTable Syscall Memory SyscallDecoder Report.

(** ** core/error.hpp *)

Record Error := mkError { operation : string; errno : Z }.

Definition EINTR : Z := 4.
Definition ESRCH : Z := 3.
Definition EXIT_FAILURE : Z := 1.

(** ** <sys/ptrace.h>, <sys/wait.h> *)

Definition PTRACE_EVENT_FORK : Z := 1.
Definition PTRACE_EVENT_VFORK : Z := 2.
Definition PTRACE_EVENT_CLONE : Z := 3.
Definition PTRACE_EVENT_EXEC : Z := 4.
Definition PTRACE_O_TRACESYSGOOD : Z := 1.
Definition PTRACE_O_TRACEFORK : Z := 2.
Definition PTRACE_O_TRACEVFORK : Z := 4.
Definition PTRACE_O_TRACECLONE : Z := 8.
Definition PTRACE_O_TRACEEXEC : Z := 16.
Definition PTRACE_O_EXITKILL : Z := 1048576.

(** Whether an option is among those that are set. *)
Definition has_option (options o : Z) : bool := negb (Z.land options o =? 0).
Definition WNOHANG : Z := 1.
Definition WALL : Z := 1073741824.

(** ** The task registry *)

Inductive SyscallPhase := phase_entry | phase_exit | phase_unknown.

#[export] Instance SyscallPhase_eq_dec : EqDecision SyscallPhase.
Proof. solve_decision. Defined.

Record Task := mkTask {
  task_pid : Z;
  task_parent_pid : Z;
  task_fd_table : FdTable.t;
  task_decoder : Decoder;
  task_phase : SyscallPhase;
}.

Definition set_phase (p : SyscallPhase) (t : Task) : Task :=
  mkTask (task_pid t) (task_parent_pid t) (task_fd_table t) (task_decoder t) p.

Module TaskRegistry.

(** [std::unordered_map<pid_t, std::unique_ptr<Task>> tasks_] *)
Abbreviation t := (gmap Z Task).

(** [emplace] keeps the task already registered under a key. *)
Definition emplace (pid : Z) (task : Task) (r : t) : t :=
  match r !! pid with
  | Some _ => r
  | None => <[pid := task]> r
  end.

Definition insert_root (pid : Z) (r : t) : t :=
  emplace pid (mkTask pid 0 FdTable.empty new_decoder phase_entry) r.

Definition insert_child (pid parent_pid : Z) (inherited : FdTable.t) (r : t) : t :=
  emplace pid (mkTask pid parent_pid inherited new_decoder phase_entry) r.

Definition find (pid : Z) (r : t) : option Task := r !! pid.

Definition erase (pid : Z) (r : t) : t := delete pid r.

Definition is_empty (r : t) : bool := bool_decide (r = ∅).

(** Every task is registered under its own pid and is between two stops. *)
Definition wf (r : t) : Prop :=
  ∀ pid task, r !! pid = Some task → task_pid task = pid ∧ task_phase task ≠ phase_unknown.

Lemma emplace_wf pid task r :
  wf r → task_pid task = pid → task_phase task ≠ phase_unknown → wf (emplace pid task r).
Proof.
  intros Hr Hp Hph. unfold emplace. destruct (r !! pid) eqn:E; [done|].
  intros q u. rewrite lookup_insert_Some. intros [[<- <-]|[_ Hq]]; [done|]. by apply Hr.
Qed.

Lemma insert_wf pid task r :
  wf r → task_pid task = pid → task_phase task ≠ phase_unknown → wf (<[pid := task]> r).
Proof.
  intros Hr Hp Hph q u. rewrite lookup_insert_Some. intros [[<- <-]|[_ Hq]]; [done|]. by apply Hr.
Qed.

Lemma erase_wf pid r : wf r → wf (erase pid r).
Proof. intros Hr q u. unfold erase. rewrite lookup_delete_Some. intros [_ Hq]. by apply Hr. Qed.

Lemma emplace_other pid q task r : pid ≠ q → emplace pid task r !! q = r !! q.
Proof. intros Hne. unfold emplace. destruct (r !! pid); [done|]. by apply lookup_insert_ne. Qed.

Lemma emplace_kept pid task r u : r !! pid = Some u → emplace pid task r !! pid = Some u.
Proof. intros E. unfold emplace. by rewrite E. Qed.

End TaskRegistry.

#[export] Hint Resolve TaskRegistry.emplace_wf TaskRegistry.insert_wf TaskRegistry.erase_wf : execell.

(** ** The operating system *)

(** The calls of the tracer, each on the current world; an error is an [errno].
    [k_tracee] is what the decoder reads from a stopped tracee. *)
Record Kernel (W : Type) := mkKernel {
  k_fork : W → expected Z Z * W;
  k_waitpid : W → Z → Z → expected (Z * Z) Z * W;
  k_ptrace_syscall : W → Z → Z → expected unit Z * W;
  k_ptrace_setoptions : W → Z → Z → expected unit Z * W;
  k_ptrace_getregs : W → Z → expected user_regs_struct Z * W;
  k_ptrace_geteventmsg : W → Z → expected Z Z * W;
  k_kill : W → Z → Z → bool * W;
  k_tracee : W → Z → Tracee;
}.
Arguments k_fork {W}.
Arguments k_waitpid {W}.
Arguments k_ptrace_syscall {W}.
Arguments k_ptrace_setoptions {W}.
Arguments k_ptrace_getregs {W}.
Arguments k_ptrace_geteventmsg {W}.
Arguments k_kill {W}.
Arguments k_tracee {W}.

(** [Error::from_errno(operation)] on the failure of a call. *)
Definition from_errno {A W} (operation : string) (r : expected A Z * W) : expected A Error * W :=
  match r with
  | (Ok a, w) => (Ok a, w)
  | (Err e, w) => (Err (mkError operation e), w)
  end.

Section Linux.
Context {W : Type} (K : Kernel W).

Definition syscall_continue (w : W) (pid signal : Z) : expected unit Error * W :=
  from_errno "ptrace(PTRACE_SYSCALL)" (k_ptrace_syscall K w pid signal).

Definition set_options (w : W) (pid options : Z) : expected unit Error * W :=
  from_errno "ptrace(PTRACE_SETOPTIONS)" (k_ptrace_setoptions K w pid options).

Definition get_registers (w : W) (pid : Z) : expected user_regs_struct Error * W :=
  from_errno "ptrace(PTRACE_GETREGS)" (k_ptrace_getregs K w pid).

Definition event_message (w : W) (pid : Z) : expected Z Error * W :=
  from_errno "ptrace(PTRACE_GETEVENTMSG)" (k_ptrace_geteventmsg K w pid).

(** [wait_for]: [waitpid] again while it is interrupted; [None] when the
    interruptions outlast the fuel. *)
Fixpoint wait_for (fuel : nat) (w : W) (pid options : Z)
    : option (expected (Z * Z) Error * W) :=
  match fuel with
  | O => None
  | S fuel =>
      match k_waitpid K w pid options with
      | (Err e, w) =>
          if e =? EINTR then wait_for fuel w pid options
          else Some (Err (mkError "waitpid" e), w)
      | (Ok r, w) => Some (Ok r, w)
      end
  end.

(** [~TraceSession] *)
Definition close_session (w : W) (root_pid : Z) : W :=
  if root_pid <? 0 then w
  else
    let '(alive, w) := k_kill K w root_pid 0 in
    if alive then
      let '(_, w) := k_kill K w root_pid SIGKILL in
      (k_waitpid K w root_pid (Z.lor WNOHANG WALL)).2
    else w.

End Linux.

(** ** The loop of [run] *)

(** The variables of [run] that live across iterations, with the reporter and
    the world they act on. *)
Record State (R W : Type) := mkState {
  st_tasks : TaskRegistry.t;
  st_sequence : Z;
  st_pending_signal : Z;
  st_current_pid : Z;
  st_resume_current : bool;
  st_reporter : R;
  st_world : W;
}.
Arguments mkState {R W}.
Arguments st_tasks {R W}.
Arguments st_sequence {R W}.
Arguments st_pending_signal {R W}.
Arguments st_current_pid {R W}.
Arguments st_resume_current {R W}.
Arguments st_reporter {R W}.
Arguments st_world {R W}.

(** How an iteration ends: at the next test of the loop, or with the result of
    [run] and the state it is left in. *)
Inductive Outcome (R W : Type) :=
| Continue (s : State R W)
| Return (code : Z) (s : State R W).
Arguments Continue {R W}.
Arguments Return {R W}.

Section Run.
Context {R W : Type} `{Reporter R} (K : Kernel W).
Implicit Types s : State R W.

Definition with_tasks (f : TaskRegistry.t → TaskRegistry.t) s : State R W :=
  mkState (f (st_tasks s)) (st_sequence s) (st_pending_signal s) (st_current_pid s)
    (st_resume_current s) (st_reporter s) (st_world s).

Definition with_world (w : W) s : State R W :=
  mkState (st_tasks s) (st_sequence s) (st_pending_signal s) (st_current_pid s)
    (st_resume_current s) (st_reporter s) w.

Definition with_current (pid : Z) s : State R W :=
  mkState (st_tasks s) (st_sequence s) (st_pending_signal s) pid
    (st_resume_current s) (st_reporter s) (st_world s).

(** [pending_signal = signal; resume_current = resume;] *)
Definition with_resume (signal : Z) (resume : bool) s : State R W :=
  mkState (st_tasks s) (st_sequence s) signal (st_current_pid s)
    resume (st_reporter s) (st_world s).

(** [resume_current = true;] *)
Definition resumed s : State R W := with_resume (st_pending_signal s) true s.

(** The lambda [emit]. *)
Definition emit (payload : Event) (pid : Z) s : State R W :=
  let r := report (st_reporter s) (set_context (mkContext pid (st_sequence s)) payload) in
  mkState (st_tasks s) (u64 (st_sequence s + 1))
    (if stop_requested r then SIGKILL else st_pending_signal s)
    (st_current_pid s) (st_resume_current s) r (st_world s).

(** [if (event) emit( *event, pid);] *)
Definition emit_opt (payload : option Event) (pid : Z) s : State R W :=
  match payload with Some e => emit e pid s | None => s end.

(** The block [if (resume_current)]: the state to wait in, or the failure. *)
Definition resume_task s : Outcome R W :=
  if st_resume_current s then
    let '(continued, w) :=
      syscall_continue K (st_world s) (st_current_pid s) (st_pending_signal s) in
    let s := with_resume 0 false (with_world w s) in
    match continued with
    | Err e => if negb (errno e =? ESRCH) then Return EXIT_FAILURE s else Continue s
    | Ok _ => Continue s
    end
  else Continue s.

(** The tracee has exited or was killed. *)
Definition handle_exit (root_pid : Z) (stop : Stop) s : Outcome R W :=
  let stopped_pid := stop_pid stop in
  let was_signaled := bool_decide (stop_kind stop = signaled) in
  let result := if was_signaled then stop_signal stop else stop_exit_status stop in
  let s := emit (ProcessExited stopped_pid result was_signaled empty_context) stopped_pid s in
  let s := with_tasks (TaskRegistry.erase stopped_pid) s in
  if stopped_pid =? root_pid then
    let s := emit (TraceFinished stopped_pid result was_signaled empty_context) stopped_pid s in
    Return (if was_signaled then 128 + result else result) s
  else Continue s.

(** A ptrace event stop. *)
Definition handle_event (stop : Stop) s : Outcome R W :=
  let stopped_pid := stop_pid stop in
  let event := stop_ptrace_event stop in
  let '(message_result, w) := event_message K (st_world s) stopped_pid in
  let s := with_world w s in
  match message_result with
  | Err _ => Return EXIT_FAILURE s
  | Ok message =>
      let s :=
        if one_of event [PTRACE_EVENT_CLONE; PTRACE_EVENT_FORK; PTRACE_EVENT_VFORK] then
          let child_pid := s32 message in
          match TaskRegistry.find stopped_pid (st_tasks s) with
          | None => s
          | Some parent =>
              let s := with_tasks
                (TaskRegistry.insert_child child_pid stopped_pid (task_fd_table parent)) s in
              emit (ProcessSpawned child_pid stopped_pid empty_context) stopped_pid s
          end
        else s in
      let s :=
        if event =? PTRACE_EVENT_EXEC then
          match TaskRegistry.find stopped_pid (st_tasks s) with
          | None => s
          | Some task => with_tasks <[stopped_pid := set_phase phase_entry task]> s
          end
        else s in
      Continue (resumed s)
  end.

(** A syscall stop of the task registered under the stopped pid. *)
Definition handle_syscall (stop : Stop) s : Outcome R W :=
  let stopped_pid := stop_pid stop in
  match TaskRegistry.find stopped_pid (st_tasks s) with
  | None => Continue (resumed s)
  | Some task =>
      let '(registers_result, w) := get_registers K (st_world s) stopped_pid in
      let s := with_world w s in
      match registers_result with
      | Err e =>
          if errno e =? ESRCH
          then Continue (resumed (with_tasks (TaskRegistry.erase stopped_pid) s))
          else Return EXIT_FAILURE s
      | Ok registers =>
          let store task := with_tasks <[stopped_pid := task]> in
          let s :=
            match task_phase task with
            | phase_entry =>
                let '(d, event) :=
                  on_entry (k_tracee K w stopped_pid) stopped_pid registers (task_decoder task) in
                store (mkTask (task_pid task) (task_parent_pid task) (task_fd_table task)
                         d phase_exit) (emit_opt event stopped_pid s)
            | phase_exit =>
                let '(table, event) :=
                  on_exit stopped_pid registers (task_decoder task) (task_fd_table task) in
                store (mkTask (task_pid task) (task_parent_pid task) table
                         (task_decoder task) phase_entry) (emit_opt event stopped_pid s)
            | phase_unknown => store (set_phase phase_entry task) s
            end in
          Continue (resumed s)
      end
  end.

(** What an iteration does with the stop it has waited for. *)
Definition handle_stop (root_pid : Z) (stop : Stop) s : Outcome R W :=
  match stop_kind stop with
  | exited | signaled => handle_exit root_pid stop s
  | ptrace_event => handle_event stop s
  | syscall => handle_syscall stop s
  | signal | group_stop | unknown => Continue (with_resume (resume_signal stop) true s)
  end.

(** One iteration of [while (!tasks.empty())]. *)
Definition step (fuel : nat) (root_pid : Z) s : option (Outcome R W) :=
  match resume_task s with
  | Return code s => Some (Return code s)
  | Continue s =>
      '(waited, w) ← wait_for K fuel (st_world s) (-1) WALL;
      let s := with_world w s in
      match waited with
      | Err _ => Some (Return EXIT_FAILURE s)
      | Ok (stopped_pid, status) =>
          let s := with_current stopped_pid s in
          Some (handle_stop root_pid (classify_stop stopped_pid status) s)
      end
  end.

(** The whole loop; [None] when the fuel runs out. *)
Fixpoint loop (fuel : nat) (root_pid : Z) s : option (Z * State R W) :=
  match fuel with
  | O => None
  | S fuel' =>
      if TaskRegistry.is_empty (st_tasks s) then Some (EXIT_FAILURE, s)
      else
        o ← step fuel root_pid s;
        match o with
        | Return code s => Some (code, s)
        | Continue s => loop fuel' root_pid s
        end
  end.

(** The state in which the loop is entered. *)
Definition start (root_pid : Z) (r : R) (w : W) : State R W :=
  emit (TraceStarted root_pid empty_context) root_pid
    (mkState (TaskRegistry.insert_root root_pid ∅) 0 0 root_pid true r w).

Definition trace_options : Z :=
  Z.lor PTRACE_O_TRACESYSGOOD (Z.lor PTRACE_O_EXITKILL (Z.lor PTRACE_O_TRACECLONE
    (Z.lor PTRACE_O_TRACEFORK (Z.lor PTRACE_O_TRACEVFORK PTRACE_O_TRACEEXEC)))).

(** [run], in the parent: the exit code, the reporter and the world it leaves. *)
Definition run (fuel : nat) (r : R) (w : W) : option (Z * R * W) :=
  match k_fork K w with
  | (Err _, w) => Some (EXIT_FAILURE, r, w)
  | (Ok root_pid, w) =>
      '(initial_wait, w) ← wait_for K fuel w root_pid 0;
      match initial_wait with
      | Err _ => Some (EXIT_FAILURE, r, w)
      | Ok _ =>
          let '(result, w) := set_options K w root_pid trace_options in
          match result with
          | Err _ => Some (EXIT_FAILURE, r, close_session K w root_pid)
          | Ok _ =>
              '(code, s) ← loop fuel root_pid (start root_pid r w);
              Some (code, st_reporter s, close_session K (st_world s) root_pid)
          end
      end
  end.

(** ** Reachable states *)

(** The loop seen as a transition system. *)
Inductive reachable (root_pid : Z) (s0 : State R W) : State R W → Prop :=
| reachable_refl : reachable root_pid s0 s0
| reachable_step s s' fuel :
    reachable root_pid s0 s → TaskRegistry.is_empty (st_tasks s) = false →
    step fuel root_pid s = Some (Continue s') → reachable root_pid s0 s'.

End Run.
