(* ===== verification/TracerScript.v ===== *)
(** * A scripted operating system

    A concrete [Kernel] for running the tracer on a given sequence of stops:
    [waitpid] hands out the stops of a script in order, the registers and the
    event message are those of the stop handed out last, and the restarts are
    logged with their signal. *)

From S2P Require Import Prelude CxxString Event Stop FdTable Syscall Memory.
From S2P Require Import SyscallDecoder Report Tracer.

Record ScriptStop := mkScriptStop {
  sc_pid : Z;
  sc_status : Z;
  sc_regs : user_regs_struct;
  sc_message : Z;
}.

Record Script := mkScript {
  sc_current : ScriptStop;
  sc_rest : list ScriptStop;
  sc_restarts : list (Z * Z);
}.

Definition no_regs : user_regs_struct := mkRegs 0 0 0 0 0 0 0 0.
Definition no_stop : ScriptStop := mkScriptStop 0 0 no_regs 0.

(** A tracee with nothing readable in it. *)
Definition blank_tracee : Tracee := mkTracee (λ _ _, (-1, 5)) (λ _, None) "".

Definition ECHILD : Z := 10.

Definition script_kernel (root : Z) : Kernel Script := {|
  k_fork w := (Ok root, w);
  k_waitpid w _ _ :=
    match sc_rest w with
    | [] => (Err ECHILD, w)
    | x :: rest => (Ok (sc_pid x, sc_status x), mkScript x rest (sc_restarts w))
    end;
  k_ptrace_syscall w pid sig :=
    (Ok (), mkScript (sc_current w) (sc_rest w) (sc_restarts w ++ [(pid, sig)]));
  k_ptrace_setoptions w _ _ := (Ok (), w);
  k_ptrace_getregs w _ := (Ok (sc_regs (sc_current w)), w);
  k_ptrace_geteventmsg w _ := (Ok (sc_message (sc_current w)), w);
  k_kill w _ _ := (false, w);
  k_tracee _ _ := blank_tracee;
|}.

Definition script (l : list ScriptStop) : Script := mkScript no_stop l [].

(** The stops of a script, by kind. *)
Definition sc_exit (pid code : Z) : ScriptStop :=
  mkScriptStop pid (encode_status (WExited code)) no_regs 0.
Definition sc_signal (pid sig : Z) : ScriptStop :=
  mkScriptStop pid (encode_status (WSignalStop sig)) no_regs 0.
Definition sc_syscall (pid : Z) (regs : user_regs_struct) : ScriptStop :=
  mkScriptStop pid (encode_status WSyscallStop) regs 0.
Definition sc_event (pid event message : Z) : ScriptStop :=
  mkScriptStop pid (encode_status (WEventStop event)) no_regs message.

(** The registers of call [n] with first argument [a] and result [res]. *)
Definition regs_of (n a res : Z) : user_regs_struct := mkRegs a 0 0 0 0 0 res n.

(** The length of what is left of a script. *)
Definition remaining (w : Script) : nat := length (sc_rest w).
