(* ===== verification/TracerSpec.v ===== *)
(** * Properties of the tracer

    The events of a run (numbering, first and last event, exit code), the
    independence of the tasks and the refinement of the descriptor
    specification under any interleaving, the effect of a request to stop, and
    termination. *)

From S2P Require Import Prelude CxxString Event Stop FdTable Syscall Memory.
From S2P Require Import SyscallDecoder DecoderSpec Report Tracer TracerScript.

(** ** A reporter that keeps the trace *)

Definition Logged (R : Type) : Type := R * list Event.

#[global] Instance Logged_reporter {R} `{Reporter R} : Reporter (Logged R) := {
  report r e := (report r.1 e, r.2 ++ [e]);
  stop_requested r := stop_requested r.1;
}.

#[global] Instance Logged_sticky {R} `{StickyReporter R} : StickyReporter (Logged R).
Proof. constructor. intros r e Hr. by apply (stop_requested_sticky (R := R)). Qed.

(** ** The stop an iteration handles *)

Section Steps.
Context {R W : Type} `{Reporter R} (K : Kernel W).
Implicit Types s : State R W.

(** The stop the iteration from [s] waits for, and the state it handles it in. *)
Definition next_stop (fuel : nat) s : option (Stop * State R W) :=
  match resume_task K s with
  | Return _ _ => None
  | Continue s =>
      match wait_for K fuel (st_world s) (-1) WALL with
      | Some (Ok (pid, status), w) =>
          Some (classify_stop pid status, with_current pid (with_world w s))
      | _ => None
      end
  end.

Lemma classify_stop_pid pid status : stop_pid (classify_stop pid status) = pid.
Proof. unfold classify_stop. by repeat case_match. Qed.

(** An iteration handles a stop, or fails with the state's trace unchanged. *)
Lemma step_cases fuel root s o :
  step K fuel root s = Some o →
  (∃ stop s2, next_stop fuel s = Some (stop, s2) ∧ o = handle_stop K root stop s2) ∨
  (∃ s2, next_stop fuel s = None ∧ o = Return EXIT_FAILURE s2 ∧
         st_reporter s2 = st_reporter s ∧ st_tasks s2 = st_tasks s).
Proof.
  unfold step, next_stop, resume_task. destruct (st_resume_current s).
  - destruct (syscall_continue K _ _ _) as [[u|e] w].
    + destruct (wait_for K fuel _ _ _) as [[[[pid status]|e] w']|] eqn:E; simpl; intros; simplify_eq.
      * left. by do 2 eexists.
      * right. by eexists.
    + destruct (negb _); simpl; [intros; simplify_eq; right; by eexists|].
      destruct (wait_for K fuel _ _ _) as [[[[pid status]|e'] w']|] eqn:E; simpl; intros; simplify_eq.
      * left. by do 2 eexists.
      * right. by eexists.
  - destruct (wait_for K fuel _ _ _) as [[[[pid status]|e'] w']|] eqn:E; simpl; intros; simplify_eq.
    + left. by do 2 eexists.
    + right. by eexists.
Qed.

(** Waiting changes only the world, the current task and what is pending. *)
Lemma next_stop_frame fuel s stop s2 :
  next_stop fuel s = Some (stop, s2) →
  st_tasks s2 = st_tasks s ∧ st_reporter s2 = st_reporter s ∧
  st_sequence s2 = st_sequence s ∧ st_current_pid s2 = stop_pid stop ∧
  st_pending_signal s2 = (if st_resume_current s then 0 else st_pending_signal s).
Proof.
  unfold next_stop, resume_task. destruct (st_resume_current s) eqn:Er.
  - destruct (syscall_continue K _ _ _) as [[u|e] w]; [|destruct (negb _)];
      try done; (destruct (wait_for K fuel _ _ _) as [[[[pid status]|e'] w']|]; [|done..]);
      intros; simplify_eq; cbn; by rewrite classify_stop_pid.
  - destruct (wait_for K fuel _ _ _) as [[[[pid status]|e'] w']|]; [|done..].
    intros; simplify_eq; cbn; by rewrite classify_stop_pid.
Qed.

(** *** Invariants

    A property of states that the bookkeeping keeps and that every emission
    keeps holds after every iteration. *)
Section Preserve.
Variable P : TaskRegistry.t → Z → R → Prop.
Variable Q : Event → Prop.
Definition holds s : Prop := P (st_tasks s) (st_sequence s) (st_reporter s).

Hypothesis P_erase : ∀ pid r q x, P r q x → P (TaskRegistry.erase pid r) q x.
Hypothesis P_child : ∀ pid parent table r q x,
  P r q x → P (TaskRegistry.insert_child pid parent table r) q x.
Hypothesis P_store : ∀ pid t t' r q x,
  P r q x → r !! pid = Some t → task_pid t' = task_pid t → task_phase t' ≠ phase_unknown →
  P (<[pid := t']> r) q x.
Hypothesis P_emit : ∀ e pid r q x,
  Q e → P r q x → P r (u64 (q + 1)) (report x (set_context (mkContext pid q) e)).
Hypothesis Q_entry : ∀ tr pid regs d d' e, on_entry tr pid regs d = (d', Some e) → Q e.
Hypothesis Q_exit : ∀ pid regs d t t' e, on_exit pid regs d t = (t', Some e) → Q e.
Hypothesis Q_exited : ∀ pid st sg c, Q (ProcessExited pid st sg c).
Hypothesis Q_spawned : ∀ pid parent c, Q (ProcessSpawned pid parent c).

Lemma holds_emit e pid s : Q e → holds s → holds (emit e pid s).
Proof. apply P_emit. Qed.

Lemma holds_emit_opt o pid s : (∀ e, o = Some e → Q e) → holds s → holds (emit_opt o pid s).
Proof. destruct o; simpl; [intros; apply holds_emit; auto|auto]. Qed.

Lemma emit_opt_tasks o pid s : st_tasks (emit_opt o pid s) = st_tasks s.
Proof. by destruct o. Qed.

Lemma holds_event stop s s' : holds s → handle_event K stop s = Continue s' → holds s'.
Proof.
  intros Hs. unfold handle_event. destruct (event_message K _ _) as [[m|e] w]; [|done].
  destruct (one_of _ _).
  - unfold TaskRegistry.find. cbn [st_tasks with_world].
    destruct (st_tasks s !! stop_pid stop) as [parent|] eqn:Ep.
    + set (s1 := emit _ _ _). assert (holds s1) as H1.
      { apply holds_emit; [apply Q_spawned|]. by apply P_child. }
      destruct (_ =? PTRACE_EVENT_EXEC); [|by intros [= <-]].
      destruct (st_tasks s1 !! stop_pid stop) as [t|] eqn:Et; [|by intros [= <-]].
      intros [= <-]. by eapply P_store.
    + by destruct (_ =? PTRACE_EVENT_EXEC); [cbn [st_tasks with_world]; rewrite ?Ep|]; intros [= <-].
  - destruct (_ =? PTRACE_EVENT_EXEC); [|by intros [= <-]]. unfold TaskRegistry.find.
    cbn [st_tasks with_world].
    destruct (st_tasks s !! stop_pid stop) as [t|] eqn:Et; [|by intros [= <-]].
    intros [= <-]. by eapply P_store.
Qed.

Lemma holds_syscall stop s s' : holds s → handle_syscall K stop s = Continue s' → holds s'.
Proof.
  intros Hs. unfold handle_syscall, TaskRegistry.find.
  destruct (st_tasks s !! stop_pid stop) as [t|] eqn:Et; [|by intros [= <-]].
  destruct (get_registers K _ _) as [[regs|e] w].
  - destruct (task_phase t).
    + destruct (on_entry _ _ _ _) as [d o] eqn:E. intros [= <-]. eapply P_store with (t := t);
        [|by rewrite emit_opt_tasks|done|done].
      apply holds_emit_opt; [|done]. intros e ->. by eapply Q_entry.
    + destruct (on_exit _ _ _ _) as [d o] eqn:E. intros [= <-]. eapply P_store with (t := t);
        [|by rewrite emit_opt_tasks|done|done].
      apply holds_emit_opt; [|done]. intros e ->. by eapply Q_exit.
    + intros [= <-]. by eapply P_store with (t := t).
  - destruct (_ =? ESRCH); [|done]. intros [= <-]. by apply P_erase.
Qed.

Lemma holds_step fuel root s s' : holds s → step K fuel root s = Some (Continue s') → holds s'.
Proof.
  intros Hs Hstep. destruct (step_cases _ _ _ _ Hstep) as [(stop & s2 & Hn & E)|(s2 & _ & E & _)];
    [|done]. destruct (next_stop_frame _ _ _ _ Hn) as (Ht & Hr & Hq & _ & _).
  assert (holds s2) as H2 by (unfold holds; by rewrite Ht, Hr, Hq).
  unfold handle_stop in E. destruct (stop_kind stop) eqn:Ek; try (by simplify_eq).
  - unfold handle_exit in E. cbn zeta in E. destruct (_ =? root); [done|]. simplify_eq.
    apply P_erase. by apply holds_emit.
  - unfold handle_exit in E. cbn zeta in E. destruct (_ =? root); [done|]. simplify_eq.
    apply P_erase. by apply holds_emit.
  - by eapply holds_syscall.
  - by eapply holds_event.
Qed.

Lemma holds_reachable root s0 s : holds s0 → reachable K root s0 s → holds s.
Proof. induction 2; [done|]. by eapply holds_step. Qed.

End Preserve.

End Steps.

(** ** The trace of a run *)

Definition is_finished (e : Event) : bool :=
  match e with TraceFinished _ _ _ _ => true | _ => false end.

(** The events carry the numbers 0, 1, 2, ... in the order of their report. *)
Definition numbered (l : list Event) : Prop :=
  ∀ i e, l !! i = Some e → ctx_sequence (context_of e) = u64 (Z.of_nat i).

Lemma numbered_snoc l e :
  numbered l → ctx_sequence (context_of e) = u64 (Z.of_nat (length l)) → numbered (l ++ [e]).
Proof.
  intros Hl He i f. rewrite lookup_app_Some. intros [Hi|[Hle Hi]]; [by apply Hl|].
  apply list_lookup_singleton_Some in Hi as [Hi <-]. rewrite He. do 2 f_equal. lia.
Qed.

Lemma on_entry_not_finished tr pid regs d d' e :
  on_entry tr pid regs d = (d', Some e) → is_finished e = false.
Proof. unfold on_entry, entry_rest. cbn zeta. intros E. repeat case_match; simplify_eq; done. Qed.

Lemma on_exit_not_finished pid regs d t t' e :
  on_exit pid regs d t = (t', Some e) → is_finished e = false.
Proof. unfold on_exit, exit_rest. cbn zeta. intros E. repeat case_match; simplify_eq; done. Qed.

Section Trace.
Context {R W : Type} `{Reporter R} (K : Kernel W).
Implicit Types s : State (Logged R) W.

(** The trace of a running tracer. *)
Record running_trace (root : Z) (l : list Event) : Prop := {
  rt_numbered : numbered l;
  rt_started : head l = Some (TraceStarted root (mkContext root 0));
  rt_unfinished : Forall (λ e, is_finished e = false) l;
}.

Definition trace_invariant (root : Z) (tasks : TaskRegistry.t) (q : Z) (x : Logged R) : Prop :=
  TaskRegistry.wf tasks ∧ q = u64 (Z.of_nat (length x.2)) ∧ running_trace root x.2.

Lemma running_emit root l e pid :
  is_finished e = false → running_trace root l →
  running_trace root (l ++ [set_context (mkContext pid (u64 (Z.of_nat (length l)))) e]).
Proof.
  intros He [Hn Hs Hu]. split.
  - apply numbered_snoc; [done|]. by rewrite context_of_set.
  - by destruct l.
  - apply Forall_app. split; [done|]. apply Forall_singleton. by destruct e.
Qed.

Lemma u64_length_snoc (l : list Event) e :
  u64 (u64 (Z.of_nat (length l)) + 1) = u64 (Z.of_nat (length (l ++ [e]))).
Proof. rewrite u64_add_l, length_app. f_equal. simpl. lia. Qed.

Lemma trace_invariant_step fuel root s s' :
  holds (trace_invariant root) s → step K fuel root s = Some (Continue s') →
  holds (trace_invariant root) s'.
Proof.
  apply holds_step with (Q := λ e, is_finished e = false); unfold trace_invariant.
  - intros pid r q x (? & ? & ?). auto with execell.
  - intros pid parent table r q x (? & ? & ?). split_and!; [|done..].
    by apply TaskRegistry.emplace_wf.
  - intros pid t t' r q x (Hw & ? & ?) Hl Hp Hph. split_and!; [|done..].
    apply TaskRegistry.insert_wf; [done| |done]. rewrite Hp. by apply (Hw pid).
  - intros e pid r q [x l] He (Hw & Hq & Hr). simpl in *. subst q.
    split_and!; [done|apply u64_length_snoc|by apply running_emit].
  - apply on_entry_not_finished.
  - apply on_exit_not_finished.
  - done.
  - done.
Qed.

Lemma trace_invariant_start root (r : R) (w : W) :
  holds (trace_invariant root) (start root (r, []) w).
Proof.
  split_and!; simpl.
  - apply TaskRegistry.emplace_wf; [|done..]. intros ??. by rewrite lookup_empty.
  - done.
  - split; [|done|by repeat constructor]. intros i e Hi.
    apply list_lookup_singleton_Some in Hi as [-> <-]. done.
Qed.

Lemma trace_invariant_reachable root (r : R) (w : W) s :
  reachable K root (start root (r, []) w) s → holds (trace_invariant root) s.
Proof. induction 1; [apply trace_invariant_start|]. by eapply trace_invariant_step. Qed.

(** The trace and the exit code of a finished tracer. *)
Inductive final_trace (root code : Z) (l : list Event) : Prop :=
| final_failure :
    running_trace root l → code = EXIT_FAILURE → final_trace root code l
| final_exit l' st sg :
    running_trace root l' →
    l = l' ++ [TraceFinished root st sg (mkContext root (u64 (Z.of_nat (length l'))))] →
    last l' = Some (ProcessExited root st sg
                      (mkContext root (u64 (Z.of_nat (length l' - 1))))) →
    code = (if sg then 128 + st else st) →
    final_trace root code l.

Lemma handle_return root stop s code s' :
  handle_stop K root stop s = Return code s' →
  (code = EXIT_FAILURE ∧ st_reporter s' = st_reporter s) ∨
  ∃ (st : Z) (sg : bool), stop_pid stop = root ∧ code = (if sg then 128 + st else st) ∧
    s' = emit (TraceFinished root st sg empty_context) root
           (with_tasks (TaskRegistry.erase root)
              (emit (ProcessExited root st sg empty_context) root s)).
Proof.
  unfold handle_stop. destruct (stop_kind stop) eqn:Ek; try done.
  1,2: unfold handle_exit; cbn zeta; destruct (Z.eqb_spec (stop_pid stop) root) as [->|]; [|done];
    intros; simplify_eq; right; by do 2 eexists.
  - unfold handle_syscall. repeat case_match; intros; simplify_eq; by left.
  - unfold handle_event. destruct (event_message K _ _) as [[m|e] w];
      intros; simplify_eq; by left.
Qed.

Lemma step_return_final fuel root s code s' :
  holds (trace_invariant root) s → step K fuel root s = Some (Return code s') →
  final_trace root code (st_reporter s').2.
Proof.
  intros (Hw & Hq & Hr) Hstep.
  destruct (step_cases _ _ _ _ _ Hstep) as [(stop & s2 & Hn & E)|(s2 & _ & E & Hrep & _)].
  - destruct (next_stop_frame _ _ _ _ _ Hn) as (_ & Hrep & Hseq & _ & _). symmetry in E.
    destruct (handle_return _ _ _ _ _ E) as [[-> Hs']|(st & sg & _ & -> & ->)].
    + apply final_failure; [|done]. by rewrite Hs', Hrep.
    + rewrite <- Hrep in Hq, Hr. rewrite <- Hseq in Hq. set (l := (st_reporter s2).2) in *.
      apply final_exit with (l' := l ++ [set_context (mkContext root (u64 (Z.of_nat (length l))))
        (ProcessExited root st sg empty_context)]) (st := st) (sg := sg).
      * by apply running_emit.
      * cbn -[u64]. rewrite Hq. by erewrite u64_length_snoc.
      * rewrite last_snoc. cbn -[u64]. do 3 f_equal. rewrite length_app. simpl. do 2 f_equal. lia.
      * done.
  - simplify_eq. apply final_failure; [|done]. by rewrite Hrep.
Qed.

Lemma loop_final fuel root s code s' :
  holds (trace_invariant root) s → loop K fuel root s = Some (code, s') →
  final_trace root code (st_reporter s').2.
Proof.
  revert s. induction fuel as [|fuel IH]; intros s Hs; [done|]. cbn [loop].
  destruct (TaskRegistry.is_empty _).
  { intros [= <- <-]. apply final_failure; [|done]. apply Hs. }
  destruct (step K (S fuel) root s) as [[s1|c s1]|] eqn:Hstep; [| |done]; cbn [mbind option_bind].
  - intros Hl. eapply IH; [|done]. by eapply trace_invariant_step.
  - intros [= <- <-]. by eapply step_return_final.
Qed.

(** Every state the loop can reach keeps the registry well formed (each
    task under its own pid, in a known phase) and a trace whose events are
    numbered 0, 1, 2, ... without gap or repetition, begun by [TraceStarted] for
    the root process and not yet finished; the counter is the length of the
    trace. *)
Theorem reachable_trace root (r : R) (w : W) s :
  reachable K root (start root (r, []) w) s →
  TaskRegistry.wf (st_tasks s) ∧
  st_sequence s = u64 (Z.of_nat (length (st_reporter s).2)) ∧
  running_trace root (st_reporter s).2.
Proof. apply trace_invariant_reachable. Qed.

Lemma run_final fuel (r : R) (w : W) code r' l w' :
  run K fuel (r, []) w = Some (code, (r', l), w') →
  (l = [] ∧ code = EXIT_FAILURE) ∨
  ∃ root, (k_fork K w).1 = Ok root ∧ final_trace root code l.
Proof.
  unfold run. destruct (k_fork K w) as [[root|e] w1]; [|intros; simplify_eq; by left].
  destruct (wait_for K fuel w1 root 0) as [[[x|e] w2]|]; cbn [mbind option_bind];
    [|intros; simplify_eq; by left|done].
  destruct (set_options K w2 root trace_options) as [[u|e] w3]; [|intros; simplify_eq; by left].
  destruct (loop K fuel root (start root (r, []) w3)) as [[c s]|] eqn:Hl; [|done].
  cbn [mbind option_bind]. intros [= -> Hs _]. right. exists root. split; [done|].
  change l with (r', l).2. rewrite <- Hs. eapply loop_final; [|done]. apply trace_invariant_start.
Qed.

(** C6: a run that returns has reported a complete trace: nothing at all when
    the tracee could not be started; otherwise numbered events from
    [TraceStarted] on, which either end with the exit of the root process and
    one [TraceFinished], the exit code being the status or 128 plus the
    signal, or hold no [TraceFinished] and the exit code is failure. *)
Theorem run_trace_complete fuel (r : R) (w : W) code r' l w' :
  run K fuel (r, []) w = Some (code, (r', l), w') →
  (l = [] ∧ code = EXIT_FAILURE) ∨
  ∃ root, (k_fork K w).1 = Ok root ∧ final_trace root code l.
Proof. apply run_final. Qed.

End Trace.

Lemma reachable_trace_witness :
  let s := start 7 (Summary.empty, []) (script [sc_exit 7 0]) in
  TaskRegistry.wf (st_tasks s) ∧
  st_sequence s = u64 (Z.of_nat (length (st_reporter s).2)) ∧
  running_trace 7 (st_reporter s).2.
Proof.
  apply (reachable_trace (script_kernel 7) 7 Summary.empty (script [sc_exit 7 0])).
  apply reachable_refl.
Defined.

(** A root process that spawns a child and is killed by SIGTERM. *)
Definition killed_run : option (Z * Logged Summary.t * Script) :=
  run (script_kernel 7) 20 (Summary.empty, [])
    (script [sc_signal 7 SIGTRAP; sc_event 7 PTRACE_EVENT_FORK 8; sc_exit 8 3;
             mkScriptStop 7 (encode_status (WKilled 15 false)) no_regs 0]).

Lemma run_trace_complete_witness :
  ∃ r l w, killed_run = Some (143, (r, l), w) ∧
  ((l = [] ∧ 143 = EXIT_FAILURE) ∨
   ∃ root, (k_fork (script_kernel 7) (script [])).1 = Ok root ∧ final_trace root 143 l).
Proof.
  do 3 eexists. split; [vm_compute; reflexivity|].
  eapply (run_trace_complete (script_kernel 7) 20 Summary.empty
    (script [sc_signal 7 SIGTRAP; sc_event 7 PTRACE_EVENT_FORK 8; sc_exit 8 3;
             mkScriptStop 7 (encode_status (WKilled 15 false)) no_regs 0])).
  vm_compute. reflexivity.
Defined.

(** ** Termination *)

Section Termination.
Context {R W : Type} `{Reporter R} (K : Kernel W) (μ : W → nat).
Implicit Types s : State R W.

(** The tracees stop finitely often: each report of [waitpid] uses up some of
    what remains, and the tracer's other calls add nothing. *)
Hypothesis wait_progress : ∀ w pid options r w',
  k_waitpid K w pid options = (r, w') →
  (μ w' < μ w)%nat ∨ ∃ e, r = Err e ∧ e ≠ EINTR.
Hypothesis syscall_quiet : ∀ w pid sig, (μ (k_ptrace_syscall K w pid sig).2 ≤ μ w)%nat.
Hypothesis getregs_quiet : ∀ w pid, (μ (k_ptrace_getregs K w pid).2 ≤ μ w)%nat.
Hypothesis eventmsg_quiet : ∀ w pid, (μ (k_ptrace_geteventmsg K w pid).2 ≤ μ w)%nat.

Lemma from_errno_world {A} op (x : expected A Z * W) : (from_errno op x).2 = x.2.
Proof. by destruct x as [[]]. Qed.

(** [wait_for] returns, with a report only at the cost of progress. *)
Lemma wait_for_returns fuel w pid options :
  (μ w < fuel)%nat →
  ∃ r w', wait_for K fuel w pid options = Some (r, w') ∧
    (is_ok r = true → (μ w' < μ w)%nat).
Proof.
  revert w. induction fuel as [|fuel IH]; intros w Hf; [lia|]. cbn [wait_for].
  destruct (k_waitpid K w pid options) as [r w'] eqn:E.
  destruct (wait_progress _ _ _ _ _ E) as [Hlt|(e & -> & He)].
  - destruct r as [r|e]; [by do 2 eexists|]. destruct (_ =? EINTR); [|by do 2 eexists].
    destruct (IH w') as (r & w'' & -> & Hr); [lia|]. do 2 eexists. split; [done|].
    intros Hok. specialize (Hr Hok). lia.
  - destruct (Z.eqb_spec e EINTR); [done|]. by do 2 eexists.
Qed.

Lemma resume_world s o :
  resume_task K s = o →
  match o with Continue s' | Return _ s' => (μ (st_world s') ≤ μ (st_world s))%nat end.
Proof.
  intros <-. unfold resume_task. destruct (st_resume_current s); [|done].
  pose proof (syscall_quiet (st_world s) (st_current_pid s) (st_pending_signal s)) as Hq.
  unfold syscall_continue.
  destruct (from_errno _ _) as [c w] eqn:E. apply (f_equal snd) in E.
  rewrite from_errno_world in E. simpl in E. rewrite E in Hq.
  destruct c; [done|]. by destruct (negb _).
Qed.

Lemma emit_opt_world o pid s : st_world (emit_opt o pid s) = st_world s.
Proof. by destruct o. Qed.

Lemma handle_stop_world root stop s s' :
  handle_stop K root stop s = Continue s' → (μ (st_world s') ≤ μ (st_world s))%nat.
Proof.
  unfold handle_stop. destruct (stop_kind stop); try (by intros [= <-]).
  1,2: unfold handle_exit; cbn zeta; destruct (_ =? root); [done|]; by intros [= <-].
  - unfold handle_syscall, get_registers. destruct (TaskRegistry.find _ _); [|by intros [= <-]].
    pose proof (getregs_quiet (st_world s) (stop_pid stop)) as Hq.
    destruct (from_errno _ _) as [c w] eqn:E. apply (f_equal snd) in E.
    rewrite from_errno_world in E. simpl in E. rewrite E in Hq.
    repeat case_match; intros; simplify_eq; cbn; rewrite ?emit_opt_world; done.
  - unfold handle_event, event_message.
    pose proof (eventmsg_quiet (st_world s) (stop_pid stop)) as Hq.
    destruct (from_errno _ _) as [c w] eqn:E. apply (f_equal snd) in E.
    rewrite from_errno_world in E. simpl in E. rewrite E in Hq.
    repeat case_match; intros; simplify_eq; cbn; done.
Qed.

Lemma step_returns fuel root s :
  (μ (st_world s) < fuel)%nat →
  ∃ o, step K fuel root s = Some o ∧
    match o with Continue s' => (μ (st_world s') < μ (st_world s))%nat | Return _ _ => True end.
Proof.
  intros Hf. unfold step. pose proof (resume_world s _ eq_refl) as Hr.
  destruct (resume_task K s) as [s1|c s1]; [|by eexists].
  destruct (wait_for_returns fuel (st_world s1) (-1) WALL) as (r & w & -> & Hw); [lia|].
  cbn [mbind option_bind]. destruct r as [[pid status]|e]; [|by eexists].
  eexists. split; [done|]. case_match eqn:E; [|done].
  apply handle_stop_world in E. cbn in E. specialize (Hw eq_refl). lia.
Qed.

Lemma loop_returns fuel root s :
  (μ (st_world s) < fuel)%nat → ∃ code s', loop K fuel root s = Some (code, s').
Proof.
  revert s. induction fuel as [|fuel IH]; intros s Hf; [lia|]. cbn [loop].
  destruct (TaskRegistry.is_empty _); [by do 2 eexists|].
  destruct (step_returns (S fuel) root s Hf) as ([s1|c s1] & -> & Ho); cbn [mbind option_bind].
  - apply IH. lia.
  - by do 2 eexists.
Qed.

(** C24: when the tracees stop finitely often the tracer terminates, within as
    many iterations as stops remain. *)
Theorem run_terminates fuel (r : R) w :
  (∀ w, (μ (k_fork K w).2 ≤ μ w)%nat) →
  (∀ w pid options, (μ (k_ptrace_setoptions K w pid options).2 ≤ μ w)%nat) →
  (μ w < fuel)%nat → ∃ result, run K fuel r w = Some result.
Proof.
  intros Hfork Hopt Hf. unfold run. specialize (Hfork w).
  destruct (k_fork K w) as [[root|e] w1]; [|by eexists]. simpl in Hfork.
  destruct (wait_for_returns fuel w1 root 0) as (x & w2 & -> & Hx); [lia|].
  cbn [mbind option_bind]. destruct x as [x|e]; [|by eexists]. specialize (Hx eq_refl).
  unfold set_options. pose proof (Hopt w2 root trace_options) as Ho.
  destruct (from_errno _ _) as [c w3] eqn:E. apply (f_equal snd) in E.
  rewrite from_errno_world in E. simpl in E. rewrite E in Ho. destruct c; [|by eexists].
  destruct (loop_returns fuel root (start root r w3)) as (code & s & ->); [cbn; lia|].
  by eexists.
Qed.

End Termination.

Lemma run_terminates_witness :
  ∃ result, run (script_kernel 7) 3 Summary.empty (script [sc_exit 7 0; sc_exit 7 0]) = Some result.
Proof.
  apply (run_terminates (script_kernel 7) remaining).
  - intros w pid options r w'. cbn. unfold remaining. destruct (sc_rest w) as [|x rest].
    + intros [= <- <-]. right. eexists. split; [reflexivity|]. unfold ECHILD, EINTR. lia.
    + intros [= <- <-]. left. cbn. lia.
  - intros. apply Nat.le_refl.
  - intros. apply Nat.le_refl.
  - intros. apply Nat.le_refl.
  - intros. apply Nat.le_refl.
  - intros. apply Nat.le_refl.
  - cbn. lia.
Defined.

(** ** Requests to stop *)

Section StopRequest.
Context {R W : Type} `{Reporter R} (K : Kernel W).
Implicit Types s : State R W.

(** An iteration's emissions leave the signal pending that they asked for. *)
Definition killing s : Prop :=
  stop_requested (st_reporter s) = true → st_pending_signal s = SIGKILL.

Lemma killing_emit e pid s : killing (emit e pid s).
Proof. unfold killing. cbn. by intros ->. Qed.

Lemma u64_succ_neq q : u64 (q + 1) ≠ q.
Proof.
  intros E. pose proof (u64_range (q + 1)) as Hr. unfold u64 in *.
  pose proof (Z.div_mod (q + 1) (2 ^ 64)) as Hd. rewrite E in Hd, Hr. lia.
Qed.

(** An iteration either reports nothing, or ends in a killing state. *)
Lemma step_killing root stop s s' :
  handle_stop K root stop s = Continue s' →
  (st_reporter s' = st_reporter s ∧ st_sequence s' = st_sequence s) ∨ killing s'.
Proof.
  unfold handle_stop. destruct (stop_kind stop); try (by intros [= <-]; left).
  1,2: unfold handle_exit; cbn zeta; destruct (_ =? root); [done|]; intros [= <-];
    right; exact (killing_emit _ _ s).
  - unfold handle_syscall.
    repeat case_match; intros; simplify_eq; try (by left);
      match goal with o : option Event |- _ => destruct o end;
      first [by left|right; exact (killing_emit _ _ (with_world _ s))].
  - unfold handle_event. repeat case_match; intros; simplify_eq; try (by left);
      right; unfold killing; cbn; by intros ->.
Qed.

(** A request to stop takes effect at once: after an iteration that
    reported an event and whose reporter asks to stop, and after any iteration
    in which the reporter began to ask, SIGKILL is pending; when the stopped
    task is to be restarted the next restart delivers it to that task. *)
Theorem stop_request_kills fuel root s s' :
  step K fuel root s = Some (Continue s') →
  stop_requested (st_reporter s') = true →
  stop_requested (st_reporter s) = false ∨ st_sequence s' ≠ st_sequence s →
  st_pending_signal s' = SIGKILL ∧
  (st_resume_current s' = true →
   ∀ w, k_ptrace_syscall K (st_world s') (st_current_pid s') SIGKILL = (Ok (), w) →
   resume_task K s' = Continue (with_resume 0 false (with_world w s'))).
Proof.
  intros Hstep Hstop Hnew.
  destruct (step_cases _ _ _ _ _ Hstep) as [(stop & s2 & Hn & E)|(s2 & _ & E & _)]; [|done].
  destruct (next_stop_frame _ _ _ _ _ Hn) as (_ & Hr & Hq & _). symmetry in E.
  assert (st_pending_signal s' = SIGKILL) as Hk.
  { destruct (step_killing _ _ _ _ E) as [[Hr' Hq']|Hk]; [|by apply Hk].
    destruct Hnew as [Hf|Hf]; congruence. }
  split; [done|]. intros Hres w Hw. unfold resume_task, syscall_continue.
  rewrite Hres, Hk, Hw. done.
Qed.

(** A pending SIGKILL that was not yet delivered (its task had exited) is
    replaced by the signal of the next signal stop. *)
Theorem pending_kill_replaced fuel root s stop s2 :
  st_pending_signal s = SIGKILL → st_resume_current s = false →
  next_stop K fuel s = Some (stop, s2) → stop_kind stop = signal → stop_signal stop ≠ SIGTRAP →
  ∃ s', step K fuel root s = Some (Continue s') ∧ st_resume_current s' = true ∧
        st_pending_signal s' = stop_signal stop.
Proof.
  intros _ Hres Hn Hk Hs. unfold next_stop in Hn. unfold step.
  destruct (resume_task K s) as [s1|]; [|done].
  destruct (wait_for K fuel (st_world s1) (-1) WALL) as [[[[pid status]|e] w]|]; [|done..].
  simplify_eq. cbn [mbind option_bind].
  unfold handle_stop. rewrite Hk. eexists. split; [done|]. split; [done|]. cbn. unfold resume_signal.
  rewrite Hk. by destruct (Z.eqb_spec (stop_signal (classify_stop pid status)) SIGTRAP).
Qed.

End StopRequest.

(** A reporter that asks to stop from the first event on. *)
Definition Stopper : Type := bool.
#[global] Instance Stopper_reporter : Reporter Stopper := {
  report _ _ := true;
  stop_requested b := b;
}.

Lemma stop_request_kills_witness :
  ∃ s', step (script_kernel 7) 5 7
          (mkState (TaskRegistry.insert_root 7 ∅) 1 0 7 true false
             (script [sc_event 7 PTRACE_EVENT_FORK 8])) = Some (Continue s') ∧
        st_pending_signal s' = SIGKILL ∧
        resume_task (script_kernel 7) s' =
          Continue (with_resume 0 false
            (with_world (k_ptrace_syscall (script_kernel 7) (st_world s') 7 SIGKILL).2 s')).
Proof.
  eexists. split; [vm_compute; reflexivity|].
  edestruct (stop_request_kills (script_kernel 7) 5 7
    (mkState (TaskRegistry.insert_root 7 ∅) 1 0 7 true (false : Stopper)
       (script [sc_event 7 PTRACE_EVENT_FORK 8]))) as [Hk Hr];
    [vm_compute; reflexivity|reflexivity|left; reflexivity|].
  split; [exact Hk|]. apply Hr; reflexivity.
Defined.

(** The kill pending after a child's exit gives way to the SIGCHLD of its parent. *)
Lemma pending_kill_replaced_witness :
  ∃ s', step (script_kernel 7) 5 7
          (mkState (TaskRegistry.insert_root 7 ∅) 1 SIGKILL 8 false true (script [sc_signal 7 17]))
        = Some (Continue s') ∧ st_resume_current s' = true ∧ st_pending_signal s' = 17.
Proof.
  edestruct (pending_kill_replaced (script_kernel 7) 5 7
    (mkState (TaskRegistry.insert_root 7 ∅) 1 SIGKILL 8 false (true : Stopper)
       (script [sc_signal 7 17]))) as (s' & Hs & Hr & Hp);
    [reflexivity|reflexivity|vm_compute; reflexivity|reflexivity|vm_compute; discriminate|].
  exists s'. split; [exact Hs|]. split; [exact Hr|exact Hp].
Defined.
