(* ===== verification/TracerReports.v ===== *)
(** * What a run leaves in its reporter

    The tracer uses its reporter through the two functions of the interface
    only: maps that respect them commute with a run.  Hence a run leaves any
    reporter as the events of one trace, reported in order, leave it. *)

From S2P Require Import Prelude CxxString Event Stop FdTable Syscall Memory.
From S2P Require Import SyscallDecoder Report Tracer TracerScript TracerSpec.

(** ** Maps between reporters *)

Class ReporterMap {R1 R2 : Type} `{Reporter R1, Reporter R2} (f : R1 → R2) : Prop := {
  map_report r e : report (f r) e = f (report r e);
  map_stop r : stop_requested (f r) = stop_requested r;
}.

Create Rewrite HintDb reporter_map.

Section Map.
Context {R1 R2 W : Type} `{Reporter R1, Reporter R2} (f : R1 → R2) `{!ReporterMap f}.
Context (K : Kernel W).

Definition map_state (s : State R1 W) : State R2 W :=
  mkState (st_tasks s) (st_sequence s) (st_pending_signal s) (st_current_pid s)
    (st_resume_current s) (f (st_reporter s)) (st_world s).

Definition map_outcome (o : Outcome R1 W) : Outcome R2 W :=
  match o with
  | Continue s => Continue (map_state s)
  | Return code s => Return code (map_state s)
  end.

Lemma emit_map e pid s : emit e pid (map_state s) = map_state (emit e pid s).
Proof.
  unfold emit, map_state. cbn. by rewrite map_report, map_stop.
Qed.

Lemma emit_opt_map o pid s : emit_opt o pid (map_state s) = map_state (emit_opt o pid s).
Proof. destruct o; [apply emit_map|done]. Qed.

Lemma with_tasks_map g s : with_tasks g (map_state s) = map_state (with_tasks g s).
Proof. done. Qed.

Lemma with_world_map w s : with_world w (map_state s) = map_state (with_world w s).
Proof. done. Qed.

Lemma resumed_map s : resumed (map_state s) = map_state (resumed s).
Proof. done. Qed.

Lemma tasks_map s : st_tasks (map_state s) = st_tasks s.
Proof. done. Qed.

Hint Rewrite tasks_map emit_map emit_opt_map with_tasks_map with_world_map resumed_map : reporter_map.

Lemma resume_task_map s : resume_task K (map_state s) = map_outcome (resume_task K s).
Proof.
  unfold resume_task. cbn [st_resume_current map_state]. destruct (st_resume_current s); [|done].
  cbn [st_world st_current_pid st_pending_signal map_state].
  destruct (syscall_continue K _ _ _) as [[u|e] w]; [done|]. by destruct (negb _).
Qed.

Lemma handle_exit_map root stop s :
  handle_exit root stop (map_state s) = map_outcome (handle_exit root stop s).
Proof.
  unfold handle_exit. cbv zeta. autorewrite with reporter_map. by destruct (_ =? root).
Qed.

Lemma handle_event_map stop s : handle_event K stop (map_state s) = map_outcome (handle_event K stop s).
Proof.
  unfold handle_event. cbn [st_world map_state].
  destruct (event_message K _ _) as [[m|e] w]; [|done]. cbv zeta. autorewrite with reporter_map.
  destruct (one_of _ _); [destruct (TaskRegistry.find _ (st_tasks (with_world w s)))|];
    autorewrite with reporter_map; (destruct (_ =? PTRACE_EVENT_EXEC); [|done]);
    (destruct (TaskRegistry.find _ _); done).
Qed.

Lemma handle_syscall_map stop s :
  handle_syscall K stop (map_state s) = map_outcome (handle_syscall K stop s).
Proof.
  unfold handle_syscall. cbn [st_tasks st_world map_state].
  destruct (TaskRegistry.find _ _) as [task|]; [|done].
  destruct (get_registers K _ _) as [[regs|e] w]; cbv zeta; autorewrite with reporter_map.
  - destruct (task_phase task).
    + destruct (on_entry _ _ _ _) as [d o]. by autorewrite with reporter_map.
    + destruct (on_exit _ _ _ _) as [t o]. by autorewrite with reporter_map.
    + done.
  - by destruct (_ =? ESRCH).
Qed.

Lemma handle_stop_map root stop s :
  handle_stop K root stop (map_state s) = map_outcome (handle_stop K root stop s).
Proof.
  unfold handle_stop. destruct (stop_kind stop);
    first [apply handle_exit_map | apply handle_syscall_map | apply handle_event_map | done].
Qed.

Lemma step_map fuel root s : step K fuel root (map_state s) = map_outcome <$> step K fuel root s.
Proof.
  unfold step. rewrite resume_task_map. destruct (resume_task K s) as [s1|code s1]; [|done].
  cbn [map_outcome st_world map_state].
  destruct (wait_for K fuel _ _ _) as [[[[pid status]|e] w]|]; [|done|done].
  cbn [mbind option_bind fmap option_fmap option_map]. f_equal.
  apply (handle_stop_map root (classify_stop pid status) (with_current pid (with_world w s1))).
Qed.

Lemma loop_map fuel root s :
  loop K fuel root (map_state s) = (λ o, (o.1, map_state o.2)) <$> loop K fuel root s.
Proof.
  revert s. induction fuel as [|fuel IH]; intros s; [done|]. cbn [loop].
  cbn [st_tasks map_state]. destruct (TaskRegistry.is_empty _); [done|]. rewrite step_map.
  destruct (step K (S fuel) root s) as [[s1|code s1]|]; [apply IH|done|done].
Qed.

Theorem run_map fuel r w :
  run K fuel (f r) w = (λ o, (o.1.1, f o.1.2, o.2)) <$> run K fuel r w.
Proof.
  unfold run. destruct (k_fork K w) as [[root|e] w1]; [|done].
  destruct (wait_for K fuel w1 root 0) as [[[x|e] w2]|]; [|done|done].
  cbn [mbind option_bind]. destruct (set_options K w2 root trace_options) as [[u|e] w3]; [|done].
  change (start root (f r) w3) with
    (emit (TraceStarted root empty_context) root
       (map_state (mkState (TaskRegistry.insert_root root ∅) 0 0 root true r w3))).
  rewrite emit_map, loop_map. unfold start.
  by destruct (loop K fuel root _) as [[code s]|].
Qed.

End Map.

(** ** The events of a run *)

Section Reports.
Context {R W : Type} `{Reporter R} (K : Kernel W).

(** The trace so far, as a reporter that asks to stop when [r] would. *)
Definition History (r : R) : Type := list Event.

#[local] Instance History_reporter (r : R) : Reporter (History r) := {
  report l e := l ++ [e];
  stop_requested l := stop_requested (report_all r l);
}.

#[local] Instance report_all_map (r : R) : ReporterMap (R1 := History r) (report_all r).
Proof. split; [intros l e; by rewrite <- report_all_snoc|done]. Qed.

#[local] Instance logged_map (r : R) :
  ReporterMap (R1 := History r) (R2 := Logged R) (λ l, (report_all r l, l)).
Proof.
  split; [|done]. intros l e.
  change (report (report_all r l, l) e) with (report (report_all r l) e, l ++ [e]).
  by rewrite <- report_all_snoc.
Qed.

(** A run leaves its reporter as the events of one complete trace leave it. *)
Theorem run_reports fuel (r r' : R) w code w' :
  run K fuel r w = Some (code, r', w') →
  ∃ l, r' = report_all r l ∧
    ((l = [] ∧ code = EXIT_FAILURE) ∨
     ∃ root, (k_fork K w).1 = Ok root ∧ final_trace root code l).
Proof.
  pose proof (run_map (R1 := History r) (report_all r) K fuel [] w) as H1.
  pose proof (run_map (R1 := History r) (R2 := Logged R) (λ l, (report_all r l, l))
                (ReporterMap0 := logged_map r) K fuel [] w) as H2.
  change (report_all r []) with r in H1. change (report_all r []) with r in H2.
  rewrite H1. clear H1. destruct (run (R := History r) K fuel [] w) as [[[c l] v]|]; [|done].
  intros [= <- <- <-]. exists l. split; [done|].
  apply (run_final (R := R) K fuel r w c (report_all r l) l v). exact H2.
Qed.

End Reports.
