(* ===== verification/TracerTasks.v ===== *)
(** * The tasks of a trace

    What an iteration does to each registered task: a stop of one task leaves
    the others alone, a child starts with its parent's descriptors, and the
    descriptor table of a task refines the specification of its own calls
    under any interleaving with the stops of other tasks. *)

From S2P Require Import Prelude CxxString Event Stop FdTable Syscall Memory.
From S2P Require Import SyscallDecoder DecoderSpec Report Tracer TracerScript TracerSpec.

(** ** One task *)

(** A syscall stop as its task sees it: what can be read from the tracee, and
    its registers. *)
Definition half : Type := Tracee * user_regs_struct.

Definition half_step (pid : Z) (t : Task) (h : half) : Task :=
  match task_phase t with
  | phase_entry =>
      mkTask (task_pid t) (task_parent_pid t) (task_fd_table t)
        (on_entry h.1 pid h.2 (task_decoder t)).1 phase_exit
  | phase_exit =>
      mkTask (task_pid t) (task_parent_pid t)
        (on_exit pid h.2 (task_decoder t) (task_fd_table t)).1 (task_decoder t) phase_entry
  | phase_unknown => set_phase phase_entry t
  end.

Lemma half_step_entry pid t h :
  task_phase t = phase_entry →
  half_step pid t h =
  mkTask (task_pid t) (task_parent_pid t) (task_fd_table t)
    (on_entry h.1 pid h.2 (task_decoder t)).1 phase_exit.
Proof. unfold half_step. by intros ->. Qed.

Lemma half_step_exit pid t h :
  task_phase t = phase_exit →
  half_step pid t h =
  mkTask (task_pid t) (task_parent_pid t)
    (on_exit pid h.2 (task_decoder t) (task_fd_table t)).1 (task_decoder t) phase_entry.
Proof. unfold half_step. by intros ->. Qed.

(** A completed call is two syscall stops. *)
Definition halves (calls : list (Tracee * completed)) : list half :=
  flat_map (λ tc, [(tc.1, at_entry tc.2); (tc.1, at_exit tc.2)]) calls.

(** The specification of [DecoderSpec], call after call. *)
Definition known_after (pid : Z) (calls : list (Tracee * completed)) (known : Z → option string)
    : Z → option string :=
  foldl (λ known tc, fd_spec tc.1 pid tc.2 known) known calls.

Lemma half_steps_call pid t tr c :
  task_phase t = phase_entry →
  foldl (half_step pid) t [(tr, at_entry c); (tr, at_exit c)] =
  let st := (handle tr pid c (task_decoder t, task_fd_table t)).1 in
  mkTask (task_pid t) (task_parent_pid t) st.2 st.1 phase_entry.
Proof.
  intros Hp. simpl. unfold half_step at 2. rewrite Hp. unfold half_step, handle. cbn.
  destruct (on_entry _ _ _ _) as [d e]. cbn. by destruct (on_exit _ _ _ _).
Qed.

Lemma known_after_ext pid calls k1 k2 fd :
  (∀ fd, k1 fd = k2 fd) → known_after pid calls k1 fd = known_after pid calls k2 fd.
Proof.
  revert k1 k2. induction calls as [|[tr c] calls IH]; intros k1 k2 Hk; [apply Hk|].
  apply IH. intros fd'. unfold fd_spec. cbn. repeat case_match; auto; by rewrite ?Hk in *.
Qed.

Lemma half_steps_table pid t calls fd :
  task_phase t = phase_entry →
  task_phase (foldl (half_step pid) t (halves calls)) = phase_entry ∧
  FdTable.lookup fd (task_fd_table (foldl (half_step pid) t (halves calls))) =
  known_after pid calls (λ fd, FdTable.lookup fd (task_fd_table t)) fd.
Proof.
  revert t. induction calls as [|[tr c] calls IH]; intros t Hp; [done|].
  change (halves ((tr, c) :: calls)) with ([(tr, at_entry c); (tr, at_exit c)] ++ halves calls).
  rewrite foldl_app, half_steps_call by done. cbn zeta.
  match goal with |- context [foldl _ ?u _] => destruct (IH u eq_refl) as [Hph Ht] end.
  split; [done|]. rewrite Ht. cbn [task_fd_table].
  change (known_after pid ((tr, c) :: calls) ?k) with (known_after pid calls (fd_spec tr pid c k)).
  apply known_after_ext. intros fd'. apply handle_lookup.
Qed.

Section Tasks.
Context {R W : Type} `{Reporter R} (K : Kernel W).
Implicit Types s : State R W.

(** ** One iteration *)

(** A stop that is not about the calls of task [p]: a stop of another task, or
    one of its own that is neither a syscall stop, nor an exec, nor its end. *)
Definition quiet_for (p : Z) (stop : Stop) : bool :=
  negb (stop_pid stop =? p) ||
  match stop_kind stop with
  | signal | group_stop | unknown => true
  | ptrace_event => negb (stop_ptrace_event stop =? PTRACE_EVENT_EXEC)
  | exited | signaled | syscall => false
  end.

(** The task a clone, fork or vfork stop of [parent] registers. *)
Definition spawned_task (pid parent : Z) (t : Task) : Task :=
  mkTask pid parent (task_fd_table t) new_decoder phase_entry.

Lemma handle_event_tasks stop s s' :
  handle_event K stop s = Continue s' →
  ∀ p, (stop_pid stop ≠ p ∨ stop_ptrace_event stop ≠ PTRACE_EVENT_EXEC) →
  st_tasks s' !! p = st_tasks s !! p ∨
  (st_tasks s !! p = None ∧ ∃ t, st_tasks s !! stop_pid stop = Some t ∧
     st_tasks s' !! p = Some (spawned_task p (stop_pid stop) t)).
Proof.
  unfold handle_event. destruct (event_message K _ _) as [[m|e] w]; [|done].
  intros Hh p Hp. unfold TaskRegistry.find in Hh. cbn [st_tasks with_world] in Hh.
  assert (∀ s1 : State R W,
    Continue (resumed (if stop_ptrace_event stop =? PTRACE_EVENT_EXEC then
      match st_tasks s1 !! stop_pid stop with
      | Some task => with_tasks <[stop_pid stop := set_phase phase_entry task]> s1
      | None => s1 end else s1)) = Continue s' → st_tasks s' !! p = st_tasks s1 !! p) as Hexec.
  { intros s1 [= <-]. destruct (Z.eqb_spec (stop_ptrace_event stop) PTRACE_EVENT_EXEC) as [E|E];
      [|done]. destruct Hp as [Hp|Hp]; [|done]. destruct (st_tasks s1 !! stop_pid stop); [|done].
    by apply lookup_insert_ne. }
  apply Hexec in Hh. clear Hexec. rewrite Hh. clear Hh. destruct (one_of _ _); [|by left].
  destruct (st_tasks s !! stop_pid stop) as [t|] eqn:Et; [|by left].
  cbn [st_tasks emit with_tasks with_world].
  unfold TaskRegistry.insert_child, TaskRegistry.emplace.
  destruct (st_tasks s !! s32 m) eqn:Em; [by left|].
  destruct (decide (s32 m = p)) as [<-|Hne].
  - right. split; [done|]. exists t. split; [done|]. by rewrite lookup_insert_eq.
  - left. by apply lookup_insert_ne.
Qed.

Lemma handle_syscall_other stop s s' p :
  handle_syscall K stop s = Continue s' → stop_pid stop ≠ p → st_tasks s' !! p = st_tasks s !! p.
Proof.
  unfold handle_syscall. intros Hh Hp. unfold TaskRegistry.erase in Hh.
  repeat case_match; simplify_eq; cbn; rewrite ?emit_opt_tasks; try done;
    by rewrite ?lookup_insert_ne, ?lookup_delete_ne.
Qed.

Lemma quiet_tasks root stop s s' p :
  handle_stop K root stop s = Continue s' → quiet_for p stop = true →
  st_tasks s' !! p = st_tasks s !! p ∨
  (st_tasks s !! p = None ∧ ∃ t, st_tasks s !! stop_pid stop = Some t ∧
     st_tasks s' !! p = Some (spawned_task p (stop_pid stop) t)).
Proof.
  unfold handle_stop, quiet_for. intros Hh Hq.
  apply orb_true_iff in Hq. rewrite negb_true_iff, Z.eqb_neq in Hq.
  destruct (stop_kind stop) eqn:Ek; try (by simplify_eq; left).
  1,2: destruct Hq as [Hq|Hq]; [|done]; unfold handle_exit in Hh; cbn zeta in Hh;
    destruct (_ =? root); [done|]; simplify_eq; left; by apply lookup_delete_ne.
  - destruct Hq as [Hq|Hq]; [|done]. left. by eapply handle_syscall_other.
  - rewrite negb_true_iff, Z.eqb_neq in Hq. by eapply handle_event_tasks.
Qed.

Lemma handle_syscall_own stop s s' p t regs w :
  handle_syscall K stop s = Continue s' → stop_pid stop = p → st_tasks s !! p = Some t →
  get_registers K (st_world s) p = (Ok regs, w) →
  st_tasks s' !! p = Some (half_step p t (k_tracee K w p, regs)).
Proof.
  unfold handle_syscall, TaskRegistry.find. intros Hh Hp Ht Hr. subst p.
  rewrite Ht, Hr in Hh. unfold half_step. cbn [fst snd].
  destruct (task_phase t).
  - destruct (on_entry _ _ _ _) as [d o] eqn:E. simplify_eq. cbn.
    by rewrite lookup_insert_eq.
  - destruct (on_exit _ _ _ _) as [d o] eqn:E. simplify_eq. cbn. by rewrite lookup_insert_eq.
  - simplify_eq. cbn. by rewrite lookup_insert_eq.
Qed.

Lemma handle_stop_current root stop s s' :
  handle_stop K root stop s = Continue s' → st_current_pid s' = st_current_pid s.
Proof.
  unfold handle_stop, handle_exit, handle_syscall, handle_event, emit_opt.
  intros Hh. repeat case_match; simplify_eq; done.
Qed.

(** The tasks are independent: an iteration that handles a stop of one
    process leaves every other registered task exactly as it was, and the only
    task it can add is a child of the stopped process, whose descriptor table
    is the parent's and whose decoder and phase are fresh. *)
Theorem step_isolated fuel root s s' p :
  step K fuel root s = Some (Continue s') → st_current_pid s' ≠ p →
  st_tasks s' !! p = st_tasks s !! p ∨
  (st_tasks s !! p = None ∧ ∃ t, st_tasks s !! st_current_pid s' = Some t ∧
     st_tasks s' !! p = Some (spawned_task p (st_current_pid s') t)).
Proof.
  intros Hstep Hp. destruct (step_cases _ _ _ _ _ Hstep) as [(stop & s2 & Hn & E)|(s2 & _ & E & _)];
    [|done]. symmetry in E. destruct (next_stop_frame _ _ _ _ _ Hn) as (Ht & _ & _ & Hc & _).
  pose proof (handle_stop_current _ _ _ _ E) as Hc'. rewrite Hc in Hc'. rewrite Hc' in *.
  rewrite <- Ht. eapply quiet_tasks; [done|]. unfold quiet_for.
  by rewrite (proj2 (Z.eqb_neq _ _) Hp).
Qed.

(** ** Executions *)

(** [runs p s hs s']: iterations lead from [s] to [s'], in which task [p] makes
    the syscall stops [hs]; in between, any stops that are quiet for [p], so that
    [p] itself neither ends nor execs (an exec of its own makes the tracer read
    its later stops in the wrong phase, see the last part). *)
Inductive runs (root p : Z) : State R W → list half → State R W → Prop :=
| runs_nil s : runs root p s [] s
| runs_quiet fuel stop s s1 s2 hs s3 :
    next_stop K fuel s = Some (stop, s1) → quiet_for p stop = true →
    handle_stop K root stop s1 = Continue s2 →
    runs root p s2 hs s3 → runs root p s hs s3
| runs_syscall fuel stop s s1 s2 regs w hs s3 :
    next_stop K fuel s = Some (stop, s1) → stop_pid stop = p → stop_kind stop = syscall →
    get_registers K (st_world s1) p = (Ok regs, w) →
    handle_stop K root stop s1 = Continue s2 →
    runs root p s2 hs s3 → runs root p s ((k_tracee K w p, regs) :: hs) s3.

Lemma runs_task root p s hs s' t :
  runs root p s hs s' → st_tasks s !! p = Some t →
  st_tasks s' !! p = Some (foldl (half_step p) t hs).
Proof.
  intros Hr. revert t.
  induction Hr as [s|fuel stop s s1 s2 hs s3 Hn Hq Hh _ IH|fuel stop s s1 s2 regs w hs s3 Hn Hp Hk Hg Hh _ IH];
    intros t Ht; [done| |].
  - apply IH. destruct (next_stop_frame _ _ _ _ _ Hn) as (Ht1 & _). rewrite <- Ht1 in Ht.
    destruct (quiet_tasks _ _ _ _ _ Hh Hq) as [->|[Hnone _]]; [done|congruence].
  - apply IH. destruct (next_stop_frame _ _ _ _ _ Hn) as (Ht1 & _). rewrite <- Ht1 in Ht.
    unfold handle_stop in Hh. rewrite Hk in Hh. by eapply handle_syscall_own.
Qed.

(** C4: between two execs of a task, whatever the other tasks do meanwhile (exec
    included), the descriptor table the tracer keeps for the task after a
    sequence of completed calls maps each descriptor to the path the
    specification of those calls gives, starting from what was known before. *)
Theorem tracer_refines_fd_spec root p s calls s' t :
  runs root p s (halves calls) s' →
  st_tasks s !! p = Some t → task_phase t = phase_entry →
  ∃ t', st_tasks s' !! p = Some t' ∧ task_phase t' = phase_entry ∧
    ∀ fd, FdTable.lookup fd (task_fd_table t') =
          known_after p calls (λ fd, FdTable.lookup fd (task_fd_table t)) fd.
Proof.
  intros Hr Ht Hp. eexists. split; [by eapply runs_task|].
  split; [by apply (half_steps_table p t calls 0)|]. intros fd. by apply half_steps_table.
Qed.

(** ** exec *)

(** The registers of a syscall stop of call [n]. *)
Definition stop_of_call (n : Z) (regs : user_regs_struct) : Prop := s64 (reg_orig_rax regs) = n.

Lemma exit_of_execve p regs d table :
  current_syscall d = SYS_execve → on_exit p regs d table = (table, None).
Proof.
  intros Hd. unfold on_exit, exit_rest. rewrite Hd. cbn zeta. rewrite ?one_of_cons, ?one_of_nil.
  eval_eqb. by rewrite andb_false_r.
Qed.

(** C40: an exec stop comes between the entry and the exit stop of [execve] and
    resets the phase, so that the exit stop of [execve] is taken for an entry
    and every later stop is read with the wrong phase: a file the new program
    opens is not entered in the descriptor table. *)
Theorem exec_inverts_phases root p s0 s1 fuel stop s2 s3 s4 t tr0 r0 tr1 r1 tr2 r2 tr3 r3 :
  st_tasks s0 !! p = Some t → task_phase t = phase_entry →
  runs root p s0 [(tr0, r0)] s1 → stop_of_call SYS_execve r0 →
  next_stop K fuel s1 = Some (stop, s2) → stop_pid stop = p →
  stop_kind stop = ptrace_event → stop_ptrace_event stop = PTRACE_EVENT_EXEC →
  handle_stop K root stop s2 = Continue s3 →
  runs root p s3 [(tr1, r1); (tr2, r2); (tr3, r3)] s4 →
  stop_of_call SYS_execve r1 → stop_of_call SYS_openat r2 → stop_of_call SYS_openat r3 →
  ∃ t', st_tasks s4 !! p = Some t' ∧ task_phase t' = phase_exit ∧
        task_fd_table t' = task_fd_table t.
Proof.
  intros Ht Hp Hr0 H0 Hn Hsp Hk He Hh Hr1 H1 H2 H3.
  pose proof (runs_task _ _ _ _ _ _ Hr0 Ht) as Ht1. cbn [foldl] in Ht1.
  destruct (next_stop_frame _ _ _ _ _ Hn) as (Ht2 & _). rewrite <- Ht2 in Ht1.
  set (t1 := half_step p t (tr0, r0)) in *.
  assert (task_fd_table t1 = task_fd_table t) as Htab by (unfold t1, half_step; by rewrite Hp).
  clearbody t1.
  assert (st_tasks s3 !! p = Some (set_phase phase_entry t1)) as Ht3.
  { unfold handle_stop in Hh. rewrite Hk in Hh. unfold handle_event in Hh.
    destruct (event_message K _ _) as [[m|e] w]; [|done].
    rewrite He in Hh. change (one_of PTRACE_EVENT_EXEC _) with false in Hh. cbn iota in Hh.
    rewrite Z.eqb_refl in Hh. unfold TaskRegistry.find in Hh. cbn [st_tasks with_world] in Hh.
    rewrite Hsp, Ht1 in Hh. injection Hh as <-. cbn. by rewrite lookup_insert_eq. }
  pose proof (runs_task _ _ _ _ _ _ Hr1 Ht3) as Ht4. eexists. split; [exact Ht4|].
  cbn [foldl].
  rewrite (half_step_entry p (set_phase phase_entry t1)) by done.
  rewrite (half_step_exit p (mkTask _ _ _ _ phase_exit)) by done.
  cbn [task_decoder task_fd_table fst snd].
  rewrite exit_of_execve by (rewrite entry_number; exact H1).
  by rewrite half_step_entry by done.
Qed.

End Tasks.

(** ** Instances *)

(** A forked child starts with the parent's table; the parent is unchanged. *)
Lemma step_isolated_witness :
  let s := start 7 Summary.empty (script [sc_event 7 PTRACE_EVENT_FORK 8]) in
  ∃ s', step (script_kernel 7) 5 7 s = Some (Continue s') ∧
  (st_tasks s' !! 8 = st_tasks s !! 8 ∨
   (st_tasks s !! 8 = None ∧ ∃ t, st_tasks s !! st_current_pid s' = Some t ∧
      st_tasks s' !! 8 = Some (spawned_task 8 (st_current_pid s') t))).
Proof.
  eexists. split; [vm_compute; reflexivity|].
  apply (step_isolated (script_kernel 7) 5 7
    (start 7 Summary.empty (script [sc_event 7 PTRACE_EVENT_FORK 8])));
    [vm_compute; reflexivity|vm_compute; discriminate].
Defined.

(** The stops of two calls of task 7 between which a signal stop of task 8 falls. *)
Definition two_calls : list (Tracee * completed) :=
  [(blank_tracee, mkCompleted (regs_of SYS_openat 0 (-38)) (regs_of SYS_openat 0 3));
   (blank_tracee, mkCompleted (regs_of SYS_dup 3 (-38)) (regs_of SYS_dup 3 4))].

Definition two_calls_script : Script :=
  script [sc_syscall 7 (regs_of SYS_openat 0 (-38)); sc_syscall 7 (regs_of SYS_openat 0 3);
          sc_signal 8 17;
          sc_syscall 7 (regs_of SYS_dup 3 (-38)); sc_syscall 7 (regs_of SYS_dup 3 4)].

(** Builds a [runs] derivation of the scripted kernel by evaluation. *)
Ltac run_script :=
  repeat first
    [ eapply (runs_syscall (script_kernel 7) 7 7 9);
        [vm_compute; reflexivity|reflexivity|reflexivity|reflexivity|vm_compute; reflexivity|]
    | eapply (runs_quiet (script_kernel 7) 7 7 9);
        [vm_compute; reflexivity|reflexivity|vm_compute; reflexivity|]
    | eapply runs_nil ].

Lemma tracer_refines_fd_spec_witness :
  ∃ s' t', runs (script_kernel 7) 7 7 (start 7 Summary.empty two_calls_script) (halves two_calls) s' ∧
    st_tasks s' !! 7 = Some t' ∧
    ∀ fd, FdTable.lookup fd (task_fd_table t') =
          known_after 7 two_calls (λ fd, FdTable.lookup fd FdTable.empty) fd.
Proof.
  assert (∃ s', runs (script_kernel 7) 7 7 (start 7 Summary.empty two_calls_script)
                  (halves two_calls) s') as [s' Hr].
  { eexists. run_script. }
  exists s'. edestruct (tracer_refines_fd_spec (script_kernel 7) 7 7
    (start 7 Summary.empty two_calls_script) two_calls s') as (t' & Ht & _ & Hfd);
    [exact Hr|reflexivity|reflexivity|].
  exists t'. split; [exact Hr|]. split; [exact Ht|exact Hfd].
Defined.

(** The stops of [execve] and of the first [openat] of the new program. *)
Definition exec_script : Script :=
  script [sc_syscall 7 (regs_of SYS_execve 0 (-38)); sc_event 7 PTRACE_EVENT_EXEC 7;
          sc_syscall 7 (regs_of SYS_execve 0 0); sc_syscall 7 (regs_of SYS_openat 0 (-38));
          sc_syscall 7 (regs_of SYS_openat 0 3)].

Lemma exec_inverts_phases_witness :
  let s0 := start 7 Summary.empty exec_script in
  ∃ s1 stop s2 s3 s4,
    runs (script_kernel 7) 7 7 s0 [(blank_tracee, regs_of SYS_execve 0 (-38))] s1 ∧
    next_stop (script_kernel 7) 9 s1 = Some (stop, s2) ∧
    handle_stop (script_kernel 7) 7 stop s2 = Continue s3 ∧
    runs (script_kernel 7) 7 7 s3
      [(blank_tracee, regs_of SYS_execve 0 0); (blank_tracee, regs_of SYS_openat 0 (-38));
       (blank_tracee, regs_of SYS_openat 0 3)] s4 ∧
    ∃ t', st_tasks s4 !! 7 = Some t' ∧ task_phase t' = phase_exit ∧ task_fd_table t' = FdTable.empty.
Proof.
  do 5 eexists. split; [|split; [|split; [|split]]].
  - eapply (runs_syscall (script_kernel 7) 7 7 9);
      [vm_compute; reflexivity|reflexivity|reflexivity|reflexivity|vm_compute; reflexivity|].
    apply runs_nil.
  - vm_compute. reflexivity.
  - vm_compute. reflexivity.
  - run_script.
  - eapply (exec_inverts_phases (script_kernel 7) 7 7 (start 7 Summary.empty exec_script)
      _ 9 _ _ _ _ (mkTask 7 0 FdTable.empty new_decoder phase_entry) blank_tracee (regs_of SYS_execve 0 (-38)) blank_tracee
      (regs_of SYS_execve 0 0) blank_tracee (regs_of SYS_openat 0 (-38)) blank_tracee
      (regs_of SYS_openat 0 3)).
    + reflexivity.
    + reflexivity.
    + run_script.
    + reflexivity.
    + vm_compute. reflexivity.
    + reflexivity.
    + reflexivity.
    + reflexivity.
    + vm_compute. reflexivity.
    + run_script.
    + reflexivity.
    + reflexivity.
    + reflexivity.
Defined.
