(* ===== verification/TracerSignals.v ===== *)
(** * Stops and restarts

    Every stop of a task is answered by one restart of that task, before the
    next stop is waited for, with the signal that stopped it: the calls of the
    tracer are logged and their order is an invariant of the loop
    (src/trace/tracer.cpp). *)

From S2P Require Import Prelude CxxString Event Stop FdTable Syscall Memory.
From S2P Require Import SyscallDecoder Report Tracer TracerScript TracerSpec.

(** ** The calls *)

Inductive Call := Stopped (pid status : Z) | Restarted (pid sig : Z).

(** A kernel that logs the stops it hands out and the restarts it is asked for. *)
Definition logging {W} (K : Kernel W) : Kernel (W * list Call) :=
  let lift {A} (f : W → A * W) (w : W * list Call) := ((f w.1).1, ((f w.1).2, w.2)) in {|
    k_fork := lift (k_fork K);
    k_waitpid w pid options :=
      match k_waitpid K w.1 pid options with
      | (Ok (p, status), v) => (Ok (p, status), (v, w.2 ++ [Stopped p status]))
      | (Err e, v) => (Err e, (v, w.2))
      end;
    k_ptrace_syscall w pid sig :=
      let '(r, v) := k_ptrace_syscall K w.1 pid sig in (r, (v, w.2 ++ [Restarted pid sig]));
    k_ptrace_setoptions w pid options := lift (λ v, k_ptrace_setoptions K v pid options) w;
    k_ptrace_getregs w pid := lift (λ v, k_ptrace_getregs K v pid) w;
    k_ptrace_geteventmsg w pid := lift (λ v, k_ptrace_geteventmsg K v pid) w;
    k_kill w pid sig := lift (λ v, k_kill K v pid sig) w;
    k_tracee w pid := k_tracee K w.1 pid;
  |}.

(** The restart a stop calls for: none after the end of a task, else of that
    task, with the signal of an ordinary signal stop. *)
Definition answer (pid status : Z) : option (Z * Z) :=
  let stop := classify_stop pid status in
  match stop_kind stop with
  | exited | signaled => None
  | _ => Some (pid, resume_signal stop)
  end.

Section Signals.
Context {R W : Type} `{StickyReporter R} (K : Kernel W).
Implicit Types s : State R (W * list Call).

(** The reporter has asked to stop. *)
Definition kills s : bool := stop_requested (st_reporter s).

(** The signal is the one due, or the kill a reporter asked for. *)
Definition allowed (kill : bool) (sig due : Z) : Prop := sig = due ∨ (sig = SIGKILL ∧ kill = true).

(** Logs in which each restart answers the stop before it, [root] being
    restarted first; the last argument is the answer that is due. *)
Inductive answered (kill : bool) (root : Z) : list Call → option (Z * Z) → Prop :=
| answered_start : answered kill root [] (Some (root, 0))
| answered_restart l p due sig :
    answered kill root l (Some (p, due)) → allowed kill sig due →
    answered kill root (l ++ [Restarted p sig]) None
| answered_stop l p status :
    answered kill root l None → answered kill root (l ++ [Stopped p status]) (answer p status).

(** What the variables of the loop say about the answer that is due. *)
Definition pending_matches (due : option (Z * Z)) s : Prop :=
  match due with
  | Some (p, sig) =>
      st_resume_current s = true ∧ st_current_pid s = p ∧ allowed (kills s) (st_pending_signal s) sig
  | None => st_resume_current s = false ∧ allowed (kills s) (st_pending_signal s) 0
  end.

Definition answers (root : Z) s : Prop :=
  ∃ due, answered (kills s) root (st_world s).2 due ∧ pending_matches due s.

Lemma allowed_refl kill z : allowed kill z z.
Proof. by left. Qed.

Lemma answered_mono (k1 k2 : bool) root l due :
  (k1 = true → k2 = true) → answered k1 root l due → answered k2 root l due.
Proof.
  intros Hk. induction 1 as [|l p due sig _ IH Ha|l p status _ IH]; [constructor| |by constructor].
  econstructor; [done|]. destruct Ha as [->|[-> Hkill]]; [by left|right; auto].
Qed.

(** ** What a handler leaves alone *)

(** The task that stopped and the log are unchanged, and a reporter that has
    asked to stop still does. *)
Definition same_calls s s' : Prop :=
  st_current_pid s' = st_current_pid s ∧ (st_world s').2 = (st_world s).2 ∧
  (kills s = true → kills s' = true).

#[local] Instance same_calls_preorder : PreOrder same_calls.
Proof.
  split; [by intros s|]. intros s1 s2 s3 (? & ? & ?) (? & ? & ?). split_and!; [congruence..|auto].
Qed.

Lemma same_calls_emit e pid s : same_calls s (emit e pid s).
Proof. split_and!; [done..|]. apply stop_requested_sticky. Qed.

Lemma same_calls_emit_opt o pid s : same_calls s (emit_opt o pid s).
Proof. destruct o; [apply same_calls_emit|done]. Qed.

(** An emission may only put a kill in place of the pending signal. *)
Lemma allowed_emit e pid s due :
  allowed (kills s) (st_pending_signal s) due →
  allowed (kills (emit e pid s)) (st_pending_signal (emit e pid s)) due.
Proof.
  pose proof (same_calls_emit e pid s) as (_ & _ & Hk). unfold allowed, kills in *. cbn in *.
  destruct (stop_requested (report _ _)); [by right|]. intros [->|[_ E]]; [by left|].
  by discriminate (Hk E).
Qed.

Lemma allowed_emit_opt o pid s due :
  allowed (kills s) (st_pending_signal s) due →
  allowed (kills (emit_opt o pid s)) (st_pending_signal (emit_opt o pid s)) due.
Proof. destruct o; [apply allowed_emit|done]. Qed.

(** The restart at the head of an iteration. *)
Lemma resume_answers root s s1 :
  answers root s → resume_task (logging K) s = Continue s1 →
  answered (kills s1) root (st_world s1).2 None ∧ st_resume_current s1 = false ∧
  allowed (kills s1) (st_pending_signal s1) 0.
Proof.
  intros (due & Hl & Hp). unfold resume_task, syscall_continue, from_errno. cbn [logging k_ptrace_syscall].
  destruct due as [[p due]|]; destruct Hp as (Hr & Hp); rewrite Hr.
  - destruct Hp as [Hc Ha]. destruct (k_ptrace_syscall K _ _ _) as [[u|e] v].
    + intros [= <-]. cbn. split_and!; [|done|apply allowed_refl].
      rewrite Hc. by eapply answered_restart.
    + destruct (negb _); [done|]. intros [= <-]. cbn. split_and!; [|done|apply allowed_refl].
      rewrite Hc. by eapply answered_restart.
  - by intros [= <-].
Qed.

Lemma wait_for_logs fuel w pid options r w' :
  wait_for (logging K) fuel w pid options = Some (r, w') →
  w'.2 = match r with Ok (p, status) => w.2 ++ [Stopped p status] | Err _ => w.2 end.
Proof.
  revert w. induction fuel as [|fuel IH]; intros w; [done|]. cbn [wait_for logging k_waitpid].
  destruct (k_waitpid K w.1 pid options) as [[[p status]|e] v].
  - by intros [= <- <-].
  - destruct (e =? EINTR); [intros E; by apply IH in E|]. by intros [= <- <-].
Qed.

(** ** The handlers *)

(** After a handler that continues: the answer due is to restart the task
    that stopped with [sig], or there is none. *)
Definition handled (due : option Z) s s' : Prop :=
  same_calls s s' ∧ st_resume_current s' = bool_decide (is_Some due) ∧
  allowed (kills s') (st_pending_signal s') (default 0 due).

Lemma emitted_handled o pid s s1 :
  same_calls s s1 → allowed (kills s1) (st_pending_signal s1) 0 →
  handled (Some 0) s (resumed (emit_opt o pid s1)).
Proof.
  intros Hs Ha. split; [|split; [done|]; by apply allowed_emit_opt].
  trans s1; [done|]. apply same_calls_emit_opt.
Qed.

Lemma event_handled stop s s' :
  allowed (kills s) (st_pending_signal s) 0 → handle_event (logging K) stop s = Continue s' →
  handled (Some 0) s s'.
Proof.
  intros Ha. unfold handle_event, event_message, from_errno. cbn [logging k_ptrace_geteventmsg].
  destruct (k_ptrace_geteventmsg K _ _) as [[m|e] v]; [|done]. cbn [fst snd].
  set (s1 := if one_of _ _ then _ else _).
  assert (same_calls s s1 ∧ allowed (kills s1) (st_pending_signal s1) 0) as [Hs Ha1].
  { subst s1. destruct (one_of _ _); [|done]. destruct (TaskRegistry.find _ _); [|done].
    split; [|by apply allowed_emit].
    etrans; [|apply same_calls_emit]. split_and!; auto. }
  clearbody s1. destruct (_ =? PTRACE_EVENT_EXEC); [destruct (TaskRegistry.find _ _)|];
    by intros [= <-].
Qed.

Lemma syscall_handled stop s s' :
  allowed (kills s) (st_pending_signal s) 0 → handle_syscall (logging K) stop s = Continue s' →
  handled (Some 0) s s'.
Proof.
  intros Ha. unfold handle_syscall, get_registers, from_errno. cbn [logging k_ptrace_getregs].
  destruct (TaskRegistry.find _ _) as [t|]; [|by intros [= <-]].
  destruct (k_ptrace_getregs K _ _) as [[regs|e] v]; cbn [fst snd].
  - destruct (task_phase t);
      [destruct (on_entry _ _ _ _) as [d o]|destruct (on_exit _ _ _ _) as [d o]|];
      intros [= <-]; [by apply emitted_handled|by apply emitted_handled|done].
  - cbn. destruct (_ =? ESRCH); [|done]. by intros [= <-].
Qed.

Lemma exit_handled root stop s s' :
  st_resume_current s = false → allowed (kills s) (st_pending_signal s) 0 →
  handle_exit root stop s = Continue s' → handled None s s'.
Proof.
  intros Hr Ha. unfold handle_exit. cbn zeta. set (s1 := emit _ _ s).
  destruct (_ =? root); [done|]. intros [= <-].
  split; [|split; [done|]; by apply allowed_emit].
  trans s1; [apply same_calls_emit|split_and!; auto].
Qed.

Lemma stop_handled root stop s s' :
  st_resume_current s = false → allowed (kills s) (st_pending_signal s) 0 →
  handle_stop (logging K) root stop s = Continue s' →
  handled match stop_kind stop with
          | exited | signaled => None
          | _ => Some (resume_signal stop)
          end s s'.
Proof.
  intros Hr Ha. unfold handle_stop, resume_signal. destruct (stop_kind stop).
  1,2: by apply exit_handled.
  1: by apply syscall_handled.
  1: by apply event_handled.
  all: intros [= <-]; split; [done|]; split; [done|apply allowed_refl].
Qed.

Lemma step_answers fuel root s s' :
  answers root s → step (logging K) fuel root s = Some (Continue s') → answers root s'.
Proof.
  intros Hs. unfold step. destruct (resume_task (logging K) s) as [s1|] eqn:Er; [|done].
  destruct (resume_answers _ _ _ Hs Er) as (Hl & Hr & Ha).
  destruct (wait_for (logging K) fuel _ _ _) as [[[[pid status]|e] w]|] eqn:Ew; [|done..].
  cbn [mbind option_bind]. apply wait_for_logs in Ew. intros [= Hh].
  apply stop_handled in Hh as ((Hc & Hlog & Hk) & Hr' & Ha'); [|done|done].
  exists (answer pid status). split.
  - rewrite Hlog. cbn. rewrite Ew. apply answered_stop. by eapply answered_mono.
  - unfold answer, pending_matches. by destruct (stop_kind _).
Qed.

Lemma start_answers root (r : R) w : answers root (start root r (w, [])).
Proof.
  exists (Some (root, 0)). split; [apply answered_start|]. split; [done|]. split; [done|].
  apply (allowed_emit (TraceStarted root empty_context) root
    (mkState (TaskRegistry.insert_root root ∅) 0 0 root true r (w, []))), allowed_refl.
Qed.

(** C35: no task is left stopped and no signal is lost, repeated or made up:
    in every state the tracer reaches, the log of its calls begins with the
    restart of the root, and every stop after that was answered, before the
    next was waited for, by one restart of the task that stopped, with the
    signal of an ordinary signal stop and none otherwise, unless the reporter
    has asked to stop and the signal is SIGKILL; the end of a task has no
    answer. *)
Theorem stops_are_answered root (r : R) w s :
  reachable (logging K) root (start root r (w, [])) s →
  ∃ due, answered (kills s) root (st_world s).2 due ∧ pending_matches due s.
Proof.
  induction 1 as [|s s' fuel _ IH _ Hs]; [apply start_answers|]. by eapply step_answers.
Qed.

End Signals.

(** ** An instance *)

(** SIGTERM is passed on, SIGTSTP is not. *)
Definition signals_script : Script := script [sc_signal 7 15; sc_signal 7 SIGTSTP].

Definition signals_log : list Call :=
  [Restarted 7 0; Stopped 7 (encode_status (WSignalStop 15)); Restarted 7 15;
   Stopped 7 (encode_status (WSignalStop SIGTSTP))].

Definition signals_start : State Summary.t (Script * list Call) :=
  start 7 Summary.empty (signals_script, []).

Definition signals_step (s : State Summary.t (Script * list Call)) :=
  match step (logging (script_kernel 7)) 9 7 s with Some (Continue s') => s' | _ => s end.

Lemma stops_are_answered_witness :
  let s := signals_step (signals_step signals_start) in
  (st_world s).2 = signals_log ∧
  ∃ due, answered (kills s) 7 (st_world s).2 due ∧ pending_matches due s.
Proof.
  split; [vm_compute; reflexivity|].
  apply (stops_are_answered (script_kernel 7) 7 Summary.empty signals_script).
  apply (reachable_step _ _ _ (signals_step signals_start) _ 9);
    [|vm_compute; reflexivity|vm_compute; reflexivity].
  apply (reachable_step _ _ _ signals_start _ 9);
    [apply reachable_refl|vm_compute; reflexivity|vm_compute; reflexivity].
Defined.
