(* ===== verification/Program.v ===== *)
(** * Programs and the process that runs them

    What the tracer watches: a program as the system calls it makes and the
    signals that reach it, each with the rest of the program as a function of
    the reply, and its meaning alone ([execute]).  [machine_kernel] runs one as
    a traced process: Linux stops it at the entry and the exit of every call,
    at the event of a call that makes a process or replaces the program, and
    before the delivery of a signal, as the options of the tracer have it, and
    restarts it as ptrace(2) says.  The machine is one process: what another
    process does that it makes is not part of it; [plain] are the programs that
    make none.  The system in which the tracer runs is any [Kernel] whose world
    has such a view of the process ([TracedProcess]); the machine is one. *)

From S2P Require Import Prelude CxxString Event Stop FdTable Syscall Memory.
From S2P Require Import SyscallDecoder Tracer.

(** ** Programs *)

(** A system call: its number and arguments, and what can be read of the
    process while it is made. *)
Record request := mkRequest { rq_registers : user_regs_struct; rq_tracee : Tracee }.

(** The result of a call, and what it has written to the process. *)
Record reply := mkReply { rp_result : Z; rp_out : Z }.

(** A program that gives a value or ends; [Die] is an end by a signal, with or
    without a core dump.  [Say] is text for standard output.  [Signal] is a signal
    that reaches the process at that point; the rest depends on whether it is
    delivered (then its handler runs or its default action is taken). *)
Inductive prog (X : Type) : Type :=
| Ret (x : X)
| Exit (code : Z)
| Die (sig : Z) (core : bool)
| Say (text : string) (rest : prog X)
| Call (rq : request) (rest : reply → prog X)
| Signal (sig : Z) (rest : bool → prog X).
Arguments Ret {X}.
Arguments Exit {X}.
Arguments Say {X}.
Arguments Die {X}.
Arguments Call {X}.
Arguments Signal {X}.

#[export] Instance prog_ret : MRet prog := λ X, Ret.
#[export] Instance prog_bind : MBind prog := λ X Y f,
  fix bind m :=
    match m with
    | Ret x => f x
    | Exit code => Exit code
    | Die s core => Die s core
    | Say text m => Say text (bind m)
    | Call rq k => Call rq (λ r, bind (k r))
    | Signal s k => Signal s (λ b, bind (k b))
    end.

Definition say (text : string) : prog () := Say text (Ret ()).
Definition call (rq : request) : prog reply := Call rq (Ret).

(** A call with its reply. *)
Definition made : Type := request * reply.

(** The registers at the two stops of a call: [rax] is [-ENOSYS], then the result. *)
Definition entry_registers (rq : request) : user_regs_struct := rq_registers rq.
Definition exit_registers (c : made) : user_regs_struct :=
  let r := rq_registers c.1 in
  mkRegs (reg_rdi r) (reg_rsi r) (reg_rdx r) (reg_r10 r) (reg_r8 r) (reg_r9 r)
    (u64 (rp_result c.2)) (reg_orig_rax r).

(** The event of a new process: of [clone], [fork] or [vfork] by the flags and
    the signal for its end; none when it asked not to be traced. *)
Definition SIGCHLD : Z := 17.
Definition CLONE_VFORK : Z := 16384.
Definition CLONE_UNTRACED : Z := 8388608.

Definition clone_event (flags exit_signal : Z) : option Z :=
  if has_option flags CLONE_UNTRACED then None
  else if has_option flags CLONE_VFORK then Some PTRACE_EVENT_VFORK
  else if exit_signal =? SIGCHLD then Some PTRACE_EVENT_FORK else Some PTRACE_EVENT_CLONE.

(** The event of a call that succeeded; [clone3] has its flags and its signal in
    memory. *)
Definition event_of (c : made) : option Z :=
  let r := rq_registers c.1 in
  let n := s64 (reg_orig_rax r) in
  let word a := (tracee_peek (rq_tracee c.1) 0 (u64 a)).1 in
  if rp_result c.2 <? 0 then None
  else if n =? SYS_fork then Some PTRACE_EVENT_FORK
  else if n =? SYS_vfork then Some PTRACE_EVENT_VFORK
  else if n =? SYS_clone then clone_event (reg_rdi r) (Z.land (reg_rdi r) 255)
  else if n =? SYS_clone3 then clone_event (word (reg_rdi r)) (word (reg_rdi r + 32))
  else if one_of n [SYS_execve; SYS_execveat] then Some PTRACE_EVENT_EXEC
  else None.

Section System.
Context {X : Type} (sys : X → request → reply * X).

(** ** A program alone *)

(** The calls it makes, its exit status, what it prints and the system it
    leaves. *)
Record execution := mkExecution {
  ex_calls : list made;
  ex_status : wait_event;
  ex_output : string;
  ex_system : X;
}.

(** The status of [exit(code)]: the low byte. *)
Definition exit_status (code : Z) : wait_event := WExited (code mod 256).

Definition with_call (c : made) (e : execution) : execution :=
  mkExecution (c :: ex_calls e) (ex_status e) (ex_output e) (ex_system e).
Definition with_output (text : string) (e : execution) : execution :=
  mkExecution (ex_calls e) (ex_status e) (text +:+ ex_output e) (ex_system e).

Fixpoint execute (p : prog Z) (x : X) : execution :=
  match p with
  | Ret code | Exit code => mkExecution [] (exit_status code) "" x
  | Die s core => mkExecution [] (WKilled s core) "" x
  | Say text p => with_output text (execute p x)
  | Call rq k =>
      let '(r, x) := sys x rq in
      with_call (rq, r) (execute (k r) x)
  | Signal _ k => execute (k true) x
  end.

(** No call of the program has an event, so that it makes no process that is
    traced and is not replaced by another (such calls may be made and fail);
    its signals are numbers of signals, and SIGKILL is not sent to be
    delivered. *)
Fixpoint plain (p : prog Z) (x : X) : Prop :=
  match p with
  | Ret _ | Exit _ => True
  | Die s _ => 1 ≤ s ≤ 64
  | Say _ p => plain p x
  | Call rq k => let '(r, x) := sys x rq in event_of (rq, r) = None ∧ plain (k r) x
  | Signal s k => 1 ≤ s ≤ 64 ∧ s ≠ SIGKILL ∧ ∀ b, plain (k b) x
  end.

(** ** A program as a traced process *)

(** Where the process is stopped: after [execve]; at the entry of a call; at
    the event of a call; at its exit; before a signal is delivered; at the entry
    of [exit_group]; or it is gone. *)
Inductive place :=
| Loaded (p : prog Z)
| Entered (rq : request) (k : reply → prog Z)
| Between (event : Z) (c : made) (k : reply → prog Z)
| Left (c : made) (k : reply → prog Z)
| Signalled (sig : Z) (k : bool → prog Z)
| Leaving (code : Z)
| Gone.

Record Machine := mkMachine {
  ma_place : place;
  ma_report : option wait_event;  (** what [waitpid] has not reported yet *)
  ma_calls : list made;
  ma_output : string;
  ma_system : X;
  ma_options : Z;  (** of [PTRACE_SETOPTIONS] *)
}.

Definition no_tracee : Tracee := mkTracee (λ _ _, (-1, 5)) (λ _, None) "".
Definition exit_group_registers (code : Z) : user_regs_struct :=
  mkRegs (u64 code) 0 0 0 0 0 (u64 (-38)) SYS_exit_group.

(** Where a process that runs comes to: a stop, or its end. *)
Inductive arrival := Stops (pl : place) | Ends (w : wait_event).

(** Up to the next stop, and what was printed before it. *)
Fixpoint advance (p : prog Z) : arrival * string :=
  match p with
  | Ret code | Exit code => (Stops (Leaving code), "")
  | Die s core => (Ends (WKilled s core), "")
  | Say text p => let '(a, out) := advance p in (a, text +:+ out)
  | Call rq k => (Stops (Entered rq k), "")
  | Signal s k => (Stops (Signalled s k), "")
  end.

(** What is reported of a stop: [PTRACE_O_TRACESYSGOOD] tells the stops of a
    call from a SIGTRAP. *)
Definition report_at (options : Z) (pl : place) : wait_event :=
  match pl with
  | Between event _ _ => WEventStop event
  | Signalled s _ => WSignalStop s
  | Loaded _ => WSignalStop SIGTRAP
  | _ => if has_option options PTRACE_O_TRACESYSGOOD then WSyscallStop else WSignalStop SIGTRAP
  end.

Definition arrive (a : arrival) (m : Machine) : Machine :=
  match a with
  | Stops pl =>
      mkMachine pl (Some (report_at (ma_options m) pl)) (ma_calls m) (ma_output m) (ma_system m)
        (ma_options m)
  | Ends w => mkMachine Gone (Some w) (ma_calls m) (ma_output m) (ma_system m) (ma_options m)
  end.

Definition print (text : string) (m : Machine) : Machine :=
  mkMachine (ma_place m) (ma_report m) (ma_calls m) (ma_output m +:+ text) (ma_system m) (ma_options m).

Definition run_on (p : prog Z) (m : Machine) : Machine :=
  let '(a, out) := advance p in arrive a (print out m).

(** The call a process is stopped at is made; it stops at its event when the
    option for that is set (bit [e] for event [e]). *)
Definition make_call (rq : request) (k : reply → prog Z) (m : Machine) : Machine :=
  let '(r, x) := sys (ma_system m) rq in
  let c := (rq, r) in
  arrive
    (Stops (match event_of c with
            | Some e => if has_option (ma_options m) (Z.shiftl 1 e) then Between e c k else Left c k
            | None => Left c k
            end))
    (mkMachine (ma_place m) (ma_report m) (ma_calls m ++ [c]) (ma_output m) x (ma_options m)).

(** [PTRACE_SYSCALL] with a signal.  At the stop of an event the signal is
    ignored, as ptrace(2) says that it may be; elsewhere SIGKILL ends the
    process, which makes no call any more; a signal that is stopped for is
    delivered when it is the signal of the restart. *)
Definition restart (m : Machine) (sig : Z) : expected unit Z * Machine :=
  match ma_place m with
  | Gone => (Err ESRCH, m)
  | Between _ c k => (Ok (), arrive (Stops (Left c k)) m)
  | place =>
      if sig =? SIGKILL then (Ok (), arrive (Ends (WKilled SIGKILL false)) m)
      else
        (Ok (),
         match place with
         | Loaded p => run_on p m
         | Entered rq k => make_call rq k m
         | Left c k => run_on (k c.2) m
         | Signalled s k => run_on (k (sig =? s)) m
         | Leaving code => arrive (Ends (exit_status code)) m
         | Between _ _ _ | Gone => m
         end)
  end.

(** [waitpid]: what has not been reported; else it waits for ever, as a call
    that is always interrupted. *)
Definition wait_machine (pid : Z) (m : Machine) : expected (Z * Z) Z * Machine :=
  match ma_report m with
  | None => (Err EINTR, m)
  | Some w =>
      (Ok (pid, encode_status w),
       mkMachine (ma_place m) None (ma_calls m) (ma_output m) (ma_system m) (ma_options m))
  end.

(** [PTRACE_GETREGS]; the registers between two calls are not modelled. *)
Definition registers_at (pl : place) : expected user_regs_struct Z :=
  match pl with
  | Entered rq _ => Ok (entry_registers rq)
  | Between _ c _ | Left c _ => Ok (exit_registers c)
  | Leaving code => Ok (exit_group_registers code)
  | Loaded _ | Signalled _ _ | Gone => Err ESRCH
  end.

Definition tracee_at (pl : place) : Tracee :=
  match pl with
  | Entered rq _ => rq_tracee rq
  | Between _ c _ | Left c _ => rq_tracee c.1
  | _ => no_tracee
  end.

(** [PTRACE_GETEVENTMSG]: the pid of the new process, or the pid that the
    process had before [execve]. *)
Definition message_at (root : Z) (pl : place) : expected Z Z :=
  match pl with
  | Between e c _ => Ok (if e =? PTRACE_EVENT_EXEC then root else rp_result c.2)
  | _ => Err ESRCH
  end.

Definition machine_kernel (root : Z) : Kernel Machine := {|
  k_fork m := (Ok root, m);
  k_waitpid m _ _ := wait_machine root m;
  k_ptrace_syscall m _ sig := restart m sig;
  k_ptrace_setoptions m _ options :=
    (Ok (), mkMachine (ma_place m) (ma_report m) (ma_calls m) (ma_output m) (ma_system m) options);
  k_ptrace_getregs m _ := (registers_at (ma_place m), m);
  k_ptrace_geteventmsg m _ := (message_at root (ma_place m), m);
  k_kill m _ _ := (match ma_place m with Gone => false | _ => true end, m);
  k_tracee m _ := tracee_at (ma_place m);
|}.

(** The process when [execve] has loaded the program. *)
Definition load (p : prog Z) (x : X) : Machine :=
  mkMachine (Loaded p) (Some (WSignalStop SIGTRAP)) [] "" x 0.

End System.

Arguments execution : clear implicits.
Arguments Machine : clear implicits.

(** ** A kernel with a traced process

    What ptrace(2) and waitpid(2) promise the tracer of one process, of a kernel
    that is not known: its world has a view of the process as a machine, and the
    requests to the process act on the view as the machine has it.  Nothing is
    said of a process that does not exist, runs, or has an end that is not
    reported yet, nor of one that has made another traced process. *)
Section Process.
Context {X W : Type} (sys : X → request → reply * X) (root : Z) (K : Kernel W) (view : W → Machine X).

(** The process has made no other and has not been replaced. *)
Definition lone (m : Machine X) : Prop := Forall (λ c, event_of c = None) (ma_calls m).

(** Its last stop or its end has been reported. *)
Definition quiet (m : Machine X) : Prop := ma_report m = None ∧ lone m.

Definition reported (m : Machine X) : Machine X :=
  mkMachine (ma_place m) None (ma_calls m) (ma_output m) (ma_system m) (ma_options m).
Definition with_options (options : Z) (m : Machine X) : Machine X :=
  mkMachine (ma_place m) (ma_report m) (ma_calls m) (ma_output m) (ma_system m) options.

Class TracedProcess : Prop := {
  process_restarts w sig m :
    quiet (view w) → restart sys (view w) sig = (Ok (), m) →
    ∃ w', k_ptrace_syscall K w root sig = (Ok (), w') ∧ view w' = m;
  process_waits w pid options e :
    lone (view w) → ma_report (view w) = Some e → pid = root ∨ pid = -1 → options = 0 ∨ options = WALL →
    ∃ w', k_waitpid K w pid options = (Ok (root, encode_status e), w') ∧ view w' = reported (view w);
  process_options w options :
    quiet (view w) → ma_place (view w) ≠ Gone →
    ∃ w', k_ptrace_setoptions K w root options = (Ok (), w') ∧ view w' = with_options options (view w);
  process_entered w rq k :
    quiet (view w) → ma_place (view w) = Entered rq k →
    ∃ w', k_ptrace_getregs K w root = (Ok (entry_registers rq), w') ∧ view w' = view w ∧
      k_tracee K w' root = rq_tracee rq;
  process_left w c k :
    quiet (view w) → ma_place (view w) = Left c k →
    ∃ w', k_ptrace_getregs K w root = (Ok (exit_registers c), w') ∧ view w' = view w;
  process_leaving w code :
    quiet (view w) → ma_place (view w) = Leaving code →
    ∃ regs w', k_ptrace_getregs K w root = (Ok regs, w') ∧ view w' = view w ∧
      reg_orig_rax regs = SYS_exit_group;
  process_gone w :
    ma_report (view w) = None → ma_place (view w) = Gone →
    (∀ sig, view (k_kill K w root sig).2 = view w) ∧
    (∀ options, view (k_waitpid K w root options).2 = view w);
}.

End Process.

Arguments process_restarts {X W sys root K view _}.
Arguments process_waits {X W sys root K view _}.
Arguments process_options {X W sys root K view _}.
Arguments process_entered {X W sys root K view _}.
Arguments process_left {X W sys root K view _}.
Arguments process_leaving {X W sys root K view _}.
Arguments process_gone {X W sys root K view _}.

(** The machine is such a kernel. *)
#[export] Instance machine_process {X} (sys : X → request → reply * X) (root : Z) :
  TracedProcess sys root (machine_kernel sys root) (λ m, m).
Proof.
  split; cbn -[restart wait_machine registers_at tracee_at].
  - intros w sig m _ ->. by exists m.
  - intros w pid options e _ He _ _. unfold wait_machine. rewrite He. by eexists.
  - intros w options _ _. by eexists.
  - intros w rq k _ Hp. exists w. by rewrite !Hp.
  - intros w c k _ ->. by eexists.
  - intros w code _ ->. by do 2 eexists.
  - intros w Hr _. split; [done|]. intros _. unfold wait_machine. by rewrite Hr.
Qed.
