(* ===== verification/Monitor.v ===== *)
(** * A traced program is a monitored one

    The tracer as a reference monitor: [supervise] runs a program by recursion
    on it, tells the reporter of every call before and after it is made, ends
    the program once the reporter has asked to stop, and delivers its signals but
    those that [dropped] names.  The loop of tracer.cpp over the stops of a
    process does the same for a program that is one process, on every kernel that
    has the process as ptrace(2) describes it ([TracedProcess] of Program.v). *)

From S2P Require Import Prelude CxxString Event Stop FdTable Syscall Memory.
From S2P Require Import SyscallDecoder Report Tracer Fuel Program.

Section Monitor.
Context {R X : Type} `{Reporter R} (sys : X → request → reply * X) (root : Z).

(** ** The monitor *)

(** The reporter and the number of the next event. *)
Definition Listener : Type := R * Z.
Implicit Types o : Listener.

Definition hear (e : option Event) o : Listener :=
  match e with
  | None => o
  | Some e => (report o.1 (set_context (mkContext root o.2) e), u64 (o.2 + 1))
  end.

Definition killed (x : X) : execution X := mkExecution [] (WKilled SIGKILL false) "" x.

(** The program goes on unless the reporter has asked to stop. *)
Definition unless_stopped (x : X) o (rest : execution X * Listener) : execution X * Listener :=
  if stop_requested o.1 then (killed x, o) else rest.

(** The signals that are never delivered: SIGTRAP and those whose default action
    stops a process. *)
Definition dropped (s : Z) : bool := is_group_stop s || (s =? SIGTRAP).

(** What becomes of a program with a table of tracked descriptors. *)
Fixpoint monitor (p : prog Z) (t : FdTable.t) o (x : X) : execution X * Listener :=
  match p with
  | Ret code | Exit code => (mkExecution [] (exit_status code) "" x, o)
  | Die s core => (mkExecution [] (WKilled s core) "" x, o)
  | Say text p => let '(e, o) := monitor p t o x in (with_output text e, o)
  | Signal s k => monitor (k (negb (dropped s))) t o x
  | Call rq k =>
      let '(d, before) := on_entry (rq_tracee rq) root (entry_registers rq) new_decoder in
      let o := hear before o in
      unless_stopped x o
        (let '(r, x) := sys x rq in
         let '(t, after) := on_exit root (exit_registers (rq, r)) d t in
         let o := hear after o in
         let '(e, o) := unless_stopped x o (monitor (k r) t o x) in
         (with_call (rq, r) e, o))
  end.

(** The status in the last two events, and the exit code of the tracer. *)
Definition end_of (w : wait_event) : Z * bool :=
  match w with WKilled s _ => (s, true) | WExited c => (c, false) | _ => (0, false) end.
Definition exit_code_of (w : wait_event) : Z :=
  let '(st, sg) := end_of w in if sg then 128 + st else st.

Definition hear_end (w : wait_event) o : Listener :=
  let '(st, sg) := end_of w in
  hear (Some (TraceFinished root st sg empty_context))
    (hear (Some (ProcessExited root st sg empty_context)) o).

(** From the start of the trace to its end. *)
Definition supervise (p : prog Z) (r : R) (x : X) : execution X * Listener :=
  let o := hear (Some (TraceStarted root empty_context)) (r, 0) in
  let '(e, o) := unless_stopped x o (monitor p FdTable.empty o x) in
  (e, hear_end (ex_status e) o).

(** The process when it is gone. *)
Definition gone (e : execution X) : Machine X :=
  mkMachine Gone None (ex_calls e) (ex_output e) (ex_system e) trace_options.

(** ** An iteration of the tracer's loop *)

(** A kernel with the process. *)
Context {W : Type} (K : Kernel W) (view : W → Machine X) `{!TracedProcess sys root K view}.

(** The state in which the process is to be restarted. *)
Definition paused (t : FdTable.t) (d : Decoder) (ph : SyscallPhase) (sig : Z) o (w : W) : State R W :=
  mkState {[root := mkTask root 0 t d ph]} o.2 sig root true o.1 w.

(** The state in which a stop is handled. *)
Definition stopped_at (t : FdTable.t) (d : Decoder) (ph : SyscallPhase) o (w : W) : State R W :=
  mkState {[root := mkTask root 0 t d ph]} o.2 0 root false o.1 w.

Definition pending o : Z := if stop_requested o.1 then SIGKILL else 0.

Lemma iteration P t d ph sig o w m e :
  quiet (view w) → lone m →
  restart sys (view w) sig = (Ok (), m) → ma_report m = Some e → wait_event_wf e →
  (∀ w', view w' = reported m →
    match handle_stop K root (expected_stop root e) (stopped_at t d ph o w') with
    | Return code s => P (code, s)
    | Continue s => eventually P (λ n, loop K n root s)
    end) →
  eventually P (λ n, loop K n root (paused t d ph sig o w)).
Proof.
  intros Hq Hm Hr He Hwf Hgo.
  destruct (process_restarts w sig m Hq Hr) as (w1 & Hk1 & Hv1).
  destruct (process_waits w1 (-1) WALL e) as (w2 & Hk2 & Hv2); [by rewrite Hv1..|auto|auto|].
  rewrite Hv1 in Hv2. specialize (Hgo w2 Hv2).
  assert (∀ n, step K (S n) root (paused t d ph sig o w) =
    Some (handle_stop K root (expected_stop root e) (stopped_at t d ph o w2))) as Hstep.
  { intros n. unfold step, resume_task, paused, syscall_continue. cbn [st_resume_current st_world
      st_current_pid st_pending_signal]. rewrite Hk1.
    cbn [from_errno wait_for with_resume with_world st_world st_tasks]. rewrite Hk2.
    cbn [mbind option_bind]. by rewrite classify_encode by done. }
  eapply eventually_step.
  { intros n. cbn [loop].
    assert (TaskRegistry.is_empty (st_tasks (paused t d ph sig o w)) = false) as ->.
    { apply bool_decide_eq_false_2. cbn. apply map_non_empty_singleton. }
    rewrite Hstep. cbn [mbind option_bind]. reflexivity. }
  destruct (handle_stop _ _ _ _); [done|]. by apply eventually_ret.
Qed.

(** *** What the loop does at each stop *)

Lemma emit_opt_hear ev t d ph o w :
  stop_requested o.1 = false →
  emit_opt ev root (stopped_at t d ph o w) =
  with_resume (pending (hear ev o)) false (stopped_at t d ph (hear ev o) w).
Proof. intros Ho. unfold pending. destruct ev as [e|]; cbn; [done|by rewrite Ho]. Qed.

(** The loop goes on with the process as it was. *)
Definition goes_on w (out : Outcome R W) (resume : W → State R W) : Prop :=
  ∃ w', view w' = view w ∧ out = Continue (resume w').

(** The task and the registers of a system call stop, and what is stored. *)
Ltac read_stop Hk :=
  unfold handle_stop, handle_syscall, TaskRegistry.find, get_registers;
  cbn [expected_stop stop_kind stop_pid stopped_at st_tasks st_world]; rewrite lookup_singleton_eq;
  rewrite Hk; cbn [from_errno task_phase task_decoder task_fd_table].
Ltac store_task w :=
  exists w; split; [done|]; unfold resumed, with_resume, with_tasks; cbn; by rewrite insert_singleton_eq.

Lemma entry_stop t d o w rq k :
  quiet (view w) → ma_place (view w) = Entered rq k → stop_requested o.1 = false →
  let '(d', ev) := on_entry (rq_tracee rq) root (entry_registers rq) new_decoder in
  goes_on w (handle_stop K root (expected_stop root WSyscallStop) (stopped_at t d phase_entry o w))
    (paused t d' phase_exit (pending (hear ev o)) (hear ev o)).
Proof.
  intros Hq Hp Ho. destruct (process_entered w rq k Hq Hp) as (w' & Hk & Hv & Ht).
  read_stop Hk. rewrite Ht.
  change (on_entry (rq_tracee rq) root (entry_registers rq) d)
    with (on_entry (rq_tracee rq) root (entry_registers rq) new_decoder).
  destruct (on_entry (rq_tracee rq) root (entry_registers rq) new_decoder) as [d1 ev].
  change (with_world w' (stopped_at t d phase_entry o w)) with (stopped_at t d phase_entry o w').
  rewrite emit_opt_hear by done. store_task w'.
Qed.

Lemma exit_stop t d o w c k :
  quiet (view w) → ma_place (view w) = Left c k → stop_requested o.1 = false →
  let '(t', ev) := on_exit root (exit_registers c) d t in
  goes_on w (handle_stop K root (expected_stop root WSyscallStop) (stopped_at t d phase_exit o w))
    (paused t' d phase_entry (pending (hear ev o)) (hear ev o)).
Proof.
  intros Hq Hp Ho. destruct (process_left w c k Hq Hp) as (w' & Hk & Hv). read_stop Hk.
  destruct (on_exit _ _ _ _) as [t' ev].
  change (with_world w' (stopped_at t d phase_exit o w)) with (stopped_at t d phase_exit o w').
  rewrite emit_opt_hear by done. store_task w'.
Qed.

Lemma leaving_stop t d o w code :
  quiet (view w) → ma_place (view w) = Leaving code →
  goes_on w (handle_stop K root (expected_stop root WSyscallStop) (stopped_at t d phase_entry o w))
    (paused t (cleared SYS_exit_group) phase_exit 0 o).
Proof.
  intros Hq Hp. destruct (process_leaving w code Hq Hp) as (regs & w' & Hk & Hv & Hn). read_stop Hk.
  assert (on_entry (k_tracee K w' root) root regs d = (cleared SYS_exit_group, None)) as ->.
  { unfold on_entry, decode. by rewrite Hn. }
  store_task w'.
Qed.

Lemma signal_stop t d ph o w s :
  wait_event_wf (WSignalStop s) →
  handle_stop K root (expected_stop root (WSignalStop s)) (stopped_at t d ph o w) =
  Continue (paused t d ph (if dropped s then 0 else s) o w).
Proof.
  intros Hs. pose proof (resume_signal_encode root _ Hs) as Hr. rewrite classify_encode in Hr by done.
  assert (handle_stop K root (expected_stop root (WSignalStop s)) (stopped_at t d ph o w) =
    Continue (with_resume (resume_signal (expected_stop root (WSignalStop s))) true
      (stopped_at t d ph o w))) as ->.
  { unfold handle_stop. cbn [expected_stop stop_kind]. by destruct (is_group_stop s). }
  by rewrite Hr.
Qed.

(** *** The loop over a program *)

(** The machine after the rest of the program, and the result of the loop. *)
Definition after (m : Machine X) (e : execution X) : Machine X :=
  mkMachine Gone None (ma_calls m ++ ex_calls e) (ma_output m +:+ ex_output e) (ex_system e)
    (ma_options m).

Definition finishes (m : Machine X) (res : execution X * Listener) (l : Z * State R W) : Prop :=
  l.1 = exit_code_of (ex_status res.1) ∧
  st_reporter l.2 = (hear_end (ex_status res.1) res.2).1 ∧ view (st_world l.2) = after m res.1.

(** The end of the process is the end of the loop. *)
Lemma gone_stop P t d ph sig o w m e :
  quiet (view w) → lone m →
  restart sys (view w) sig = (Ok (), m) → ma_report m = Some e → wait_event_wf e →
  (∃ st sg, end_of e = (st, sg) ∧
    expected_stop root e = mkStop root (encode_status e) (if sg : bool then signaled else exited)
      (if sg then st else 0) 0 (if sg then 0 else st)) →
  (∀ s, st_reporter s = (hear_end e o).1 → view (st_world s) = reported m → P (exit_code_of e, s)) →
  eventually P (λ n, loop K n root (paused t d ph sig o w)).
Proof.
  intros Hq Hm Hr He Hwf (st & sg & Hes & Hs) HP. eapply iteration; [done..|]. intros w' Hw.
  assert (∀ s, st_reporter s = (hear_end e o).1 → view (st_world s) = reported m →
    P ((if sg then 128 + st else st), s)) as HP'.
  { unfold exit_code_of in HP. by rewrite Hes in HP. }
  rewrite Hs. unfold handle_stop, handle_exit. unfold hear_end in HP'. rewrite Hes in HP'.
  destruct sg; cbn [stop_kind stop_pid stop_signal stop_exit_status];
    rewrite ?bool_decide_eq_true_2, ?bool_decide_eq_false_2, Z.eqb_refl by done; by apply HP'.
Qed.

(** The places at which a process takes the signal of a restart. *)
Definition killable (pl : place) : Prop :=
  match pl with Gone | Between _ _ _ => False | _ => True end.

Lemma killed_loop t d ph o w :
  quiet (view w) → killable (ma_place (view w)) →
  eventually (finishes (view w) (killed (ma_system (view w)), o))
    (λ n, loop K n root (paused t d ph SIGKILL o w)).
Proof.
  intros Hq Hp.
  eapply gone_stop with (e := WKilled SIGKILL false) (m := arrive (Ends (WKilled SIGKILL false)) (view w));
    [done|apply Hq|..].
  - unfold restart. change (SIGKILL =? SIGKILL) with true. by destruct (ma_place (view w)).
  - done.
  - cbn. unfold SIGKILL. lia.
  - by exists SIGKILL, true.
  - intros s Hr Hw. split_and!; [done|exact Hr|]. etrans; [exact Hw|]. unfold after, reported. cbn.
    by rewrite app_nil_r, app_empty_r.
Qed.

Lemma unless_stopped_loop t d ph o w res :
  quiet (view w) → killable (ma_place (view w)) →
  (stop_requested o.1 = false →
   eventually (finishes (view w) res) (λ n, loop K n root (paused t d ph 0 o w))) →
  eventually (finishes (view w) (unless_stopped (ma_system (view w)) o res))
    (λ n, loop K n root (paused t d ph (pending o) o w)).
Proof.
  intros Hq Hp Hgo. unfold unless_stopped, pending. destruct (stop_requested o.1).
  - by apply killed_loop.
  - by apply Hgo.
Qed.

Lemma finishes_call m c x pl w e o l :
  finishes (mkMachine pl w (ma_calls m ++ [c]) (ma_output m) x (ma_options m)) (e, o) l →
  finishes m (with_call c e, o) l.
Proof.
  intros (Hc & Hr & Hw). split_and!; [done..|]. rewrite Hw. unfold after. cbn.
  by rewrite <- app_assoc.
Qed.

Lemma finishes_output m text e o l :
  finishes (print text m) (e, o) l → finishes m (with_output text e, o) l.
Proof.
  intros (Hc & Hr & Hw). split_and!; [done..|]. rewrite Hw. unfold after. cbn.
  by rewrite app_assoc_str.
Qed.

(** Machines that agree on what was done so far finish alike. *)
Lemma finishes_same m1 m res l :
  ma_calls m1 = ma_calls m → ma_output m1 = ma_output m → ma_options m1 = ma_options m →
  finishes m1 res l → finishes m res l.
Proof.
  intros Hc Hu Ho (? & ? & Hw). split_and!; [done..|]. rewrite Hw. unfold after. by rewrite Hc, Hu, Ho.
Qed.

Lemma run_on_say text p (m : Machine X) : run_on (Say text p) m = run_on p (print text m).
Proof. unfold run_on. cbn. destruct (advance p). unfold print. cbn. by rewrite app_assoc_str. Qed.

Lemma leaving_loop t d sig o w m code :
  quiet (view w) → quiet m →
  restart sys (view w) sig = (Ok (), run_on (Exit code) m) → ma_options m = trace_options →
  eventually (finishes m (mkExecution [] (exit_status code) "" (ma_system m), o))
    (λ n, loop K n root (paused t d phase_entry sig o w)).
Proof.
  intros Hq Hm Hr Ho.
  eapply iteration with (e := WSyscallStop) (m := run_on (Exit code) m);
    [done|apply Hm|exact Hr|cbn; by rewrite Ho|done|].
  intros w1 Hw1.
  destruct (leaving_stop t d o w1 code) as (w2 & Hw2 & ->); [by rewrite Hw1; split; [|apply Hm]|by rewrite Hw1|].
  rewrite Hw1 in Hw2.
  eapply gone_stop with (e := exit_status code) (m := arrive (Ends (exit_status code)) (run_on (Exit code) m));
    [by rewrite Hw2; split; [|apply Hm]|apply Hm|by rewrite Hw2|done|..].
  - cbn. pose proof (Z.mod_pos_bound code 256). lia.
  - by exists (code mod 256), false.
  - intros s Hs Hw. split_and!; [done|exact Hs|]. etrans; [exact Hw|]. unfold after, reported. cbn.
    by rewrite !app_nil_r.
Qed.

Lemma dying_loop t d sig o w m s core :
  quiet (view w) → quiet m →
  restart sys (view w) sig = (Ok (), run_on (Die s core) m) → 1 ≤ s ≤ 64 →
  eventually (finishes m (mkExecution [] (WKilled s core) "" (ma_system m), o))
    (λ n, loop K n root (paused t d phase_entry sig o w)).
Proof.
  intros Hq Hm Hr Hs.
  eapply gone_stop with (e := WKilled s core) (m := run_on (Die s core) m);
    [done|apply Hm|exact Hr|done|done|..].
  - by exists s, true.
  - intros st Hst Hw. split_and!; [done|exact Hst|]. etrans; [exact Hw|]. unfold after, reported. cbn.
    by rewrite !app_nil_r.
Qed.

(** A system call: its two stops, and the rest of the program. *)
Lemma call_loop rq k t d sig o w m :
  (∀ r t d o w, quiet (view w) → ma_place (view w) = Left (rq, r) k → stop_requested o.1 = false →
    ma_options (view w) = trace_options → plain sys (k r) (ma_system (view w)) →
    eventually (finishes (view w) (monitor (k r) t o (ma_system (view w))))
      (λ n, loop K n root (paused t d phase_entry 0 o w))) →
  quiet (view w) → quiet m →
  restart sys (view w) sig = (Ok (), run_on (Call rq k) m) → stop_requested o.1 = false →
  ma_options m = trace_options → plain sys (Call rq k) (ma_system m) →
  eventually (finishes m (monitor (Call rq k) t o (ma_system m)))
    (λ n, loop K n root (paused t d phase_entry sig o w)).
Proof.
  intros Hrest Hq [Hmr Hml] Hr Ho Hopt Hpl. cbn [monitor].
  eapply iteration with (e := WSyscallStop) (m := run_on (Call rq k) m);
    [done|done|exact Hr|cbn; by rewrite Hopt|done|].
  intros w1 Hw1. set (m1 := reported _) in Hw1.
  assert (quiet m1) as Hq1 by done.
  pose proof (entry_stop t d o w1 rq k) as He. rewrite Hw1 in He. specialize (He Hq1 eq_refl Ho).
  revert He. destruct (on_entry _ _ _ _) as [d1 before]. intros (w2 & Hw2 & ->). rewrite Hw1 in Hw2.
  eapply eventually_weaken.
  { intros l. apply (finishes_same m1 m); [done|cbn; by rewrite app_empty_r|done]. }
  change (ma_system m) with (ma_system m1) in *. rewrite <- Hw2.
  apply unless_stopped_loop; [by rewrite Hw2|by rewrite Hw2|]. intros Ho1. rewrite Hw2.
  cbn [plain] in Hpl. destruct (sys (ma_system m1) rq) as [r x] eqn:Hsys. destruct Hpl as [Hev Hpl].
  set (m2 := arrive (Stops (Left (rq, r) k))
    (mkMachine (ma_place m1) None (ma_calls m1 ++ [(rq, r)]) (ma_output m1) x (ma_options m1))).
  assert (lone m2) as Hl2 by (apply Forall_app; split; [apply Hml|by apply Forall_singleton]).
  eapply iteration with (e := WSyscallStop) (m := m2); [by rewrite Hw2|done|..|done|].
  { rewrite Hw2. unfold restart. cbn [ma_place m1 reported run_on advance arrive print].
    unfold make_call. by rewrite Hsys, Hev. }
  { cbn. by rewrite Hopt. }
  intros w3 Hw3. assert (quiet (reported m2)) as Hq3 by done.
  pose proof (exit_stop t d1 (hear before o) w3 (rq, r) k) as He. rewrite Hw3 in He.
  specialize (He Hq3 eq_refl Ho1). revert He.
  destruct (on_exit _ _ _ _) as [t' ev]. cbn zeta. set (o' := hear ev (hear before o)).
  intros (w4 & Hw4 & ->). rewrite Hw3 in Hw4.
  assert (eventually (finishes (view w4) (unless_stopped (ma_system (view w4)) o' (monitor (k r) t' o' x)))
    (λ n, loop K n root (paused t' d1 phase_entry (pending o') o' w4))) as He.
  { apply unless_stopped_loop; [by rewrite Hw4..|]. intros Ho2.
    assert (x = ma_system (view w4)) as -> by by rewrite Hw4.
    apply Hrest; rewrite ?Hw4; done. }
  revert He. rewrite Hw4. cbn [ma_system reported m2 arrive].
  destruct (unless_stopped _ _ _) as [e o2]. apply eventually_weaken. intros l.
  by apply (finishes_call m1 (rq, r) x (Left (rq, r) k) None).
Qed.

Lemma run_loop p t d sig o w m :
  quiet (view w) → quiet m →
  restart sys (view w) sig = (Ok (), run_on p m) → stop_requested o.1 = false →
  ma_options m = trace_options → plain sys p (ma_system m) →
  eventually (finishes m (monitor p t o (ma_system m)))
    (λ n, loop K n root (paused t d phase_entry sig o w)).
Proof.
  revert t d sig o w m.
  induction p as [code|code|s core|text p IH|rq k IH|s k IH]; intros t d sig o w m Hq Hm Hr Ho Hopt Hpl.
  1,2: by apply leaving_loop.
  - by apply dying_loop.
  - cbn [monitor]. rewrite run_on_say in Hr.
    specialize (IH t d sig o w (print text m) Hq Hm Hr Ho Hopt Hpl). revert IH.
    cbn [ma_system print]. destruct (monitor p t o (ma_system m)) as [e o'].
    apply eventually_weaken. apply finishes_output.
  - apply call_loop; [|done..]. clear t d sig o w m Hq Hm Hr Ho Hopt Hpl.
    intros r t d o w Hq Hp Ho Hopt Hpl. apply IH; [done..| |done|done|done].
    unfold restart. by rewrite Hp.
  - cbn [monitor]. destruct Hpl as (Hs & Hk & Hpl), Hm as [Hmr Hml].
    eapply iteration with (e := WSignalStop s) (m := run_on (Signal s k) m);
      [done|done|exact Hr|done|done|].
    intros w1 Hw1. set (m1 := reported _) in Hw1. rewrite signal_stop by done.
    eapply eventually_weaken.
    { intros l. apply (finishes_same m1 m); [done|cbn; by rewrite app_empty_r|done]. }
    change (ma_system m) with (ma_system m1) in *.
    apply IH; [by rewrite Hw1|done| |done|done|apply Hpl]. rewrite Hw1.
    unfold restart. cbn [ma_place m1 reported run_on advance arrive print].
    destruct (dropped s).
    + change (0 =? SIGKILL) with false. by destruct (Z.eqb_spec 0 s); [lia|].
    + rewrite (proj2 (Z.eqb_neq s SIGKILL)) by done. by rewrite Z.eqb_refl.
Qed.

(** *** The run of the tracer *)

Lemma start_paused (r : R) w :
  let o := hear (Some (TraceStarted root empty_context)) (r, 0) in
  start root r w = paused FdTable.empty new_decoder phase_entry (pending o) o w.
Proof. unfold start, paused, pending, TaskRegistry.insert_root, TaskRegistry.emplace. by rewrite lookup_empty. Qed.

(** The process when the tracer has set its options. *)
Definition held (p : prog Z) (x : X) : Machine X := mkMachine (Loaded p) None [] "" x trace_options.

Lemma supervise_loop p (r : R) x w :
  view w = held p x → plain sys p x →
  eventually (λ l, l.1 = exit_code_of (ex_status (supervise p r x).1) ∧
      st_reporter l.2 = (supervise p r x).2.1 ∧ view (st_world l.2) = gone (supervise p r x).1)
    (λ n, loop K n root (start root r w)).
Proof.
  intros Hw Hp. rewrite start_paused. unfold supervise. set (o := hear _ _).
  assert (quiet (held p x)) as Hq by (split; [done|apply Forall_nil_2]).
  pose proof (unless_stopped_loop FdTable.empty new_decoder phase_entry o w
    (monitor p FdTable.empty o x)) as Hl. revert Hl. rewrite Hw. cbn [held ma_system].
  destruct (unless_stopped _ _ _) as [e o']. intros Hl.
  eapply eventually_weaken; [|apply Hl; [done|done|]]; [by intros l (? & ? & ->)|].
  intros Ho. apply (run_loop p FdTable.empty new_decoder 0 o w (held p x)); try done; by rewrite Hw.
Qed.

Lemma close_session_gone w e : view w = gone e → view (close_session K w root) = gone e.
Proof.
  intros Hw. unfold close_session. destruct (root <? 0); [done|].
  assert (∀ v sig, view v = gone e → view (k_kill K v root sig).2 = gone e) as Hkill.
  { intros v sig Hv. rewrite <- Hv. apply (process_gone v); by rewrite Hv. }
  pose proof (Hkill w 0 Hw) as H1. destruct (k_kill K w root 0) as [[] w1]; [|done].
  pose proof (Hkill w1 SIGKILL H1) as H2. destruct (k_kill K w1 root SIGKILL) as [b w2].
  cbn [snd] in H2. rewrite <- H2. apply (process_gone w2); by rewrite H2.
Qed.

Lemma run_supervises p (r : R) x w w' :
  k_fork K w = (Ok root, w') → view w' = load p x → plain sys p x →
  eventually (λ '(code, r', v),
      let '(e, o) := supervise p r x in code = exit_code_of (ex_status e) ∧ r' = o.1 ∧ view v = gone e)
    (λ n, Tracer.run K n r w).
Proof.
  intros Hf Hw Hp. unfold Tracer.run. rewrite Hf.
  destruct (process_waits w' root 0 (WSignalStop SIGTRAP)) as (w1 & Hk1 & Hv1);
    [by rewrite Hw; apply Forall_nil_2|by rewrite Hw|auto|auto|]. rewrite Hw in Hv1.
  eapply eventually_bind with
    (P := λ res, res = (Ok (root, encode_status (WSignalStop SIGTRAP)), w1)).
  { eapply eventually_step; [intros n; cbn [wait_for]; rewrite Hk1; reflexivity|]. by apply eventually_ret. }
  intros _ ->.
  destruct (process_options w1 trace_options) as (w2 & Hk2 & Hv2);
    [by rewrite Hv1; split; [|apply Forall_nil_2]|by rewrite Hv1|]. rewrite Hv1 in Hv2.
  unfold set_options. rewrite Hk2. cbn [from_errno].
  eapply eventually_bind; [exact (supervise_loop p r x w2 Hv2 Hp)|]. intros [code s] (Hc & Hr & Hs).
  cbn [fst snd] in *. apply eventually_ret.
  destruct (supervise p r x) as [e o]. cbn [fst snd] in *. split_and!; [done|done|].
  by apply close_session_gone.
Qed.


(** ** What tracing changes *)

(** The program to which the signals that are dropped are never delivered. *)
Fixpoint undelivered (p : prog Z) : prog Z :=
  match p with
  | Ret code => Ret code
  | Exit code => Exit code
  | Die s core => Die s core
  | Say text p => Say text (undelivered p)
  | Call rq k => Call rq (λ r, undelivered (k r))
  | Signal s k => if dropped s then undelivered (k false) else Signal s (λ b, undelivered (k b))
  end.

(** No such signal reaches the program. *)
Fixpoint undisturbed (p : prog Z) (x : X) : Prop :=
  match p with
  | Ret _ | Exit _ | Die _ _ => True
  | Say _ p => undisturbed p x
  | Call rq k => let '(r, x) := sys x rq in undisturbed (k r) x
  | Signal s k => dropped s = false ∧ undisturbed (k true) x
  end.

Lemma undelivered_same p x : undisturbed p x → execute sys (undelivered p) x = execute sys p x.
Proof.
  revert x. induction p as [code|code|s core|text p IH|rq k IH|s k IH]; intros x;
    cbn [undisturbed undelivered execute]; try done.
  - intros Hp. by rewrite IH.
  - destruct (sys x rq) as [r x']. intros Hp. by rewrite IH.
  - intros [-> Hp]. cbn [execute]. by apply IH.
Qed.

(** The calls up to the event at which the reporter asks to stop: an event at
    the entry of a call prevents it, one at its exit comes after it. *)
Fixpoint heard_calls (t : FdTable.t) o (calls : list made) : list made :=
  if stop_requested o.1 then []
  else
    match calls with
    | [] => []
    | c :: calls =>
        let '(d, before) := on_entry (rq_tracee c.1) root (entry_registers c.1) new_decoder in
        let o := hear before o in
        if stop_requested o.1 then []
        else
          let '(t, ev) := on_exit root (exit_registers c) d t in
          c :: heard_calls t (hear ev o) calls
    end.

(** A run cut short: the calls of a first part, and what it printed. *)
Record cut_short (m : Machine X) (e : execution X) : Prop := {
  cut_calls : ma_calls m `prefix_of` ex_calls e;
  cut_output : ∃ rest, ex_output e = ma_output m +:+ rest;
}.

Lemma hear_sticky `{!StickyReporter R} ev o :
  stop_requested o.1 = true → stop_requested (hear ev o).1 = true.
Proof. intros Ho. destruct ev; [|done]. cbn. by apply stop_requested_sticky. Qed.

Lemma hear_end_sticky `{!StickyReporter R} w o :
  stop_requested o.1 = true → stop_requested (hear_end w o).1 = true.
Proof. intros Ho. unfold hear_end. destruct (end_of w). by do 2 apply hear_sticky. Qed.

(** The monitored program is the program, or a cut of it that the reporter
    asked for. *)
Definition same_or_cut (e : execution X) (res : execution X * Listener) : Prop :=
  res.1 = e ∨
  (ex_status res.1 = WKilled SIGKILL false ∧ stop_requested res.2.1 = true ∧
   cut_short (gone res.1) e).

Lemma unless_stopped_cut x o e res :
  (stop_requested o.1 = false → same_or_cut e res) → same_or_cut e (unless_stopped x o res).
Proof.
  intros Hgo. unfold unless_stopped. destruct (stop_requested o.1) eqn:Ho; [|by apply Hgo].
  right. split_and!; [done|done|]. split; [apply prefix_nil|]. by eexists.
Qed.

Lemma monitor_cut p t o x : same_or_cut (execute sys (undelivered p) x) (monitor p t o x).
Proof.
  revert t o x. induction p as [code|code|s core|text p IH|rq k IH|s k IH]; intros t o x;
    cbn [monitor undelivered execute].
  1,2,3: by left.
  - specialize (IH t o x). destruct (monitor p t o x) as [e o'].
    destruct IH as [<-|(Hs & Ho & [Hc [rest Hu]])]; [by left|right]. split_and!; [done..|].
    split; [done|]. exists rest. cbn in *. by rewrite Hu, app_assoc_str.
  - destruct (on_entry _ _ _ _) as [d before]. apply unless_stopped_cut. intros _.
    destruct (sys x rq) as [r x']. destruct (on_exit _ _ _ _) as [t' ev].
    set (o' := hear ev _).
    pose proof (unless_stopped_cut x' o' _ _ (λ _, IH r t' o' x')) as Hcut. revert Hcut.
    destruct (unless_stopped _ _ _) as [e o2].
    intros [<-|(Hs & Ho & [Hc Hu])]; [by left|right]. split_and!; [done..|].
    split; [by apply prefix_cons|done].
  - destruct (dropped s); cbn [negb execute]; apply IH.
Qed.

Lemma supervise_cut `{!StickyReporter R} p (r : R) x :
  same_or_cut (execute sys (undelivered p) x) (supervise p r x).
Proof.
  unfold supervise. set (o := hear _ _).
  pose proof (unless_stopped_cut x o _ _ (λ _, monitor_cut p FdTable.empty o x)) as Hcut.
  revert Hcut. destruct (unless_stopped _ _ _) as [e o'].
  intros [<-|(Hs & Ho & Hc)]; [by left|right]. split_and!; [done|by apply hear_end_sticky|done].
Qed.

Lemma monitor_calls p t o x :
  stop_requested o.1 = false →
  ex_calls (monitor p t o x).1 = heard_calls t o (ex_calls (execute sys (undelivered p) x)).
Proof.
  revert t o x. induction p as [code|code|s core|text p IH|rq k IH|s k IH]; intros t o x Ho;
    cbn [monitor undelivered execute].
  1,2,3: cbn; by rewrite Ho.
  - specialize (IH t o x Ho). by destruct (monitor p t o x).
  - destruct (sys x rq) as [r x'] eqn:Hs. cbn [ex_calls with_call heard_calls fst]. rewrite Ho.
    destruct (on_entry _ _ _ _) as [d before]. unfold unless_stopped.
    destruct (stop_requested (hear before o).1); [done|].
    destruct (on_exit _ _ _ _) as [t' ev].
    destruct (stop_requested (hear ev (hear before o)).1) eqn:Ho2.
    + cbn. destruct (ex_calls (execute sys (undelivered (k r)) x')); cbn [heard_calls]; by rewrite Ho2.
    + specialize (IH r t' (hear ev (hear before o)) x' Ho2). revert IH.
      destruct (monitor _ _ _ _) as [e o']. cbn. by intros ->.
  - destruct (dropped s); cbn [negb execute]; by apply IH.
Qed.

Definition started (r : R) : Listener := hear (Some (TraceStarted root empty_context)) (r, 0).

Lemma supervise_calls p (r : R) x :
  ex_calls (supervise p r x).1 =
  heard_calls FdTable.empty (started r) (ex_calls (execute sys (undelivered p) x)).
Proof.
  unfold supervise. fold (started r). unfold unless_stopped.
  destruct (stop_requested (started r).1) eqn:Ho.
  - destruct (ex_calls (execute sys (undelivered p) x)); cbn [heard_calls]; by rewrite Ho.
  - pose proof (monitor_calls p FdTable.empty (started r) x Ho) as Hm. revert Hm.
    by destruct (monitor _ _ _ _).
Qed.


(** *** What a request to stop prevents *)

Lemma entry_event_exec tr regs d d' e :
  on_entry tr root regs d = (d', Some e) → frame_number (decode regs) = SYS_execve.
Proof.
  unfold on_entry, entry_rest. cbn zeta. intros Hev.
  repeat match type of Hev with context [if ?b then _ else _] => destruct b eqn:?; try discriminate Hev end.
  by apply Z.eqb_eq.
Qed.

(** The reporter asked to stop at the exit of [c]. *)
Definition asked_after (c : made) : Prop :=
  ∃ t o e,
    (on_exit root (exit_registers c)
       (on_entry (rq_tracee c.1) root (entry_registers c.1) new_decoder).1 t).2 = Some e ∧
    stop_requested o.1 = false ∧ stop_requested (hear (Some e) o).1 = true.

(** Where the calls end before the program does, either the next call is an
    execve, which is prevented, or the reporter asked to stop at the exit of the
    last call, which was made. *)
Lemma only_execve_prevented t o calls :
  stop_requested o.1 = false → heard_calls t o calls ≠ calls →
  (∃ c rest, calls = heard_calls t o calls ++ c :: rest ∧
     frame_number (decode (entry_registers c.1)) = SYS_execve) ∨
  (∃ l c, heard_calls t o calls = l ++ [c] ∧ asked_after c).
Proof.
  revert t o. induction calls as [|c calls IH]; intros t o Ho; cbn [heard_calls]; rewrite Ho; [done|].
  destruct (on_entry _ _ _ _) as [d before] eqn:He.
  destruct (stop_requested (hear before o).1) eqn:Ho1.
  { intros _. left. exists c, calls. split; [done|].
    destruct before; [by eapply entry_event_exec|]. cbn [hear] in Ho1; congruence. }
  destruct (on_exit _ _ _ _) as [t' ev] eqn:Hx.
  destruct (stop_requested (hear ev (hear before o)).1) eqn:Ho2.
  - intros _. right. exists [], c. split.
    { destruct calls; cbn [heard_calls]; by rewrite Ho2. }
    destruct ev as [e|]; [|cbn [hear] in Ho2; congruence]. exists t, (hear before o), e.
    split_and!; [by rewrite He; cbn [fst]; rewrite Hx|done|done].
  - intros Hne. destruct (IH t' (hear ev (hear before o)) Ho2) as [(c' & rest & Hc & Hn)|(l & c' & Hl & Ha)].
    + intros Heq. apply Hne. by rewrite Heq.
    + left. exists c', rest. split; [|done]. by rewrite Hc at 1.
    + right. exists (c :: l), c'. split; [by rewrite Hl|done].
Qed.

End Monitor.
