(* ===== verification/Archive.v ===== *)
(** * Package archives (include/execell/package/archive.hpp, src/package/archive.cpp)

    The adapter around libarchive: which entry names and link targets it lets
    through, the limits on an archive, and the reading of one entry.
    libarchive itself is a parameter, the record [Libarchive]: the functions
    the adapter calls on a reader of any type. *)

From S2P Require Import Prelude CxxString FsPath Owner.

(** ** Data *)

Inductive Kind := regular | symlink | hardlink.

#[export] Instance Kind_eq_dec : EqDecision Kind.
Proof. solve_decision. Defined.

Record Entry := mkEntry {
  e_path : string;
  e_kind : Kind;
  e_link_target : string;
  e_size : Z;
  e_mode : Z;
}.

Record Limits := mkLimits {
  max_archive_bytes : Z;
  max_unpacked_bytes : Z;
  max_entries : Z;
  max_path_bytes : Z;
}.

(** [Limits{}] *)
Definition default_limits : Limits := mkLimits (2 ^ 32) (2 ^ 30) 100000 4096.

(** The members of an [archive_entry] the adapter asks for. *)
Record RawEntry := mkRaw {
  raw_pathname : option string;
  raw_size_is_set : bool;
  raw_size : Z;
  raw_mode : Z;
  raw_filetype : Z;
  raw_symlink : option string;
  raw_hardlink : option string;
}.

Definition AE_IFREG : Z := 32768.
Definition AE_IFLNK : Z := 40960.
Definition AE_IFDIR : Z := 16384.

Record Libarchive (A : Type) := mkLibarchive {
  file_size : expected Z string;
  read_new : option A;
  support_filter_all : A → bool * A;
  support_format_all : A → bool * A;
  open_filename : A → bool * A;
  (** the entry, when the call returns [ARCHIVE_OK] *)
  read_next_header : A → option RawEntry * A;
  (** the count [archive_read_data] returns and the bytes it stored *)
  read_data : A → Z → (Z * string) * A;
  archive_errno : A → Z;
  archive_error_string : A → string;
}.
Arguments file_size {A}.
Arguments read_new {A}.
Arguments support_filter_all {A}.
Arguments support_format_all {A}.
Arguments open_filename {A}.
Arguments read_next_header {A}.
Arguments read_data {A}.
Arguments archive_errno {A}.
Arguments archive_error_string {A}.

(** ** The owner of a reader

    The handle below is the [Libarchive] reader's; the functions that follow
    work on the reader itself, and the [Reader] that owns it frees it when they
    return. *)

Module Reader.

(** [value]: null after a move. *)
Definition t : Type := Pointer.t.

Definition move_construct : t → t * t := Pointer.move_construct.

Section Free.
Context {W : Type} (archive_read_free : W → Z → W).

(** [~Reader] *)
Definition destroy : W → t → W := Pointer.destroy archive_read_free.

Definition move_assign : W → t → t → W * t * t := Pointer.move_assign archive_read_free.

End Free.
End Reader.

(** ** Names *)

(** [while (path.starts_with("./")) path.erase(0, 2);] *)
Fixpoint strip_dot_slash (path : string) : string :=
  match path with
  | String a (String b rest) =>
      if bool_decide (a = "."%char ∧ b = "/"%char) then strip_dot_slash rest else path
  | _ => path
  end.

(** [component.empty() || component == "." || component == ".."] *)
Definition unsafe_component (c : string) : bool :=
  bool_decide (c = "") || bool_decide (c = ".") || bool_decide (c = "..").

(** The tests on the whole string that both checks begin with. *)
Definition unsafe_text (s : string) (limit : Z) : bool :=
  bool_decide (s = "") || (limit <? size s) || starts_with s "/" || contains_char s nul.

(** [safe_path]; the loop cannot run out of the fuel it is given
    ([component_loop_spec]). *)
Definition safe_path (raw : option string) (limit : Z) : expected string string :=
  match raw with
  | None => Err "archive entry has no path"
  | Some raw =>
      let path := strip_dot_slash (from_c_str raw) in
      if unsafe_text path limit then Err "unsafe archive path"
      else
        match component_loop (S (str_length path)) unsafe_component slash path 0 with
        | Some true => Err "unsafe archive path"
        | _ => Ok path
        end
  end.

(** [safe_link] *)
Definition safe_link (raw : option string) (limit : Z) : expected string string :=
  match raw with
  | None => Err "archive link has no target"
  | Some raw =>
      let target := from_c_str raw in
      if unsafe_text target limit then Err "unsafe archive link"
      else
        match component_loop (S (str_length target)) (λ c, bool_decide (c = "..")) slash target 0 with
        | Some true => Err "unsafe archive link"
        | _ => Ok target
        end
  end.

(** [validate_path], [validate_link_target] *)
Definition validate_path (value : string) (max_bytes : Z) : expected string string :=
  safe_path (Some value) max_bytes.

Definition validate_link_target (value : string) (max_bytes : Z) : expected string string :=
  safe_link (Some value) max_bytes.

(** ** Entries *)

Definition entry_of (raw : RawEntry) (limits : Limits) : expected Entry string :=
  try! path := safe_path (raw_pathname raw) (max_path_bytes limits) in
  let size :=
    if raw_size_is_set raw && (0 <=? raw_size raw) then u64 (raw_size raw) else 0 in
  let mode := u32 (raw_mode raw) in
  let finish entry :=
    if negb (Z.land (e_mode entry) 3072 =? 0)
    then Err "setuid or setgid archive entry rejected" else Ok entry in
  let type := raw_filetype raw in
  if type =? AE_IFLNK then
    try! link := safe_link (raw_symlink raw) (max_path_bytes limits) in
    finish (mkEntry path symlink link size mode)
  else
    match raw_hardlink raw with
    | Some hardlink_target =>
        try! link := safe_link (Some hardlink_target) (max_path_bytes limits) in
        finish (mkEntry path hardlink link size mode)
    | None =>
        if type =? AE_IFREG then finish (mkEntry path regular "" size mode)
        else if type =? AE_IFDIR then finish (mkEntry path regular "" 0 mode)
        else Err "unsupported archive entry type"
    end.

Section Reading.
Context {A : Type} (L : Libarchive A).

(** [open] *)
Definition open (limits : Limits) : expected A string :=
  match file_size L with
  | Err message => Err ("archive stat failed: " +:+ message)
  | Ok bytes =>
      if max_archive_bytes limits <? bytes
      then Err "archive exceeds compressed-size limit"
      else
        match read_new L with
        | None => Err "archive reader allocation failed"
        | Some reader =>
            let '(filters, reader) := support_filter_all L reader in
            if negb filters then Err "archive format setup failed"
            else
              let '(formats, reader) := support_format_all L reader in
              if negb formats then Err "archive format setup failed"
              else
                let '(opened, reader) := open_filename L reader in
                if negb opened
                then Err ("archive open failed: " +:+ archive_error_string L reader)
                else Ok reader
        end
  end.

(** [discard_entry]: whether the entry's data could be skipped within the
    limit, the total and the reader after it; [None] without fuel. *)
Fixpoint discard_entry (fuel : nat) (reader : A) (total limit : Z) : option (bool * Z * A) :=
  match fuel with
  | O => None
  | S fuel =>
      let '((count, _), reader) := read_data L reader 65536 in
      if count =? 0 then Some (true, total, reader)
      else if count <? 0 then Some (false, total, reader)
      else
        let bytes := u64 count in
        if limit - Z.min total limit <? bytes then Some (false, total, reader)
        else discard_entry fuel reader (u64 (total + bytes)) limit
  end.

(** The loop of [list]. *)
Fixpoint list_loop (fuel : nat) (limits : Limits) (reader : A) (result : list Entry)
    (unpacked : Z) : option (expected (list Entry) string) :=
  match fuel with
  | O => None
  | S fuel =>
      match read_next_header L reader with
      | (None, reader) =>
          Some (if negb (archive_errno L reader =? 0)
                then Err ("archive iteration failed: " +:+ archive_error_string L reader)
                else Ok result)
      | (Some raw, reader) =>
          if max_entries limits <=? Z.of_nat (length result)
          then Some (Err "archive entry-count limit exceeded")
          else
            match entry_of raw limits with
            | Err e => Some (Err e)
            | Ok entry =>
                if max_unpacked_bytes limits - Z.min unpacked (max_unpacked_bytes limits)
                   <? e_size entry
                then Some (Err "archive unpacked-size limit exceeded")
                else
                  '(discarded, unpacked, reader) ←
                    discard_entry fuel reader (u64 (unpacked + e_size entry))
                      (max_unpacked_bytes limits);
                  if negb discarded then Some (Err "archive unpacked-size limit exceeded")
                  else list_loop fuel limits reader (result ++ [entry]) unpacked
            end
      end
  end.

(** [list] *)
Definition list_archive (fuel : nat) (limits : Limits) : option (expected (list Entry) string) :=
  match open limits with
  | Err e => Some (Err e)
  | Ok reader => list_loop fuel limits reader [] 0
  end.

(** The loop of [read] that fills the result: the bytes from [offset] on. *)
Fixpoint fill (fuel : nat) (reader : A) (wanted offset : Z) : option (expected string string) :=
  match fuel with
  | O => None
  | S fuel =>
      if offset <? wanted then
        let '((count, bytes), reader) := read_data L reader (wanted - offset) in
        if count <=? 0 then Some (Err "archive entry read failed")
        else
          rest ← fill fuel reader wanted (u64 (offset + count));
          Some (try! rest := rest in Ok (bytes +:+ rest))
      else Some (Ok "")
  end.

(** The loop of [read]. *)
Fixpoint read_loop (fuel : nat) (limits : Limits) (reader : A) (safe : string) (max_bytes : Z)
    : option (expected string string) :=
  match fuel with
  | O => None
  | S fuel =>
      match read_next_header L reader with
      | (None, _) => Some (Err ("archive entry not found: " +:+ safe))
      | (Some raw, reader) =>
          match entry_of raw limits with
          | Err e => Some (Err e)
          | Ok entry =>
              if negb (bool_decide (e_path entry = safe)) then
                '(discarded, _, reader) ←
                  discard_entry fuel reader 0 (max_unpacked_bytes limits);
                if negb discarded then Some (Err "archive entry read failed")
                else read_loop fuel limits reader safe max_bytes
              else if negb (bool_decide (e_kind entry = regular)) || (max_bytes <? e_size entry)
              then Some (Err "archive entry is not bounded regular data")
              else fill fuel reader (e_size entry) 0
          end
      end
  end.

(** [read] *)
Definition read (fuel : nat) (limits : Limits) (wanted : string) (max_bytes : Z)
    : option (expected string string) :=
  match safe_path (Some wanted) (max_path_bytes limits) with
  | Err e => Some (Err e)
  | Ok safe =>
      match open limits with
      | Err e => Some (Err e)
      | Ok reader => read_loop fuel limits reader safe max_bytes
      end
  end.

End Reading.
