(* ===== verification/ArchiveSpec.v ===== *)
(** * Properties of the archive adapter

    Names are confined to the directory they are unpacked under, accepted
    archives respect the limits, the loops terminate, and an entry of an
    archive held in memory reads back as its content. *)

From S2P Require Import Prelude CxxString FsPath Archive.

(** ** Names *)

Lemma unsafe_component_name c : unsafe_component c = false ↔ is_name c.
Proof.
  unfold unsafe_component, is_name. rewrite !orb_false_iff, !bool_decide_eq_false. tauto.
Qed.

Lemma existsb_false {A} (f : A → bool) l : existsb f l = false ↔ Forall (λ x, f x = false) l.
Proof.
  induction l as [|x l IH]; simpl; [by split|]. by rewrite orb_false_iff, Forall_cons, IH.
Qed.

Lemma plain_components p : existsb unsafe_component (split_on slash p) = false ↔ plain_relative p.
Proof.
  rewrite existsb_false. unfold plain_relative. rewrite !Forall_forall.
  split; intros H x Hx; by apply unsafe_component_name, H.
Qed.

Lemma strip_no_nul s : str_elem nul s = false → str_elem nul (strip_dot_slash s) = false.
Proof.
  revert s. fix IH 1. intros [|a [|b s]] Hs; [done|done|]. cbn [strip_dot_slash].
  case_bool_decide; [|done]. apply IH. cbn [str_elem] in Hs.
  apply orb_false_iff in Hs as [_ Hs]. apply orb_false_iff in Hs as [_ Hs]. done.
Qed.

Lemma plain_nonempty p : plain_relative p → p ≠ "".
Proof. unfold plain_relative. intros H ->. inversion H as [|? ? [Hn _]]. done. Qed.

Lemma safe_path_iff raw limit p :
  safe_path raw limit = Ok p ↔
  ∃ r, raw = Some r ∧ p = strip_dot_slash (from_c_str r) ∧ size p ≤ limit ∧ plain_relative p.
Proof.
  unfold safe_path. destruct raw as [r|]; [|split; [done|by intros (? & ? & _)]].
  set (q := strip_dot_slash (from_c_str r)). rewrite component_loop_spec.
  assert (str_elem nul q = false) as Hnul by apply strip_no_nul, from_c_str_no_nul.
  unfold unsafe_text, contains_char. rewrite Hnul, orb_false_r.
  destruct (existsb unsafe_component (split_on slash q)) eqn:E.
  - apply not_false_iff_true in E. rewrite plain_components in E.
    split; [by case_match|]. by intros (? & [= <-] & -> & _ & Hp).
  - apply plain_components in E as Hp.
    pose proof (plain_nonempty _ Hp) as Hne. pose proof (plain_relative_not_absolute _ Hp) as Ha.
    unfold is_absolute in Ha. rewrite Ha, bool_decide_eq_false_2, orb_false_r by done. simpl.
    destruct (Z.ltb_spec limit (size q)).
    + split; [done|]. intros (? & [= <-] & -> & Hl & _). fold q in Hl. lia.
    + split; [|by intros (? & [= <-] & -> & _)]. intros [= <-]. by exists r.
Qed.

Lemma safe_path_plain raw limit p : safe_path raw limit = Ok p → size p ≤ limit ∧ plain_relative p.
Proof. rewrite safe_path_iff. by intros (? & _ & _ & ? & ?). Qed.

(** C10: [safe_path] accepts a name exactly when, after leading [./] are
    dropped, it is no longer than the limit and its components are all names
    (none empty, [.] or [..]); joined to any absolute directory in normal form
    the accepted name stays below it, component for component. *)
Theorem safe_path_confines raw limit p :
  (safe_path raw limit = Ok p ↔
   ∃ r, raw = Some r ∧ p = strip_dot_slash (from_c_str r) ∧ size p ≤ limit ∧ plain_relative p) ∧
  (safe_path raw limit = Ok p →
   ∀ names, names ≠ [] → Forall clean_name names →
   lexically_normal (path_append ("/" +:+ join "/" names) p)
   = "/" +:+ join "/" names +:+ "/" +:+ p).
Proof.
  split; [apply safe_path_iff|]. intros [_ Hp]%safe_path_plain names Hne Hn.
  by apply normal_append_plain.
Qed.

Lemma safe_path_confines_witness :
  lexically_normal (path_append "/srv/root" "usr/bin/x") = "/srv/root/usr/bin/x".
Proof.
  apply (proj2 (safe_path_confines (Some "./usr/bin/x") 4096 "usr/bin/x") eq_refl ["srv"; "root"]);
    [done|]. repeat constructor; vm_compute; done.
Defined.

(** *** Link targets *)

(** No component leads upwards. *)
Definition descending (t : string) : Prop := Forall (λ c, c ≠ "..") (split_on slash t).

Lemma safe_link_iff raw limit t :
  safe_link raw limit = Ok t ↔
  ∃ r, raw = Some r ∧ t = from_c_str r ∧ t ≠ "" ∧ size t ≤ limit ∧
       is_absolute t = false ∧ descending t.
Proof.
  unfold safe_link. destruct raw as [r|]; [|split; [done|by intros (? & ? & _)]].
  set (q := from_c_str r). rewrite component_loop_spec.
  assert (str_elem nul q = false) as Hnul by apply from_c_str_no_nul.
  unfold unsafe_text, contains_char. rewrite Hnul, orb_false_r.
  assert (existsb (λ c, bool_decide (c = "..")) (split_on slash q) = false ↔ descending q) as Hd.
  { rewrite existsb_false. unfold descending. rewrite !Forall_forall.
    by setoid_rewrite bool_decide_eq_false. }
  destruct (existsb _ (split_on slash q)) eqn:E.
  - split; [by case_match|]. intros (? & [= <-] & -> & _ & _ & _ & H).
    by apply Hd in H.
  - assert (descending q) as Hq by by apply Hd. clear Hd.
    destruct (_ || _ || _) eqn:E2.
    + split; [done|]. intros (? & [= <-] & -> & Hne & Hl & Ha & _). fold q in Hne, Hl, Ha.
      unfold is_absolute in Ha. rewrite Ha, orb_false_r, orb_true_iff, bool_decide_eq_true in E2.
      rewrite Z.ltb_lt in E2. destruct E2; [done|lia].
    + rewrite !orb_false_iff, bool_decide_eq_false, Z.ltb_ge in E2. destruct E2 as [[??] ?].
      split; [|by intros (? & [= <-] & -> & _)]. intros [= <-]. by exists r.
Qed.

Lemma normal_stack_descending comps stack :
  Forall (λ c, c ≠ "..") comps → ∃ more, foldl (normal_step true) stack comps = more ++ stack.
Proof.
  intros H. revert stack. induction H as [|c cs Hc Hcs IH]; intros stack; [by exists []|].
  simpl. destruct (IH (normal_step true stack c)) as [more ->]. unfold normal_step.
  case_bool_decide; [by exists more|]. rewrite bool_decide_eq_false_2 by done.
  exists (more ++ [c]). by rewrite <- app_assoc.
Qed.

(** The components of the directory entry a path names, outermost first. *)
Definition normal_names (p : string) : list string :=
  reverse (normal_stack (is_absolute p) (split_on slash p)).

Lemma split_absolute names t :
  names ≠ [] → Forall clean_name names →
  split_on slash ("/" +:+ join "/" names +:+ "/" +:+ t) = "" :: names ++ split_on slash t.
Proof.
  intros Hne Hn. change ("/" +:+ ?x) with ("" +:+ str slash +:+ x) at 1.
  rewrite split_on_app by done. f_equal. change "/" with (str slash).
  induction Hn as [|w ws [_ Hw] Hws IH]; [done|]. destruct ws as [|x ws].
  - cbn [join]. by rewrite split_on_app.
  - change (join (str slash) (w :: x :: ws)) with (w +:+ str slash +:+ join (str slash) (x :: ws)).
    rewrite !app_assoc_str, split_on_app by done. by rewrite IH.
Qed.

(** [safe_link] accepts exactly the relative, non-empty targets without an
    upward component and within the limit; resolved against any absolute
    directory in normal form an accepted target names an entry of that
    directory's tree. *)
Theorem safe_link_confines raw limit t :
  (safe_link raw limit = Ok t ↔
   ∃ r, raw = Some r ∧ t = from_c_str r ∧ t ≠ "" ∧ size t ≤ limit ∧
        is_absolute t = false ∧ descending t) ∧
  (safe_link raw limit = Ok t →
   ∀ names, names ≠ [] → Forall clean_name names →
   ∃ more, normal_names (path_append ("/" +:+ join "/" names) t) = names ++ more).
Proof.
  split; [apply safe_link_iff|].
  rewrite safe_link_iff. intros (_ & _ & _ & _ & _ & Ha & Hd) names Hne Hn.
  unfold path_append. rewrite Ha, join_not_slash_end by done. unfold normal_names.
  rewrite !app_assoc_str. change (is_absolute ("/" +:+ _)) with true.
  rewrite split_absolute by done. unfold normal_stack. cbn [foldl].
  change (normal_step true [] "") with (@nil string). rewrite foldl_app.
  assert (Forall is_name names) as Hi by (eapply Forall_impl; [done|]; by intros w [? _]).
  rewrite (normal_stack_names names), app_nil_r by done.
  destruct (normal_stack_descending (split_on slash t) (reverse names) Hd) as [more ->].
  exists (reverse more). by rewrite reverse_app, reverse_involutive.
Qed.

Lemma safe_link_confines_witness :
  ∃ more, normal_names (path_append "/srv/root" "lib//./x") = ["srv"; "root"] ++ more.
Proof.
  apply (proj2 (safe_link_confines (Some "lib//./x") 4096 "lib//./x") eq_refl ["srv"; "root"]);
    [done|]. repeat constructor; vm_compute; done.
Defined.

(** The check for an embedded NUL never fires: the value is handed over as
    a C string, so that what follows a NUL is dropped and the rest accepted. *)
Theorem validate_path_drops_nul value rest limit :
  str_elem nul value = false →
  validate_path (value +:+ String nul rest) limit = validate_path value limit.
Proof.
  intros Hv. unfold validate_path, safe_path.
  replace (from_c_str (value +:+ String nul rest)) with (from_c_str value); [done|].
  induction value as [|c s IH]; [done|]. simpl in Hv |- *. apply orb_false_iff in Hv as [Hc Hs].
  apply bool_decide_eq_false in Hc. rewrite bool_decide_eq_false_2 by congruence.
  by rewrite IH.
Qed.

Lemma validate_path_drops_nul_witness :
  validate_path ("usr/x" +:+ String nul "/../..") 4096 = validate_path "usr/x" 4096.
Proof. apply validate_path_drops_nul. reflexivity. Defined.

(** ** Entries *)

(** What an accepted entry guarantees. *)
Record safe_entry (limits : Limits) (e : Entry) : Prop := {
  se_path : plain_relative (e_path e) ∧ size (e_path e) ≤ max_path_bytes limits;
  se_link : e_kind e = regular ∨
            (is_absolute (e_link_target e) = false ∧ descending (e_link_target e));
  se_mode : Z.land (e_mode e) 3072 = 0;
  se_size : 0 ≤ e_size e < 2 ^ 64;
}.

Lemma entry_of_safe raw limits e : entry_of raw limits = Ok e → safe_entry limits e.
Proof.
  unfold entry_of. destruct (safe_path _ _) as [p|] eqn:Hp; [|done].
  cbn [expected_bind e_mode].
  apply safe_path_plain in Hp as [Hl Hp].
  set (sz := if raw_size_is_set raw && (0 <=? raw_size raw) then _ else 0).
  assert (0 ≤ sz < 2 ^ 64) as Hsz by (unfold sz; case_match; [apply u64_range|lia]).
  intros He.
  assert (∀ k l (n : Z), 0 ≤ n < 2 ^ 64 →
    k = regular ∨ (is_absolute l = false ∧ descending l) →
    (if negb (Z.land (u32 (raw_mode raw)) 3072 =? 0)
     then Err "setuid or setgid archive entry rejected" else Ok (mkEntry p k l n (u32 (raw_mode raw))))
    = (Ok e : expected Entry string) → safe_entry limits e) as Hfin.
  { intros k l n Hn Hk. destruct (Z.eqb_spec (Z.land (u32 (raw_mode raw)) 3072) 0); simpl; [|done].
    by intros [= <-]. }
  assert (∀ r l, safe_link r (max_path_bytes limits) = Ok l →
    is_absolute l = false ∧ descending l) as Hlink.
  { intros r l. rewrite safe_link_iff. naive_solver. }
  destruct (_ =? AE_IFLNK).
  - destruct (safe_link _ _) as [l|] eqn:El; [|done]. eapply Hfin; [exact Hsz| |exact He].
    right. by eapply Hlink.
  - destruct (raw_hardlink raw) as [h|].
    + destruct (safe_link _ _) as [l|] eqn:El; [|done]. eapply Hfin; [exact Hsz| |exact He].
      right. by eapply Hlink.
    + destruct (_ =? AE_IFREG); [eapply Hfin; [exact Hsz|by left|exact He]|].
      destruct (_ =? AE_IFDIR); [|done]. eapply (Hfin regular "" 0); [lia|by left|exact He].
Qed.

(** ** Archives *)

Section Archives.
Context {A : Type} (L : Libarchive A).

Definition total_size (es : list Entry) : Z := foldr (λ e n, e_size e + n) 0 es.

Lemma total_size_snoc es e : total_size (es ++ [e]) = total_size es + e_size e.
Proof. induction es as [|x es IH]; simpl; [lia|]. unfold total_size in *. simpl. lia. Qed.

Lemma discard_entry_total fuel reader total limit b total' reader' :
  0 ≤ total ≤ limit → limit < 2 ^ 64 →
  discard_entry L fuel reader total limit = Some (b, total', reader') → total ≤ total' ≤ limit.
Proof.
  revert reader total. induction fuel as [|fuel IH]; intros reader total Ht Hl; [done|].
  cbn [discard_entry]. destruct (read_data L reader 65536) as [[count bytes] r].
  destruct (count =? 0); [intros; simplify_eq; lia|].
  destruct (Z.ltb_spec count 0); [intros; simplify_eq; lia|].
  pose proof (u64_range count) as Hu. rewrite Z.min_l by lia.
  destruct (Z.ltb_spec (limit - total) (u64 count)); [intros; simplify_eq; lia|].
  rewrite (u64_small (total + u64 count)) by lia. intros Hd.
  apply IH in Hd; lia.
Qed.

Lemma list_loop_limits fuel limits reader es unpacked es' :
  0 ≤ max_unpacked_bytes limits < 2 ^ 64 → 0 ≤ max_entries limits →
  Forall (safe_entry limits) es → total_size es ≤ unpacked →
  Z.of_nat (length es) ≤ max_entries limits → 0 ≤ unpacked ≤ max_unpacked_bytes limits →
  list_loop L fuel limits reader es unpacked = Some (Ok es') →
  Forall (safe_entry limits) es' ∧ total_size es' ≤ max_unpacked_bytes limits ∧
  Z.of_nat (length es') ≤ max_entries limits.
Proof.
  intros Hm He. revert reader es unpacked.
  induction fuel as [|fuel IH]; intros reader es unpacked Hs Ht Hn Hu; [done|]. cbn [list_loop].
  destruct (read_next_header L reader) as [[raw|] r].
  - destruct (Z.leb_spec (max_entries limits) (Z.of_nat (length es))); [done|].
    destruct (entry_of raw limits) as [e|] eqn:Ee; [|done].
    apply entry_of_safe in Ee as Hse. pose proof (se_size _ _ Hse) as Hsz.
    rewrite Z.min_l by lia. destruct (Z.ltb_spec (max_unpacked_bytes limits - unpacked) (e_size e));
      [done|].
    destruct (discard_entry L fuel r _ _) as [[[b total'] r']|] eqn:Ed; [|done].
    cbn [mbind option_bind]. rewrite (u64_small (unpacked + e_size e)) in Ed by lia.
    apply discard_entry_total in Ed; [|lia..]. destruct b; [|done]. simpl. intros Hl.
    eapply IH; [| | | |exact Hl].
    + apply Forall_app. split; [done|]. by apply Forall_singleton.
    + rewrite total_size_snoc. lia.
    + rewrite length_app. simpl. lia.
    + lia.
  - case_match; [done|]. intros; simplify_eq. split_and!; [done|lia|lia].
Qed.

(** C9: the entries of an archive that [list] accepts are all safe (confined
    names and links, no setuid or setgid bit), their number and the sum of
    their declared sizes are within the limits. *)
Theorem list_respects_limits fuel limits es :
  0 ≤ max_unpacked_bytes limits < 2 ^ 64 → 0 ≤ max_entries limits →
  list_archive L fuel limits = Some (Ok es) →
  Forall (safe_entry limits) es ∧ total_size es ≤ max_unpacked_bytes limits ∧
  Z.of_nat (length es) ≤ max_entries limits.
Proof.
  intros Hm He. unfold list_archive. destruct (open L limits) as [r|]; [|done].
  apply list_loop_limits; [done|done|constructor|done|done|lia].
Qed.

(** *** Termination *)

(** Each header and each non-empty read uses up some of the archive. *)
Class ArchiveProgress (μ : A → nat) := {
  header_progress r raw r' : read_next_header L r = (Some raw, r') → (μ r' < μ r)%nat;
  data_progress r n c b r' :
    read_data L r n = ((c, b), r') → (μ r' ≤ μ r)%nat ∧ (0 < c → (μ r' < μ r)%nat);
}.

Section Progress.
Context (μ : A → nat) `{!ArchiveProgress μ}.

Lemma discard_entry_returns fuel reader total limit :
  (μ reader < fuel)%nat →
  ∃ b total' reader', discard_entry L fuel reader total limit = Some (b, total', reader') ∧
    (μ reader' ≤ μ reader)%nat.
Proof.
  revert reader total. induction fuel as [|fuel IH]; intros reader total Hf; [lia|].
  cbn [discard_entry]. destruct (read_data L reader 65536) as [[c bytes] r] eqn:E.
  destruct (data_progress _ _ _ _ _ E) as [Hle Hlt].
  destruct (Z.eqb_spec c 0); [by do 3 eexists|].
  destruct (Z.ltb_spec c 0); [by do 3 eexists|].
  destruct (_ <? _); [by do 3 eexists|].
  assert (μ r < μ reader)%nat by (apply Hlt; lia).
  destruct (IH r (u64 (total + u64 c))) as (b & t' & r' & -> & Hr); [lia|].
  do 3 eexists. split; [done|lia].
Qed.

Lemma list_loop_returns fuel limits reader es unpacked :
  (μ reader < fuel)%nat → ∃ result, list_loop L fuel limits reader es unpacked = Some result.
Proof.
  revert reader es unpacked. induction fuel as [|fuel IH]; intros reader es unpacked Hf; [lia|].
  cbn [list_loop]. destruct (read_next_header L reader) as [[raw|] r] eqn:E; [|by eexists].
  apply header_progress in E. destruct (_ <=? _); [by eexists|].
  destruct (entry_of raw limits); [|by eexists]. destruct (_ <? _); [by eexists|].
  edestruct (discard_entry_returns fuel r) as (b & t' & r' & -> & Hr); [lia|].
  cbn [mbind option_bind]. destruct b; [|by eexists]. simpl. apply IH. lia.
Qed.

(** Listing an archive terminates, within as many steps as the reader
    makes progress. *)
Theorem list_terminates fuel limits :
  (∀ r, open L limits = Ok r → (μ r < fuel)%nat) →
  ∃ result, list_archive L fuel limits = Some result.
Proof.
  intros Hf. unfold list_archive. destruct (open L limits); [|by eexists].
  apply list_loop_returns. by apply Hf.
Qed.

End Progress.

End Archives.

(** ** An archive held in memory

    The [Libarchive] of a list of entries with their contents; the reader is
    the entries to come and what is left of the current content. *)
Definition MemReader : Type := list (RawEntry * string) * string.

Definition mem_archive (bytes : Z) (l : list (RawEntry * string)) : Libarchive MemReader := {|
  file_size := Ok bytes;
  read_new := Some (l, "");
  support_filter_all r := (true, r);
  support_format_all r := (true, r);
  open_filename r := (true, r);
  read_next_header r :=
    match r.1 with
    | [] => (None, r)
    | (raw, data) :: l => (Some raw, (l, data))
    end;
  read_data r n :=
    let chunk := str_take (Z.to_nat n) r.2 in
    ((size chunk, chunk), (r.1, str_drop (Z.to_nat n) r.2));
  archive_errno _ := 0;
  archive_error_string _ := "";
|}.

Definition mem_weight (l : list (RawEntry * string)) : nat :=
  foldr (λ x n, S (S (str_length x.2) + n)) O l.

Lemma discard_mem bytes all fuel l d total limit :
  (str_length d < fuel)%nat → 0 ≤ total → total + size d ≤ limit → limit < 2 ^ 64 →
  discard_entry (mem_archive bytes all) fuel (l, d) total limit
  = Some (true, total + size d, (l, "")).
Proof.
  revert d total. induction fuel as [|fuel IH]; intros d total Hf H0 Ht Hl; [lia|].
  cbn [discard_entry mem_archive read_data fst snd].
  pose proof (size_nonneg d) as Hd.
  set (n := Z.to_nat 65536). assert (0 < n)%nat as Hn by (unfold n; lia). clearbody n.
  destruct (decide (d = "")) as [->|Hne].
  { rewrite size_empty, Z.add_0_r. by destruct n. }
  assert (0 < str_length d)%nat as Hpos by (destruct d; [done|unfold str_length; simpl; lia]).
  assert (size (str_take n d) + size (str_drop n d) = size d) as Hsum
    by (rewrite <- size_app, str_take_drop; done).
  assert (0 < size (str_take n d)) as Hc by (unfold size; rewrite str_length_take; lia).
  pose proof (size_nonneg (str_drop n d)) as Hdr.
  destruct (Z.eqb_spec (size (str_take n d)) 0); [lia|].
  destruct (Z.ltb_spec (size (str_take n d)) 0); [lia|].
  rewrite (u64_small (size (str_take n d))), Z.min_l by lia.
  destruct (Z.ltb_spec (limit - total) (size (str_take n d))); [lia|].
  rewrite (u64_small (total + _)) by lia.
  rewrite IH; [f_equal; f_equal; f_equal; lia| |lia|lia|lia].
  rewrite str_length_drop. lia.
Qed.

Lemma fill_mem bytes all fuel l d :
  (1 < fuel)%nat → size d < 2 ^ 64 →
  fill (mem_archive bytes all) fuel (l, d) (size d) 0 = Some (Ok d).
Proof.
  intros Hf Hd. destruct fuel as [|[|fuel]]; [lia|lia|].
  pose proof (size_nonneg d). cbn [fill mem_archive read_data fst snd].
  destruct (Z.ltb_spec 0 (size d)).
  - rewrite Z.sub_0_r. assert (str_take (Z.to_nat (size d)) d = d) as ->
      by (apply str_take_length; unfold size; lia).
    destruct (Z.leb_spec (size d) 0); [lia|]. rewrite Z.add_0_l, u64_small by lia.
    rewrite Z.ltb_irrefl. cbn. by rewrite app_empty_r.
  - destruct d; [done|]. rewrite size_String in *. pose proof (size_nonneg d). lia.
Qed.

(** An entry that a search for [p] passes over. *)
Definition passed_over (limits : Limits) (p : string) (x : RawEntry * string) : Prop :=
  ∃ e, entry_of x.1 limits = Ok e ∧ e_path e ≠ p ∧ size x.2 ≤ max_unpacked_bytes limits.

(** Reading a wanted name from an archive returns the content of the first
    entry with that name, whatever harmless entries precede it, when the entry
    is a regular file whose declared size is its content's and within the
    caller's bound. *)
Theorem read_returns_content fuel limits bytes pre raw e d post wanted p max_bytes :
  bytes ≤ max_archive_bytes limits → max_unpacked_bytes limits < 2 ^ 64 →
  safe_path (Some wanted) (max_path_bytes limits) = Ok p →
  Forall (passed_over limits p) pre →
  entry_of raw limits = Ok e → e_path e = p → e_kind e = regular →
  e_size e = size d → size d ≤ max_bytes → (mem_weight pre + 2 < fuel)%nat →
  read (mem_archive bytes (pre ++ (raw, d) :: post)) fuel limits wanted max_bytes = Some (Ok d).
Proof.
  intros Hb Hm Hp Hpre He Hep Hk Hs Hmax Hf. unfold read, open. rewrite Hp. cbn [file_size mem_archive].
  destruct (Z.ltb_spec (max_archive_bytes limits) bytes); [lia|].
  cbn [read_new support_filter_all support_format_all open_filename mem_archive negb].
  assert (size d < 2 ^ 64) as Hd by (pose proof (se_size _ _ (entry_of_safe _ _ _ He)); lia).
  generalize (pre ++ (raw, d) :: post) at 1 as all. intros all. generalize "" as current.
  revert fuel Hf. induction Hpre as [|[raw' d'] pre (e' & He' & Hne & Hsz) Hpre IH];
    intros fuel Hf current.
  - destruct fuel as [|fuel]; [lia|]. cbn [app read_loop read_next_header mem_archive fst].
    rewrite He, Hep, bool_decide_eq_true_2, Hk, Hs by done. cbn [negb orb].
    rewrite bool_decide_eq_true_2 by done. destruct (Z.ltb_spec max_bytes (size d)); [lia|].
    cbn [negb orb]. apply fill_mem; [simpl in Hf; lia|done].
  - destruct fuel as [|fuel]; [lia|]. cbn [app read_loop read_next_header mem_archive fst].
    cbn [mem_weight foldr snd fst] in Hf, He', Hsz. rewrite He', bool_decide_eq_false_2 by done.
    cbn [negb]. rewrite discard_mem by (simpl in *; lia). cbn [mbind option_bind negb].
    apply IH. unfold mem_weight. lia.
Qed.

(** Entries for the instances below. *)
Definition raw_file (path : string) (bytes : Z) : RawEntry :=
  mkRaw (Some path) true bytes 420 AE_IFREG None None.

Lemma read_returns_content_witness :
  read (mem_archive 100 ([(raw_file "a" 1, "x")] ++ (raw_file "./b/c" 2, "yz") :: []))
    12 default_limits "b/c" 4096 = Some (Ok "yz").
Proof.
  apply (read_returns_content 12 default_limits 100 [(raw_file "a" 1, "x")] (raw_file "./b/c" 2)
    (mkEntry "b/c" regular "" 2 420) "yz" [] "b/c" "b/c" 4096);
    [vm_compute; discriminate|reflexivity|reflexivity| |reflexivity..|vm_compute; discriminate
    |vm_compute; lia].
  constructor; [|constructor]. exists (mkEntry "a" regular "" 1 420).
  split_and!; [reflexivity|discriminate|vm_compute; discriminate].
Defined.

Lemma list_respects_limits_witness :
  let es := [mkEntry "a" regular "" 1 420; mkEntry "b/c" regular "" 2 420] in
  Forall (safe_entry default_limits) es ∧ total_size es ≤ max_unpacked_bytes default_limits ∧
  Z.of_nat (length es) ≤ max_entries default_limits.
Proof.
  apply (list_respects_limits
    (mem_archive 100 [(raw_file "a" 1, "x"); (raw_file "./b/c" 2, "yz")]) 12 default_limits);
    [cbn; lia|cbn; lia|vm_compute; reflexivity].
Defined.

#[export] Instance mem_progress bytes files :
  ArchiveProgress (mem_archive bytes files) (λ r, (mem_weight r.1 + str_length r.2)%nat).
Proof.
  split.
  - intros [l d] raw r'. cbn. destruct l as [|[raw' d'] l]; [done|]. intros [= <- <-]. cbn. lia.
  - intros [l d] n c b r'. cbn [mem_archive read_data fst snd]. intros [= <- <- <-]. cbn [fst snd].
    rewrite str_length_drop. split; [lia|]. unfold size. rewrite str_length_take. lia.
Qed.

Lemma list_terminates_witness :
  ∃ result, list_archive (mem_archive 100 [(raw_file "a" 1, "x")]) 12 default_limits = Some result.
Proof.
  apply (list_terminates _ (λ r, (mem_weight r.1 + str_length r.2)%nat)).
  intros r [= <-]. cbn. lia.
Defined.

(** An entry counts twice against the unpacked-size limit, by its declared
    size and again by the data skipped: a file of [n] bytes is refused by every
    limit below [2 n]. *)
Theorem list_counts_data_twice fuel limits bytes path d :
  bytes ≤ max_archive_bytes limits → 0 < max_entries limits → max_unpacked_bytes limits < 2 ^ 64 →
  plain_relative path → str_elem nul path = false → strip_dot_slash path = path →
  size path ≤ max_path_bytes limits →
  0 < size d ≤ 65536 → size d ≤ max_unpacked_bytes limits < 2 * size d → (2 < fuel)%nat →
  list_archive (mem_archive bytes [(raw_file path (size d), d)]) fuel limits
  = Some (Err "archive unpacked-size limit exceeded").
Proof.
  intros Hb He Hm Hp Hn Hst Hl Hd Hlim Hf. unfold list_archive, open.
  cbn [file_size mem_archive]. destruct (Z.ltb_spec (max_archive_bytes limits) bytes); [lia|].
  cbn [read_new support_filter_all support_format_all open_filename mem_archive negb].
  destruct fuel as [|[|fuel]]; [lia|lia|]. cbn [list_loop read_next_header mem_archive fst].
  destruct (Z.leb_spec (max_entries limits) (Z.of_nat (length (@nil Entry)))) as [Hle|]; [simpl in Hle; lia|].
  assert (entry_of (raw_file path (size d)) limits = Ok (mkEntry path regular "" (size d) 420)) as ->.
  { unfold entry_of. cbn [raw_pathname raw_file].
    rewrite (proj2 (safe_path_iff (Some path) (max_path_bytes limits) path)).
    - cbn [expected_bind raw_size_is_set raw_size raw_file].
      destruct (Z.leb_spec 0 (size d)); [|lia]. cbn [andb]. rewrite u64_small by lia. done.
    - exists path. by rewrite from_c_str_id. }
  cbn [e_size]. rewrite Z.min_l, Z.sub_0_r, Z.add_0_l by lia.
  destruct (Z.ltb_spec (max_unpacked_bytes limits) (size d)); [lia|].
  rewrite (u64_small (size d)) by lia.
  cbn [discard_entry mem_archive read_data fst snd].
  rewrite (str_take_length d (Z.to_nat 65536)) by (unfold size in Hd; lia).
  destruct (Z.eqb_spec (size d) 0); [lia|]. destruct (Z.ltb_spec (size d) 0); [lia|].
  rewrite (u64_small (size d)), Z.min_l by lia.
  destruct (Z.ltb_spec (max_unpacked_bytes limits - size d) (size d)); [done|lia].
Qed.

Lemma list_counts_data_twice_witness :
  list_archive (mem_archive 10 [(raw_file "a" 3, "xyz")]) 5 (mkLimits 100 5 10 100)
  = Some (Err "archive unpacked-size limit exceeded").
Proof.
  apply (list_counts_data_twice 5 (mkLimits 100 5 10 100) 10 "a" "xyz"); cbn; try lia; try done.
  repeat constructor; done.
Defined.
