(* ===== verification/Network.v ===== *)
(** * Mirror endpoints (include/execell/package/network.hpp, src/package/network.cpp)

    The host of an endpoint URL and the comparison of hosts that decides
    whether a package may be fetched from it. *)

From S2P Require Import Prelude CxxString.

(** [std::isalnum] in the C locale. *)
Definition isalnum (c : ascii) : bool :=
  is_digit c || ((65 <=? code c) && (code c <=? 90)) || ((97 <=? code c) && (code c <=? 122)).

Definition host_char (c : ascii) : bool :=
  isalnum c || bool_decide (c = "."%char) || bool_decide (c = "-"%char).

Definition extract_host (value : string) : string :=
  match find_str value "://" 0 with
  | None | Some O => ""
  | Some scheme =>
      let begin := (scheme + 3)%nat in
      let name :=
        substr value begin
          (match find_first_of value "/:?#" begin with
           | None => str_length value - begin
           | Some last => last - begin
           end)%nat in
      if bool_decide (name = "") || contains_char name "@"%char then ""
      else if negb (str_forall host_char name) then ""
      else name
  end.

Definition host (endpoint : string) : string := extract_host endpoint.

Definition valid_mirror (mirror : string) : bool :=
  match find_str mirror "://" 0 with
  | None => false
  | Some scheme =>
      if negb (bool_decide (scheme = 4%nat)) && negb (bool_decide (scheme = 5%nat)) then false
      else if negb (bool_decide (substr mirror 0 scheme = "http"))
              && negb (bool_decide (substr mirror 0 scheme = "https")) then false
      else negb (bool_decide (extract_host mirror = ""))
  end.

Definition allowed (endpoint : string) (mirrors : list string) : bool :=
  let endpoint_host := extract_host endpoint in
  if bool_decide (endpoint_host = "") then false
  else existsb (λ mirror, bool_decide (extract_host mirror = endpoint_host)) mirrors.

(** ** Properties *)

Lemma find_suffix_skip f s t :
  (∀ m, (m < str_length s)%nat → f (str_drop m s +:+ t) = false) →
  find_suffix f (s +:+ t) = Nat.add (str_length s) <$> find_suffix f t.
Proof.
  induction s as [|c s IH]; intros Hs.
  - rewrite app_empty_l. by destruct (find_suffix f t).
  - rewrite app_String. cbn [find_suffix].
    change (String c (s +:+ t)) with (str_drop 0 (String c s) +:+ t).
    rewrite (Hs O) by (unfold str_length; simpl; lia). rewrite IH.
    + by destruct (find_suffix f t).
    + intros m Hm. apply (Hs (S m)). unfold str_length in *. simpl. lia.
Qed.

(** The first characters of the suffixes of [s]. *)
Lemma str_drop_head s m :
  (m < str_length s)%nat → ∃ c r, str_drop m s = String c r ∧ str_elem c s = true.
Proof.
  revert m. induction s as [|c s IH]; intros m Hm; [unfold str_length in Hm; simpl in Hm; lia|].
  destruct m as [|m].
  - exists c, s. simpl. by rewrite bool_decide_eq_true_2.
  - destruct (IH m) as (d & r & E & Hd); [unfold str_length in *; simpl in Hm; lia|].
    exists d, r. split; [done|]. simpl. by rewrite Hd, orb_true_r.
Qed.

(** The delimiters that end a host. *)
Definition host_ends (rest : string) : bool :=
  match rest with "" => true | String c _ => str_elem c "/:?#" end.

Lemma host_char_no_delim c : host_char c = true → str_elem c "/:?#" = false.
Proof. destruct c as [[] [] [] [] [] [] [] []]; vm_compute; congruence. Qed.

Lemma host_chars_elem name c :
  str_forall host_char name = true → str_elem c name = true → host_char c = true.
Proof.
  induction name as [|d name IH]; [done|]. cbn [str_forall str_elem].
  rewrite andb_true_iff, orb_true_iff, bool_decide_eq_true. intros [Hd Hn] [->|Hc]; auto.
Qed.

Lemma extract_host_url scheme name rest :
  scheme ≠ "" → str_elem ":" scheme = false →
  name ≠ "" → str_forall host_char name = true → host_ends rest = true →
  extract_host (scheme +:+ "://" +:+ name +:+ rest) = name.
Proof.
  intros Hs Hc Hn Hh Hr. unfold extract_host.
  assert (find_str (scheme +:+ "://" +:+ name +:+ rest) "://" 0 = Some (str_length scheme)) as ->.
  { unfold find_str. cbn [Nat.leb]. rewrite str_drop_0, find_suffix_skip.
    - change ("://" +:+ ?x) with (String ":" ("//" +:+ x)). cbn [find_suffix].
      change (String ":" ("//" +:+ ?x)) with ("://" +:+ x).
      rewrite starts_with_app. cbn. f_equal. lia.
    - intros m Hm. destruct (str_drop_head scheme m Hm) as (c & r & -> & He).
      rewrite app_String. cbn [starts_with]. rewrite bool_decide_eq_false_2; [done|].
      intros <-. congruence. }
  destruct (str_length scheme) as [|n] eqn:El; [by destruct scheme|]. rewrite <- El.
  assert (str_drop (str_length scheme + 3) (scheme +:+ "://" +:+ name +:+ rest) = name +:+ rest)
    as Hd by (rewrite <- str_drop_drop, str_drop_app; done).
  set (begin := (str_length scheme + 3)%nat) in *. cbn zeta. unfold substr. rewrite Hd.
  assert (find_first_of (scheme +:+ "://" +:+ name +:+ rest) "/:?#" begin =
    match rest with "" => None | _ => Some (begin + str_length name)%nat end) as ->.
  { unfold find_first_of. rewrite !str_length_app. change (str_length "://") with 3%nat.
    rewrite (proj2 (Nat.leb_le begin _)) by (unfold begin; lia). rewrite Hd, find_suffix_skip.
    - destruct rest as [|d rest]; [done|]. cbn [find_suffix]. cbn [host_ends] in Hr. rewrite Hr.
      cbn. f_equal. lia.
    - intros m Hm. destruct (str_drop_head name m Hm) as (c & r & -> & He).
      rewrite app_String. apply host_char_no_delim. by eapply host_chars_elem. }
  assert (str_take (match match rest with "" => None | _ => Some (begin + str_length name)%nat end with
    | None => str_length (scheme +:+ "://" +:+ name +:+ rest) - begin
    | Some last => last - begin end) (name +:+ rest) = name) as ->.
  { destruct rest as [|d rest].
    - rewrite !app_empty_r, !str_length_app. apply str_take_length.
      change (str_length "://") with 3%nat. unfold begin. lia.
    - replace (begin + str_length name - begin)%nat with (str_length name) by lia.
      apply str_take_app. }
  rewrite bool_decide_eq_false_2 by done. rewrite Hh.
  destruct (contains_char name "@") eqn:E; [|done].
  by apply (host_chars_elem name _ Hh) in E.
Qed.

(** A URL is allowed exactly when its host is the host of a mirror: for a
    URL made of a scheme, a host and whatever a delimiter introduces, the host
    is read back, and the decision compares it with the hosts of the mirrors. *)
Theorem allowed_by_host scheme name rest mirrors :
  scheme ≠ "" → str_elem ":" scheme = false →
  name ≠ "" → str_forall host_char name = true → host_ends rest = true →
  extract_host (scheme +:+ "://" +:+ name +:+ rest) = name ∧
  (allowed (scheme +:+ "://" +:+ name +:+ rest) mirrors = true ↔
   ∃ m, m ∈ mirrors ∧ extract_host m = name).
Proof.
  intros Hs Hc Hn Hh Hr. pose proof (extract_host_url _ _ _ Hs Hc Hn Hh Hr) as E.
  split; [done|]. unfold allowed. rewrite E, bool_decide_eq_false_2 by done.
  rewrite existsb_exists. setoid_rewrite bool_decide_eq_true. by setoid_rewrite list_elem_of_In.
Qed.

Lemma allowed_by_host_witness :
  extract_host "https://mirror.org/core/x" = "mirror.org" ∧
  (allowed "https://mirror.org/core/x" ["http://mirror.org:8080"] = true ↔
   ∃ m, m ∈ ["http://mirror.org:8080"] ∧ extract_host m = "mirror.org").
Proof.
  apply (allowed_by_host "https" "mirror.org" "/core/x"); reflexivity || discriminate.
Defined.

(** The user information of a URL is taken for its host when it holds a
    password: such a URL is allowed on the strength of the user name, whatever
    host follows the [@]. *)
Theorem userinfo_taken_for_host name password evil mirrors :
  name ≠ "" → str_forall host_char name = true →
  (∃ m, m ∈ mirrors ∧ extract_host m = name) →
  allowed ("http://" +:+ name +:+ ":" +:+ password +:+ "@" +:+ evil) mirrors = true.
Proof.
  intros Hn Hh (m & Hm & E). unfold allowed.
  pose proof (extract_host_url "http" name (":" +:+ password +:+ "@" +:+ evil)) as Hx.
  change ("http" +:+ "://" +:+ ?x) with ("http://" +:+ x) in Hx.
  rewrite Hx by done. rewrite bool_decide_eq_false_2 by done. apply existsb_exists.
  exists m. split; [by apply list_elem_of_In|]. by apply bool_decide_eq_true.
Qed.

Lemma userinfo_taken_for_host_witness :
  allowed "http://mirror.org:x@evil.example/" ["https://mirror.org/"] = true.
Proof.
  apply (userinfo_taken_for_host "mirror.org" "x" "evil.example/");
    [discriminate|reflexivity|]. exists "https://mirror.org/". split; [left|reflexivity].
Defined.
