(* ===== verification/Capture.v ===== *)
(** * Captured runs (run_captured of src/sandbox/sandbox.cpp)

    The parent's side of [run_captured]: it reads the two pipes of the child
    without blocking, under a limit on the output and a deadline, and collects
    the child's status.  The system calls are a parameter, each on the current
    world; what they guarantee is stated in two classes. *)

From S2P Require Import Prelude CxxString Stop.

(** [sandbox::Captured]. *)
Record Captured := mkCaptured {
  c_status : Z;
  c_timed_out : bool;
  c_output_limited : bool;
  c_stdout : string;
  c_stderr : string;
}.

(** [Captured{}] *)
Definition no_capture : Captured := mkCaptured (-1) false false "" "".

Definition EINTR : Z := 4.
Definition EAGAIN : Z := 11.

(** [buffer.size()] *)
Definition buffer_size : Z := 4096.

(** The exit code a wait status stands for, as three functions compute it. *)
Definition exit_code (otherwise status : Z) : Z :=
  if WIFEXITED status then WEXITSTATUS status
  else if WIFSIGNALED status then 128 + WTERMSIG status
  else otherwise.

Record CaptureOps (W : Type) := mkCaptureOps {
  (** [pipe]: the read and the write end *)
  c_pipe : W → option (Z * Z) * W;
  (** [fork], seen from the parent; negative on failure *)
  c_fork : W → Z * W;
  c_close : W → Z → W;
  (** [fcntl(fd, F_SETFL, O_NONBLOCK)] *)
  c_nonblock : W → Z → W;
  (** [read(fd, buffer, 4096)]: the bytes, none at the end of the file, or [errno] *)
  c_read : W → Z → expected string Z * W;
  (** [steady_clock::now()] in nanoseconds *)
  c_now : W → Z * W;
  c_kill : W → Z → Z → W;
  (** [poll] on two descriptors for 10 ms *)
  c_poll : W → Z → Z → W;
  c_waitpid : W → Z → expected Z Z * W;
}.
Arguments c_pipe {W}.
Arguments c_fork {W}.
Arguments c_close {W}.
Arguments c_nonblock {W}.
Arguments c_read {W}.
Arguments c_now {W}.
Arguments c_kill {W}.
Arguments c_poll {W}.
Arguments c_waitpid {W}.

(** ** The code *)

Section Capture.
Context {W : Type} (K : CaptureOps W).

(** The variables [drain] works on, and the world. *)
Record Drain := mkDrain {
  d_world : W;
  d_target : string;
  d_open : bool;
  d_total : Z;
  d_limited : bool;
}.

(** The lambda [drain]. *)
Fixpoint drain (fuel : nat) (output_limit fd : Z) (d : Drain) : option Drain :=
  match fuel with
  | O => None
  | S fuel =>
      match c_read K (d_world d) fd with
      | (Ok data, w) =>
          if 0 <? size data then
            let remaining := if d_total d <? output_limit then output_limit - d_total d else 0 in
            let total := u64 (d_total d + size data) in
            drain fuel output_limit fd
              (mkDrain w
                 (if remaining =? 0 then d_target d
                  else d_target d +:+ str_take (Z.to_nat (Z.min remaining (size data))) data)
                 (d_open d) total (d_limited d || (output_limit <=? total)))
          else Some (mkDrain (c_close K w fd) (d_target d) false (d_total d) (d_limited d))
      | (Err e, w) =>
          if (e =? EAGAIN) || (e =? EINTR)
          then Some (mkDrain w (d_target d) (d_open d) (d_total d) (d_limited d))
          else Some (mkDrain (c_close K w fd) (d_target d) false (d_total d) (d_limited d))
      end
  end.

(** The local variables of [run_captured] once the child runs. *)
Record Progress := mkProgress {
  g_world : W;
  g_stdout : string;
  g_stderr : string;
  g_out_open : bool;
  g_err_open : bool;
  g_total : Z;
  g_limited : bool;
  g_timed_out : bool;
}.

(** One iteration drains both pipes. *)
Definition drain_both (fuel : nat) (output_limit out err : Z) (g : Progress) : option Progress :=
  d ← drain fuel output_limit out
        (mkDrain (g_world g) (g_stdout g) (g_out_open g) (g_total g) (g_limited g));
  d' ← drain fuel output_limit err
         (mkDrain (d_world d) (g_stderr g) (g_err_open g) (d_total d) (d_limited d));
  Some (mkProgress (d_world d') (d_target d) (d_target d') (d_open d) (d_open d') (d_total d')
          (d_limited d') (g_timed_out g)).

Definition set_world (w : W) (timed_out : bool) (g : Progress) : Progress :=
  mkProgress w (g_stdout g) (g_stderr g) (g_out_open g) (g_err_open g) (g_total g) (g_limited g)
    timed_out.

(** The loop [while (out_open || err_open)]. *)
Fixpoint capture_loop (fuel : nat) (out err child deadline output_limit : Z) (g : Progress)
    : option Progress :=
  match fuel with
  | O => None
  | S fuel' =>
      if g_out_open g || g_err_open g then
        g ← drain_both fuel output_limit out err g;
        if g_limited g
        then Some (set_world (c_kill K (g_world g) (- child) SIGKILL) (g_timed_out g) g)
        else
          let '(now, w) := c_now K (g_world g) in
          if deadline <=? now then Some (set_world (c_kill K w (- child) SIGKILL) true g)
          else capture_loop fuel' out err child deadline output_limit
                 (set_world (c_poll K w out err) (g_timed_out g) g)
      else Some g
  end.

(** [while (waitpid(child, &status, 0) < 0 && errno == EINTR)]; the status stays
    0 when [waitpid] fails. *)
Fixpoint wait_loop (fuel : nat) (w : W) (child : Z) : option (Z * W) :=
  match fuel with
  | O => None
  | S fuel =>
      match c_waitpid K w child with
      | (Ok status, w) => Some (status, w)
      | (Err e, w) => if e =? EINTR then wait_loop fuel w child else Some (0, w)
      end
  end.

(** From the loop to the result. *)
Definition capture (fuel : nat) (w : W) (out err child deadline output_limit : Z)
    : option (Captured * W) :=
  g ← capture_loop fuel out err child deadline output_limit
        (mkProgress w "" "" true true 0 false false);
  let w := if g_out_open g then c_close K (g_world g) out else g_world g in
  let w := if g_err_open g then c_close K w err else w in
  '(status, w) ← wait_loop fuel w child;
  Some (mkCaptured (if g_timed_out g then 124 else exit_code (-1) status) (g_timed_out g)
          (g_limited g) (g_stdout g) (g_stderr g), w).

(** [steady_clock::now() + timeout], undefined when it overflows. *)
Definition deadline_after (now timeout : Z) : option Z :=
  let deadline := now + timeout * 1000000000 in
  if (- 2 ^ 63 <=? deadline) && (deadline <? 2 ^ 63) then Some deadline else None.

(** [run_captured] in the parent; [None] when the deadline overflows or the fuel
    runs out. *)
Definition run_captured (fuel : nat) (w : W) (args : list string) (timeout output_limit : Z)
    : option (Captured * W) :=
  if bool_decide (args = []) then Some (no_capture, w)
  else
    match c_pipe K w with
    | (None, w) => Some (no_capture, w)
    | (Some (out_read, out_write), w) =>
        match c_pipe K w with
        | (None, w) => Some (no_capture, c_close K (c_close K w out_read) out_write)
        | (Some (err_read, err_write), w) =>
            let '(child, w) := c_fork K w in
            if child <? 0
            then Some (no_capture,
                       c_close K (c_close K (c_close K (c_close K w out_read) out_write) err_read)
                         err_write)
            else
              let w := c_close K (c_close K w out_write) err_write in
              let w := c_nonblock K (c_nonblock K w out_read) err_read in
              let '(now, w) := c_now K w in
              deadline ← deadline_after now timeout;
              capture fuel w out_read err_read child deadline output_limit
        end
    end.

(** ** What is captured *)

(** [delivered w fd] is what was read from [fd] so far. *)
Class CaptureLaws (delivered : W → Z → string) := {
  read_delivers w fd data w' :
    c_read K w fd = (Ok data, w') →
    ∀ fd', delivered w' fd' =
           if decide (fd' = fd) then delivered w fd' +:+ data else delivered w fd';
  read_fails w fd e w' : c_read K w fd = (Err e, w') → delivered w' = delivered w;
  close_delivers w fd : delivered (c_close K w fd) = delivered w;
  now_delivers w t w' : c_now K w = (t, w') → delivered w' = delivered w;
  kill_delivers w pid sig : delivered (c_kill K w pid sig) = delivered w;
  poll_delivers w a b : delivered (c_poll K w a b) = delivered w;
  waitpid_delivers w pid r w' : c_waitpid K w pid = (r, w') → delivered w' = delivered w;
  (** no process delivers 2^64 bytes *)
  read_bound w fd data w' a b :
    c_read K w fd = (Ok data, w') → size (delivered w' a) + size (delivered w' b) < 2 ^ 64;
}.

Section Output.
Context (delivered : W → Z → string) `{!CaptureLaws delivered} (limit : Z) (Hlimit : 0 ≤ limit).

(** [target] is what the limit leaves of [whole]. *)
Definition prefix_of (target whole : string) : Prop := ∃ rest, whole = target +:+ rest.

(** The state of the capture of two streams. *)
Record captures (out err dout derr : string) (total : Z) (limited : bool) : Prop := {
  cp_total : total = size dout + size derr;
  cp_out : prefix_of out dout;
  cp_err : prefix_of err derr;
  cp_size : size out + size err = Z.min limit total;
  cp_limited : limited = true → limit ≤ total;
  cp_unlimited : limited = false → total < limit ∨ total = 0;
}.

Lemma captures_sym out err dout derr total limited :
  captures out err dout derr total limited → captures err out derr dout total limited.
Proof. intros []. split; try done; lia. Qed.

Lemma prefix_full target whole : prefix_of target whole → size target = size whole → target = whole.
Proof.
  intros [rest ->]. rewrite size_app. intros H. destruct rest; [by rewrite app_empty_r|].
  rewrite size_String in H. pose proof (size_nonneg rest). lia.
Qed.

Lemma prefix_size target whole : prefix_of target whole → size target ≤ size whole.
Proof. intros [rest ->]. rewrite size_app. pose proof (size_nonneg rest). lia. Qed.

(** Below the limit nothing has been cut. *)
Lemma captures_all out err dout derr total limited :
  captures out err dout derr total limited → total ≤ limit → out = dout ∧ err = derr.
Proof.
  intros [Ht Ho He Hs _ _] Hl. pose proof (prefix_size _ _ Ho). pose proof (prefix_size _ _ He).
  split; apply prefix_full; try done; lia.
Qed.

Lemma prefix_extend target whole data : prefix_of target whole → prefix_of target (whole +:+ data).
Proof. intros [rest ->]. exists (rest +:+ data). by rewrite app_assoc_str. Qed.

Lemma size_take n s : 0 ≤ n ≤ size s → size (str_take (Z.to_nat n) s) = n.
Proof. unfold size. intros H. rewrite str_length_take. lia. Qed.

(** One successful [read]. *)
Lemma captures_read out err dout derr total limited data :
  captures out err dout derr total limited → 0 < size data →
  size dout + size data + size derr < 2 ^ 64 →
  let remaining := if total <? limit then limit - total else 0 in
  captures (if remaining =? 0 then out
            else out +:+ str_take (Z.to_nat (Z.min remaining (size data))) data) err
    (dout +:+ data) derr (u64 (total + size data)) (limited || (limit <=? u64 (total + size data))).
Proof.
  intros HC Hd Hb. pose proof HC as [Ht Ho He Hs Hl Hu].
  pose proof (size_nonneg dout). pose proof (size_nonneg derr). cbn zeta.
  rewrite u64_small by lia. destruct (Z.ltb_spec total limit) as [Hlt|Hge].
  - destruct (captures_all _ _ _ _ _ _ HC) as [-> ->]; [lia|].
    rewrite (proj2 (Z.eqb_neq _ _)) by lia.
    split.
    + rewrite size_app. lia.
    + exists (str_drop (Z.to_nat (Z.min (limit - total) (size data))) data).
      by rewrite app_assoc_str, str_take_drop.
    + done.
    + rewrite size_app, size_take by lia. lia.
    + intros [?%Hl|?%Z.leb_le]%orb_true_iff; lia.
    + intros [_ ?%Z.leb_gt]%orb_false_iff. by left.
  - change (0 =? 0) with true. split.
    + rewrite size_app. lia.
    + by apply prefix_extend.
    + done.
    + lia.
    + intros [?%Hl|?%Z.leb_le]%orb_true_iff; lia.
    + intros [_ ?%Z.leb_gt]%orb_false_iff. lia.
Qed.

Lemma drain_captures fuel fd fd' err d d' :
  fd ≠ fd' → drain fuel limit fd d = Some d' →
  captures (d_target d) err (delivered (d_world d) fd) (delivered (d_world d) fd') (d_total d)
    (d_limited d) →
  captures (d_target d') err (delivered (d_world d') fd) (delivered (d_world d') fd') (d_total d')
    (d_limited d').
Proof.
  intros Hne. revert d. induction fuel as [|fuel IH]; intros d; [done|]. cbn [drain].
  destruct (c_read K (d_world d) fd) as [[data|e] w] eqn:E.
  - pose proof (read_delivers _ _ _ _ E) as Hr.
    pose proof (Hr fd) as Hfd. rewrite decide_True in Hfd by done.
    pose proof (Hr fd') as Hfd'. rewrite decide_False in Hfd' by done.
    destruct (Z.ltb_spec 0 (size data)) as [Hd|Hd].
    + intros H HC. apply (IH _ H). cbn [d_world d_target d_total d_limited].
      rewrite Hfd, Hfd'. apply captures_read; [done|done|].
      pose proof (read_bound _ _ _ _ fd fd' E) as Hb. rewrite Hfd, Hfd', size_app in Hb. lia.
    + assert (data = "") as ->.
      { destruct data; [done|]. rewrite size_String in Hd. pose proof (size_nonneg data). lia. }
      intros [= <-]. cbn. rewrite close_delivers, Hfd, Hfd', app_empty_r. done.
  - apply read_fails in E. destruct (_ || _); intros [= <-]; cbn; by rewrite ?close_delivers, E.
Qed.

Definition captured_so_far (out err : Z) (g : Progress) : Prop :=
  captures (g_stdout g) (g_stderr g) (delivered (g_world g) out) (delivered (g_world g) err)
    (g_total g) (g_limited g).

Lemma drain_both_captures fuel out err g g' :
  out ≠ err → drain_both fuel limit out err g = Some g' →
  captured_so_far out err g → captured_so_far out err g'.
Proof.
  intros Hne. unfold drain_both, captured_so_far. intros Hg HC.
  destruct (drain fuel limit out _) as [d|] eqn:E1; [|done]. cbn [mbind option_bind] in Hg.
  destruct (drain fuel limit err _) as [d'|] eqn:E2; [|done]. injection Hg as <-.
  cbn [g_stdout g_stderr g_world g_total g_limited].
  apply captures_sym. apply (drain_captures _ _ _ (d_target d) _ _ (not_eq_sym Hne) E2). cbn.
  apply captures_sym. by apply (drain_captures _ _ _ _ _ _ Hne E1).
Qed.

Lemma capture_loop_captures fuel out err child deadline g g' :
  out ≠ err → capture_loop fuel out err child deadline limit g = Some g' →
  captured_so_far out err g → captured_so_far out err g'.
Proof.
  intros Hne. revert g. induction fuel as [|fuel IH]; intros g; [done|]. cbn [capture_loop].
  destruct (g_out_open g || g_err_open g); [|by intros [= ->]].
  destruct (drain_both _ _ _ _ g) as [g1|] eqn:E; [|done]. cbn [mbind option_bind]. intros H HC.
  pose proof (drain_both_captures _ _ _ _ _ Hne E HC) as HC1. unfold captured_so_far in *.
  destruct (g_limited g1) eqn:El.
  { injection H as <-. cbn. by rewrite kill_delivers, El. }
  destruct (c_now K (g_world g1)) as [now w] eqn:En. apply now_delivers in En.
  destruct (deadline <=? now).
  { injection H as <-. cbn. by rewrite kill_delivers, En, El. }
  apply (IH _ H). cbn. by rewrite poll_delivers, En, El.
Qed.

Lemma wait_loop_delivers fuel w child status w' :
  wait_loop fuel w child = Some (status, w') → delivered w' = delivered w.
Proof.
  revert w. induction fuel as [|fuel IH]; intros w; [done|]. cbn [wait_loop].
  destruct (c_waitpid K w child) as [[s|e] w1] eqn:E; apply waitpid_delivers in E.
  - by intros [= _ <-].
  - destruct (e =? EINTR); [intros H; by rewrite (IH _ H)|by intros [= _ <-]].
Qed.

(** C25: what a captured run returns is a prefix of what was read from each pipe,
    together never more than the output limit and exactly the output when it
    was not limited, however the reads were cut and interleaved. *)
Theorem captured_output fuel w out err child deadline r w' :
  out ≠ err → delivered w out = "" → delivered w err = "" →
  capture fuel w out err child deadline limit = Some (r, w') →
  prefix_of (c_stdout r) (delivered w' out) ∧ prefix_of (c_stderr r) (delivered w' err) ∧
  size (c_stdout r) + size (c_stderr r) =
    Z.min limit (size (delivered w' out) + size (delivered w' err)) ∧
  (c_output_limited r = false →
     c_stdout r = delivered w' out ∧ c_stderr r = delivered w' err).
Proof.
  intros Hne Ho He. unfold capture. destruct (capture_loop _ _ _ _ _ _ _) as [g|] eqn:E; [|done].
  cbn [mbind option_bind]. destruct (wait_loop _ _ _) as [[status w1]|] eqn:Ew; [|done].
  cbn [mbind option_bind]. intros [= <- <-]. cbn [c_stdout c_stderr c_output_limited].
  assert (captured_so_far out err g) as HC.
  { apply (capture_loop_captures _ _ _ _ _ _ _ Hne E). unfold captured_so_far. cbn.
    rewrite Ho, He. split; rewrite ?size_empty; [done|by exists ""|by exists ""|lia|done|by right]. }
  assert (delivered w1 = delivered (g_world g)) as ->.
  { rewrite (wait_loop_delivers _ _ _ _ _ Ew). by destruct (g_out_open g), (g_err_open g);
      rewrite ?close_delivers. }
  pose proof HC as [Ht Hout Herr Hs Hl Hu]. split; [done|]. split; [done|].
  split; [by rewrite Hs, Ht|]. intros Hlim. apply (captures_all _ _ _ _ _ _ HC).
  destruct (Hu Hlim); lia.
Qed.

End Output.
End Capture.
