(* ===== verification/CaptureSpec.v ===== *)
(** * Captured runs: termination, and what happens to closed descriptors

    [run_captured] returns though its child may never end by itself: the clock
    reaches the deadline, the child's process group is killed, and [waitpid]
    then reports it.  A scripted operating system, on which the capture
    can be run, shows what becomes of a descriptor that is closed in one round
    of the loop and used again in the next. *)

From S2P Require Import Prelude CxxString Fuel Stop Capture.

(** ** Termination *)

Section Termination.
Context {W : Type} (K : CaptureOps W) (child deadline out err : Z).

(** What the laws below observe of a world: how many bytes the pipes can
    deliver in a row, the readings of the clock before the deadline, the signals
    that can still interrupt [waitpid] once the child has ended, whether the
    captured child has ended, and whether a descriptor is a read end of one of
    its pipes. *)
Record Fate := mkFate {
  left : W → nat;
  ticks : W → nat;
  interrupts : W → nat;
  gone : W → bool;
  piped : W → Z → bool;
}.

(** Nothing is said of what the child does, or of [waitpid] before the child has
    ended: a child that never ends is one whose [waitpid] gives no status, however often
    it is called.  The captured child holds the write ends of both pipes as
    its standard output and error while it lives, so that a read end gives the
    end of file, or an error that does not pass, only when it has ended; and
    it has made a process group of its own, which SIGKILL ends. *)
Class CaptureProgress (f : Fate) := {
  read_left w fd data w' :
    c_read K w fd = (Ok data, w') → (left f w' + str_length data ≤ left f w)%nat;
  read_ticks w fd r w' : c_read K w fd = (r, w') → (ticks f w' ≤ ticks f w)%nat;
  close_ticks w fd : (ticks f (c_close K w fd) ≤ ticks f w)%nat;
  now_ticks w t w' : c_now K w = (t, w') → t < deadline → (ticks f w' < ticks f w)%nat;
  poll_ticks w a b : (ticks f (c_poll K w a b) ≤ ticks f w)%nat;

  read_end w fd w' : c_read K w fd = (Ok "", w') → piped f w fd = true → gone f w' = true;
  read_error w fd e w' :
    c_read K w fd = (Err e, w') → piped f w fd = true → e ≠ EAGAIN → e ≠ EINTR → gone f w' = true;
  kill_gone w : gone f (c_kill K w (- child) SIGKILL) = true;
  waitpid_gone w e w' :
    c_waitpid K w child = (Err e, w') → gone f w = true →
    gone f w' = true ∧ (e = EINTR → (interrupts f w' < interrupts f w)%nat);

  (** a child that has ended stays so, and an open pipe stays open *)
  read_gone w fd r w' : c_read K w fd = (r, w') → gone f w = true → gone f w' = true;
  close_gone w fd : gone f w = true → gone f (c_close K w fd) = true;
  now_gone w t w' : c_now K w = (t, w') → gone f w = true → gone f w' = true;
  poll_gone w a b : gone f w = true → gone f (c_poll K w a b) = true;
  read_piped w fd r w' fd' : c_read K w fd = (r, w') → piped f w fd' = true → piped f w' fd' = true;
  close_piped w fd fd' : fd' ≠ fd → piped f w fd' = true → piped f (c_close K w fd) fd' = true;
  now_piped w t w' fd : c_now K w = (t, w') → piped f w fd = true → piped f w' fd = true;
  poll_piped w a b fd : piped f w fd = true → piped f (c_poll K w a b) fd = true;
}.

Context (f : Fate) `{!CaptureProgress f} (Hfds : out ≠ err).

(** What the loop knows of a pipe: it is open, or the child has ended. *)
Definition pipe_state (w : W) (fd : Z) (open : bool) : Prop :=
  if open then piped f w fd = true else gone f w = true.

(** What [drain] does to the other pipe. *)
Definition keeps (w w' : W) (fd : Z) : Prop :=
  (ticks f w' ≤ ticks f w)%nat ∧ ∀ open, pipe_state w fd open → pipe_state w' fd open.

Lemma read_keeps w fd r w' fd' : c_read K w fd = (r, w') → keeps w w' fd'.
Proof.
  intros E. split; [by eapply read_ticks|]. intros []; cbn; [by eapply read_piped|by eapply read_gone].
Qed.

Lemma close_keeps w fd fd' : fd' ≠ fd → keeps w (c_close K w fd) fd'.
Proof.
  intros E. split; [by apply close_ticks|]. intros []; cbn; [by apply close_piped|apply close_gone].
Qed.

Lemma keeps_trans w1 w2 w3 fd : keeps w1 w2 fd → keeps w2 w3 fd → keeps w1 w3 fd.
Proof. intros [? ?] [? ?]. split; [lia|auto]. Qed.

(** The end of [drain]: the child has ended if the pipe was open, and stays
    ended. *)
Lemma drain_closed w fd open w' :
  pipe_state w fd open → (∀ o, pipe_state w fd o → pipe_state w' fd o) →
  (piped f w fd = true → gone f w' = true) → gone f (c_close K w' fd) = true.
Proof. intros Ho Hk He. apply close_gone. destruct open; cbn in Ho; [by apply He|apply (Hk false Ho)]. Qed.

Lemma drain_eventually limit fd fd' d :
  fd' ≠ fd → pipe_state (d_world d) fd (d_open d) →
  eventually (λ d', pipe_state (d_world d') fd (d_open d') ∧ keeps (d_world d) (d_world d') fd')
    (λ n, drain K n limit fd d).
Proof.
  intros Hfd. remember (left f (d_world d)) as m eqn:Hm. revert d Hm.
  induction m as [m IH] using lt_wf_ind. intros d -> Ho. turn drain.
  destruct (c_read K (d_world d) fd) as [[data|e] w] eqn:E;
    pose proof (read_keeps _ _ _ _ fd E) as Hk; pose proof (read_keeps _ _ _ _ fd' E) as Hk'.
  - pose proof (read_left _ _ _ _ E) as Hl. destruct (Z.ltb_spec 0 (size data)) as [Hd|Hd].
    + unfold size in Hd. cbv zeta.
      eapply eventually_weaken; [|eapply IH; [|reflexivity|]]; cbn [d_world d_open].
      * intros d' [H1 H2]. split; [done|by eapply keeps_trans].
      * lia.
      * by apply Hk.
    + apply eventually_ret. cbn [d_world d_open pipe_state]. split.
      * eapply drain_closed; [done|apply Hk|]. intros Hp. destruct data; [by eapply read_end|].
        rewrite size_String in Hd. pose proof (size_nonneg data). lia.
      * eapply keeps_trans; [done|by apply close_keeps].
  - destruct (Z.eqb_spec e EAGAIN), (Z.eqb_spec e EINTR); cbn [orb]; apply eventually_ret;
      cbn [d_world d_open]; try (by split; [apply Hk|]). split.
    + eapply drain_closed; [done|apply Hk|]. intros Hp. by eapply read_error.
    + eapply keeps_trans; [done|by apply close_keeps].
Qed.

(** Both pipes, as [capture_loop] knows them. *)
Definition pipes_state (g : Progress) : Prop :=
  pipe_state (g_world g) out (g_out_open g) ∧ pipe_state (g_world g) err (g_err_open g).

Lemma drain_both_eventually limit g :
  pipes_state g →
  eventually (λ g', pipes_state g' ∧ (ticks f (g_world g') ≤ ticks f (g_world g))%nat)
    (λ n, drain_both K n limit out err g).
Proof.
  intros [Ho He]. unfold drain_both. eapply eventually_bind; [by apply (drain_eventually limit out err)|].
  intros d [H1 H2]. cbn [d_world] in H2. eapply eventually_bind.
  { apply (drain_eventually limit err out); [done|]. cbn [d_world d_open]. by apply H2. }
  intros d' [H3 H4]. cbn [d_world] in H4. apply eventually_ret. split.
  - split; cbn [g_world g_out_open g_err_open]; [by apply H4|done].
  - cbn [g_world]. destruct H2, H4. lia.
Qed.

(** The loop ends, and the child has ended then: by itself, or by the kill. *)
Lemma capture_loop_eventually limit g :
  pipes_state g →
  eventually (λ g', gone f (g_world g') = true)
    (λ n, capture_loop K n out err child deadline limit g).
Proof.
  remember (ticks f (g_world g)) as m eqn:Hm. revert g Hm.
  induction m as [m IH] using lt_wf_ind. intros g -> Hp. turn capture_loop.
  destruct (g_out_open g || g_err_open g) eqn:Eo.
  2:{ apply orb_false_iff in Eo as [Eo _]. apply eventually_ret.
      destruct Hp as [Ho _]. by rewrite Eo in Ho. }
  eapply eventually_bind; [apply (eventually_succ _ _ (drain_both_eventually limit g Hp))|].
  cbv beta. intros g1 [Hp1 Ht].
  destruct (g_limited g1); [apply eventually_ret, kill_gone|].
  destruct (c_now K (g_world g1)) as [now w] eqn:En.
  destruct (Z.leb_spec deadline now) as [|Hn]; [apply eventually_ret, kill_gone|].
  eapply IH; [|reflexivity|].
  - cbn [g_world set_world]. pose proof (now_ticks _ _ _ En Hn). pose proof (poll_ticks w out err). lia.
  - destruct Hp1 as [H1 H2]. split; cbn [g_world set_world g_out_open g_err_open].
    + destruct (g_out_open g1); cbn in *;
        [by eapply poll_piped, now_piped|by eapply poll_gone, now_gone].
    + destruct (g_err_open g1); cbn in *;
        [by eapply poll_piped, now_piped|by eapply poll_gone, now_gone].
Qed.

Lemma wait_loop_eventually w : gone f w = true → returns (λ n, wait_loop K n w child).
Proof.
  remember (interrupts f w) as m eqn:Hm. revert w Hm.
  induction m as [m IH] using lt_wf_ind. intros w -> Hg. turn wait_loop.
  destruct (c_waitpid K w child) as [[s|e] w1] eqn:E; [done|].
  pose proof (waitpid_gone _ _ _ E Hg) as [Hg1 Hi].
  destruct (Z.eqb_spec e EINTR) as [->|]; [|done]. by eapply IH; [apply Hi|..].
Qed.

(** C27: a captured run returns, even when the program never ends by itself.
    The hypotheses: finitely many bytes can be read in a row, and the clock
    reaches the deadline after finitely many readings; a pipe ends only when the
    captured child has; SIGKILL to its process group ends it; and once it has
    ended, [waitpid] is interrupted finitely often.  Then every large enough
    fuel gives the same result: the loop is left with the child ended, by itself
    or by the kill, so that the [waitpid] that follows does not block. *)
Theorem captured_returns w limit :
  piped f w out = true → piped f w err = true →
  ∃ n r, ∀ fuel, (n ≤ fuel)%nat → capture K fuel w out err child deadline limit = Some r.
Proof.
  intros Ho He.
  assert (returns (λ n, capture K n w out err child deadline limit)) as (n & r & _ & Hr);
    [|by exists n, r].
  unfold capture. eapply eventually_bind; [by apply capture_loop_eventually|]. intros g Hg. cbv zeta.
  eapply eventually_bind; [|by intros [status w1] _]. apply wait_loop_eventually.
  destruct (g_out_open g), (g_err_open g); auto using close_gone.
Qed.

End Termination.

(** ** A scripted operating system *)

Inductive call := Read (fd : Z) | Close (fd : Z) | Kill (pid sig : Z) | Wait (pid : Z).

Definition EBADF : Z := 9.

(** Descriptors 3 and 5 are the read ends of the two pipes.  Each has a list of
    answers to [read]; a closed one answers [EBADF].  [sc_reuse] is what another
    thread opens in place of a closed descriptor 3 while [poll] waits. *)
Record Script := mkScript {
  sc_out : list (expected string Z);
  sc_err : list (expected string Z);
  sc_open : list Z;
  sc_reuse : list (expected string Z);
  sc_clock : Z;
  sc_status : Z;
  sc_log : list call;
}.

Definition answer (fd : Z) (s : Script) : expected string Z :=
  if bool_decide (fd ∈ sc_open s) then
    default (Err EAGAIN)
      (head (if fd =? 3 then sc_out s else if fd =? 5 then sc_err s else [Err EBADF]))
  else Err EBADF.

Definition script_read (s : Script) (fd : Z) : expected string Z * Script :=
  (answer fd s,
   mkScript (if fd =? 3 then tail (sc_out s) else sc_out s)
     (if fd =? 5 then tail (sc_err s) else sc_err s) (sc_open s) (sc_reuse s)
     (sc_clock s) (sc_status s) (sc_log s ++ [Read fd])).

Definition logged (c : call) (s : Script) : Script :=
  mkScript (sc_out s) (sc_err s) (sc_open s) (sc_reuse s) (sc_clock s) (sc_status s)
    (sc_log s ++ [c]).

Definition script_close (s : Script) (fd : Z) : Script :=
  mkScript (sc_out s) (sc_err s) (List.filter (λ x, negb (x =? fd)) (sc_open s)) (sc_reuse s)
    (sc_clock s) (sc_status s) (sc_log s ++ [Close fd]).

Definition script_poll (s : Script) (_ _ : Z) : Script :=
  if bool_decide (3 ∈ sc_open s) || bool_decide (sc_reuse s = []) then s
  else mkScript (sc_reuse s) (sc_err s) (3 :: sc_open s) [] (sc_clock s) (sc_status s)
         (sc_log s).

Definition scripted : CaptureOps Script := {|
  c_pipe s := (Some (3, 4), s);
  c_fork s := (42, s);
  c_close := script_close;
  c_nonblock s _ := s;
  c_read := script_read;
  c_now s := (sc_clock s, mkScript (sc_out s) (sc_err s) (sc_open s) (sc_reuse s) (sc_clock s + 1)
                            (sc_status s) (sc_log s));
  c_kill s pid sig := logged (Kill pid sig) s;
  c_poll := script_poll;
  c_waitpid s pid := (Ok (sc_status s), logged (Wait pid) s);
|}.

(** The program wrote [hello] and closed its standard output before its
    standard error; meanwhile another thread opens a descriptor and gets the
    number that became free. *)
Definition reuse_script (other : string) : Script :=
  mkScript [Ok "hello"; Ok ""] [Err EAGAIN; Ok ""] [3; 5] [Ok other; Ok ""] 0 0 [].

(** The three ways [drain] goes on after a [read]. *)
Section Drain.
Context {W : Type} (K : CaptureOps W) (limit fd : Z).

Lemma drain_data fuel w target open total limited data w' :
  c_read K w fd = (Ok data, w') → 0 < size data → 0 ≤ total →
  total + size data < limit < 2 ^ 64 →
  drain K (S fuel) limit fd (mkDrain w target open total limited) =
  drain K fuel limit fd (mkDrain w' (target +:+ data) open (total + size data) limited).
Proof.
  intros E Hd Ht Hl. cbn [drain d_world d_target d_open d_total d_limited]. rewrite E.
  rewrite (proj2 (Z.ltb_lt _ _)) by done. rewrite (proj2 (Z.ltb_lt total limit)) by lia.
  rewrite u64_small, (proj2 (Z.leb_gt _ _)), orb_false_r by lia.
  rewrite (proj2 (Z.eqb_neq _ _)), Z.min_r by lia.
  unfold size at 1. by rewrite Nat2Z.id, str_take_length.
Qed.

Lemma drain_end fuel w target open total limited w' :
  c_read K w fd = (Ok "", w') →
  drain K (S fuel) limit fd (mkDrain w target open total limited) =
  Some (mkDrain (c_close K w' fd) target false total limited).
Proof. intros E. cbn [drain d_world]. by rewrite E. Qed.

Lemma drain_wait fuel w target open total limited w' :
  c_read K w fd = (Err EAGAIN, w') →
  drain K (S fuel) limit fd (mkDrain w target open total limited) =
  Some (mkDrain w' target open total limited).
Proof. intros E. cbn [drain d_world]. by rewrite E. Qed.

End Drain.

Section Round.
Context {W : Type} (K : CaptureOps W) (out err child deadline limit : Z).

Lemma capture_round fuel g g' now w :
  g_out_open g || g_err_open g = true → drain_both K (S fuel) limit out err g = Some g' →
  g_limited g' = false → c_now K (g_world g') = (now, w) → now < deadline →
  capture_loop K (S fuel) out err child deadline limit g =
  capture_loop K fuel out err child deadline limit
    (set_world (c_poll K w out err) (g_timed_out g') g').
Proof.
  intros Ho E Hl Hn Hd. cbn [capture_loop]. rewrite Ho, E. cbn [mbind option_bind].
  rewrite Hl, Hn. by rewrite (proj2 (Z.leb_gt _ _)).
Qed.

End Round.

(** A pipe that ends before the other one is closed, and then read and
    closed again in the next round.  When another thread has been given the
    number meanwhile, its data is taken for the program's output and its
    descriptor is closed. *)
Theorem closed_pipe_read_again other :
  0 < size other < 1000 →
  ∃ r s, capture scripted 5 (reuse_script other) 3 5 42 100 4096 = Some (r, s) ∧
    c_stdout r = "hello" +:+ other ∧
    sc_log s = [Read 3; Read 3; Close 3; Read 5; Read 3; Read 3; Close 3; Read 5; Close 5; Wait 42].
Proof.
  intros Ho. set (s0 := reuse_script other).
  set (s1 := mkScript [] [Ok ""] [5] [Ok other; Ok ""] 0 0 [Read 3; Read 3; Close 3; Read 5]).
  set (s2 := script_poll (mkScript [] [Ok ""] [5] [Ok other; Ok ""] 1 0 (sc_log s1)) 3 5).
  set (s3 := script_close (script_read (script_close (script_read (script_read s2 3).2 3).2 3) 5).2 5).
  assert (drain_both scripted 5 4096 3 5 (mkProgress s0 "" "" true true 0 false false) =
          Some (mkProgress s1 "hello" "" false true 5 false false)) as E1 by reflexivity.
  assert (drain_both scripted 4 4096 3 5 (mkProgress s2 "hello" "" false true 5 false false) =
          Some (mkProgress s3 ("hello" +:+ other) "" false false (5 + size other) false false)) as E2.
  { unfold drain_both. cbn [g_world g_stdout g_stderr g_out_open g_err_open g_total g_limited g_timed_out].
    erewrite drain_data; [|reflexivity|lia|lia|lia].
    erewrite drain_end by reflexivity. cbn [mbind option_bind d_world d_target d_open d_total d_limited].
    by erewrite drain_end by reflexivity. }
  eexists _, _. split; [|split].
  - unfold capture.
    erewrite capture_round; [|reflexivity|exact E1|reflexivity|reflexivity|done].
    erewrite capture_round; [|reflexivity|exact E2|reflexivity|reflexivity|done].
    reflexivity.
  - reflexivity.
  - reflexivity.
Qed.

Lemma closed_pipe_read_again_witness :
  ∃ r s, capture scripted 5 (reuse_script "secret") 3 5 42 100 4096 = Some (r, s) ∧
    c_stdout r = "hellosecret" ∧
    sc_log s = [Read 3; Read 3; Close 3; Read 5; Read 3; Read 3; Close 3; Read 5; Close 5; Wait 42].
Proof. apply (closed_pipe_read_again "secret"). vm_compute. split; reflexivity. Defined.

(** ** An operating system with one delivery per pipe *)

(** Whether [hello] and [oops] have been read from descriptors 3 and 5. *)
Definition Single : Type := bool * bool.

Definition single_read (s : Single) (fd : Z) : expected string Z * Single :=
  if fd =? 3 then (Ok (if s.1 then "" else "hello"), (true, s.2))
  else if fd =? 5 then (Ok (if s.2 then "" else "oops"), (s.1, true))
  else (Err EBADF, s).

Definition single : CaptureOps Single := {|
  c_pipe s := (None, s);
  c_fork s := (-1, s);
  c_close s _ := s;
  c_nonblock s _ := s;
  c_read := single_read;
  c_now s := (100, s);
  c_kill s _ _ := s;
  c_poll s _ _ := s;
  c_waitpid s _ := (Ok 256, s);
|}.

Definition single_delivered (s : Single) (fd : Z) : string :=
  if fd =? 3 then if s.1 then "hello" else ""
  else if fd =? 5 then if s.2 then "oops" else "" else "".

#[export] Instance single_laws : CaptureLaws single single_delivered.
Proof.
  split; cbn; try done.
  - intros [a b] fd data w'. unfold single_read, single_delivered.
    destruct (Z.eqb_spec fd 3) as [->|]; [|destruct (Z.eqb_spec fd 5) as [->|]; [|done]];
      intros [= <- <-] fd'; case_decide as Hd; subst; destruct a, b; cbn; try done;
      by repeat (case_match; cbn; try lia).
  - intros [a b] fd e w'. unfold single_read. repeat (case_match; try done). by intros [= _ <-].
  - intros w t w' [= _ <-]. done.
  - intros w pid r w' [= _ <-]. done.
  - intros w fd data [a' b'] x y _. unfold single_delivered.
    repeat case_match; vm_compute; reflexivity.
Qed.

Lemma captured_output_witness :
  prefix_of "hello" "hello" ∧ prefix_of "oo" "oops" ∧ 5 + 2 = Z.min 7 (5 + 4) ∧
  (true = false → "hello" = "hello" ∧ "oo" = "oops").
Proof.
  apply (captured_output single single_delivered 7 ltac:(lia) 9 (false, false) 3 5 42 1000
           (mkCaptured 1 false true "hello" "oo") (true, true)); vm_compute; try reflexivity;
    discriminate.
Defined.

(** ** A child that never ends *)

(** The readings of the clock so far, and whether the child has been killed; it
    writes nothing, and [waitpid] gives no status while it lives. *)
Definition Endless : Type := Z * bool.

Definition endless : CaptureOps Endless := {|
  c_pipe s := (Some (3, 4), s);
  c_fork s := (42, s);
  c_close s _ := s;
  c_nonblock s _ := s;
  c_read s _ := (Err EAGAIN, s);
  c_now s := (s.1, (s.1 + 1, s.2));
  c_kill s pid sig := (s.1, s.2 || ((pid =? -42) && (sig =? SIGKILL)));
  c_poll s _ _ := s;
  c_waitpid s _ := (if s.2 then Ok 9 else Err EINTR, s);
|}.

Definition endless_fate : Fate := {|
  left _ := 0%nat;
  ticks s := Z.to_nat (50 - s.1);
  interrupts _ := 0%nat;
  gone s := s.2;
  piped _ fd := (fd =? 3) || (fd =? 5);
|}.

#[export] Instance endless_progress : CaptureProgress endless 42 50 endless_fate.
Proof.
  split; cbn.
  - done.
  - by intros w fd r w' [= _ <-].
  - done.
  - intros [n b] t w' [= <- <-]. cbn. lia.
  - done.
  - done.
  - intros w fd e w' [= <- _] _. done.
  - intros w. by rewrite orb_true_r.
  - intros [n b] e w' E Hb. cbn in *. subst. done.
  - by intros w fd r w' [= _ <-].
  - done.
  - by intros w t w' [= _ <-].
  - done.
  - done.
  - done.
  - done.
  - done.
Qed.

(** It is killed at the deadline, and the run returns. *)
Lemma captured_returns_witness :
  (∃ n r, ∀ fuel, (n ≤ fuel)%nat → capture endless fuel (0, false) 3 5 42 50 4096 = Some r) ∧
  capture endless 60 (0, false) 3 5 42 50 4096 = Some (mkCaptured 124 true false "" "", (51, true)).
Proof.
  split; [|vm_compute; reflexivity].
  by apply (captured_returns endless 42 50 3 5 endless_fate).
Defined.
