(* ===== verification/Seccomp.v ===== *)
(** * The seccomp filter (src/sandbox/sandbox.cpp: default_package_syscalls, install_seccomp)

    The classic BPF program the sandbox installs.  The interpreter is the
    kernel's and a parameter, of which the class [Bpf] states the documented
    effect of the three instructions the program is made of. *)

From S2P Require Import Prelude Syscall.

(** ** <linux/filter.h>, <linux/seccomp.h>, <linux/audit.h> *)

(** [BPF_STMT(BPF_LD | BPF_W | BPF_ABS, k)], [BPF_JUMP(BPF_JMP | BPF_JEQ | BPF_K, k, jt, jf)],
    [BPF_STMT(BPF_RET | BPF_K, k)] *)
Inductive sock_filter :=
| LD_W_ABS (k : Z)
| JEQ_K (k : Z) (jt jf : nat)
| RET_K (k : Z).

Record seccomp_data := mkSeccompData { sd_nr : Z; sd_arch : Z }.

Definition offset_nr : Z := 0.
Definition offset_arch : Z := 4.
Definition AUDIT_ARCH_X86_64 : Z := 3221225534.
Definition SECCOMP_RET_KILL_PROCESS : Z := 2147483648.
Definition SECCOMP_RET_ALLOW : Z := 2147418112.
Definition SECCOMP_RET_ERRNO : Z := 327680.
Definition EPERM : Z := 1.

(** The word at an offset of the data. *)
Definition data_word (d : seccomp_data) (k : Z) : Z :=
  if k =? offset_nr then u32 (sd_nr d) else if k =? offset_arch then u32 (sd_arch d) else 0.

(** The interpreter: the value a program returns from an instruction on, with
    an accumulator. *)
Class Bpf (exec : list sock_filter → nat → Z → seccomp_data → Z) := {
  bpf_ld prog pc a d k :
    prog !! pc = Some (LD_W_ABS k) → exec prog pc a d = exec prog (S pc) (data_word d k) d;
  bpf_jeq prog pc a d k jt jf :
    prog !! pc = Some (JEQ_K k jt jf) →
    exec prog pc a d = exec prog (S pc + (if Z.eqb a k then jt else jf))%nat a d;
  bpf_ret prog pc a d k : prog !! pc = Some (RET_K k) → exec prog pc a d = k;
}.

(** ** The code *)

Definition default_package_syscalls : list Z :=
  [SYS_read; SYS_write; SYS_close; SYS_open; SYS_openat; SYS_newfstatat; SYS_fstat;
   SYS_statx; SYS_lseek; SYS_pread64; SYS_pwrite64; SYS_readv; SYS_writev; SYS_getdents64;
   SYS_dup; SYS_dup2; SYS_dup3; SYS_fcntl; SYS_ioctl; SYS_pipe; SYS_pipe2; SYS_poll;
   SYS_ppoll; SYS_mmap; SYS_mprotect; SYS_munmap; SYS_mremap; SYS_brk; SYS_madvise;
   SYS_arch_prctl; SYS_rt_sigaction; SYS_rt_sigprocmask; SYS_rt_sigreturn; SYS_sigaltstack;
   SYS_futex; SYS_set_tid_address; SYS_set_robust_list; SYS_rseq; SYS_clone; SYS_clone3;
   SYS_fork; SYS_vfork; SYS_execve; SYS_execveat; SYS_ptrace; SYS_exit; SYS_exit_group;
   SYS_wait4; SYS_waitid; SYS_kill; SYS_tgkill; SYS_getpid; SYS_getppid; SYS_gettid;
   SYS_getuid; SYS_geteuid; SYS_getgid; SYS_getegid; SYS_getresuid; SYS_getresgid;
   SYS_setresuid; SYS_setresgid; SYS_prctl; SYS_prlimit64; SYS_getrlimit; SYS_setrlimit;
   SYS_uname; SYS_getcwd; SYS_readlink; SYS_readlinkat; SYS_access; SYS_faccessat;
   SYS_faccessat2; SYS_chdir; SYS_fchdir; SYS_mkdir; SYS_mkdirat; SYS_unlink; SYS_unlinkat;
   SYS_rename; SYS_renameat; SYS_renameat2; SYS_link; SYS_linkat; SYS_symlink;
   SYS_symlinkat; SYS_chmod; SYS_fchmod; SYS_fchmodat; SYS_chown; SYS_fchown; SYS_fchownat;
   SYS_utimensat; SYS_truncate; SYS_ftruncate; SYS_syncfs; SYS_getrandom; SYS_clock_gettime;
   SYS_nanosleep; SYS_sched_getaffinity; SYS_sysinfo; SYS_socket; SYS_connect; SYS_bind;
   SYS_listen; SYS_accept; SYS_accept4; SYS_sendto; SYS_recvfrom; SYS_sendmsg; SYS_recvmsg;
   SYS_shutdown; SYS_setsockopt; SYS_getsockopt; SYS_getpeername; SYS_getsockname;
   SYS_capget; SYS_capset; SYS_setpgid; SYS_getpgid; SYS_setsid; SYS_setxattr;
   SYS_lsetxattr; SYS_fsetxattr; SYS_listxattr; SYS_llistxattr; SYS_flistxattr;
   SYS_removexattr; SYS_lremovexattr; SYS_fremovexattr].
(** The two instructions pushed for an allowed call. *)
Definition allow_rule (syscall_number : Z) : list sock_filter :=
  [JEQ_K (u32 syscall_number) 0 1; RET_K SECCOMP_RET_ALLOW].

(** The vector [filter] of [install_seccomp]. *)
Definition seccomp_filter (allowlist : list Z) : list sock_filter :=
  [LD_W_ABS offset_arch; JEQ_K AUDIT_ARCH_X86_64 1 0; RET_K SECCOMP_RET_KILL_PROCESS;
   LD_W_ABS offset_nr] ++
  flat_map allow_rule allowlist ++
  [RET_K (Z.lor SECCOMP_RET_ERRNO EPERM)].

(** The program handed to the kernel: [len] is the size as an [unsigned short]. *)
Definition installed_program (allowlist : list Z) : list sock_filter :=
  let filter := seccomp_filter allowlist in
  take (Z.to_nat (u16 (Z.of_nat (length filter)))) filter.

(** ** What the filter decides *)

Definition decision (allowlist : list Z) (d : seccomp_data) : Z :=
  if negb (u32 (sd_arch d) =? AUDIT_ARCH_X86_64) then SECCOMP_RET_KILL_PROCESS
  else if existsb (λ n, u32 (sd_nr d) =? u32 n) allowlist then SECCOMP_RET_ALLOW
  else Z.lor SECCOMP_RET_ERRNO EPERM.

Section Filter.
Context (exec : list sock_filter → nat → Z → seccomp_data → Z) `{Bpf exec}.

(** From the first rule of a suffix of the allowlist on. *)
Lemma rules_decide before rules after d :
  exec (before ++ flat_map allow_rule rules ++ after) (length before) (u32 (sd_nr d)) d =
  if existsb (λ n, u32 (sd_nr d) =? u32 n) rules then SECCOMP_RET_ALLOW
  else exec (before ++ flat_map allow_rule rules ++ after)
         (length (before ++ flat_map allow_rule rules)) (u32 (sd_nr d)) d.
Proof.
  revert before. induction rules as [|n rules IH]; intros before.
  { simpl. by rewrite app_nil_r. }
  cbn [existsb flat_map]. set (prog := before ++ (allow_rule n ++ flat_map allow_rule rules) ++ after).
  assert (prog !! length before = Some (JEQ_K (u32 n) 0 1)) as E1
    by (unfold prog; rewrite lookup_app_r, Nat.sub_diag by lia; done).
  rewrite (bpf_jeq _ _ _ _ _ _ _ E1). destruct (Z.eqb_spec (u32 (sd_nr d)) (u32 n)) as [E|E]; cbn [orb].
  - assert (prog !! (S (length before) + 0)%nat = Some (RET_K SECCOMP_RET_ALLOW)) as E2.
    { unfold prog. rewrite lookup_app_r by lia.
      by replace (S (length before) + 0 - length before)%nat with 1%nat by lia. }
    apply (bpf_ret _ _ _ _ _ E2).
  - assert (prog = (before ++ allow_rule n) ++ flat_map allow_rule rules ++ after) as ->
      by (unfold prog; by rewrite <- !app_assoc).
    replace (S (length before) + 1)%nat with (length (before ++ allow_rule n))
      by (rewrite length_app; simpl; lia).
    rewrite IH. by rewrite <- !app_assoc.
Qed.

Lemma filter_decides allowlist d : exec (seccomp_filter allowlist) 0 0 d = decision allowlist d.
Proof.
  unfold seccomp_filter, decision.
  set (head := [LD_W_ABS offset_arch; JEQ_K AUDIT_ARCH_X86_64 1 0; RET_K SECCOMP_RET_KILL_PROCESS;
                LD_W_ABS offset_nr]).
  set (tail := [RET_K (Z.lor SECCOMP_RET_ERRNO EPERM)]).
  set (prog := head ++ flat_map allow_rule allowlist ++ tail).
  rewrite (bpf_ld prog 0 0 d offset_arch eq_refl).
  change (data_word d offset_arch) with (u32 (sd_arch d)).
  rewrite (bpf_jeq prog 1 _ d AUDIT_ARCH_X86_64 1 0 eq_refl).
  destruct (Z.eqb_spec (u32 (sd_arch d)) AUDIT_ARCH_X86_64); cbn [negb Nat.add].
  - rewrite (bpf_ld prog 3 _ d offset_nr eq_refl).
    change (data_word d offset_nr) with (u32 (sd_nr d)).
    change (exec prog (length head) (u32 (sd_nr d)) d =
      if existsb (λ n, u32 (sd_nr d) =? u32 n) allowlist then SECCOMP_RET_ALLOW
      else Z.lor SECCOMP_RET_ERRNO EPERM).
    unfold prog. rewrite rules_decide.
    case_match; [done|]. apply bpf_ret. by rewrite app_assoc, lookup_app_r, Nat.sub_diag by lia.
  - apply (bpf_ret prog 2 _ d _ eq_refl).
Qed.

(** C11: the filter kills a process of a foreign architecture, allows exactly
    the calls of the allowlist and answers every other call with [EPERM]; the
    program the kernel gets is the whole filter as long as its length fits the
    16-bit field. *)
Theorem seccomp_exact allowlist d :
  Z.of_nat (length allowlist) * 2 + 5 < 2 ^ 16 →
  exec (installed_program allowlist) 0 0 d = decision allowlist d ∧
  (decision allowlist d = SECCOMP_RET_ALLOW ↔
   u32 (sd_arch d) = AUDIT_ARCH_X86_64 ∧ ∃ n, n ∈ allowlist ∧ u32 (sd_nr d) = u32 n).
Proof.
  intros Hl. split.
  - unfold installed_program. rewrite take_ge; [apply filter_decides|].
    assert (Z.of_nat (length (seccomp_filter allowlist)) = Z.of_nat (length allowlist) * 2 + 5) as E.
    { unfold seccomp_filter. rewrite !length_app. simpl.
      assert (length (flat_map allow_rule allowlist) = (2 * length allowlist)%nat) as ->; [|lia].
      clear. induction allowlist as [|n l IH]; [done|]. simpl. rewrite IH. lia. }
    unfold u16. rewrite Z.mod_small by lia. lia.
  - unfold decision. destruct (Z.eqb_spec (u32 (sd_arch d)) AUDIT_ARCH_X86_64); cbn [negb].
    + destruct (existsb _ _) eqn:E.
      * split; [|done]. intros _. split; [done|]. apply existsb_exists in E as (n & Hn & E).
        exists n. split; [by apply list_elem_of_In|]. by apply Z.eqb_eq.
      * split; [intros Hbad; vm_compute in Hbad; discriminate Hbad|]. intros [_ (n & Hn & E')]. apply not_true_iff_false in E.
        exfalso. apply E, existsb_exists. exists n. split; [by apply list_elem_of_In|].
        by apply Z.eqb_eq.
    + split; [intros Hbad; vm_compute in Hbad; discriminate Hbad|]. by intros [? _].
Qed.

End Filter.

(** ** An interpreter *)

(** The three instructions, on fuel that the length of the program bounds:
    jumps are forward. *)
Fixpoint bpf_steps (fuel : nat) (prog : list sock_filter) (pc : nat) (a : Z) (d : seccomp_data) : Z :=
  match fuel with
  | O => 0
  | S fuel =>
      match prog !! pc with
      | Some (LD_W_ABS k) => bpf_steps fuel prog (S pc) (data_word d k) d
      | Some (JEQ_K k jt jf) => bpf_steps fuel prog (S pc + (if Z.eqb a k then jt else jf))%nat a d
      | Some (RET_K k) => k
      | None => 0
      end
  end.

Definition bpf_exec (prog : list sock_filter) (pc : nat) (a : Z) (d : seccomp_data) : Z :=
  bpf_steps (S (length prog) - pc) prog pc a d.

Lemma bpf_steps_more fuel fuel' prog pc a d :
  (S (length prog) - pc ≤ fuel)%nat → (S (length prog) - pc ≤ fuel')%nat →
  bpf_steps fuel prog pc a d = bpf_steps fuel' prog pc a d.
Proof.
  revert fuel' pc a. induction fuel as [|fuel IH]; intros fuel' pc a Hf Hf'.
  - destruct fuel'; [done|]. simpl. rewrite lookup_ge_None_2 by lia. done.
  - destruct fuel' as [|fuel'].
    { simpl. rewrite lookup_ge_None_2 by lia. done. }
    simpl. destruct (prog !! pc) as [[k|k jt jf|k]|] eqn:E; [| |done..].
    + apply lookup_lt_Some in E. apply IH; lia.
    + apply lookup_lt_Some in E. apply IH; lia.
Qed.

#[export] Instance bpf_exec_laws : Bpf bpf_exec.
Proof.
  split; intros prog pc a d k; unfold bpf_exec.
  - intros E. apply lookup_lt_Some in E as Hl.
    replace (S (length prog) - pc)%nat with (S (length prog - pc)) by lia.
    cbn [bpf_steps]. rewrite E. apply bpf_steps_more; lia.
  - intros jt jf E. apply lookup_lt_Some in E as Hl.
    replace (S (length prog) - pc)%nat with (S (length prog - pc)) by lia.
    cbn [bpf_steps]. rewrite E. apply bpf_steps_more; lia.
  - intros E. apply lookup_lt_Some in E as Hl.
    replace (S (length prog) - pc)%nat with (S (length prog - pc)) by lia.
    cbn [bpf_steps]. by rewrite E.
Qed.

Lemma seccomp_exact_witness :
  let d := mkSeccompData SYS_openat AUDIT_ARCH_X86_64 in
  bpf_exec (installed_program [SYS_read; SYS_openat]) 0 0 d = decision [SYS_read; SYS_openat] d ∧
  (decision [SYS_read; SYS_openat] d = SECCOMP_RET_ALLOW ↔
   u32 (sd_arch d) = AUDIT_ARCH_X86_64 ∧ ∃ n, n ∈ [SYS_read; SYS_openat] ∧ u32 (sd_nr d) = u32 n).
Proof. apply (seccomp_exact bpf_exec). simpl. lia. Defined.

(** Under the default allowlist of packages the calls that would leave the
    sandbox or change the machine (mount, umount2, pivot_root, chroot, unshare,
    setns, bpf, init_module, finit_module, kexec_load, reboot, swapon,
    process_vm_writev, keyctl, setuid) are refused on x86_64, while the calls
    the sandbox itself still makes after the filter is in place (setrlimit and
    prlimit64, setresgid, setresuid, execve; ptrace, wait4 and kill of the
    tracer) are allowed. *)
Theorem package_calls_decided :
  let verdict n := decision default_package_syscalls (mkSeccompData n AUDIT_ARCH_X86_64) in
  Forall (λ n, verdict n = Z.lor SECCOMP_RET_ERRNO EPERM)
    [165; 166; 155; 161; 272; 308; 321; 175; 313; 246; 169; 167; 311; 250; 105] ∧
  Forall (λ n, verdict n = SECCOMP_RET_ALLOW)
    [SYS_setrlimit; SYS_prlimit64; SYS_setresgid; SYS_setresuid; SYS_execve; SYS_ptrace;
     SYS_wait4; SYS_kill].
Proof. split; repeat constructor; vm_compute; reflexivity. Qed.
