(* ===== verification/Sandbox.v ===== *)
(** * The sandbox (include/execell/sandbox, src/sandbox/sandbox.cpp, backend.cpp)

    Validation of a configuration, the attestation of one, the files of a
    cgroup budget, and the sequence of steps the child takes before it becomes
    the program.  The file system, the environment and the system calls are
    parameters. *)

From S2P Require Import Prelude CxxString FsPath Json.

(** ** Configuration *)

Inductive Backend := namespaces | vm.

#[export] Instance Backend_eq_dec : EqDecision Backend.
Proof. solve_decision. Defined.

Record CgroupBudget := mkCgroup {
  cg_path : string;
  memory_max : Z;
  pids_max : Z;
  cpu_quota_us : Z;
  cpu_period_us : Z;
}.

Record Config := mkConfig {
  backend : Backend;
  user_namespace : bool;
  mount_namespace : bool;
  network_namespace : bool;
  drop_capabilities : bool;
  no_new_privileges : bool;
  read_only_root : bool;
  clean_environment : bool;
  drop_to_unprivileged_user : bool;
  mount_proc : bool;
  mount_run : bool;
  trace_events : bool;
  cpu_seconds : Z;
  address_space_bytes : Z;
  max_processes : Z;
  max_file_bytes : Z;
  rootfs : string;
  working_directory : string;
  seccomp_allowlist : list Z;
  cgroup : CgroupBudget;
}.

(** [Config{}] *)
Definition default_config : Config :=
  mkConfig namespaces true true false true true true false false true true false
    0 0 0 0 "" "" [] (mkCgroup "" 0 0 0 100000).

(** ** Validation *)

Section Validate.
(** [getenv("PATH")], [access(path, X_OK) == 0], [std::filesystem::is_symlink] *)
Context (env_path : option string) (access_x : string → bool) (is_symlink : string → bool).

Definition executable (name : string) : bool :=
  match env_path with
  | None => false
  | Some paths =>
      match component_loop (S (str_length paths)) (λ directory, access_x (directory +:+ "/" +:+ name))
              ":"%char paths 0 with
      | Some true => true
      | _ => false
      end
  end.

Record BackendCapabilities := mkCapabilities {
  has_namespaces : bool; has_firecracker : bool; has_qemu : bool }.

Definition detect_backends : BackendCapabilities :=
  mkCapabilities true (executable "firecracker") (executable "qemu-system-x86_64").

Definition validate_backend (b : Backend) : expected unit string :=
  if bool_decide (b = namespaces) then Ok ()
  else
    let capabilities := detect_backends in
    if negb (has_firecracker capabilities) && negb (has_qemu capabilities)
    then Err "VM backend unavailable: Firecracker or QEMU required"
    else Err "VM backend detected but implementation unavailable".

Definition validate_cgroup (budget : CgroupBudget) : expected unit string :=
  if bool_decide (cg_path budget = "") then Ok ()
  else if negb (is_absolute (cg_path budget)) || is_symlink (cg_path budget)
  then Err "cgroup path must be absolute and non-symlink"
  else if (cpu_period_us budget =? 0) || (1000000 <? cpu_period_us budget)
  then Err "invalid cgroup CPU period"
  else if negb (cpu_quota_us budget =? 0) && (u64 (cpu_period_us budget * 1024) <? cpu_quota_us budget)
  then Err "cgroup CPU quota exceeds safety ceiling"
  else Ok ().

Definition validate (c : Config) : expected unit string :=
  if mount_namespace c && negb (user_namespace c)
  then Err "mount namespace requires user namespace for unprivileged setup"
  else
    try! _ := validate_backend (backend c) in
    if negb (drop_capabilities c) && (mount_namespace c || network_namespace c)
    then Err "sandbox must drop capabilities before namespace setup"
    else if negb (bool_decide (seccomp_allowlist c = [])) && negb (no_new_privileges c)
    then Err "seccomp requires no_new_privileges"
    else if 86400 <? cpu_seconds c then Err "cpu limit exceeds 24 hours"
    else if negb (address_space_bytes c =? 0) && (address_space_bytes c <? 4096)
    then Err "address-space limit is below page size"
    else if (0 <? max_processes c) && (100000 <? max_processes c)
    then Err "process limit exceeds safety ceiling"
    else validate_cgroup (cgroup c).

(** The configurations a sandbox can be started with. *)
Record acceptable_cgroup (b : CgroupBudget) : Prop := {
  ac_path : is_absolute (cg_path b) = true ∧ is_symlink (cg_path b) = false;
  ac_period : 0 < cpu_period_us b ≤ 1000000;
  ac_quota : cpu_quota_us b ≤ 1024 * cpu_period_us b;
}.

Record acceptable (c : Config) : Prop := {
  ac_backend : backend c = namespaces;
  ac_mount : mount_namespace c = true → user_namespace c = true;
  ac_capabilities :
    mount_namespace c = true ∨ network_namespace c = true → drop_capabilities c = true;
  ac_seccomp : seccomp_allowlist c ≠ [] → no_new_privileges c = true;
  ac_cpu : cpu_seconds c ≤ 86400;
  ac_memory : address_space_bytes c = 0 ∨ 4096 ≤ address_space_bytes c;
  ac_processes : max_processes c ≤ 100000;
  ac_cgroup : cg_path (cgroup c) = "" ∨ acceptable_cgroup (cgroup c);
}.

(** The unsigned members hold unsigned values. *)
Definition config_wf (c : Config) : Prop :=
  0 ≤ cpu_seconds c ∧ 0 ≤ address_space_bytes c ∧ 0 ≤ max_processes c ∧
  0 ≤ cpu_quota_us (cgroup c) ∧ 0 ≤ cpu_period_us (cgroup c).

Lemma validate_backend_ok b : validate_backend b = Ok () ↔ b = namespaces.
Proof. unfold validate_backend. destruct b; simpl; [done|]. by case_match. Qed.

Lemma validate_cgroup_ok b :
  0 ≤ cpu_quota_us b → 0 ≤ cpu_period_us b →
  (validate_cgroup b = Ok () ↔ cg_path b = "" ∨ acceptable_cgroup b).
Proof.
  intros Hq Hp. unfold validate_cgroup. case_bool_decide as Hc; [tauto|].
  destruct (is_absolute (cg_path b)) eqn:Ha; cbn [negb orb];
    [|split; [done|]; intros [|[[? _] _ _]]; congruence].
  destruct (is_symlink (cg_path b)) eqn:Hs;
    [split; [done|]; intros [|[[_ ?] _ _]]; congruence|].
  destruct (Z.eqb_spec (cpu_period_us b) 0); cbn [orb];
    [split; [done|]; intros [|[_ ? _]]; [done|lia]|].
  destruct (Z.ltb_spec 1000000 (cpu_period_us b));
    [split; [done|]; intros [|[_ ? _]]; [done|lia]|].
  rewrite u64_small by lia.
  destruct (Z.eqb_spec (cpu_quota_us b) 0), (Z.ltb_spec (cpu_period_us b * 1024) (cpu_quota_us b));
    cbn [negb andb]; split; try done; try (intros [|[_ _ ?]]; [done|lia]);
    intros _; right; split; split_and?; done || lia.
Qed.

(** Validation accepts exactly the configurations that are acceptable: only
    the namespace backend, a mount namespace only with a user namespace,
    namespaces only with capabilities dropped, seccomp only with
    no_new_privileges, limits within their bounds, and a cgroup that is absent
    or an absolute path that is no symlink with a sane period and quota. *)
Theorem validate_exact c : config_wf c → (validate c = Ok () ↔ acceptable c).
Proof.
  intros (Hcpu & Hmem & Hproc & Hq & Hp). unfold validate.
  pose proof (validate_backend_ok (backend c)) as Hb.
  pose proof (validate_cgroup_ok (cgroup c) Hq Hp) as Hg.
  destruct (mount_namespace c && negb (user_namespace c)) eqn:E1.
  { split; [done|]. intros [_ Hm _ _ _ _ _ _]. destruct (mount_namespace c), (user_namespace c); naive_solver. }
  destruct (validate_backend (backend c)) as [[]|] eqn:Eb; cbn [expected_bind];
    [|split; [done|]; intros [? _ _ _ _ _ _ _]; naive_solver].
  destruct (negb (drop_capabilities c) && _) eqn:E2.
  { split; [done|]. intros [_ _ Hd _ _ _ _ _].
    destruct (drop_capabilities c), (mount_namespace c), (network_namespace c); naive_solver. }
  destruct (negb (bool_decide (seccomp_allowlist c = [])) && _) eqn:E3.
  { split; [done|]. intros [_ _ _ Hs _ _ _ _]. revert E3. case_bool_decide; [done|].
    by rewrite Hs. }
  destruct (Z.ltb_spec 86400 (cpu_seconds c)).
  { split; [done|]. intros [_ _ _ _ ? _ _ _]. lia. }
  destruct (negb (address_space_bytes c =? 0) && _) eqn:E5.
  { split; [done|]. intros [_ _ _ _ _ ? _ _].
    rewrite andb_true_iff, negb_true_iff, Z.eqb_neq, Z.ltb_lt in E5. lia. }
  destruct ((0 <? max_processes c) && _) eqn:E6.
  { split; [done|]. intros [_ _ _ _ _ _ ? _]. rewrite andb_true_iff, !Z.ltb_lt in E6. lia. }
  rewrite Hg. split; [|by intros []]. intros Hcg. constructor.
  - by apply Hb.
  - destruct (mount_namespace c), (user_namespace c); naive_solver.
  - destruct (drop_capabilities c), (mount_namespace c), (network_namespace c); naive_solver.
  - intros Hne. revert E3. rewrite bool_decide_eq_false_2 by done.
    by destruct (no_new_privileges c).
  - done.
  - rewrite andb_false_iff, negb_false_iff, Z.eqb_eq, Z.ltb_ge in E5. lia.
  - rewrite andb_false_iff, !Z.ltb_ge in E6. lia.
  - done.
Qed.

(** Looking for an executable tries the directories of [PATH] in order and
    finds it exactly when one of them holds it. *)
Theorem executable_exact name :
  executable name = true ↔
  ∃ paths directory, env_path = Some paths ∧ directory ∈ split_on ":" paths ∧
    access_x (directory +:+ "/" +:+ name) = true.
Proof.
  unfold executable. destruct env_path as [paths|].
  - rewrite component_loop_spec. destruct (existsb _ _) eqn:E.
    + split; [|done]. intros _. apply existsb_exists in E as (d & Hd & Ha).
      exists paths, d. split; [done|]. split; [by apply list_elem_of_In|done].
    + split; [done|]. intros (p & d & [= <-] & Hd & Ha). apply not_true_iff_false in E.
      exfalso. apply E, existsb_exists. exists d. split; [by apply list_elem_of_In|done].
  - split; [done|]. by intros (? & ? & ? & _).
Qed.

End Validate.

Lemma validate_exact_witness :
  validate None (λ _, false) (λ _, false) default_config = Ok () ↔
  acceptable (λ _, false) default_config.
Proof. apply validate_exact. unfold config_wf. cbn. lia. Defined.

(** ** Attestation *)

(** [s.insert(position, 1U, c)] *)
Definition str_insert (s : string) (position : nat) (c : ascii) : string :=
  str_take position s +:+ String c (str_drop position s).

(** [while ((position = rootfs.find_first_of(...)) != npos) { insert; position += 2; }] *)
Fixpoint escape_loop (fuel : nat) (s : string) (position : nat) : option string :=
  match fuel with
  | O => None
  | S fuel =>
      match find_first_of s (String backslash (str dquote)) position with
      | None => Some s
      | Some position => escape_loop fuel (str_insert s position backslash) (position + 2)
      end
  end.

(** [attestation]; the loop cannot run out of fuel ([escape_loop_spec]). *)
Definition attestation (c : Config) : string :=
  let root := default "" (escape_loop (S (str_length (rootfs c))) (rootfs c) 0) in
  quoted "{'schema_version':1,'backend':'" +:+
  (if bool_decide (backend c = vm) then "vm" else "namespace") +:+
  quoted "','user_namespace':" +:+ bool_text (user_namespace c) +:+
  quoted ",'mount_namespace':" +:+ bool_text (mount_namespace c) +:+
  quoted ",'network_namespace':" +:+ bool_text (network_namespace c) +:+
  quoted ",'no_new_privileges':" +:+ bool_text (no_new_privileges c) +:+
  quoted ",'capabilities_dropped':" +:+ bool_text (drop_capabilities c) +:+
  quoted ",'seccomp':" +:+ bool_text (negb (bool_decide (seccomp_allowlist c = []))) +:+
  quoted ",'clean_environment':" +:+ bool_text (clean_environment c) +:+
  quoted ",'cgroup':" +:+ bool_text (negb (bool_decide (cg_path (cgroup c) = ""))) +:+
  quoted ",'rootfs':'" +:+ root +:+ quoted "'}".

(** The escape the loop amounts to. *)
Definition attest_char (c : ascii) : string :=
  if bool_decide (c = backslash) || bool_decide (c = dquote) then String backslash (str c)
  else str c.

Lemma find_first_of_drop s set pos :
  (pos ≤ str_length s)%nat →
  find_first_of s set pos =
  Nat.add pos <$> find_suffix
    (λ t, match t with "" => false | String c _ => str_elem c set end) (str_drop pos s).
Proof. intros Hp. unfold find_first_of. by rewrite (proj2 (Nat.leb_le _ _) Hp). Qed.

Lemma escape_loop_app fuel a b :
  (str_length b < fuel)%nat →
  escape_loop fuel (a +:+ b) (str_length a) = Some (a +:+ escape_with attest_char b).
Proof.
  revert fuel a. induction b as [|c b IH]; intros fuel a Hf; destruct fuel as [|fuel];
    try (unfold str_length in Hf; simpl in Hf; lia).
  - cbn [escape_loop]. rewrite find_first_of_drop by (rewrite str_length_app; lia).
    by rewrite str_drop_app.
  - assert (∀ d, a +:+ String d b = (a +:+ str d) +:+ b) as Ha by (intros; by rewrite app_assoc_str).
    cbn [escape_loop escape_with]. rewrite find_first_of_drop by (rewrite str_length_app; lia).
    rewrite str_drop_app. cbn [find_suffix].
    destruct (str_elem c (String backslash (str dquote))) eqn:Ec.
    + cbn [fmap option_fmap option_map]. rewrite Nat.add_0_r. unfold str_insert.
      rewrite str_take_app, str_drop_app.
      assert (attest_char c = String backslash (str c)) as ->.
      { unfold attest_char. cbn [str_elem str] in Ec. rewrite orb_false_r in Ec. by rewrite Ec. }
      replace (a +:+ String backslash (String c b)) with ((a +:+ String backslash (str c)) +:+ b)
        by by rewrite app_assoc_str.
      replace (str_length a + 2)%nat with (str_length (a +:+ String backslash (str c)))
        by (rewrite str_length_app; done).
      rewrite IH by (unfold str_length in *; simpl in Hf; lia). by rewrite app_assoc_str.
    + assert (attest_char c = str c) as ->.
      { unfold attest_char. cbn [str_elem str] in Ec. rewrite orb_false_r in Ec. by rewrite Ec. }
      specialize (IH (S fuel) (a +:+ str c)). rewrite <- Ha, app_assoc_str in IH.
      rewrite <- IH by (unfold str_length in *; simpl in Hf; lia). cbn [escape_loop].
      rewrite find_first_of_drop by (rewrite !str_length_app; unfold str_length; simpl; lia).
      rewrite Ha, str_drop_app, str_length_app. change (str_length (str c)) with 1%nat.
      destruct (find_suffix _ b); cbn [fmap option_fmap option_map]; [|done].
      by replace (str_length a + 1 + n)%nat with (str_length a + S n)%nat by lia.
Qed.

Lemma escape_loop_spec s :
  escape_loop (S (str_length s)) s 0 = Some (escape_with attest_char s).
Proof. apply (escape_loop_app (S (str_length s)) "" s). lia. Qed.

(** What an attestation says. *)
Definition attestation_json (c : Config) : json :=
  JObj [("schema_version", JNum 1);
        ("backend", JStr (if bool_decide (backend c = vm) then "vm" else "namespace"));
        ("user_namespace", JBool (user_namespace c));
        ("mount_namespace", JBool (mount_namespace c));
        ("network_namespace", JBool (network_namespace c));
        ("no_new_privileges", JBool (no_new_privileges c));
        ("capabilities_dropped", JBool (drop_capabilities c));
        ("seccomp", JBool (negb (bool_decide (seccomp_allowlist c = []))));
        ("clean_environment", JBool (clean_environment c));
        ("cgroup", JBool (negb (bool_decide (cg_path (cgroup c) = ""))));
        ("rootfs", JStr (rootfs c))].

Definition printable (c : ascii) : bool := 32 <=? code c.

Lemma printable_encodes c : printable c = true → encodes attest_char c.
Proof.
  intros H rest. destruct c as [[] [] [] [] [] [] [] []]; try discriminate H; done.
Qed.

Lemma printable_encodes_str s : str_forall printable s = true → encodes_str attest_char s.
Proof.
  induction s as [|c s IH]; [done|]. cbn [str_forall encodes_str]. rewrite andb_true_iff.
  intros [? ?]. split; [by apply printable_encodes|auto].
Qed.

Lemma attestation_print c : attestation c = print_json attest_char (attestation_json c).
Proof.
  unfold attestation. rewrite escape_loop_spec. cbn [default from_option].
  unfold attestation_json. cbn [print_json map join fst snd]. unfold print_string.
  destruct (bool_decide (backend c = vm)); autorewrite with execell_str; reflexivity.
Qed.

(** The attestation of a configuration whose root path holds no control
    character is a JSON object that reads back as the configuration's
    isolation settings, the path included. *)
Theorem attestation_reads_back c :
  str_forall printable (rootfs c) = true →
  parse_document (attestation c) = Some (attestation_json c).
Proof.
  intros Hr. rewrite attestation_print. apply parse_print. unfold attestation_json.
  cbn [encodable foldr fst snd].
  split_and!; try done; try (by apply printable_encodes_str);
    apply printable_encodes_str; by destruct (bool_decide (backend c = vm)).
Qed.

Lemma attestation_reads_back_witness :
  parse_document (attestation default_config) = Some (attestation_json default_config).
Proof. apply attestation_reads_back. reflexivity. Defined.
