(* ===== verification/SandboxSetup.v ===== *)
(** * Setting a sandbox up (src/sandbox/sandbox.cpp)

    The helpers that write control files, the cgroup budget, the resource
    limits, and the steps of the child of [sandbox::run] up to the program.
    System calls are parameters; a step of the child is a value, so that what
    was attempted, in which order and with which result can be stated. *)

From S2P Require Import Prelude CxxString FsPath Sandbox.

(** ** Writing a file *)

Definition EINTR : Z := 4.

(** [open(path, O_WRONLY)], [write], [close]; an error is an [errno]. *)
Record FileOps (W : Type) := mkFileOps {
  f_open : W → string → expected Z Z * W;
  f_write : W → Z → string → expected Z Z * W;
  f_close : W → Z → bool * W;
}.
Arguments f_open {W}.
Arguments f_write {W}.
Arguments f_close {W}.

Section Files.
Context {W : Type} (F : FileOps W).

(** The loop of [write_file], the rest of the value given as the string from
    [offset] on: whether everything was written. *)
Fixpoint write_loop (fuel : nat) (w : W) (fd : Z) (rest : string) : option (bool * W) :=
  match fuel with
  | O => None
  | S fuel =>
      if bool_decide (rest = "") then Some (true, w)
      else
        match f_write F w fd rest with
        | (Ok written, w) => write_loop fuel w fd (str_drop (Z.to_nat written) rest)
        | (Err e, w) => if e =? EINTR then write_loop fuel w fd rest else Some (false, w)
        end
  end.

(** [write_file] *)
Definition write_file (fuel : nat) (w : W) (path value : string) : option (bool * W) :=
  match f_open F w path with
  | (Err _, w) => Some (false, w)
  | (Ok fd, w) =>
      '(done, w) ← write_loop fuel w fd value;
      if (done : bool) then Some (f_close F w fd)
      else Some (false, (f_close F w fd).2)
  end.

(** [configure_cgroup] *)
Definition configure_cgroup (fuel : nat) (w : W) (pid : Z) (budget : CgroupBudget)
    : option (bool * W) :=
  if bool_decide (cg_path budget = "") then Some (true, w)
  else
    let write w name value := write_file fuel w (path_append (cg_path budget) name) value in
    let unless (limit : Z) w name value (k : W → option (bool * W)) :=
      if limit =? 0 then k w
      else '(ok, w) ← write w name value; if (ok : bool) then k w else Some (false, w) in
    unless (memory_max budget) w "memory.max" (to_string (memory_max budget)) (λ w,
    unless (pids_max budget) w "pids.max" (to_string (pids_max budget)) (λ w,
    unless (cpu_quota_us budget) w "cpu.max"
      (to_string (cpu_quota_us budget) +:+ " " +:+ to_string (cpu_period_us budget)) (λ w,
    write w "cgroup.procs" (to_string pid)))).

(** *** What the operations guarantee *)

(** [written w fd] is the data accepted on an open descriptor. *)
Class FileLaws (written : W → Z → string) := {
  open_empty w path fd w' : f_open F w path = (Ok fd, w') → written w' fd = "";
  write_accepts w fd s n w' :
    f_write F w fd s = (Ok n, w') → s ≠ "" →
    0 < n ≤ size s ∧ written w' fd = written w fd +:+ str_take (Z.to_nat n) s;
  write_refuses w fd s e w' : f_write F w fd s = (Err e, w') → written w' fd = written w fd;
}.

Context (written : W → Z → string) `{!FileLaws written}.

Lemma write_loop_complete fuel w fd rest w' :
  write_loop fuel w fd rest = Some (true, w') → written w' fd = written w fd +:+ rest.
Proof.
  revert w rest. induction fuel as [|fuel IH]; intros w rest; [done|]. cbn [write_loop].
  case_bool_decide as Hr; [subst; intros [= <-]; by rewrite app_empty_r|].
  destruct (f_write F w fd rest) as [[n|e] w1] eqn:E.
  - destruct (write_accepts _ _ _ _ _ E Hr) as [_ Hw]. intros H. rewrite (IH _ _ H), Hw.
    by rewrite app_assoc_str, str_take_drop.
  - apply write_refuses in E. destruct (_ =? EINTR); [|done]. intros H.
    by rewrite (IH _ _ H), E.
Qed.

(** Short and interrupted writes are completed: when [write_file] reports
    success the file was opened, exactly the given value was written to it, and
    it was closed without error. *)
Theorem write_file_complete fuel w path value w' :
  write_file fuel w path value = Some (true, w') →
  ∃ fd w1 w2, f_open F w path = (Ok fd, w1) ∧ written w2 fd = value ∧
    f_close F w2 fd = (true, w').
Proof.
  unfold write_file. destruct (f_open F w path) as [[fd|e] w1] eqn:Eo; [|done].
  destruct (write_loop fuel w1 fd value) as [[[] w2]|] eqn:E; [| |done]; cbn [mbind option_bind].
  - intros [= Hc]. exists fd, w1, w2. split; [done|]. split; [|by destruct (f_close F w2 fd)].
    rewrite (write_loop_complete _ _ _ _ _ E). by rewrite (open_empty _ _ _ _ Eo).
  - done.
Qed.

End Files.

(** A file system of one open file that takes at most three bytes at a time. *)
Definition slow_files : FileOps string := {|
  f_open w _ := (Ok 5, "");
  f_write w _ s := (Ok (size (str_take 3 s)), w +:+ str_take 3 s);
  f_close w _ := (true, w);
|}.

#[export] Instance slow_files_laws : FileLaws slow_files (λ w _, w).
Proof.
  split; cbn.
  - by intros w path fd w' [= <- <-].
  - intros w fd s n w' [= <- <-] Hs. unfold size. rewrite Nat2Z.id.
    destruct s as [|a [|b [|c s]]]; [done|unfold str_length; simpl; split; [lia|done]..].
  - done.
Qed.

Lemma write_file_complete_witness :
  ∃ fd w1 w2, f_open slow_files "" "/x" = (Ok fd, w1) ∧ w2 = "0 1000 1" ∧
    f_close slow_files w2 fd = (true, "0 1000 1").
Proof.
  apply (write_file_complete slow_files (λ w _, w) 9 "" "/x" "0 1000 1"). vm_compute. reflexivity.
Defined.

(** ** The cgroup budget *)

(** The control files of a budget, in the order they are written. *)
Definition cgroup_files (pid : Z) (b : CgroupBudget) : list (string * string) :=
  (if memory_max b =? 0 then [] else [("memory.max", to_string (memory_max b))]) ++
  (if pids_max b =? 0 then [] else [("pids.max", to_string (pids_max b))]) ++
  (if cpu_quota_us b =? 0 then []
   else [("cpu.max", to_string (cpu_quota_us b) +:+ " " +:+ to_string (cpu_period_us b))]) ++
  [("cgroup.procs", to_string pid)].

Section Cgroup.
Context {W : Type} (F : FileOps W) (fuel : nat).

(** Files written completely, one after the other. *)
Inductive wrote (directory : string) : W → list (string * string) → W → Prop :=
| wrote_nil w : wrote directory w [] w
| wrote_cons w name value w1 files w2 :
    write_file F fuel w (path_append directory name) value = Some (true, w1) →
    wrote directory w1 files w2 → wrote directory w ((name, value) :: files) w2.

(** The process joins its cgroup only after every limit of the budget is in
    force: success means that exactly the files of the non-zero limits were
    written completely, in order, and [cgroup.procs] last. *)
Theorem cgroup_limits_first pid b w w' :
  cg_path b ≠ "" → configure_cgroup F fuel w pid b = Some (true, w') →
  wrote (cg_path b) w (cgroup_files pid b) w'.
Proof.
  intros Hb. unfold configure_cgroup, cgroup_files. rewrite bool_decide_eq_false_2 by done.
  cbn zeta beta.
  destruct (memory_max b =? 0), (pids_max b =? 0), (cpu_quota_us b =? 0); cbn [app]; intros Hc;
    repeat match type of Hc with
           | (write_file ?F ?n ?w ?p ?v ≫= _) = _ =>
               destruct (write_file F n w p v) as [[[] ?]|] eqn:?; cbn [mbind option_bind] in Hc;
               [|done..]
           end;
    repeat (econstructor; [eassumption|]); constructor.
Qed.

End Cgroup.

Lemma cgroup_limits_first_witness :
  wrote slow_files 20 "/sys/fs/cgroup/x" ""
    (cgroup_files 42 (mkCgroup "/sys/fs/cgroup/x" 1048576 0 50000 100000)) "42".
Proof.
  apply (cgroup_limits_first slow_files 20 42 (mkCgroup "/sys/fs/cgroup/x" 1048576 0 50000 100000));
    [discriminate|vm_compute; reflexivity].
Defined.

(** ** The steps of the child *)

Inductive CloneFlag := CLONE_NEWUSER | CLONE_NEWNS | CLONE_NEWNET.
Inductive Rlimit := RLIMIT_CPU | RLIMIT_AS | RLIMIT_NPROC | RLIMIT_FSIZE.

Inductive ChildStep :=
| Setpgid
| SetParentDeathSignal (expected_parent : Z)
| Unshare (flag : CloneFlag)
| DenySetgroups
| AwaitMapping
| MountPrivate
| BindRoot
| RemountRootReadOnly
| Chroot (path : string)
| Chdir (path : string)
| PrepareDirectory (path : string)
| MountProc
| MountRun
| MountTmp
| Capset
| NoNewPrivs
| Seccomp (allowlist : list Z)
| Setrlimit (resource : Rlimit) (value : Z)
| Setresgid
| Setresuid
| Clearenv
| Setenv (name value : string).

(** What becomes of the child. *)
Inductive ChildResult := Exited (code : Z) | Executed | Traced.

Definition only (guard : bool) (steps : list ChildStep) : list ChildStep :=
  if guard then steps else [].

(** [set_limits] *)
Definition set_limits (c : Config) : list ChildStep :=
  only (negb (cpu_seconds c =? 0)) [Setrlimit RLIMIT_CPU (cpu_seconds c)] ++
  only (negb (address_space_bytes c =? 0)) [Setrlimit RLIMIT_AS (address_space_bytes c)] ++
  only (negb (max_processes c =? 0)) [Setrlimit RLIMIT_NPROC (max_processes c)] ++
  only (negb (max_file_bytes c =? 0)) [Setrlimit RLIMIT_FSIZE (max_file_bytes c)].

(** [mount_runtime_filesystems] *)
Definition mount_runtime_filesystems (c : Config) : list ChildStep :=
  only (negb (bool_decide (rootfs c = "")))
    (only (mount_proc c) [PrepareDirectory "/proc"; MountProc] ++
     only (mount_run c) [PrepareDirectory "/run"; MountRun]).

(** [clean_environment] *)
Definition clean_environment_steps : list ChildStep :=
  [Clearenv; Setenv "PATH" "/usr/bin:/bin"; Setenv "HOME" "/tmp"; Setenv "TMPDIR" "/tmp";
   Setenv "LANG" "C"; Setenv "LC_ALL" "C"].

(** The steps of the branch [pid == 0] of [run], in order. *)
Definition child_steps (parent_pid : Z) (c : Config) : list ChildStep :=
  [Setpgid; SetParentDeathSignal parent_pid] ++
  only (user_namespace c) [Unshare CLONE_NEWUSER] ++
  only (user_namespace c) [DenySetgroups; AwaitMapping] ++
  only (mount_namespace c) [Unshare CLONE_NEWNS] ++
  only (mount_namespace c)
    (MountPrivate :: only (read_only_root c) [BindRoot; RemountRootReadOnly]) ++
  only (negb (bool_decide (rootfs c = "")))
    ([Chroot (rootfs c); Chdir "/"] ++ mount_runtime_filesystems c) ++
  only (mount_namespace c) [MountTmp] ++
  only (negb (bool_decide (working_directory c = ""))) [Chdir (working_directory c)] ++
  only (network_namespace c) [Unshare CLONE_NEWNET] ++
  only (drop_capabilities c) [Capset] ++
  only (no_new_privileges c) [NoNewPrivs] ++
  only (negb (bool_decide (seccomp_allowlist c = []))) [Seccomp (seccomp_allowlist c)] ++
  set_limits c ++
  only (drop_to_unprivileged_user c) [Setresgid; Setresuid] ++
  only (clean_environment c) clean_environment_steps.

(** The result of [drop_capabilities] is discarded; every other failure ends
    the child with status 127. *)
Definition tolerated (a : ChildStep) : bool :=
  match a with Capset => true | _ => false end.

Section Child.
(** Whether a system call succeeds. *)
Context (succeeds : ChildStep → bool).

(** The steps up to the first failure, and how they end. *)
Fixpoint run_steps (steps : list ChildStep) : list ChildStep * bool :=
  match steps with
  | [] => ([], true)
  | a :: steps =>
      if succeeds a || tolerated a
      then let '(tried, ok) := run_steps steps in (a :: tried, ok)
      else ([a], false)
  end.

Definition child (parent_pid : Z) (c : Config) : list ChildStep * ChildResult :=
  let '(tried, ok) := run_steps (child_steps parent_pid c) in
  (tried, if negb ok then Exited 127 else if trace_events c then Traced else Executed).

Lemma run_steps_ok steps tried :
  run_steps steps = (tried, true) →
  tried = steps ∧ Forall (λ a, succeeds a = true ∨ a = Capset) steps.
Proof.
  revert tried. induction steps as [|a steps IH]; intros tried; cbn [run_steps].
  { by intros [= <-]. }
  destruct (succeeds a || tolerated a) eqn:E; [|done].
  destruct (run_steps steps) as [tried' ok]. intros [= <- ->].
  destruct (IH tried' eq_refl) as [-> Hs]. split; [done|]. constructor; [|done].
  apply orb_true_iff in E as [E|E]; [by left|right]. by destruct a.
Qed.

(** The child becomes the program, or its tracer, only when every step of
    the configuration's setup was taken, in order, and succeeded; the one step
    whose failure it lets pass is the dropping of capabilities. *)
Theorem child_setup_complete parent_pid c tried result :
  child parent_pid c = (tried, result) → result ≠ Exited 127 →
  tried = child_steps parent_pid c ∧
  Forall (λ a, succeeds a = true ∨ a = Capset) (child_steps parent_pid c).
Proof.
  unfold child. destruct (run_steps (child_steps parent_pid c)) as [t ok] eqn:E.
  intros [= <- <-]. destruct ok; [|done]. intros _. by apply run_steps_ok.
Qed.

End Child.

Lemma child_setup_complete_witness :
  (child (λ _, true) 1 default_config).1 = child_steps 1 default_config ∧
  Forall (λ a, true = true ∨ a = Capset) (child_steps 1 default_config).
Proof.
  apply (child_setup_complete (λ _, true) 1 default_config _ Executed); [reflexivity|discriminate].
Defined.

(** A capability drop that fails goes unnoticed: with every other step
    succeeding the program is executed all the same. *)
Theorem capset_failure_ignored parent_pid c :
  (child (λ a, negb (tolerated a)) parent_pid c).2 =
  (if trace_events c then Traced else Executed).
Proof.
  unfold child. assert (∀ l, (run_steps (λ a, negb (tolerated a)) l).2 = true) as H.
  { induction l as [|a l IH]; [done|]. cbn [run_steps].
    replace (negb (tolerated a) || tolerated a) with true by by destruct (tolerated a).
    by destruct (run_steps _ l). }
  specialize (H (child_steps parent_pid c)). destruct (run_steps _ _) as [t ok]. simpl in H.
  by rewrite H.
Qed.

(** [a] is taken before [b]. *)
Definition before (a b : ChildStep) (l : list ChildStep) : Prop :=
  ∃ l1 l2 l3, l = l1 ++ a :: l2 ++ b :: l3.

Lemma before_split a b l k : a ∈ l → b ∈ k → before a b (l ++ k).
Proof.
  intros (l1 & l2 & ->)%list_elem_of_split (k1 & k2 & ->)%list_elem_of_split.
  exists l1, (l2 ++ k1), k2. rewrite <- app_assoc. simpl. by rewrite <- app_assoc.
Qed.

Lemma before_skip a b l k : before a b k → before a b (l ++ k).
Proof. intros (k1 & k2 & k3 & ->). exists (l ++ k1), k2, k3. by rewrite <- app_assoc. Qed.

(** Finds a step among the segments of [child_steps] whose guards are known. *)
Ltac solve_elem :=
  lazymatch goal with
  | |- _ ∈ _ ++ _ => apply elem_of_app; first [left; solve [solve_elem]|right; solve_elem]
  | |- _ ∈ _ :: _ => first [left|right; solve_elem]
  | |- _ ∈ only ?g _ => unfold only; cbn [negb]; solve_elem
  end.

Ltac solve_before :=
  first [apply before_split; [solve [solve_elem]|solve [solve_elem]]
        |apply before_skip; solve_before].

(** In every accepted configuration the steps come in an order that makes
    them effective: the user namespace before the mount and network namespaces
    it authorises, the private mount namespace before the change of root,
    no_new_privileges before the seccomp filter that needs it, and the
    capability drop after the steps that need capabilities. *)
Theorem child_order parent_pid c is_symlink :
  acceptable is_symlink c →
  let l := child_steps parent_pid c in
  (mount_namespace c = true → before (Unshare CLONE_NEWUSER) (Unshare CLONE_NEWNS) l) ∧
  (user_namespace c = true → network_namespace c = true →
     before (Unshare CLONE_NEWUSER) (Unshare CLONE_NEWNET) l) ∧
  (mount_namespace c = true → rootfs c ≠ "" →
     before (Unshare CLONE_NEWNS) (Chroot (rootfs c)) l) ∧
  (seccomp_allowlist c ≠ [] → before NoNewPrivs (Seccomp (seccomp_allowlist c)) l) ∧
  (network_namespace c = true → before (Unshare CLONE_NEWNET) Capset l) ∧
  (mount_namespace c = true → before MountTmp Capset l).
Proof.
  intros [_ Hu Hcap Hs _ _ _ _]. cbn zeta. split_and!.
  - intros Hm. specialize (Hu Hm). unfold child_steps. rewrite Hm, Hu. solve_before.
  - intros Hus Hn. unfold child_steps. rewrite Hus, Hn. solve_before.
  - intros Hm Hr. unfold child_steps. rewrite Hm, bool_decide_eq_false_2 by done. solve_before.
  - intros Hne. specialize (Hs Hne). unfold child_steps.
    rewrite Hs, (bool_decide_eq_false_2 (seccomp_allowlist c = [])) by done. solve_before.
  - intros Hn. unfold child_steps. rewrite Hn, Hcap by auto. solve_before.
  - intros Hm. unfold child_steps. rewrite Hm, Hcap by auto. solve_before.
Qed.

Lemma child_order_witness :
  before (Unshare CLONE_NEWUSER) (Unshare CLONE_NEWNS) (child_steps 1 default_config).
Proof.
  apply (child_order 1 default_config (λ _, false)); [|reflexivity].
  constructor; cbn; auto; lia.
Defined.
