(* ===== verification/SandboxRun.v ===== *)
(** * Running a sandbox (sandbox::run in the parent, setup_user_namespace and
      set_parent_death_signal of src/sandbox/sandbox.cpp; src/process/process.cpp)

    The parent creates the child, puts it into its cgroup, maps its users,
    releases it through a pipe and waits for it.  The system calls are
    parameters; the child itself is [child] of SandboxSetup, and the last
    section joins the two. *)

From S2P Require Import Prelude CxxString FsPath Stop Event FdTable Syscall Memory SyscallDecoder.
From S2P Require Import Report Tracer TracerScript Capture Sandbox SandboxSetup Owner.

(** ** System calls *)

Definition EACCES : Z := 13.
Definition ESRCH : Z := 3.

Record ParentOps (W : Type) := mkParentOps {
  (** [pipe]: the read and the write end *)
  p_pipe : W → option (Z * Z) * W;
  p_close : W → Z → W;
  (** [setpgid(pid, pid)]: [errno] when it fails *)
  p_setpgid : W → Z → option Z * W;
  (** [fork], [execlp] of a tool and [waitpid]: the status, when it was reaped *)
  p_tool : W → string → list string → option Z * W;
  (** the write of one byte, [SIGPIPE] ignored *)
  p_write_ready : W → Z → W;
}.
Arguments p_pipe {W}.
Arguments p_close {W}.
Arguments p_setpgid {W}.
Arguments p_tool {W}.
Arguments p_write_ready {W}.

(** [set_parent_death_signal]: [ppid] before and after [prctl]. *)
Definition set_parent_death_signal (expected_parent ppid_before : Z) (prctl_ok : bool)
    (ppid_after : Z) : bool :=
  if (0 <=? expected_parent) && negb (ppid_before =? expected_parent) then false
  else if negb prctl_ok then false
  else ppid_after =? ppid_before.

Section Parent.
Context {W : Type} (K : Kernel W) (F : FileOps W) (P : ParentOps W) (uid gid : Z).

(** The arguments of [newuidmap] and [newgidmap]. *)
Definition map_arguments (pid host_id : Z) (map_unprivileged_user : bool) : list string :=
  [to_string pid; "0"; to_string host_id; "1"] ++
  (if map_unprivileged_user then ["1000"; to_string host_id; "1"] else []).

(** The lambda [map]. *)
Definition map_ids (w : W) (tool : string) (pid host_id : Z) (map_unprivileged_user : bool)
    : bool * W :=
  match p_tool P w tool (map_arguments pid host_id map_unprivileged_user) with
  | (None, w) => (false, w)
  | (Some status, w) => (WIFEXITED status && (WEXITSTATUS status =? 0), w)
  end.

(** The text written to [uid_map] and [gid_map]. *)
Definition mapping (map_unprivileged_user : bool) : string :=
  "0 " +:+ to_string uid +:+ " 1" +:+ str newline +:+
  (if map_unprivileged_user then "1000 " +:+ to_string uid +:+ " 1" +:+ str newline else "").

Definition setup_user_namespace (fuel : nat) (w : W) (pid : Z) (map_unprivileged_user : bool)
    : option (bool * W) :=
  let prefix := "/proc/" +:+ to_string pid +:+ "/" in
  let write_maps w :=
    '(ok, w) ← write_file F fuel w (prefix +:+ "uid_map") (mapping map_unprivileged_user);
    if (ok : bool) then write_file F fuel w (prefix +:+ "gid_map") (mapping map_unprivileged_user)
    else Some (false, w) in
  let '(ok, w) := map_ids w "newuidmap" pid uid map_unprivileged_user in
  if ok then
    let '(ok, w) := map_ids w "newgidmap" pid gid map_unprivileged_user in
    if ok then Some (true, w) else write_maps w
  else write_maps w.

(** A failure after the fork: the child is killed and reaped, the owners of the
    pipe's ends are destroyed. *)
Definition fail_run (fuel : nat) (w : W) (pid sync_read sync_write : Z) : option (Z * W) :=
  let w := (k_kill K w pid SIGKILL).2 in
  '(_, w) ← wait_for K fuel w pid 0;
  Some (1, UniqueFd.destroy (p_close P) (UniqueFd.destroy (p_close P) w sync_write) sync_read).

(** The same after a failed user mapping, where the write end is closed before
    the wait. *)
Definition fail_mapping (fuel : nat) (w : W) (pid sync_read sync_write : Z) : option (Z * W) :=
  let w := (k_kill K w pid SIGKILL).2 in
  let '(w, sync_write) := UniqueFd.reset (p_close P) w sync_write (-1) in
  '(_, w) ← wait_for K fuel w pid 0;
  Some (1, UniqueFd.destroy (p_close P) (UniqueFd.destroy (p_close P) w sync_write) sync_read).

(** The parent once the child is set up: it releases it and waits. *)
Definition await_child (fuel : nat) (w : W) (pid sync_write : Z) : option (Z * W) :=
  let w := p_write_ready P w sync_write in
  let '(w, _) := UniqueFd.reset (p_close P) w sync_write (-1) in
  '(waited, w) ← wait_for K fuel w pid 0;
  match waited with
  | Err _ => Some (1, w)
  | Ok (_, status) => Some (exit_code 1 status, w)
  end.

(** [run] after the fork, in the parent. *)
Definition run_parent (fuel : nat) (w : W) (pid sync_read sync_write : Z) (c : Config)
    : option (Z * W) :=
  let '(error, w) := p_setpgid P w pid in
  if (match error with None => false | Some e => negb (e =? EACCES) && negb (e =? ESRCH) end)
  then fail_run fuel w pid sync_read sync_write
  else
    '(ok, w) ← configure_cgroup F fuel w pid (cgroup c);
    if negb ok then fail_run fuel w pid sync_read sync_write
    else
      let '(w, sync_read) := UniqueFd.reset (p_close P) w sync_read (-1) in
      if user_namespace c then
        '(ok, w) ← setup_user_namespace fuel w pid (drop_to_unprivileged_user c);
        if (ok : bool) then await_child fuel w pid sync_write
        else fail_mapping fuel w pid sync_read sync_write
      else await_child fuel w pid sync_write.

(** [run]; the pid in the outcome is the child's, when there is one. *)
Definition run (env_path : option string) (access_x is_symlink : string → bool) (fuel : nat) (w : W)
    (c : Config) : option (Z * option Z * W) :=
  match validate env_path access_x is_symlink c with
  | Err _ => Some (1, None, w)
  | Ok _ =>
      match p_pipe P w with
      | (None, w) => Some (1, None, w)
      | (Some (sync_read, sync_write), w) =>
          match k_fork K w with
          | (Err _, w) =>
              Some (1, None, UniqueFd.destroy (p_close P)
                               (UniqueFd.destroy (p_close P) w sync_write) sync_read)
          | (Ok pid, w) =>
              '(code, w) ← run_parent fuel w pid sync_read sync_write c;
              Some (code, Some pid, w)
          end
      end
  end.

End Parent.

(** [process::run] in the parent: the fork failed, [waitpid] failed, or a status
    came back. *)
Definition process_run (forked : bool) (waited : option Z) : Z :=
  if negb forked then 1
  else match waited with
       | None => 1
       | Some status => exit_code 1 status
       end.

(** ** The exit code *)

Lemma exit_code_exited otherwise n : 0 ≤ n < 256 → exit_code otherwise (encode_status (WExited n)) = n.
Proof.
  intros Hn. destruct (status_exited n Hn) as [E1 E2]. unfold exit_code, WIFEXITED. cbn [encode_status].
  by rewrite WTERMSIG_mod, WEXITSTATUS_div, E1, E2.
Qed.

Lemma exit_code_killed otherwise s core :
  1 ≤ s ≤ 64 → exit_code otherwise (encode_status (WKilled s core)) = 128 + s.
Proof.
  intros Hs. unfold exit_code, WIFEXITED, WIFSIGNALED. cbn [encode_status].
  rewrite WTERMSIG_mod, status_killed by done.
  rewrite (proj2 (Z.eqb_neq _ _)) by lia. rewrite (proj2 (Z.ltb_lt (s + 1) 128)) by lia.
  rewrite Z.shiftr_div_pow2, (proj2 (Z.ltb_lt _ _)); [done| |lia].
  assert (1 ≤ (s + 1) / 2 ^ 1) by (apply Z.div_le_lower_bound; lia). lia.
Qed.

(** ** The child is released last *)

Section Release.
Context {W : Type} (K : Kernel W) (F : FileOps W) (P : ParentOps W) (uid gid : Z).

(** Whether the byte that releases the child has been written. *)
Class ReleaseLaws (ready : W → bool) := {
  pipe_ready w r w' : p_pipe P w = (r, w') → ready w' = ready w;
  close_ready w fd : ready (p_close P w fd) = ready w;
  setpgid_ready w pid r w' : p_setpgid P w pid = (r, w') → ready w' = ready w;
  tool_ready w tool args r w' : p_tool P w tool args = (r, w') → ready w' = ready w;
  fork_ready w r w' : k_fork K w = (r, w') → ready w' = ready w;
  kill_ready w pid sig r w' : k_kill K w pid sig = (r, w') → ready w' = ready w;
  waitpid_ready w pid options r w' : k_waitpid K w pid options = (r, w') → ready w' = ready w;
  open_ready w path r w' : f_open F w path = (r, w') → ready w' = ready w;
  write_ready w fd data r w' : f_write F w fd data = (r, w') → ready w' = ready w;
  fclose_ready w fd r w' : f_close F w fd = (r, w') → ready w' = ready w;
}.

Context (ready : W → bool) `{!ReleaseLaws ready}.

Lemma wait_for_ready fuel w pid options r w' :
  wait_for K fuel w pid options = Some (r, w') → ready w' = ready w.
Proof.
  revert w. induction fuel as [|fuel IH]; intros w; [done|]. cbn [wait_for].
  destruct (k_waitpid K w pid options) as [[x|e] w1] eqn:E; apply waitpid_ready in E.
  - by intros [= _ <-].
  - destruct (e =? _); [intros H; by rewrite (IH _ H)|by intros [= _ <-]].
Qed.

Lemma destroy_ready w owner : ready (UniqueFd.destroy (p_close P) w owner) = ready w.
Proof. unfold UniqueFd.destroy, UniqueFd.reset. cbn. by destruct (0 <=? owner); rewrite ?close_ready. Qed.

Lemma write_loop_ready fuel w fd rest ok w' :
  write_loop F fuel w fd rest = Some (ok, w') → ready w' = ready w.
Proof.
  revert w rest. induction fuel as [|fuel IH]; intros w rest; [done|]. cbn [write_loop].
  case_bool_decide as Hr; [by intros [= _ <-]|].
  destruct (f_write F w fd rest) as [[n|e] w1] eqn:E; apply write_ready in E.
  - intros H. by rewrite (IH _ _ H).
  - destruct (e =? _); [intros H; by rewrite (IH _ _ H)|by intros [= _ <-]].
Qed.

Lemma write_file_ready fuel w path value ok w' :
  write_file F fuel w path value = Some (ok, w') → ready w' = ready w.
Proof.
  unfold write_file. destruct (f_open F w path) as [[fd|e] w1] eqn:Eo; apply open_ready in Eo.
  - destruct (write_loop F fuel w1 fd value) as [[fin w2]|] eqn:E; [|done].
    apply write_loop_ready in E. cbn [mbind option_bind].
    destruct (f_close F w2 fd) as [c w3] eqn:Ec; pose proof (fclose_ready _ _ _ _ Ec) as Hc.
    destruct fin; intros [= _ <-]; cbn; congruence.
  - by intros [= _ <-].
Qed.

Lemma configure_cgroup_ready fuel w pid b ok w' :
  configure_cgroup F fuel w pid b = Some (ok, w') → ready w' = ready w.
Proof.
  unfold configure_cgroup. case_bool_decide; [by intros [= _ <-]|]. cbn zeta beta.
  destruct (memory_max b =? 0), (pids_max b =? 0), (cpu_quota_us b =? 0); intros Hc;
    repeat match type of Hc with
           | (write_file ?F ?n ?w ?p ?v ≫= _) = _ =>
               let E := fresh "E" in
               destruct (write_file F n w p v) as [[[] ?]|] eqn:E; cbn [mbind option_bind] in Hc;
               [apply write_file_ready in E|apply write_file_ready in E|done]
           | Some _ = Some _ => injection Hc as <- <-
           | write_file _ _ _ _ _ = Some _ => apply write_file_ready in Hc
           end; congruence.
Qed.

Lemma map_ids_ready w tool pid host_id b ok w' :
  map_ids P w tool pid host_id b = (ok, w') → ready w' = ready w.
Proof.
  unfold map_ids. destruct (p_tool P w tool _) as [[s|] w1] eqn:E; apply tool_ready in E;
    by intros [= _ <-].
Qed.

Lemma setup_user_namespace_ready fuel w pid b ok w' :
  setup_user_namespace F P uid gid fuel w pid b = Some (ok, w') → ready w' = ready w.
Proof.
  unfold setup_user_namespace. cbn zeta.
  assert (∀ w1 ok w', (('(ok, w) ← write_file F fuel w1 ("/proc/" +:+ to_string pid +:+ "/" +:+ "uid_map")
              (mapping uid b);
            if (ok : bool) then write_file F fuel w ("/proc/" +:+ to_string pid +:+ "/" +:+ "gid_map")
              (mapping uid b) else Some (false, w)) = Some (ok, w')) → ready w' = ready w1) as Hm.
  { intros w1 ok1 w2. destruct (write_file F fuel w1 _ _) as [[[] w3]|] eqn:E1; [| |done];
      apply write_file_ready in E1; cbn [mbind option_bind].
    - intros E2%write_file_ready. congruence.
    - by intros [= _ <-]. }
  rewrite !app_assoc_str.
  destruct (map_ids P w "newuidmap" pid uid b) as [[] w1] eqn:E1; apply map_ids_ready in E1.
  - destruct (map_ids P w1 "newgidmap" pid gid b) as [[] w2] eqn:E2; apply map_ids_ready in E2.
    + intros [= _ <-]. congruence.
    + intros H%Hm. congruence.
  - intros H%Hm. congruence.
Qed.

(** What has been done before the child was released. *)
Definition set_up (fuel : nat) (pid : Z) (c : Config) : Prop :=
  (∃ w1 w2, configure_cgroup F fuel w1 pid (cgroup c) = Some (true, w2)) ∧
  (user_namespace c = true →
   ∃ w1 w2, setup_user_namespace F P uid gid fuel w1 pid (drop_to_unprivileged_user c) =
            Some (true, w2)).

Lemma fail_run_ready fuel w pid a b code w' :
  fail_run K P fuel w pid a b = Some (code, w') → ready w' = ready w ∧ code = 1.
Proof.
  unfold fail_run. destruct (k_kill K w pid SIGKILL) as [r w1] eqn:Ek. apply kill_ready in Ek. cbn [snd].
  destruct (wait_for K fuel w1 pid 0) as [[x w2]|] eqn:E; [|done]. apply wait_for_ready in E.
  cbn [mbind option_bind]. intros [= <- <-]. rewrite !destroy_ready. split; congruence.
Qed.

Lemma fail_mapping_ready fuel w pid a b code w' :
  fail_mapping K P fuel w pid a b = Some (code, w') → ready w' = ready w ∧ code = 1.
Proof.
  unfold fail_mapping. destruct (k_kill K w pid SIGKILL) as [r w1] eqn:Ek. apply kill_ready in Ek.
  unfold UniqueFd.reset. cbn [snd].
  destruct (wait_for K fuel _ pid 0) as [[x w2]|] eqn:E; [|done]. apply wait_for_ready in E.
  cbn [mbind option_bind]. intros [= <- <-]. rewrite !destroy_ready, E.
  destruct (0 <=? b); rewrite ?close_ready; split; congruence.
Qed.

Lemma run_parent_released fuel w pid a b c code w' :
  run_parent K F P uid gid fuel w pid a b c = Some (code, w') → ready w = false →
  ready w' = true → set_up fuel pid c.
Proof.
  unfold run_parent. destruct (p_setpgid P w pid) as [e w1] eqn:E1. apply setpgid_ready in E1.
  destruct (match e with None => false | Some e => _ end); [intros [Hg _]%fail_run_ready; congruence|].
  destruct (configure_cgroup F fuel w1 pid (cgroup c)) as [[ok w2]|] eqn:E2; [|done].
  pose proof (configure_cgroup_ready _ _ _ _ _ _ E2) as H2. cbn [mbind option_bind].
  destruct ok; cbn [negb]; [|intros [Hg _]%fail_run_ready; congruence].
  unfold UniqueFd.reset. cbn zeta beta iota.
  destruct (user_namespace c) eqn:Eu; [|intros _ _ _; split; [by eauto|congruence]].
  destruct (setup_user_namespace F P uid gid fuel _ pid _) as [[ok w3]|] eqn:E3; [|done].
  pose proof (setup_user_namespace_ready _ _ _ _ _ _ E3) as H3. cbn [mbind option_bind].
  destruct ok; [intros _ _ _; split; eauto|].
  intros [Hg _]%fail_mapping_ready. rewrite Hg, H3.
  destruct (0 <=? a); rewrite ?close_ready; congruence.
Qed.

Lemma run_released env access sym fuel w c code pid w' :
  run K F P uid gid env access sym fuel w c = Some (code, Some pid, w') → ready w = false →
  ready w' = true → set_up fuel pid c.
Proof.
  unfold run. destruct (validate env access sym c); [|done].
  destruct (p_pipe P w) as [[[r wr]|] w1] eqn:E1; [|done]. apply pipe_ready in E1.
  destruct (k_fork K w1) as [[p|e] w2] eqn:E2; [|done]. apply fork_ready in E2.
  destruct (run_parent _ _ _ _ _ fuel w2 p r wr c) as [[code1 w3]|] eqn:E3; [|done].
  cbn [mbind option_bind]. intros [= <- <- <-] Hw Hr.
  eapply run_parent_released; [done| |done]. congruence.
Qed.

Lemma mapping_step_in parent_pid c :
  user_namespace c = true → AwaitMapping ∈ child_steps parent_pid c.
Proof. intros Hu. unfold child_steps. rewrite Hu. apply list_elem_of_In. cbn. auto 6. Qed.

(** C15: in a sandbox with a user namespace the program never runs before the
    parent has applied the cgroup's limits to the child and mapped its users:
    if the child became the program, and its wait for the mapping can only have
    ended by the byte the parent writes, then both had succeeded. *)
Theorem program_runs_after_setup env access sym fuel w c code pid w' succeeds parent_pid :
  user_namespace c = true → ready w = false →
  run K F P uid gid env access sym fuel w c = Some (code, Some pid, w') →
  (succeeds AwaitMapping = true → ready w' = true) →
  (child succeeds parent_pid c).2 ≠ Exited 127 →
  set_up fuel pid c.
Proof.
  intros Hu Hw Hrun Hpipe Hchild. eapply run_released; [done..|]. apply Hpipe.
  unfold child in Hchild. destruct (run_steps succeeds _) as [tried []] eqn:E; [|by cbn in Hchild].
  apply run_steps_ok in E as [_ Hs]. rewrite Forall_forall in Hs.
  by destruct (Hs _ (mapping_step_in parent_pid c Hu)).
Qed.

End Release.

(** A system in which everything succeeds; the world is the released flag and
    the data of the open file. *)
Definition calm_kernel : Kernel (bool * string) := {|
  k_fork w := (Ok 42, w);
  k_waitpid w _ _ := (Ok (42, 768), w);
  k_ptrace_syscall w _ _ := (Ok (), w);
  k_ptrace_setoptions w _ _ := (Ok (), w);
  k_ptrace_getregs w _ := (Err 3, w);
  k_ptrace_geteventmsg w _ := (Err 3, w);
  k_kill w _ _ := (true, w);
  k_tracee w _ := blank_tracee;
|}.

Definition calm_files : FileOps (bool * string) := {|
  f_open w _ := (Ok 5, (w.1, ""));
  f_write w _ s := (Ok (size s), (w.1, w.2 +:+ s));
  f_close w _ := (true, w);
|}.

Definition calm_parent : ParentOps (bool * string) := {|
  p_pipe w := (Some (3, 4), w);
  p_close w _ := w;
  p_setpgid w _ := (None, w);
  p_tool w _ _ := (Some 0, w);
  p_write_ready w _ := (true, w.2);
|}.

#[export] Instance calm_laws : ReleaseLaws calm_kernel calm_files calm_parent fst.
Proof. split; cbn; intros; by simplify_eq. Qed.

Lemma program_runs_after_setup_witness :
  set_up calm_files calm_parent 1000 1000 9 42 default_config.
Proof.
  apply (program_runs_after_setup calm_kernel calm_files calm_parent 1000 1000 fst None (λ _, false)
           (λ _, false) 9 (false, "") default_config 3 42 (true, "") (λ _, true) 1);
    [reflexivity|reflexivity|vm_compute; reflexivity|reflexivity|discriminate].
Defined.

(** ** Users cannot be mapped twice *)

(** One line of a map: an id inside, an id outside, a range of one. *)
Definition map_line (inside outside : Z) : string :=
  to_string inside +:+ " " +:+ to_string outside +:+ " 1" +:+ str newline.

(** user_namespaces(7): the ranges of the lines of a map must not overlap. *)
Definition overlapping (text : string) : Prop :=
  ∃ i j o, i ≠ j ∧ text = map_line i o +:+ map_line j o.

Section Overlap.
Context {W : Type} (K : Kernel W) (F : FileOps W) (P : ParentOps W) (uid gid : Z).
Context (ready : W → bool) `{!ReleaseLaws K F P ready}.

(** The kernel refuses a map with overlapping ranges, written to the file of a
    process or by one of the tools. *)
Context (file_refuses : ∀ fuel w path text w',
  overlapping text → write_file F fuel w path text ≠ Some (true, w')).
Context (tool_refuses : ∀ w tool pid outside status w',
  p_tool P w tool [pid; "0"; outside; "1"; "1000"; outside; "1"] = (Some status, w') →
  WIFEXITED status && (WEXITSTATUS status =? 0) = false).

Lemma mapping_overlaps : overlapping (mapping uid true).
Proof.
  exists 0, 1000, uid. split; [done|]. unfold mapping, map_line.
  rewrite !app_assoc_str. reflexivity.
Qed.

Lemma setup_unprivileged_fails fuel w pid w' :
  setup_user_namespace F P uid gid fuel w pid true ≠ Some (true, w').
Proof.
  assert (∀ w tool host, (map_ids P w tool pid host true).1 = false) as Hm.
  { intros w1 tool host. unfold map_ids, map_arguments. cbn [app].
    destruct (p_tool P w1 tool _) as [[status|] w2] eqn:E; [|done]. cbn. by eapply tool_refuses. }
  unfold setup_user_namespace. specialize (Hm w "newuidmap" uid).
  destruct (map_ids P w "newuidmap" pid uid true) as [ok w1]. cbn in Hm. subst ok. cbn zeta iota beta.
  destruct (write_file F fuel w1 _ _) as [[[] w2]|] eqn:E; [|done|done].
  by apply file_refuses in E; [|apply mapping_overlaps].
Qed.

(** A sandbox that is to drop to the unprivileged user never starts its
    program: the user maps it writes give the same outer id to two inner ids,
    which the kernel refuses, so that the run fails and the child is not
    released. *)
Theorem unprivileged_user_never_runs env access sym fuel w c code pid w' :
  user_namespace c = true → drop_to_unprivileged_user c = true → ready w = false →
  run K F P uid gid env access sym fuel w c = Some (code, Some pid, w') →
  ready w' = false.
Proof.
  intros Hu Hd Hw Hrun. destruct (ready w') eqn:E; [|done].
  destruct (run_released K F P uid gid ready _ _ _ _ _ _ _ _ _ Hrun Hw E) as [_ Hs].
  destruct (Hs Hu) as (w1 & w2 & H). rewrite Hd in H. by apply setup_unprivileged_fails in H.
Qed.

End Overlap.

(** A system that refuses maps. *)
Definition strict_files : FileOps (bool * string) := {|
  f_open w _ := (Err 22, w);
  f_write w _ s := (Ok (size s), w);
  f_close w _ := (true, w);
|}.

Definition strict_parent : ParentOps (bool * string) := {|
  p_pipe w := (Some (3, 4), w);
  p_close w _ := w;
  p_setpgid w _ := (None, w);
  p_tool w _ _ := (Some 256, w);
  p_write_ready w _ := (true, w.2);
|}.

#[export] Instance strict_laws : ReleaseLaws calm_kernel strict_files strict_parent fst.
Proof. split; cbn; intros; by simplify_eq. Qed.

Definition unprivileged_config : Config :=
  mkConfig namespaces true true true true true false true true true true false
    0 0 0 0 "" "" [] (mkCgroup "" 0 0 0 100000).

Lemma unprivileged_user_never_runs_witness :
  ∃ code w', run calm_kernel strict_files strict_parent 1000 1000 None (λ _, false) (λ _, false) 9
               (false, "") unprivileged_config = Some (code, Some 42, w') ∧ w'.1 = false.
Proof.
  eexists _, _. split; [vm_compute; reflexivity|].
  apply (unprivileged_user_never_runs calm_kernel strict_files strict_parent 1000 1000 fst) with
    (env := None) (access := λ _, false) (sym := λ _, false) (fuel := 9%nat) (w := (false, ""))
    (c := unprivileged_config) (code := 1) (pid := 42).
  - intros fuel w path text w' _. cbn. discriminate.
  - intros w tool pid outside status w' [= <- <-]. reflexivity.
  - reflexivity.
  - reflexivity.
  - reflexivity.
  - vm_compute. reflexivity.
Defined.
