(* ===== verification/TracerSession.v ===== *)
(** * The ends of a traced run (src/trace/tracer.cpp, include/execell/trace/trace_session.hpp)

    The branch of [trace::run] that becomes the program, the run with the
    terminal's reporter, and what the tracer does about a program that could not
    be started and with the process id of one that has ended. *)

From S2P Require Import Prelude CxxString Event Stop FdTable Syscall Memory.
From S2P Require Import SyscallDecoder Report Tracer TracerScript SandboxRun.

(** ** The child *)

Inductive TracedChild := ChildExited (code : Z) | ChildExecuted.

(** The branch [root_pid == 0]: [PTRACE_TRACEME], then [execvp]. *)
Definition traced_child (traceme_ok exec_ok : bool) : TracedChild :=
  if negb traceme_ok then ChildExited 127
  else if exec_ok then ChildExecuted
  else ChildExited 127.

(** What the parent's first [waitpid] reports of it: its end, or the SIGTRAP a
    traced process stops with when it has become another program. *)
Definition first_report (c : TracedChild) : wait_event :=
  match c with
  | ChildExited code => WExited code
  | ChildExecuted => WSignalStop SIGTRAP
  end.

(** [run(program, argv)]: with a [TerminalReporter], whose text is what was
    printed. *)
Definition run_terminal {W} (K : Kernel W) (fuel : nat) (w : W)
    : option (Z * TerminalReporter.t * W) :=
  Tracer.run K fuel ("" : TerminalReporter.t) w.

(** ** A program that could not be started *)

Section Unstarted.
Context {R W : Type} `{Reporter R} (K : Kernel W).

(** A program that could not be started is not told from a failure of
    the tracer: the tracer takes the child's end for its first stop, fails to
    set the options of a process that is gone, and returns 1 without any event,
    where the plain runner returns the 127 of the child. *)
Theorem unstarted_program_is_a_failure traceme_ok fuel (r : R) w w1 w2 w3 w4 root :
  0 ≤ root →
  let status := encode_status (first_report (traced_child traceme_ok false)) in
  k_fork K w = (Ok root, w1) →
  k_waitpid K w1 root 0 = (Ok (root, status), w2) →
  (** the process was reaped: there is nothing to trace or to signal *)
  k_ptrace_setoptions K w2 root trace_options = (Err ESRCH, w3) →
  k_kill K w3 root 0 = (false, w4) →
  Tracer.run K (S fuel) r w = Some (EXIT_FAILURE, r, w4) ∧ process_run true (Some status) = 127.
Proof.
  intros Hroot status Hf Hw Ho Hk.
  assert (status = encode_status (WExited 127)) as Hs by by destruct traceme_ok.
  clearbody status. subst status. split; [|by apply exit_code_exited].
  unfold Tracer.run. rewrite Hf. cbn [wait_for]. rewrite Hw. cbn [mbind option_bind].
  unfold set_options, from_errno. rewrite Ho. unfold close_session.
  rewrite (proj2 (Z.ltb_ge root 0)) by done. by rewrite Hk.
Qed.

End Unstarted.

(** ** A process id after its process *)

(** The scripted system, on which the ids of processes that have ended are in
    use again; the signals sent are logged. *)
Definition reuse_kernel (root : Z) : Kernel (Script * list (Z * Z)) :=
  let K := script_kernel root in
  let lift {A} (f : Script → A * Script) (w : Script * list (Z * Z)) :=
    ((f w.1).1, ((f w.1).2, w.2)) in {|
    k_fork := lift (k_fork K);
    k_waitpid w pid options := lift (λ s, k_waitpid K s pid options) w;
    k_ptrace_syscall w pid sig := lift (λ s, k_ptrace_syscall K s pid sig) w;
    k_ptrace_setoptions w pid options := lift (λ s, k_ptrace_setoptions K s pid options) w;
    k_ptrace_getregs w pid := lift (λ s, k_ptrace_getregs K s pid) w;
    k_ptrace_geteventmsg w pid := lift (λ s, k_ptrace_geteventmsg K s pid) w;
    k_kill w pid sig := (true, (w.1, w.2 ++ [(pid, sig)]));
    k_tracee w pid := k_tracee K w.1 pid;
  |}.

(** After the program's exit has been collected the session's destructor asks
    whether its process id exists and kills what has it then, which is another
    process: here for every program that starts and exits. *)
Theorem finished_session_kills `{Reporter R} root n (r : R) :
  0 ≤ root → 0 ≤ n < 256 →
  ∃ r' s, Tracer.run (reuse_kernel root) 3 r (script [sc_signal root SIGTRAP; sc_exit root n], [])
          = Some (n, r', (s, [(root, 0); (root, SIGKILL)])).
Proof.
  intros Hroot Hn. unfold Tracer.run. cbn [reuse_kernel k_fork script_kernel wait_for k_waitpid script
    sc_rest fst snd sc_pid sc_signal mbind option_bind]. unfold set_options, from_errno.
  cbn [reuse_kernel k_ptrace_setoptions script_kernel fst snd loop].
  unfold start, emit. cbn [st_tasks st_sequence st_pending_signal st_current_pid st_resume_current
    st_reporter st_world].
  assert (TaskRegistry.is_empty (TaskRegistry.insert_root root ∅) = false) as ->.
  { apply bool_decide_eq_false. intros He. apply (f_equal (lookup root)) in He.
    unfold TaskRegistry.insert_root, TaskRegistry.emplace in He. rewrite lookup_empty in He.
    by rewrite lookup_insert_eq in He. }
  unfold step, resume_task. cbn [st_resume_current].
  unfold syscall_continue, from_errno. cbn -[encode_status classify_stop report stop_requested].
  rewrite classify_encode by done. unfold handle_stop. cbn [expected_stop stop_kind].
  unfold handle_exit. cbn [stop_pid stop_exit_status]. rewrite Z.eqb_refl.
  cbn -[report stop_requested]. unfold close_session. rewrite (proj2 (Z.ltb_ge root 0)) by done.
  cbn. eauto.
Qed.

(** A system on which the child ends at once. *)
Definition gone_kernel : Kernel unit := {|
  k_fork w := (Ok 42, w);
  k_waitpid w _ _ := (Ok (42, encode_status (WExited 127)), w);
  k_ptrace_syscall w _ _ := (Err ESRCH, w);
  k_ptrace_setoptions w _ _ := (Err ESRCH, w);
  k_ptrace_getregs w _ := (Err ESRCH, w);
  k_ptrace_geteventmsg w _ := (Err ESRCH, w);
  k_kill w _ _ := (false, w);
  k_tracee _ _ := blank_tracee;
|}.

Lemma unstarted_program_is_a_failure_witness :
  run_terminal gone_kernel 1 () = Some (1, "", ()).
Proof.
  unfold run_terminal.
  rewrite (proj1 (unstarted_program_is_a_failure gone_kernel true 0 ("" : TerminalReporter.t)
    () () () () () 42 ltac:(discriminate) eq_refl eq_refl eq_refl eq_refl)).
  reflexivity.
Defined.
