(* ===== verification/CapturedRun.v ===== *)
(** * Captured sandboxes (run_captured and run of src/sandbox/sandbox.cpp)

    The child that [run_captured] forks runs the whole of [run], whose own child
    becomes the program.  Three things follow from the composition of Capture,
    SandboxRun and SandboxSetup: which descriptors the sandbox gets, that the
    captured status is the program's, and which processes the kill at the
    deadline reaches. *)

From S2P Require Import Prelude CxxString FsPath Stop Event FdTable Syscall Memory SyscallDecoder.
From S2P Require Import Report Tracer TracerScript Capture Sandbox SandboxSetup Owner SandboxRun.

(** ** The descriptors of the captured child *)

Section Descriptors.
(** Open files; a table maps descriptors to them. *)
Context {File : Type}.
Implicit Types t : gmap Z File.

(** [dup2]; an error leaves the table as it is. *)
Definition dup2 (old new : Z) t : gmap Z File :=
  match t !! old with None => t | Some f => <[new := f]> t end.

Definition close_fd (fd : Z) t : gmap Z File := delete fd t.

(** The captured child between its [setpgid] and [run]. *)
Definition captured_descriptors (out_read out_write err_read err_write : Z) t : gmap Z File :=
  let t := dup2 out_write 1 t in
  let t := dup2 err_write 2 t in
  let t := close_fd out_write (close_fd out_read t) in
  close_fd err_write (close_fd err_read t).

(** When the ends of both pipes are above the standard descriptors, the
    sandbox has the write ends as standard output and error and no other end
    of the two pipes, so that their readers see the end of file when the last
    process of the sandbox is gone; every other descriptor is inherited. *)
Theorem captured_streams out_read out_write err_read err_write t o e :
  2 < out_read → 2 < out_write → 2 < err_read → 2 < err_write → out_write ≠ err_write →
  t !! out_write = Some o → t !! err_write = Some e →
  let t' := captured_descriptors out_read out_write err_read err_write t in
  t' !! 1 = Some o ∧ t' !! 2 = Some e ∧
  (∀ fd, fd ∈ [out_read; out_write; err_read; err_write] → t' !! fd = None) ∧
  (∀ fd, fd ∉ [1; 2; out_read; out_write; err_read; err_write] → t' !! fd = t !! fd).
Proof.
  intros Hor How Her Hew Hne Ho He. cbv zeta. unfold captured_descriptors, dup2, close_fd.
  rewrite Ho. rewrite lookup_insert_ne, He by lia. split_and!.
  - rewrite !lookup_delete_ne, lookup_insert_ne by lia. apply lookup_insert_eq.
  - rewrite !lookup_delete_ne by lia. apply lookup_insert_eq.
  - intros fd Hfd. rewrite !elem_of_cons in Hfd.
    rewrite !lookup_delete_None.
    destruct Hfd as [->|[->|[->|[->|Hfd%elem_of_nil]]]]; [tauto..|done].
  - intros fd Hfd. rewrite !not_elem_of_cons in Hfd. destruct Hfd as (?&?&?&?&?&?&?).
    by rewrite !lookup_delete_ne, !lookup_insert_ne by done.
Qed.

(** When the program that captures was itself started without a standard
    output, the first pipe takes its number and the sandbox has none. *)
Theorem captured_stdout_lost out_read err_read err_write t :
  err_write ≠ 1 → captured_descriptors out_read 1 err_read err_write t !! 1 = None.
Proof.
  intros. unfold captured_descriptors, close_fd. rewrite !lookup_delete_None. tauto.
Qed.

End Descriptors.

(** ** The status *)

(** How the captured child ends: [_exit(run(...))], of which the kernel keeps
    the low byte, or [_exit(127)]. *)
Definition captured_child (setpgid_ok : bool) (run_code : Z) : wait_event :=
  WExited (if setpgid_ok then run_code mod 256 else 127).

(** The code by which a program that ended is known, 128 and its signal when it
    was killed. *)
Definition program_code (e : wait_event) : option Z :=
  match e with
  | WExited n => Some n
  | WKilled s _ => Some (128 + s)
  | _ => None
  end.

Lemma exit_code_program otherwise e n :
  wait_event_wf e → program_code e = Some n →
  exit_code otherwise (encode_status e) = n ∧ 0 ≤ n < 256.
Proof.
  destruct e as [m|s core| | |]; cbn [wait_event_wf program_code]; intros Hw [= <-].
  - split; [by apply exit_code_exited|lia].
  - split; [by apply exit_code_killed|lia].
Qed.

Section RunCodes.
Context {W : Type} (K : Kernel W) (F : FileOps W) (P : ParentOps W) (uid gid : Z).
(** The child of [run] is reaped with what became of it. *)
Context (pid : Z) (program : wait_event) (n : Z).
Context (Hwf : wait_event_wf program) (Hn : program_code program = Some n).
Context (Hwait : ∀ w options who status w',
  k_waitpid K w pid options = (Ok (who, status), w') → status = encode_status program).

Lemma wait_for_program fuel w options who status w' :
  wait_for K fuel w pid options = Some (Ok (who, status), w') → status = encode_status program.
Proof.
  revert w. induction fuel as [|fuel IH]; intros w; [done|]. cbn [wait_for].
  destruct (k_waitpid K w pid options) as [[[x y]|e] w1] eqn:E.
  - intros [= <- <- <-]. by eapply Hwait.
  - destruct (e =? _); [apply IH|done].
Qed.

Lemma await_child_code fuel w sync_write code w' :
  await_child K P fuel w pid sync_write = Some (code, w') → code = 1 ∨ code = n.
Proof.
  unfold await_child, UniqueFd.reset.
  destruct (wait_for K fuel _ pid 0) as [[[[who status]|e] w1]|] eqn:E; [| |done];
    cbn [mbind option_bind]; intros [= <- <-]; [|by left].
  right. rewrite (wait_for_program _ _ _ _ _ _ E). by apply exit_code_program.
Qed.

Lemma fail_code fuel w a b code w' :
  fail_run K P fuel w pid a b = Some (code, w') ∨ fail_mapping K P fuel w pid a b = Some (code, w') →
  code = 1.
Proof.
  unfold fail_run, fail_mapping, UniqueFd.reset.
  intros [H|H]; (destruct (wait_for K fuel _ pid 0) as [[x w1]|]; [|done]);
    cbn [mbind option_bind] in H; by simplify_eq.
Qed.

Lemma run_parent_code fuel w a b c code w' :
  run_parent K F P uid gid fuel w pid a b c = Some (code, w') → code = 1 ∨ code = n.
Proof.
  unfold run_parent. destruct (p_setpgid P w pid) as [e w1].
  destruct (match e with None => false | Some e => _ end); [intros H; left; by eapply fail_code; eauto|].
  destruct (configure_cgroup F fuel w1 pid (cgroup c)) as [[[] w2]|]; [| |done]; cbn [mbind option_bind negb].
  - unfold UniqueFd.reset. cbn zeta beta iota. destruct (user_namespace c); [|apply await_child_code].
    destruct (setup_user_namespace F P uid gid fuel _ pid _) as [[[] w3]|]; [| |done];
      cbn [mbind option_bind]; [apply await_child_code|intros H; left; by eapply fail_code; eauto].
  - intros H; left; by eapply fail_code; eauto.
Qed.

(** The code of a run is the program's, or 1 when the sandbox failed. *)
Lemma run_code env access sym fuel w c code w' :
  run K F P uid gid env access sym fuel w c = Some (code, Some pid, w') → code = 1 ∨ code = n.
Proof.
  unfold run. destruct (validate env access sym c); [|done].
  destruct (p_pipe P w) as [[[r wr]|] w1]; [|done].
  destruct (k_fork K w1) as [[p|e] w2]; [|done].
  destruct (run_parent _ _ _ _ _ fuel w2 p r wr c) as [[code1 w3]|] eqn:E; [|done].
  cbn [mbind option_bind]. intros [= <- -> <-]. by eapply run_parent_code.
Qed.

End RunCodes.

Section CaptureStatus.
Context {W : Type} (K : CaptureOps W) (child : Z) (own : Z) (killed : W → bool).

(** Until something has been killed, [waitpid] gives the child's own status; it
    fails only when it is interrupted. *)
Class ChildLaws := {
  read_killed w fd r w' : c_read K w fd = (r, w') → killed w' = killed w;
  close_killed w fd : killed (c_close K w fd) = killed w;
  now_killed w t w' : c_now K w = (t, w') → killed w' = killed w;
  poll_killed w a b : killed (c_poll K w a b) = killed w;
  waitpid_killed w r w' : c_waitpid K w child = (r, w') → killed w' = killed w;
  waitpid_own w status w' :
    c_waitpid K w child = (Ok status, w') → killed w = false → status = own;
  waitpid_interrupted w e w' : c_waitpid K w child = (Err e, w') → e = Capture.EINTR;
}.
Context {laws : ChildLaws}.

Lemma drain_killed fuel limit fd d d' :
  drain K fuel limit fd d = Some d' → killed (d_world d') = killed (d_world d).
Proof.
  revert d. induction fuel as [|fuel IH]; intros d; [done|]. cbn [drain].
  destruct (c_read K (d_world d) fd) as [[data|e] w] eqn:E; apply read_killed in E.
  - destruct (0 <? size data); [intros H; by rewrite (IH _ H)|]. intros [= <-]. cbn.
    by rewrite close_killed.
  - destruct (_ || _); intros [= <-]; cbn; by rewrite ?close_killed.
Qed.

Lemma drain_both_killed fuel limit out err g g' :
  drain_both K fuel limit out err g = Some g' →
  killed (g_world g') = killed (g_world g) ∧ g_timed_out g' = g_timed_out g.
Proof.
  unfold drain_both. destruct (drain K fuel limit out _) as [d|] eqn:E1; [|done].
  cbn [mbind option_bind]. destruct (drain K fuel limit err _) as [d'|] eqn:E2; [|done].
  intros [= <-]. apply drain_killed in E1, E2. cbn in *. split; congruence.
Qed.

(** A loop that ends without limit or timeout has killed nothing. *)
Lemma capture_loop_killed fuel out err deadline limit g g' :
  capture_loop K fuel out err child deadline limit g = Some g' →
  g_limited g' = false → g_timed_out g' = false → killed (g_world g') = killed (g_world g).
Proof.
  revert g. induction fuel as [|fuel IH]; intros g; [done|]. cbn [capture_loop].
  destruct (g_out_open g || g_err_open g); [|by intros [= ->]].
  destruct (drain_both K _ _ _ _ g) as [g1|] eqn:E; [|done]. cbn [mbind option_bind].
  apply drain_both_killed in E as [E _]. intros H Hl Ht.
  destruct (g_limited g1) eqn:El; [injection H as <-; cbn in Hl; congruence|].
  destruct (c_now K (g_world g1)) as [now w] eqn:En. apply now_killed in En.
  destruct (deadline <=? now); [by injection H as <-|].
  rewrite (IH _ H Hl Ht). cbn. rewrite poll_killed. congruence.
Qed.

Lemma wait_loop_own fuel w status w' :
  wait_loop K fuel w child = Some (status, w') → killed w = false → status = own.
Proof.
  revert w. induction fuel as [|fuel IH]; intros w; [done|]. cbn [wait_loop].
  destruct (c_waitpid K w child) as [[s|e] w1] eqn:E; pose proof (waitpid_killed _ _ _ E) as Hk.
  - intros [= <- <-]. by eapply waitpid_own.
  - rewrite (waitpid_interrupted _ _ _ E). cbn. intros H Hw. eapply IH; [done|]. congruence.
Qed.

Lemma capture_own fuel w out err deadline limit r w' :
  capture K fuel w out err child deadline limit = Some (r, w') → killed w = false →
  c_output_limited r = false → c_timed_out r = false → c_status r = exit_code (-1) own.
Proof.
  unfold capture. destruct (capture_loop _ _ _ _ _ _ _) as [g|] eqn:E; [|done].
  cbn [mbind option_bind]. destruct (wait_loop _ _ _) as [[status w1]|] eqn:Ew; [|done].
  cbn [mbind option_bind]. intros [= <- <-] Hw Hl Ht. cbn in *.
  apply capture_loop_killed in E; [|done..]. rewrite Ht. f_equal.
  eapply wait_loop_own; [exact Ew|].
  destruct (g_out_open g), (g_err_open g); rewrite ?close_killed; cbn in E; congruence.
Qed.

End CaptureStatus.

Section Status.
Context {W V : Type} (C : CaptureOps W) (K : Kernel V) (F : FileOps V) (P : ParentOps V).
Context (uid gid child pid : Z) (program : wait_event) (n : Z).
Context (Hwf : wait_event_wf program) (Hn : program_code program = Some n).
Context (Hwait : ∀ v options who status v',
  k_waitpid K v pid options = (Ok (who, status), v') → status = encode_status program).

(** C17: a captured run that neither timed out nor was limited has the status
    of the sandboxed program: its exit status, or 128 and the number of the
    signal that killed it; or 1 when the sandbox could not be set up, and 127
    when the captured child could not have a process group. *)
Theorem captured_status_is_programs env access sym fuel v c code v' setpgid_ok killed
    `{!ChildLaws C child (encode_status (captured_child setpgid_ok code)) killed}
    fuel' w out err deadline limit r w' :
  run K F P uid gid env access sym fuel v c = Some (code, Some pid, v') →
  capture C fuel' w out err child deadline limit = Some (r, w') → killed w = false →
  c_output_limited r = false → c_timed_out r = false →
  c_status r = if setpgid_ok then if decide (code = 1) then 1 else n else 127.
Proof.
  intros Hrun Hc Hk Hl Ht. rewrite (capture_own C child _ killed _ _ _ _ _ _ _ _ Hc Hk Hl Ht).
  pose proof (exit_code_program 1 _ _ Hwf Hn) as [_ Hb].
  unfold captured_child. destruct setpgid_ok; [|by rewrite exit_code_exited].
  rewrite exit_code_exited by (apply Z.mod_pos_bound; lia).
  destruct (run_code K F P uid gid pid program n Hwf Hn Hwait _ _ _ _ _ _ _ _ Hrun) as [->| ->].
  - by rewrite decide_True.
  - rewrite Z.mod_small by done. case_decide; lia.
Qed.

End Status.

(** A system on which a captured child closes its pipes and ends by itself; the
    world is whether something was killed. *)
Definition quiet (own : Z) : CaptureOps bool := {|
  c_pipe w := (Some (3, 4), w);
  c_fork w := (42, w);
  c_close w _ := w;
  c_nonblock w _ := w;
  c_read w _ := (Ok "", w);
  c_now w := (0, w);
  c_kill _ _ _ := true;
  c_poll w _ _ := w;
  c_waitpid w _ := (Ok own, w);
|}.

#[export] Instance quiet_laws own : ChildLaws (quiet own) 42 own (λ w, w).
Proof. split; cbn; intros; by simplify_eq. Qed.

(** The program exits with 3. *)
Lemma captured_status_is_programs_witness :
  ∃ r w', capture (quiet (encode_status (captured_child true 3))) 9 false 3 5 42 100 4096 = Some (r, w') ∧
          c_status r = 3.
Proof.
  eexists _, _. split; [vm_compute; reflexivity|].
  unshelve eapply (@captured_status_is_programs bool (bool * string)
    (quiet (encode_status (captured_child true 3))) calm_kernel calm_files calm_parent 1000 1000 42 42
    (WExited 3) 3 _ _ _ None (λ _, false) (λ _, false) 9 (false, "") default_config 3 (true, "") true
    (λ w, w) (quiet_laws _) 9 false 3 5 100 4096).
  - cbn. lia.
  - reflexivity.
  - intros v options who status v' [= <- <- <-]. reflexivity.
  - exact false.
  - vm_compute. reflexivity.
  - vm_compute. reflexivity.
  - reflexivity.
  - reflexivity.
  - reflexivity.
Defined.

(** ** The signals a captured run sends *)

Section Kills.
Context {W : Type} (K : CaptureOps W) (kills : W → list (Z * Z)).

(** [kills w] are the calls of [kill] so far: targets and signals. *)
Class KillLaws := {
  kill_logs w pid sig : kills (c_kill K w pid sig) = kills w ++ [(pid, sig)];
  read_kills w fd r w' : c_read K w fd = (r, w') → kills w' = kills w;
  close_kills w fd : kills (c_close K w fd) = kills w;
  now_kills w t w' : c_now K w = (t, w') → kills w' = kills w;
  poll_kills w a b : kills (c_poll K w a b) = kills w;
  waitpid_kills w pid r w' : c_waitpid K w pid = (r, w') → kills w' = kills w;
}.
Context {logs : KillLaws}.

Lemma drain_kills fuel limit fd d d' :
  drain K fuel limit fd d = Some d' → kills (d_world d') = kills (d_world d).
Proof.
  revert d. induction fuel as [|fuel IH]; intros d; [done|]. cbn [drain].
  destruct (c_read K (d_world d) fd) as [[data|e] w] eqn:E; apply read_kills in E.
  - destruct (0 <? size data); [intros Hd; by rewrite (IH _ Hd)|]. intros [= <-]. cbn.
    by rewrite close_kills.
  - destruct (_ || _); intros [= <-]; cbn; by rewrite ?close_kills.
Qed.

Lemma drain_both_kills fuel limit out err g g' :
  drain_both K fuel limit out err g = Some g' →
  kills (g_world g') = kills (g_world g) ∧ g_timed_out g' = g_timed_out g.
Proof.
  unfold drain_both. destruct (drain K fuel limit out _) as [d|] eqn:E1; [|done].
  cbn [mbind option_bind]. destruct (drain K fuel limit err _) as [d'|] eqn:E2; [|done].
  intros [= <-]. apply drain_kills in E1, E2. cbn in *. split; congruence.
Qed.

Lemma capture_loop_kills fuel out err child deadline limit g g' :
  g_limited g = false → g_timed_out g = false →
  capture_loop K fuel out err child deadline limit g = Some g' →
  kills (g_world g') = kills (g_world g) ++
    (if g_timed_out g' || g_limited g' then [(- child, SIGKILL)] else []).
Proof.
  revert g. induction fuel as [|fuel IH]; intros g Hl Ht; [done|]. cbn [capture_loop].
  destruct (g_out_open g || g_err_open g); [|intros [= <-]; by rewrite Hl, Ht, app_nil_r].
  destruct (drain_both K _ _ _ _ g) as [g1|] eqn:E; [|done]. cbn [mbind option_bind].
  apply drain_both_kills in E as [E Et].
  destruct (g_limited g1) eqn:El.
  { intros [= <-]. cbn. by rewrite kill_logs, E, El, orb_true_r. }
  destruct (c_now K (g_world g1)) as [now w] eqn:En. apply now_kills in En.
  destruct (deadline <=? now); [intros [= <-]; cbn; by rewrite kill_logs, En, E|].
  intros H. apply IH in H; [|cbn; congruence..]. rewrite H. cbn. by rewrite poll_kills, En, E.
Qed.

Lemma wait_loop_kills fuel w child status w' :
  wait_loop K fuel w child = Some (status, w') → kills w' = kills w.
Proof.
  revert w. induction fuel as [|fuel IH]; intros w; [done|]. cbn [wait_loop].
  destruct (c_waitpid K w child) as [[s|e] w1] eqn:E; apply waitpid_kills in E.
  - by intros [= _ <-].
  - destruct (e =? Capture.EINTR); [intros H; by rewrite (IH _ H)|by intros [= _ <-]].
Qed.

(** A captured run sends one signal, SIGKILL to the process group of its child,
    when it times out or is limited, and none otherwise. *)
Lemma capture_kills fuel w out err child deadline limit r w' :
  capture K fuel w out err child deadline limit = Some (r, w') →
  kills w' = kills w ++ (if c_timed_out r || c_output_limited r then [(- child, SIGKILL)] else []).
Proof.
  unfold capture. destruct (capture_loop _ _ _ _ _ _ _) as [g|] eqn:E; [|done].
  cbn [mbind option_bind]. destruct (wait_loop _ _ _) as [[status w1]|] eqn:Ew; [|done].
  cbn [mbind option_bind]. intros [= <- <-]. cbn.
  apply capture_loop_kills in E; [|done..]. cbn in E. rewrite (wait_loop_kills _ _ _ _ _ Ew), <- E.
  by destruct (g_out_open g), (g_err_open g); rewrite ?close_kills.
Qed.

End Kills.

(** ** What the kill at the deadline reaches *)

(** What decides which processes a signal ends: the group, the parent, whether
    SIGKILL was asked for at the parent's death ([PR_SET_PDEATHSIG]), and the
    tracer with the options it set. *)
Record Proc := mkProc {
  proc_parent : Z;
  proc_group : Z;
  proc_death_signal : bool;
  proc_tracer : option (Z * Z);
}.

(** Whether a signal sent with [kill] to [target] reaches a process: a positive
    target is a process, one below -1 a process group (kill(2)); the others
    are never used. *)
Definition reaches (target p : Z) (x : Proc) : bool :=
  if 0 <? target then p =? target else (target <? -1) && (proc_group x =? - target).

(** The processes that are ended by the signals [sent]: those that SIGKILL
    reaches, those that asked for it at the death of a parent that is ended, and
    those whose tracer is ended and had set [PTRACE_O_EXITKILL]. *)
Inductive ended (ps : gmap Z Proc) (sent : list (Z * Z)) : Z → Prop :=
| ended_signal p x target :
    ps !! p = Some x → (target, SIGKILL) ∈ sent → reaches target p x = true → ended ps sent p
| ended_parent p x :
    ps !! p = Some x → proc_death_signal x = true → ended ps sent (proc_parent x) → ended ps sent p
| ended_tracer p x t options :
    ps !! p = Some x → proc_tracer x = Some (t, options) →
    has_option options PTRACE_O_EXITKILL = true → ended ps sent t → ended ps sent p.

(** How a process makes another (a clone without [CLONE_UNTRACED]), and the
    option with which a tracer follows it. *)
Inductive Spawn := by_fork | by_vfork | by_clone.

Definition spawn_option (k : Spawn) : Z :=
  match k with
  | by_fork => PTRACE_O_TRACEFORK
  | by_vfork => PTRACE_O_TRACEVFORK
  | by_clone => PTRACE_O_TRACECLONE
  end.

(** The tracer of a process that a traced process makes. *)
Definition inherited_tracer (k : Spawn) (tracer : option (Z * Z)) : option (Z * Z) :=
  match tracer with
  | Some (t, options) => if has_option options (spawn_option k) then Some (t, options) else None
  | None => None
  end.

Section Processes.
(** The program that captures with its process group, the captured child and
    the child of [run], and the effective ids they start with. *)
Context (main main_group child program euid egid : Z) (c : Config).

(** What a step of process [self] does to this: a change of an effective id
    clears the death signal (prctl(2)). *)
Definition step_effect (self : Z) (a : ChildStep) (x : Proc) : Proc :=
  match a with
  | Setpgid => mkProc (proc_parent x) self (proc_death_signal x) (proc_tracer x)
  | SetParentDeathSignal _ => mkProc (proc_parent x) (proc_group x) true (proc_tracer x)
  | Setresgid =>
      if egid =? 1000 then x else mkProc (proc_parent x) (proc_group x) false (proc_tracer x)
  | Setresuid =>
      if euid =? 1000 then x else mkProc (proc_parent x) (proc_group x) false (proc_tracer x)
  | _ => x
  end.

Definition run_effects (self : Z) (steps : list ChildStep) (x : Proc) : Proc :=
  foldl (λ x a, step_effect self a x) x steps.

(** What the captured child does to itself before [run]. *)
Definition captured_child_steps : list ChildStep := [Setpgid].

(** A process that [p] forks. *)
Definition forked (p : Z) (x : Proc) (tracer : option (Z * Z)) : Proc :=
  mkProc p (proc_group x) false tracer.

(** The processes when the program starts: the captured child has made a group
    of its own, the child of [run] has taken its steps. *)
Definition captured_processes : gmap Z Proc :=
  let captured := run_effects child captured_child_steps
                    (forked main (mkProc 0 main_group false None) None) in
  <[program := run_effects program (child_steps child c) (forked child captured None)]>
    {[child := captured]}.

(** The program makes a process, or one of the processes it made does: the new
    process is in the group of the one that made it and has no death signal.
    In a sandbox that traces, the program is the sandbox's tracer, which forks
    its tracee and sets its options; the tracer follows what a tracee makes. *)
Inductive forks : gmap Z Proc → gmap Z Proc → Prop :=
| fork_program ps x pid :
    ps !! program = Some x → ps !! pid = None →
    forks ps (<[pid := forked program x
                         (if trace_events c then Some (program, trace_options) else None)]> ps)
| fork_process k ps p x pid :
    ps !! p = Some x → p ≠ child → p ≠ program → ps !! pid = None →
    forks ps (<[pid := forked p x (inherited_tracer k (proc_tracer x))]> ps).

Definition inert (a : ChildStep) : bool :=
  match a with
  | Setpgid | SetParentDeathSignal _ | Setresgid | Setresuid => false
  | _ => true
  end.

Lemma inert_effects steps x : forallb inert steps = true → run_effects program steps x = x.
Proof.
  unfold run_effects. revert x. induction steps as [|a steps IH]; intros x; [done|]. cbn.
  intros [Ha Hs]%andb_true_iff. rewrite (IH _ Hs). by destruct a.
Qed.

Lemma run_effects_app l k x : run_effects program (l ++ k) x = run_effects program k (run_effects program l x).
Proof. apply foldl_app. Qed.

(** The death signal is kept by every step but the change of user. *)
Lemma program_effects :
  run_effects program (child_steps child c) (mkProc child child false None)
  = mkProc child program
      (negb (drop_to_unprivileged_user c && negb ((euid =? 1000) && (egid =? 1000)))) None.
Proof.
  unfold child_steps. rewrite !run_effects_app.
  rewrite (inert_effects (only (clean_environment c) _)) by by destruct (clean_environment c).
  assert (∀ x, run_effects program (set_limits c) x = x) as ->.
  { intros x. apply inert_effects. unfold set_limits.
    destruct (cpu_seconds c =? 0), (address_space_bytes c =? 0), (max_processes c =? 0),
      (max_file_bytes c =? 0); done. }
  rewrite (inert_effects (only _ [Seccomp _])) by by case_bool_decide.
  rewrite (inert_effects (only _ [NoNewPrivs])) by by destruct (no_new_privileges c).
  rewrite (inert_effects (only _ [Capset])) by by destruct (drop_capabilities c).
  rewrite (inert_effects (only _ [Unshare CLONE_NEWNET])) by by destruct (network_namespace c).
  rewrite (inert_effects (only _ [Chdir _])) by by case_bool_decide.
  rewrite (inert_effects (only _ [MountTmp])) by by destruct (mount_namespace c).
  rewrite (inert_effects (only _ ([Chroot _; Chdir "/"] ++ _))).
  2:{ unfold mount_runtime_filesystems. case_bool_decide; cbn; [done|].
      by destruct (mount_proc c), (mount_run c). }
  rewrite (inert_effects (only _ (MountPrivate :: _)))
    by by destruct (mount_namespace c), (read_only_root c).
  rewrite (inert_effects (only _ [Unshare CLONE_NEWNS])) by by destruct (mount_namespace c).
  rewrite (inert_effects (only _ [DenySetgroups; AwaitMapping])) by by destruct (user_namespace c).
  rewrite (inert_effects (only _ [Unshare CLONE_NEWUSER])) by by destruct (user_namespace c).
  destruct (drop_to_unprivileged_user c); [|done].
  cbn. by destruct (egid =? 1000), (euid =? 1000).
Qed.

(** Whether the program still has its death signal. *)
Definition keeps_death_signal : bool :=
  negb (drop_to_unprivileged_user c && negb ((euid =? 1000) && (egid =? 1000))).

(** The processes of the sandbox after any forks of the program. *)
Record sandbox_processes (ps : gmap Z Proc) : Prop := {
  sp_child : ps !! child = Some (mkProc main child false None);
  sp_program : ps !! program = Some (mkProc child program keeps_death_signal None);
  sp_other d x :
    ps !! d = Some x → d ≠ child → d ≠ program →
    proc_group x = program ∧ proc_death_signal x = false ∧
    proc_tracer x = (if trace_events c then Some (program, trace_options) else None);
}.

Lemma sandbox_processes_forks ps :
  child ≠ program → rtc forks captured_processes ps → sandbox_processes ps.
Proof.
  intros Hne Hr. remember captured_processes as ps0 eqn:E0.
  assert (sandbox_processes ps0) as Hps0.
  { subst. unfold captured_processes. cbn zeta.
    change (run_effects child captured_child_steps _) with (mkProc main child false None).
    change (forked child _ None) with (mkProc child child false None). rewrite program_effects. split.
    - by rewrite lookup_insert_ne, lookup_singleton_eq by done.
    - by rewrite lookup_insert_eq.
    - intros d x Hx Hc Hp. by rewrite lookup_insert_ne, lookup_singleton_ne in Hx by done. }
  clear E0. induction Hr as [|ps0 ps1 ps2 Hf Hr IH]; [done|]. apply IH. clear IH Hr.
  destruct Hps0 as [Hc Hq Ho].
  assert (∀ ps' pid x, ps' = <[pid := x]> ps0 → ps0 !! pid = None →
    proc_group x = program ∧ proc_death_signal x = false ∧
    proc_tracer x = (if trace_events c then Some (program, trace_options) else None) →
    sandbox_processes ps') as Hadd.
  { intros ps' pid x -> Hpid Hx. split.
    - rewrite lookup_insert_ne; [done|congruence].
    - rewrite lookup_insert_ne; [done|congruence].
    - intros d y [[<- <-]|[Hd Hy]]%lookup_insert_Some Hdc Hdp; [done|by eapply Ho]. }
  destruct Hf as [ps x pid Hp Hpid|k ps p x pid Hp Hpc Hpp Hpid]; (eapply Hadd; [done|done|]); cbn.
  - by simplify_eq.
  - destruct (Ho _ _ Hp Hpc Hpp) as (Hg & _ & Ht). split_and!; [done|done|].
    rewrite Ht. destruct (trace_events c); [by destruct k|done].
Qed.


End Processes.

(** A system on which nothing happens until the clock has passed the deadline:
    the program writes nothing and does not end; the world is the log of
    [kill]. *)
Definition stalled : CaptureOps (list (Z * Z)) := {|
  c_pipe w := (Some (3, 4), w);
  c_fork w := (42, w);
  c_close w _ := w;
  c_nonblock w _ := w;
  c_read w _ := (Err EAGAIN, w);
  c_now w := (100, w);
  c_kill w pid sig := w ++ [(pid, sig)];
  c_poll w _ _ := w;
  c_waitpid w _ := (Ok 9, w);
|}.

#[export] Instance stalled_logs : KillLaws stalled (λ w, w).
Proof. split; cbn; intros; by simplify_eq. Qed.

