(* ===== verification/Storage.v ===== *)
(** * Stored observations (include/execell/package/storage.hpp, src/package/storage.cpp)

    The database of package observations.  SQLite is a parameter, the record
    [Sqlite]: it runs the statements of the source, which appear here as the
    source has them.  What those statements do to the tables is stated in
    StorageSpec; the operations of [Database] are proved against it. *)

From S2P Require Import Prelude CxxString StrOrder Owner.

(** ** Data *)

Definition schema_version : Z := 1.

Record PackageIdentity := mkIdentity {
  i_name : string;
  i_version : string;
  i_architecture : string;
  i_signature : string;
  i_source_revision : string;
  i_dependency_fingerprint : string;
  i_package_hash : string;
  i_build_options : string;
  i_static_fingerprint : string;
  i_dynamic_fingerprint : string;
}.

Record StoredEvent := mkStored {
  v_category : string;
  v_action : string;
  v_subject : string;
  v_detail : string;
  v_dynamic : bool;
}.

Record StoredObservation := mkStoredObservation { so_id : Z; so_baseline : bool }.

Record VersionDelta := mkDelta {
  compared : bool;
  from_baseline : bool;
  identity_changed : bool;
  source_changed : bool;
  dependencies_changed : bool;
  added_events : list string;
  removed_events : list string;
}.

Definition no_delta : VersionDelta := mkDelta false false false false false [] [].

#[export] Instance PackageIdentity_eq_dec : EqDecision PackageIdentity.
Proof. solve_decision. Defined.
#[export] Instance StoredEvent_eq_dec : EqDecision StoredEvent.
Proof. solve_decision. Defined.

(** ** SQLite *)

Inductive sql_value := SText (s : string) | SInt (z : Z).

#[export] Instance sql_value_eq_dec : EqDecision sql_value.
Proof. solve_decision. Defined.

Abbreviation sql_row := (list sql_value).

(** [exec] runs a statement without a result; [prepare] compiles one; [query]
    runs a prepared one with its parameters: the rows its steps give, and the
    error that ends them, if any.  An error is the message of the failure. *)
Record Sqlite (D : Type) := mkSqlite {
  sq_exec : D → string → expected unit string * D;
  sq_prepare : D → string → expected unit string * D;
  sq_query : D → string → list sql_value → (list sql_row * option string) * D;
  sq_last_rowid : D → Z;
}.
Arguments sq_exec {D}.
Arguments sq_prepare {D}.
Arguments sq_query {D}.
Arguments sq_last_rowid {D}.

(** [Statement::text]: the bound text ends at its first NUL. *)
Definition bind_text (s : string) : sql_value := SText (from_c_str s).

(** SQLite's conversion of a text to an integer: its longest prefix that is one. *)
Fixpoint digits_value (acc : Z) (s : string) : Z :=
  match s with
  | String c s => if is_digit c then digits_value (acc * 10 + (code c - 48)) s else acc
  | "" => acc
  end.

Fixpoint text_integer (s : string) : Z :=
  match s with
  | String c s' =>
      if (code c =? 32) || ((9 <=? code c) && (code c <=? 13)) then text_integer s'
      else if bool_decide (c = "-"%char) then Z.max (- 2 ^ 63) (- digits_value 0 s')
      else if bool_decide (c = "+"%char) then Z.min (2 ^ 63 - 1) (digits_value 0 s')
      else Z.min (2 ^ 63 - 1) (digits_value 0 s)
  | "" => 0
  end.

(** The columns of a row, as [Statement::text] and [Statement::integer] read them. *)
Definition column_text (row : list sql_value) (i : nat) : string :=
  match row !! i with Some (SText s) => s | Some (SInt z) => to_string z | None => "" end.
Definition column_integer (row : list sql_value) (i : nat) : Z :=
  match row !! i with Some (SInt z) => z | Some (SText s) => text_integer s | None => 0 end.

(** What one [Statement::next] finds: the first row. *)
Definition next_row (r : list sql_row * option string) : expected (option sql_row) string :=
  match r with
  | (row :: _, _) => Ok (Some row)
  | ([], None) => Ok None
  | ([], Some e) => Err e
  end.

(** What a loop over [Statement::next] finds: all rows. *)
Definition every_row (r : list sql_row * option string) : expected (list sql_row) string :=
  match r with
  | (rows, None) => Ok rows
  | (_, Some e) => Err e
  end.

(** ** The statements *)

Definition sql_begin : string := "BEGIN IMMEDIATE;".
Definition sql_commit : string := "COMMIT;".
Definition sql_rollback : string := "ROLLBACK;".
Definition sql_foreign_keys : string := "PRAGMA foreign_keys = ON;".
Definition sql_create_migrations : string :=
  "CREATE TABLE IF NOT EXISTS schema_migrations (version INTEGER PRIMARY KEY, applied_at TEXT NOT NULL DEFAULT CURRENT_TIMESTAMP);".
Definition sql_current_version : string :=
  "SELECT COALESCE(MAX(version), 0) FROM schema_migrations;".
Definition sql_create_observations : string :=
  "CREATE TABLE observations (id INTEGER PRIMARY KEY, name TEXT NOT NULL, version TEXT NOT NULL, architecture TEXT NOT NULL, signature TEXT NOT NULL, source_revision TEXT NOT NULL, dependency_fingerprint TEXT NOT NULL, package_hash TEXT NOT NULL, build_options TEXT NOT NULL, static_fingerprint TEXT NOT NULL, dynamic_fingerprint TEXT NOT NULL, baseline INTEGER NOT NULL DEFAULT 0, observed_at TEXT NOT NULL DEFAULT CURRENT_TIMESTAMP);".
Definition sql_create_events : string :=
  "CREATE TABLE events (id INTEGER PRIMARY KEY, observation_id INTEGER NOT NULL REFERENCES observations(id) ON DELETE CASCADE, category TEXT NOT NULL, action TEXT NOT NULL, subject TEXT NOT NULL, detail TEXT NOT NULL, dynamic INTEGER NOT NULL);".
Definition sql_create_index : string :=
  "CREATE INDEX events_observation_idx ON events(observation_id);".
Definition sql_insert_migration : string := "INSERT INTO schema_migrations(version) VALUES (1);".
Definition sql_insert_observation : string :=
  "INSERT INTO observations(name,version,architecture,signature,source_revision,dependency_fingerprint,package_hash,build_options,static_fingerprint,dynamic_fingerprint,baseline) VALUES (?,?,?,?,?,?,?,?,?,?,NOT EXISTS (SELECT 1 FROM observations WHERE name=?));".
Definition sql_insert_event : string :=
  "INSERT INTO events(observation_id,category,action,subject,detail,dynamic) VALUES (?,?,?,?,?,?);".
Definition sql_select_baseline : string := "SELECT baseline FROM observations WHERE id=?;".
Definition sql_select_versions : string :=
  "SELECT id, version, architecture, signature, source_revision, dependency_fingerprint, package_hash, build_options, static_fingerprint, dynamic_fingerprint, baseline FROM observations WHERE name=? AND version IN (?,?) ORDER BY id;".
Definition sql_select_events : string :=
  "SELECT category || char(31) || action || char(31) || subject || char(31) || detail || char(31) || dynamic FROM events WHERE observation_id=?;".
Definition sql_previous_version : string :=
  "SELECT version FROM observations WHERE name=? AND version<>? ORDER BY id DESC LIMIT 1;".

(** ** The database *)

(** ** The handle of a [Database], which it owns *)

Module Handle.

(** [handle_]: null after a move. *)
Definition t : Type := Pointer.t.

(** [Database(Database&&)]: the new object and what is left of the other. *)
Definition move_construct : t → t * t := Pointer.move_construct.

Section Close.
Context {W : Type} (sqlite3_close : W → Z → W).

(** [~Database] *)
Definition destroy : W → t → W := Pointer.destroy sqlite3_close.

(** [operator=(Database&&)] of two different objects. *)
Definition move_assign : W → t → t → W * t * t := Pointer.move_assign sqlite3_close.

End Close.
End Handle.

Section Database.
Context {D : Type} (Q : Sqlite D).

(** [ROLLBACK] in a handler: its result is ignored, the error is thrown again. *)
Definition rollback {A} (error : string) (d : D) : expected A string * D :=
  (Err error, (sq_exec Q d sql_rollback).2).

(** A [Statement] that is prepared and stepped once. *)
Definition first_row (d : D) (statement : string) (values : list sql_value)
    : expected (option sql_row) string * D :=
  match sq_prepare Q d statement with
  | (Err e, d) => (Err e, d)
  | (Ok _, d) => let '(rows, d) := sq_query Q d statement values in (next_row rows, d)
  end.

(** A [Statement] that is prepared and stepped to its end. *)
Definition all_rows (d : D) (statement : string) (values : list sql_value)
    : expected (list sql_row) string * D :=
  match sq_prepare Q d statement with
  | (Err e, d) => (Err e, d)
  | (Ok _, d) => let '(rows, d) := sq_query Q d statement values in (every_row rows, d)
  end.

(** Statements run in order up to the first error. *)
Fixpoint exec_all (d : D) (statements : list string) : expected unit string * D :=
  match statements with
  | [] => (Ok (), d)
  | s :: statements =>
      match sq_exec Q d s with
      | (Ok _, d) => exec_all d statements
      | (Err e, d) => (Err e, d)
      end
  end.

(** [migrate] *)
Definition migrate (d : D) : expected unit string * D :=
  match exec_all d [sql_foreign_keys; sql_begin] with
  | (Err e, d) => (Err e, d)
  | (Ok _, d) =>
      match sq_exec Q d sql_create_migrations with
      | (Err e, d) => rollback e d
      | (Ok _, d) =>
          match first_row d sql_current_version [] with
          | (Err e, d) => rollback e d
          | (Ok found, d) =>
              let version :=
                match found with None => 0 | Some row => s32 (column_integer row 0) end in
              if schema_version <? version
              then rollback "database schema is newer than this build" d
              else
                match exec_all d
                        ((if version <? 1
                          then [sql_create_observations; sql_create_events; sql_create_index;
                                sql_insert_migration]
                          else []) ++ [sql_commit]) with
                | (Ok _, d) => (Ok (), d)
                | (Err e, d) => rollback e d
                end
          end
      end
  end.

(** [Database::open]; [sqlite3_open_v2] gives the message of its error, and a
    database that cannot be migrated is closed. *)
Definition open_database (open_v2 : D → string → expected unit string * D) (close : D → D)
    (d : D) (path : string) : expected unit string * D :=
  match open_v2 d path with
  | (Err message, d) => (Err ("open database: " +:+ message), d)
  | (Ok _, d) =>
      match migrate d with
      | (Err e, d) => (Err e, close d)
      | (Ok _, d) => (Ok (), d)
      end
  end.

(** [bind_identity] *)
Definition bind_identity (i : PackageIdentity) : list sql_value :=
  [bind_text (i_name i); bind_text (i_version i); bind_text (i_architecture i);
   bind_text (i_signature i); bind_text (i_source_revision i);
   bind_text (i_dependency_fingerprint i); bind_text (i_package_hash i);
   bind_text (i_build_options i); bind_text (i_static_fingerprint i);
   bind_text (i_dynamic_fingerprint i)].

Definition bind_event (id : Z) (e : StoredEvent) : list sql_value :=
  [SInt id; bind_text (v_category e); bind_text (v_action e); bind_text (v_subject e);
   bind_text (v_detail e); SInt (if v_dynamic e then 1 else 0)].

(** The loop over the events of [store], with a statement prepared before it. *)
Fixpoint insert_events (d : D) (id : Z) (events : list StoredEvent) : expected unit string * D :=
  match events with
  | [] => (Ok (), d)
  | e :: events =>
      let '(rows, d) := sq_query Q d sql_insert_event (bind_event id e) in
      match next_row rows with
      | Err m => (Err m, d)
      | Ok _ => insert_events d id events
      end
  end.

(** [Database::store] *)
Definition store (d : D) (identity : PackageIdentity) (events : list StoredEvent)
    : expected StoredObservation string * D :=
  match sq_exec Q d sql_begin with
  | (Err e, d) => (Err e, d)
  | (Ok _, d) =>
      match first_row d sql_insert_observation
              (bind_identity identity ++ [bind_text (i_name identity)]) with
      | (Err e, d) => rollback e d
      | (Ok _, d) =>
          let id := sq_last_rowid Q d in
          match sq_prepare Q d sql_insert_event with
          | (Err e, d) => rollback e d
          | (Ok _, d) =>
              match insert_events d id events with
              | (Err e, d) => rollback e d
              | (Ok _, d) =>
                  match sq_exec Q d sql_commit with
                  | (Err e, d) => rollback e d
                  | (Ok _, d) =>
                      match first_row d sql_select_baseline [SInt id] with
                      | (Err e, d) => rollback e d
                      | (Ok found, d) =>
                          (Ok (mkStoredObservation id
                                 (match found with
                                  | None => false
                                  | Some row => negb (column_integer row 0 =? 0)
                                  end)), d)
                      end
                  end
              end
          end
      end
  end.

(** The variables of [compare] for one of the two versions. *)
Record Side := mkSide {
  s_id : Z;
  s_columns : list string;
  s_baseline : bool;
}.

Definition no_side : Side := mkSide 0 (replicate 8 "") false.

(** Reads a row into one of the sides: architecture, signature, source,
    dependencies, hash, options, static and dynamic fingerprint. *)
Definition side_of (row : list sql_value) : Side :=
  mkSide (column_integer row 0) (map (column_text row) (seq 2 8))
    (negb (column_integer row 10 =? 0)).

Definition read_side (from : string) (sides : Side * Side) (row : list sql_value) : Side * Side :=
  if bool_decide (column_text row 1 = from) then (side_of row, sides.2)
  else (sides.1, side_of row).

Definition column (i : nat) (s : Side) : string := default "" (s_columns s !! i).

(** The result of [compare] on two sides, with the rows of their events. *)
Definition version_delta (f t : Side) (old_rows new_rows : list string) : VersionDelta :=
  let differs i := negb (bool_decide (column i f = column i t)) in
  let old_events := set_of old_rows in
  let new_events := set_of new_rows in
  mkDelta true (s_baseline f)
    (differs 0%nat || differs 1%nat || differs 4%nat || differs 5%nat ||
     differs 6%nat || differs 7%nat)
    (differs 2%nat) (differs 3%nat)
    (set_difference new_events old_events)
    (set_difference old_events new_events).

(** [Database::compare] *)
Definition compare (d : D) (name from to : string) : expected VersionDelta string * D :=
  match all_rows d sql_select_versions [bind_text name; bind_text from; bind_text to] with
  | (Err e, d) => (Err e, d)
  | (Ok rows, d) =>
      let '(f, t) := foldl (read_side from) (no_side, no_side) rows in
      if (s_id f =? 0) || (s_id t =? 0) then (Ok no_delta, d)
      else
        match all_rows d sql_select_events [SInt (s_id f)] with
        | (Err e, d) => (Err e, d)
        | (Ok old_rows, d) =>
            match all_rows d sql_select_events [SInt (s_id t)] with
            | (Err e, d) => (Err e, d)
            | (Ok new_rows, d) =>
                let events := map (λ row, column_text row 0) in
                (Ok (version_delta f t (events old_rows) (events new_rows)), d)
            end
        end
  end.

(** [Database::previous_version] *)
Definition previous_version (d : D) (name current : string) : expected (option string) string * D :=
  match first_row d sql_previous_version [bind_text name; bind_text current] with
  | (Err e, d) => (Err e, d)
  | (Ok found, d) => (Ok ((λ row, column_text row 0) <$> found), d)
  end.

End Database.
