(* ===== verification/StorageSpec.v ===== *)
(** * Stored observations: what the database keeps

    The tables behind the statements of Storage, the laws by which SQLite runs
    the statements on them, and the theorems on [store] and [compare].  A
    database in memory shows that the laws can be met. *)

From Stdlib Require Import Sorting.Sorted.
From S2P Require Import Prelude CxxString StrOrder Storage.

(** ** The tables *)

Record ObservationRow := mkRow { ob_id : Z; ob_identity : PackageIdentity; ob_baseline : bool }.

(** The rows of a table in the order of their ids. *)
Record Tables := mkTables {
  t_observations : list ObservationRow;
  t_events : list (Z * StoredEvent);
}.

(** Texts end at their first NUL when they are bound. *)
Definition stored_identity (i : PackageIdentity) : PackageIdentity :=
  mkIdentity (from_c_str (i_name i)) (from_c_str (i_version i)) (from_c_str (i_architecture i))
    (from_c_str (i_signature i)) (from_c_str (i_source_revision i))
    (from_c_str (i_dependency_fingerprint i)) (from_c_str (i_package_hash i))
    (from_c_str (i_build_options i)) (from_c_str (i_static_fingerprint i))
    (from_c_str (i_dynamic_fingerprint i)).

Definition stored_event (e : StoredEvent) : StoredEvent :=
  mkStored (from_c_str (v_category e)) (from_c_str (v_action e)) (from_c_str (v_subject e))
    (from_c_str (v_detail e)) (v_dynamic e).

Definition unit_separator : string := str "031"%char.

(** The text by which events are compared. *)
Definition event_key (e : StoredEvent) : string :=
  v_category e +:+ unit_separator +:+ v_action e +:+ unit_separator +:+ v_subject e +:+
  unit_separator +:+ v_detail e +:+ unit_separator +:+ (if v_dynamic e then "1" else "0").

Definition named (name : string) (r : ObservationRow) : bool := bool_decide (i_name (ob_identity r) = name).
Definition versioned (v : string) (r : ObservationRow) : bool := bool_decide (i_version (ob_identity r) = v).

Definition add_row (id : Z) (i : PackageIdentity) (t : Tables) : Tables :=
  mkTables (t_observations t ++
            [mkRow id (stored_identity i)
               (negb (existsb (named (from_c_str (i_name i))) (t_observations t)))])
    (t_events t).

Definition add_events (id : Z) (es : list StoredEvent) (t : Tables) : Tables :=
  mkTables (t_observations t) (t_events t ++ map (λ e, (id, stored_event e)) es).

(** The columns selected for [compare]. *)
Definition version_columns (r : ObservationRow) : list sql_value :=
  let i := ob_identity r in
  [SInt (ob_id r); SText (i_version i); SText (i_architecture i); SText (i_signature i);
   SText (i_source_revision i); SText (i_dependency_fingerprint i); SText (i_package_hash i);
   SText (i_build_options i); SText (i_static_fingerprint i); SText (i_dynamic_fingerprint i);
   SInt (if ob_baseline r then 1 else 0)].

Definition events_of (id : Z) (t : Tables) : list StoredEvent :=
  map snd (List.filter (λ p, p.1 =? id) (t_events t)).

(** ** What SQLite guarantees *)

(** The rows of a query, possibly cut short by an error. *)
Definition gives (r : list sql_row * option string) (rows : list sql_row) : Prop :=
  ∃ rest, rows = r.1 ++ rest ∧ (r.2 = None → rest = []).

Lemma gives_all rows : gives (rows, None) rows.
Proof. exists []. by rewrite app_nil_r. Qed.

Lemma gives_every r rows l : gives r rows → every_row r = Ok l → l = rows.
Proof.
  intros (rest & -> & Hrest). destruct r as [l' [e|]]; [done|]. intros [= <-]. cbn.
  by rewrite (Hrest eq_refl), app_nil_r.
Qed.

Lemma gives_next r rows x : gives r rows → next_row r = Ok x → x = head rows.
Proof.
  intros (rest & -> & Hrest). destruct r as [[|y l] [e|]]; try done; intros [= <-]; [|done..].
  by rewrite (Hrest eq_refl).
Qed.

(** [tables] are the tables as the connection sees them, [saved] those a
    rollback restores while a transaction is open. *)
Class SqliteLaws {D : Type} (Q : Sqlite D) (tables : D → Tables) (saved : D → option Tables) := {
  begin_ok d d' : sq_exec Q d sql_begin = (Ok (), d') → tables d' = tables d ∧ saved d' = Some (tables d);
  begin_err d e d' : sq_exec Q d sql_begin = (Err e, d') → tables d' = tables d;
  commit_ok d d' : sq_exec Q d sql_commit = (Ok (), d') → tables d' = tables d ∧ saved d' = None;
  commit_err d e d' : sq_exec Q d sql_commit = (Err e, d') → saved d' = saved d;
  rollback_law d r d' :
    sq_exec Q d sql_rollback = (r, d') → tables d' = default (tables d) (saved d) ∧ saved d' = None;
  prepare_law d s r d' : sq_prepare Q d s = (r, d') → tables d' = tables d ∧ saved d' = saved d;
  query_err d s ps rows e d' : sq_query Q d s ps = ((rows, Some e), d') → saved d' = saved d;
  insert_observation_law d i rows o d' :
    sq_query Q d sql_insert_observation (bind_identity i ++ [bind_text (i_name i)]) = ((rows, o), d') →
    rows = [] ∧ (o = None →
    tables d' = add_row (sq_last_rowid Q d') i (tables d) ∧ saved d' = saved d ∧
    0 < sq_last_rowid Q d' ∧ Forall (λ r, ob_id r < sq_last_rowid Q d') (t_observations (tables d)) ∧
    Forall (λ p, p.1 < sq_last_rowid Q d') (t_events (tables d)));
  insert_event_law d id e rows o d' :
    sq_query Q d sql_insert_event (bind_event id e) = ((rows, o), d') →
    rows = [] ∧ (o = None → tables d' = add_events id [e] (tables d) ∧ saved d' = saved d);
  select_baseline_law d id r d' :
    sq_query Q d sql_select_baseline [SInt id] = (r, d') →
    tables d' = tables d ∧ saved d' = saved d ∧
    gives r (map (λ x, [SInt (if ob_baseline x then 1 else 0)])
               (List.filter (λ x, ob_id x =? id) (t_observations (tables d))));
  select_versions_law d name from to r d' :
    sq_query Q d sql_select_versions [SText name; SText from; SText to] = (r, d') →
    tables d' = tables d ∧ saved d' = saved d ∧
    gives r (map version_columns
               (List.filter (λ x, named name x && (versioned from x || versioned to x))
                  (t_observations (tables d))));
  select_events_law d id r d' :
    sq_query Q d sql_select_events [SInt id] = (r, d') →
    tables d' = tables d ∧ saved d' = saved d ∧
    gives r (map (λ e, [SText (event_key e)]) (events_of id (tables d)));
  previous_version_law d name current r d' :
    sq_query Q d sql_previous_version [SText name; SText current] = (r, d') →
    tables d' = tables d ∧ saved d' = saved d ∧
    gives r (match last (List.filter (λ x, named name x && negb (versioned current x))
                           (t_observations (tables d))) with
             | None => []
             | Some x => [[SText (i_version (ob_identity x))]]
             end);
}.

Section Store.
Context {D : Type} (Q : Sqlite D) (tables : D → Tables) (saved : D → option Tables).
Context `{!SqliteLaws Q tables saved}.

Lemma add_events_app id e es t : add_events id es (add_events id [e] t) = add_events id (e :: es) t.
Proof. unfold add_events. cbn. by rewrite <- app_assoc. Qed.

Lemma insert_events_spec d id es r d' :
  insert_events Q d id es = (r, d') →
  saved d' = saved d ∧ (r = Ok () → tables d' = add_events id es (tables d)).
Proof.
  revert d. induction es as [|e es IH]; intros d; cbn [insert_events].
  { intros [= <- <-]. split; [done|]. intros _. unfold add_events. cbn. rewrite app_nil_r. by destruct (tables d). }
  destruct (sq_query Q d _ _) as [[rows o] d1] eqn:E.
  destruct (insert_event_law _ _ _ _ _ _ E) as [-> Ht]. destruct o as [m|]; cbn [next_row].
  - intros [= <- <-]. split; [by eapply query_err|done].
  - destruct (Ht eq_refl) as [Ht1 Hs]. intros H. destruct (IH _ H) as [Hs' Ht'].
    split; [congruence|]. intros Hr. by rewrite (Ht' Hr), Ht1, add_events_app.
Qed.

Lemma rollback_spec {A} e d (r : expected A string) d' :
  rollback Q e d = (r, d') → tables d' = default (tables d) (saved d) ∧ r = Err e.
Proof.
  unfold rollback. destruct (sq_exec Q d sql_rollback) as [x d1] eqn:E. intros [= <- <-].
  apply rollback_law in E as [Ht _]. done.
Qed.

(** A statement that is stepped once, by what it leaves and finds. *)
Lemma first_row_cases d s ps r d' :
  first_row Q d s ps = (r, d') →
  (∃ e, r = Err e ∧ saved d' = saved d ∧ tables d' = tables d) ∨
  ∃ d1 rows, tables d1 = tables d ∧ saved d1 = saved d ∧ sq_query Q d1 s ps = (rows, d') ∧
    next_row rows = r.
Proof.
  unfold first_row. destruct (sq_prepare Q d s) as [[[]|e] d1] eqn:E; apply prepare_law in E as [Ht Hs].
  - destruct (sq_query Q d1 s ps) as [rows d2] eqn:E. intros [= <- <-]. right. by exists d1, rows.
  - intros [= <- <-]. left. by exists e.
Qed.

Lemma next_row_error rows (e : string) :
  next_row rows = Err e → rows = ([], Some e).
Proof. destruct rows as [[|x l] [e'|]]; try done. by intros [= <-]. Qed.

Lemma all_rows_spec (P : list sql_row → Prop) d s ps r d' :
  (∀ d1 rows d2, tables d1 = tables d → sq_query Q d1 s ps = (rows, d2) →
     tables d2 = tables d1 ∧ ∀ l, every_row rows = Ok l → P l) →
  all_rows Q d s ps = (r, d') → tables d' = tables d ∧ ∀ l, r = Ok l → P l.
Proof.
  intros H. unfold all_rows. destruct (sq_prepare Q d s) as [[[]|e] d1] eqn:E;
    apply prepare_law in E as [Ht Hs]; [|by intros [= <- <-]].
  destruct (sq_query Q d1 s ps) as [rows d2] eqn:E. intros [= <- <-].
  destruct (H _ _ _ Ht E) as [Ht2 Hl]. split; [congruence|done].
Qed.

(** The tables with one more observation. *)
Definition with_observation (id : Z) (i : PackageIdentity) (es : list StoredEvent) (t : Tables) : Tables :=
  add_events id es (add_row id i t).

Lemma filter_ids id l : Forall (λ r, ob_id r < id) l → List.filter (λ x, ob_id x =? id) l = [].
Proof.
  induction 1 as [|r l Hr _ IH]; [done|]. cbn. by rewrite (proj2 (Z.eqb_neq _ _)) by lia.
Qed.

Lemma store_spec d i es r d' :
  store Q d i es = (r, d') →
  match r with
  | Err _ => tables d' = tables d ∨ ∃ id, tables d' = with_observation id i es (tables d)
  | Ok o =>
      tables d' = with_observation (so_id o) i es (tables d) ∧ 0 < so_id o ∧
      Forall (λ r, ob_id r < so_id o) (t_observations (tables d)) ∧
      Forall (λ p, p.1 < so_id o) (t_events (tables d)) ∧
      so_baseline o = negb (existsb (named (from_c_str (i_name i))) (t_observations (tables d)))
  end.
Proof.
  unfold store. destruct (sq_exec Q d sql_begin) as [[[]|e] d0] eqn:E0;
    [apply begin_ok in E0 as [Ht0 Hs0]|intros [= <- <-]; left; by eapply begin_err].
  destruct (first_row Q d0 _ _) as [x1 d1] eqn:E1.
  destruct (first_row_cases _ _ _ _ _ E1) as [(e & -> & Hs1 & _)|(d0' & q1 & Ht0' & Hs0' & Eq1 & Hx1)];
    [intros [Ht ->]%rollback_spec; left; by rewrite Ht, Hs1, Hs0|].
  destruct q1 as [rows1 o1]. destruct (insert_observation_law _ _ _ _ _ Eq1) as [-> Hins].
  destruct o1 as [e|]; cbn in Hx1; subst x1.
  { apply query_err in Eq1. intros [Ht ->]%rollback_spec. left. by rewrite Ht, Eq1, Hs0', Hs0. }
  destruct (Hins eq_refl) as (Ht1 & Hs1 & Hpos & Hfresh & Hfe). clear Hins.
  rewrite Ht0' in Ht1, Hfresh, Hfe. rewrite Hs0' in Hs1.
  set (id := sq_last_rowid Q d1) in *.
  destruct (sq_prepare Q d1 sql_insert_event) as [[[]|e] d1'] eqn:Ep; apply prepare_law in Ep as [Htp Hsp];
    [|intros [Ht ->]%rollback_spec; left; by rewrite Ht, Hsp, Hs1, Hs0].
  destruct (insert_events Q d1' id es) as [[[]|e] d2] eqn:E2; apply insert_events_spec in E2 as [Hs2 Ht2];
    [specialize (Ht2 eq_refl)|intros [Ht ->]%rollback_spec; left; by rewrite Ht, Hs2, Hsp, Hs1, Hs0].
  assert (tables d2 = with_observation id i es (tables d)) as Hd2 by (rewrite Ht2, Htp, Ht1, Ht0; done).
  destruct (sq_exec Q d2 sql_commit) as [[[]|e] d3] eqn:E3;
    [apply commit_ok in E3 as [Ht3 Hs3]
    |apply commit_err in E3; intros [Ht ->]%rollback_spec; left; by rewrite Ht, E3, Hs2, Hsp, Hs1, Hs0].
  assert (∀ d4, tables d4 = tables d3 → saved d4 = saved d3 → default (tables d4) (saved d4) =
          with_observation id i es (tables d)) as Hkept by (intros d4 Ht4 ->; rewrite Hs3; cbn; congruence).
  destruct (first_row Q d3 _ _) as [x4 d4] eqn:E4.
  destruct (first_row_cases _ _ _ _ _ E4) as [(e & -> & Hs4 & Ht4)|(d3' & q4 & Ht3' & Hs3' & Eq4 & Hx4)];
    [intros [Ht ->]%rollback_spec; right; exists id; rewrite Ht; by apply Hkept|].
  apply select_baseline_law in Eq4 as (Ht4 & Hs4 & Hrow).
  destruct x4 as [found|e].
  - apply (gives_next _ _ _ Hrow) in Hx4 as ->. intros [= <- <-]. cbn [so_id so_baseline].
    rewrite Ht0 in Hfresh, Hfe. split; [congruence|]. split; [done|]. split; [done|]. split; [done|].
    rewrite Ht3', Ht3, Hd2. cbn [with_observation add_events add_row t_observations].
    rewrite List.filter_app, filter_ids by done. cbn [app List.filter ob_id map ob_baseline].
    rewrite Z.eqb_refl. cbn. by destruct (existsb _ _).
  - intros [Ht ->]%rollback_spec. right. exists id. rewrite Ht. apply Hkept; congruence.
Qed.

(** C29: storing an observation is all or nothing.  When it succeeds the tables
    have exactly one new observation, under a fresh id, with its events in
    order, and it is the baseline just when it is the first of its package;
    when it fails the tables are unchanged, or hold the whole observation. *)
Theorem store_all_or_nothing d i es r d' :
  store Q d i es = (r, d') →
  match r with
  | Err _ => tables d' = tables d ∨ ∃ id, tables d' = with_observation id i es (tables d)
  | Ok o =>
      tables d' = with_observation (so_id o) i es (tables d) ∧ 0 < so_id o ∧
      Forall (λ r, ob_id r < so_id o) (t_observations (tables d)) ∧
      Forall (λ p, p.1 < so_id o) (t_events (tables d)) ∧
      so_baseline o = negb (existsb (named (from_c_str (i_name i))) (t_observations (tables d)))
  end.
Proof. apply store_spec. Qed.

(** ** Comparison *)

Lemma column_version r : column_text (version_columns r) 1 = i_version (ob_identity r).
Proof. done. Qed.

Lemma read_sides from l s :
  foldl (read_side from) s (map version_columns l) =
  (default s.1 (side_of ∘ version_columns <$> last (List.filter (versioned from) l)),
   default s.2 (side_of ∘ version_columns <$> last (List.filter (λ x, negb (versioned from x)) l))).
Proof.
  induction l as [|x l IH] using rev_ind; [by destruct s|].
  rewrite map_app, foldl_app, IH, !List.filter_app. cbn [map foldl]. unfold read_side at 1.
  rewrite column_version. change (bool_decide (i_version (ob_identity x) = from)) with (versioned from x).
  cbn [List.filter]. destruct (versioned from x); cbn [negb]; by rewrite ?app_nil_r, last_snoc.
Qed.

(** The last observation of a version. *)
Definition latest (name version : string) (t : Tables) : option ObservationRow :=
  last (List.filter (λ x, named name x && versioned version x) (t_observations t)).

Lemma filter_filter {A} (p q : A → bool) l :
  List.filter p (List.filter q l) = List.filter (λ x, q x && p x) l.
Proof.
  induction l as [|x l IH]; [done|]. cbn. destruct (q x); cbn; [destruct (p x); by rewrite IH|done].
Qed.

Lemma latest_sides name from to t :
  from ≠ to →
  let l := List.filter (λ x, named name x && (versioned from x || versioned to x)) (t_observations t) in
  last (List.filter (versioned from) l) = latest name from t ∧
  last (List.filter (λ x, negb (versioned from x)) l) = latest name to t.
Proof.
  intros Hne. cbn zeta. unfold latest. rewrite !filter_filter.
  split; f_equal; apply List.filter_ext; intros r; unfold versioned;
    destruct (named name r); cbn; [|done| |done]; repeat case_bool_decide; cbn; congruence.
Qed.

Lemma latest_elem name v t r :
  latest name v t = Some r → r ∈ t_observations t ∧ i_version (ob_identity r) = v.
Proof.
  unfold latest. intros H%last_Some_elem_of. apply list_elem_of_In, List.filter_In in H as [Hin Hb].
  apply andb_true_iff in Hb as [_ Hb%bool_decide_eq_true]. split; [by apply list_elem_of_In|done].
Qed.

(** What the comparison of two rows must say. *)
Record delta_of (f t : ObservationRow) (tb : Tables) (x : VersionDelta) : Prop := {
  dl_compared : compared x = true;
  dl_baseline : from_baseline x = ob_baseline f;
  dl_source : source_changed x = true ↔
    i_source_revision (ob_identity f) ≠ i_source_revision (ob_identity t);
  dl_dependencies : dependencies_changed x = true ↔
    i_dependency_fingerprint (ob_identity f) ≠ i_dependency_fingerprint (ob_identity t);
  dl_identity : identity_changed x = false ↔
    i_architecture (ob_identity f) = i_architecture (ob_identity t) ∧
    i_signature (ob_identity f) = i_signature (ob_identity t) ∧
    i_package_hash (ob_identity f) = i_package_hash (ob_identity t) ∧
    i_build_options (ob_identity f) = i_build_options (ob_identity t) ∧
    i_static_fingerprint (ob_identity f) = i_static_fingerprint (ob_identity t) ∧
    i_dynamic_fingerprint (ob_identity f) = i_dynamic_fingerprint (ob_identity t);
  dl_added : StronglySorted str_lt (added_events x) ∧
    ∀ k, k ∈ added_events x ↔ k ∈ map event_key (events_of (ob_id t) tb) ∧
                              k ∉ map event_key (events_of (ob_id f) tb);
  dl_removed : StronglySorted str_lt (removed_events x) ∧
    ∀ k, k ∈ removed_events x ↔ k ∈ map event_key (events_of (ob_id f) tb) ∧
                                k ∉ map event_key (events_of (ob_id t) tb);
}.

Lemma negb_decide_true (P : Prop) `{!Decision P} : negb (bool_decide P) = true ↔ ¬ P.
Proof. by rewrite negb_true_iff, bool_decide_eq_false. Qed.

Lemma negb_decide_false (P : Prop) `{!Decision P} : negb (bool_decide P) = false ↔ P.
Proof. by rewrite negb_false_iff, bool_decide_eq_true. Qed.

Lemma versions_spec d name from to r d' :
  all_rows Q d sql_select_versions [SText name; SText from; SText to] = (r, d') →
  tables d' = tables d ∧ ∀ rows, r = Ok rows →
    rows = map version_columns
             (List.filter (λ x, named name x && (versioned from x || versioned to x))
                (t_observations (tables d))).
Proof.
  apply all_rows_spec. intros d1 rows d2 <- E. apply select_versions_law in E as (Ht & _ & Hg).
  split; [done|]. intros l. by apply gives_every.
Qed.

Lemma events_spec d id r d' :
  all_rows Q d sql_select_events [SInt id] = (r, d') →
  tables d' = tables d ∧ ∀ rows, r = Ok rows →
    rows = map (λ e, [SText (event_key e)]) (events_of id (tables d)).
Proof.
  apply all_rows_spec. intros d1 rows d2 <- E. apply select_events_law in E as (Ht & _ & Hg).
  split; [done|]. intros l. by apply gives_every.
Qed.

Lemma compare_spec d name from to x d' :
  from ≠ to → str_elem nul name = false → str_elem nul from = false → str_elem nul to = false →
  Forall (λ r, ob_id r ≠ 0) (t_observations (tables d)) →
  compare Q d name from to = (Ok x, d') →
  match latest name from (tables d), latest name to (tables d) with
  | Some f, Some t => delta_of f t (tables d) x
  | _, _ => x = no_delta
  end.
Proof.
  intros Hne Hn Hf Ht Hids. unfold compare, bind_text. rewrite !from_c_str_id by done.
  destruct (all_rows Q d _ _) as [r d1] eqn:E1. apply versions_spec in E1 as (Ht1 & Hr).
  destruct r as [rows|e]; [|done]. rewrite (Hr _ eq_refl), read_sides.
  destruct (latest_sides name from to (tables d) Hne) as [-> ->]. cbn [fst snd].
  destruct (latest name from (tables d)) as [f|] eqn:Ef; cbn [default fmap option_fmap option_map];
    [|by intros [= <- _]].
  destruct (latest name to (tables d)) as [t|] eqn:Et; cbn [default fmap option_fmap option_map].
  2:{ rewrite orb_comm. by intros [= <- _]. }
  rewrite Forall_forall in Hids. pose proof (Hids _ (proj1 (latest_elem _ _ _ _ Ef))) as Hidf.
  pose proof (Hids _ (proj1 (latest_elem _ _ _ _ Et))) as Hidt.
  change (s_id ((side_of ∘ version_columns) f)) with (ob_id f).
  change (s_id ((side_of ∘ version_columns) t)) with (ob_id t).
  rewrite !(proj2 (Z.eqb_neq _ _)) by done. cbn [orb].
  destruct (all_rows Q d1 _ _) as [r2 d2] eqn:E2. apply events_spec in E2 as (Ht2 & Hr2).
  destruct r2 as [rows2|e]; [|done].
  destruct (all_rows Q d2 _ _) as [r3 d3] eqn:E3. apply events_spec in E3 as (Ht3 & Hr3).
  destruct r3 as [rows3|e]; [|done]. intros [= <- _].
  cbn zeta. unfold version_delta. rewrite (Hr2 _ eq_refl), (Hr3 _ eq_refl), Ht2, Ht1, !map_map.
  change (λ e, column_text [SText (event_key e)] 0) with event_key.
  split; cbn [compared from_baseline source_changed dependencies_changed identity_changed added_events
    removed_events].
  - done.
  - cbn. by destruct (ob_baseline f).
  - apply negb_decide_true.
  - apply negb_decide_true.
  - rewrite !orb_false_iff, !negb_decide_false. cbn. tauto.
  - apply difference_of_sets.
  - apply difference_of_sets.
Qed.

(** *** What was stored is what is compared *)

Lemma last_named name v rows r :
  i_name (ob_identity r) = name → i_version (ob_identity r) = v →
  latest name v (mkTables (rows ++ [r]) []) = Some r.
Proof.
  intros Hn Hv. unfold latest. cbn [t_observations]. rewrite List.filter_app. cbn [List.filter].
  unfold named, versioned. rewrite !bool_decide_eq_true_2 by done. apply last_snoc.
Qed.

Lemma latest_other name v rows r es es' :
  i_version (ob_identity r) ≠ v →
  latest name v (mkTables (rows ++ [r]) es) = latest name v (mkTables rows es').
Proof.
  intros Hv. unfold latest. cbn [t_observations]. rewrite List.filter_app. cbn [List.filter].
  unfold versioned at 2. rewrite bool_decide_eq_false_2, andb_false_r by done. by rewrite app_nil_r.
Qed.

Lemma filter_events id id' (es : list StoredEvent) :
  List.filter (λ p : Z * StoredEvent, p.1 =? id) (map (λ e, (id', stored_event e)) es) =
  if id' =? id then map (λ e, (id', stored_event e)) es else [].
Proof.
  induction es as [|e es IH]; cbn; [by destruct (_ =? _)|]. rewrite IH. by destruct (id' =? id).
Qed.

Lemma filter_no_events id (l : list (Z * StoredEvent)) :
  Forall (λ p, p.1 < id) l → List.filter (λ p, p.1 =? id) l = [].
Proof. induction 1 as [|p l Hp _ IH]; [done|]. cbn. by rewrite (proj2 (Z.eqb_neq _ _)) by lia. Qed.

Lemma map_snd_events (id : Z) (es : list StoredEvent) :
  map snd (map (λ e, (id, stored_event e)) es) = map stored_event es.
Proof. induction es as [|e es IH]; [done|]. cbn. by rewrite IH. Qed.

(** The events of an observation that was just stored, and of one before it. *)
Lemma events_of_new id i es t :
  Forall (λ p, p.1 < id) (t_events t) → events_of id (with_observation id i es t) = map stored_event es.
Proof.
  intros H. unfold events_of, with_observation. cbn [add_events add_row t_events].
  rewrite List.filter_app, filter_no_events, filter_events, Z.eqb_refl by done. apply map_snd_events.
Qed.

Lemma events_of_old id id' i es t : id ≠ id' → events_of id (with_observation id' i es t) = events_of id t.
Proof.
  intros H. unfold events_of, with_observation. cbn [add_events add_row t_events].
  rewrite List.filter_app, filter_events, (proj2 (Z.eqb_neq _ _)), app_nil_r by done. done.
Qed.

(** C7: what was stored is what is compared: after two versions of a package
    were stored, the comparison finds them, says whether the older one was the
    baseline and whether the source changed, and lists in order exactly the
    events of one observation that the other does not have. *)
Theorem store_then_compare d i1 es1 o1 d1 i2 es2 o2 d2 x d3 :
  i_name i1 = i_name i2 → i_version i1 ≠ i_version i2 →
  str_elem nul (i_name i1) = false → str_elem nul (i_version i1) = false →
  str_elem nul (i_version i2) = false →
  Forall (λ r, 0 < ob_id r) (t_observations (tables d)) →
  store Q d i1 es1 = (Ok o1, d1) → store Q d1 i2 es2 = (Ok o2, d2) →
  compare Q d2 (i_name i1) (i_version i1) (i_version i2) = (Ok x, d3) →
  compared x = true ∧ from_baseline x = so_baseline o1 ∧
  (source_changed x = true ↔
     from_c_str (i_source_revision i1) ≠ from_c_str (i_source_revision i2)) ∧
  (StronglySorted str_lt (added_events x) ∧
   ∀ k, k ∈ added_events x ↔ k ∈ map (event_key ∘ stored_event) es2 ∧
                             k ∉ map (event_key ∘ stored_event) es1) ∧
  (StronglySorted str_lt (removed_events x) ∧
   ∀ k, k ∈ removed_events x ↔ k ∈ map (event_key ∘ stored_event) es1 ∧
                               k ∉ map (event_key ∘ stored_event) es2).
Proof.
  intros Hname Hver Hn Hv1 Hv2 Hpos H1 H2 Hc.
  apply store_spec in H1 as (Ht1 & Hp1 & Hf1 & He1 & Hb1), H2 as (Ht2 & Hp2 & Hf2 & He2 & _).
  apply compare_spec in Hc; [|done..|].
  2:{ rewrite Ht2, Ht1. unfold with_observation. cbn [add_events add_row t_observations].
      apply Forall_app. split; [apply Forall_app; split|].
      - eapply Forall_impl; [exact Hpos|]. cbn. lia.
      - constructor; [cbn; lia|constructor].
      - constructor; [cbn; lia|constructor]. }
  set (r1 := mkRow (so_id o1) (stored_identity i1) (so_baseline o1)).
  assert (latest (i_name i1) (i_version i1) (tables d2) = Some r1) as E1.
  { rewrite Ht2, Ht1. unfold with_observation, add_events, add_row. cbn [t_observations t_events].
    rewrite (latest_other _ _ _ _ _ []) by (cbn; rewrite from_c_str_id; congruence).
    rewrite <- Hb1. by apply last_named; cbn; rewrite from_c_str_id. }
  match type of Ht2 with tables d2 = with_observation _ _ _ ?t1 =>
    set (r2 := mkRow (so_id o2) (stored_identity i2)
                 (negb (existsb (named (from_c_str (i_name i2))) (t_observations t1)))) end.
  assert (latest (i_name i1) (i_version i2) (tables d2) = Some r2) as E2.
  { rewrite Ht2. unfold with_observation, add_events, add_row. cbn [t_observations t_events].
    unfold latest. cbn [t_observations].
    by apply last_named; cbn; rewrite from_c_str_id by congruence. }
  rewrite E1, E2 in Hc. destruct Hc as [Hcmp Hbase Hsrc _ _ Hadd Hrem].
  assert (so_id o1 ≠ so_id o2) as Hne.
  { intros E. rewrite Ht1 in Hf2. unfold with_observation in Hf2.
    cbn [add_events add_row t_observations] in Hf2. apply Forall_app in Hf2 as [_ Hf2].
    inversion Hf2 as [|? ? Hlt _]; subst. cbn in Hlt. lia. }
  assert (events_of (ob_id r1) (tables d2) = map stored_event es1) as V1.
  { rewrite Ht2, events_of_old by done. rewrite Ht1. by apply events_of_new. }
  assert (events_of (ob_id r2) (tables d2) = map stored_event es2) as V2.
  { rewrite Ht2. by apply events_of_new. }
  rewrite V1, V2, !map_map in Hadd, Hrem.
  split; [exact Hcmp|]. split; [exact Hbase|]. split; [exact Hsrc|]. split; [exact Hadd|exact Hrem].
Qed.

End Store.

(** ** A database in memory *)

Record Memory := mkMemory { m_tables : Tables; m_saved : option Tables; m_rowid : Z }.

Definition fresh_id (t : Tables) : Z :=
  1 + foldr Z.max 0 (map ob_id (t_observations t) ++ map fst (t_events t)).

Definition memory_exec (m : Memory) (s : string) : expected unit string * Memory :=
  (Ok (),
   if String.eqb s sql_begin then mkMemory (m_tables m) (Some (m_tables m)) (m_rowid m)
   else if String.eqb s sql_commit then mkMemory (m_tables m) None (m_rowid m)
   else if String.eqb s sql_rollback
   then mkMemory (default (m_tables m) (m_saved m)) None (m_rowid m)
   else m).

Definition memory_query (m : Memory) (s : string) (ps : list sql_value)
    : (list sql_row * option string) * Memory :=
  let t := m_tables m in
  if String.eqb s sql_insert_observation then
    match ps with
    | [SText a; SText b; SText c; SText d; SText e; SText f; SText g; SText h; SText i; SText j; SText k] =>
        let id := fresh_id t in
        (([], None), mkMemory
                  (mkTables (t_observations t ++
                             [mkRow id (mkIdentity a b c d e f g h i j)
                                (negb (existsb (named k) (t_observations t)))]) (t_events t))
                  (m_saved m) id)
    | _ => (([], Some "step: bind"), m)
    end
  else if String.eqb s sql_insert_event then
    match ps with
    | [SInt id; SText a; SText b; SText c; SText d; SInt x] =>
        (([], None), mkMemory (mkTables (t_observations t)
                            (t_events t ++ [(id, mkStored a b c d (negb (x =? 0)))]))
                  (m_saved m) (m_rowid m))
    | _ => (([], Some "step: bind"), m)
    end
  else
    ((match ps with
     | [SInt id] =>
         if String.eqb s sql_select_baseline
         then (map (λ x, [SInt (if ob_baseline x then 1 else 0)])
                    (List.filter (λ x, ob_id x =? id) (t_observations t)))
         else (map (λ e, [SText (event_key e)]) (events_of id t))
     | [SText name; SText from; SText to] =>
         (map version_columns
               (List.filter (λ x, named name x && (versioned from x || versioned to x))
                  (t_observations t)))
     | [SText name; SText current] =>
         (match last (List.filter (λ x, named name x && negb (versioned current x))
                           (t_observations t)) with
             | None => []
             | Some x => [[SText (i_version (ob_identity x))]]
             end)
     | _ => []
     end, None), m).

Definition memory_db : Sqlite Memory := {|
  sq_exec := memory_exec;
  sq_prepare m _ := (Ok (), m);
  sq_query := memory_query;
  sq_last_rowid := m_rowid;
|}.

Lemma fresh_id_bound t :
  0 < fresh_id t ∧ Forall (λ r, ob_id r < fresh_id t) (t_observations t) ∧
  Forall (λ p : Z * StoredEvent, p.1 < fresh_id t) (t_events t).
Proof.
  unfold fresh_id. set (l := map ob_id (t_observations t) ++ map fst (t_events t)).
  assert (0 ≤ foldr Z.max 0 l ∧ ∀ x, x ∈ l → x ≤ foldr Z.max 0 l) as [H0 H].
  { induction l as [|y l IH]; cbn; [split; [lia|set_solver]|]. destruct IH as [H0 IH].
    split; [lia|]. intros x [->|Hx]%elem_of_cons; [lia|]. specialize (IH _ Hx). lia. }
  split; [lia|]. split; apply Forall_forall; intros r Hr.
  - assert (ob_id r ≤ foldr Z.max 0 l); [|lia]. apply H, elem_of_app. left.
    by apply list_elem_of_fmap_2.
  - assert (r.1 ≤ foldr Z.max 0 l); [|lia]. apply H, elem_of_app. right.
    by apply (list_elem_of_fmap_2 fst).
Qed.

#[export] Instance memory_laws : SqliteLaws memory_db m_tables m_saved.
Proof.
  split.
  - intros d d' [= <-]. done.
  - intros d e d' [=].
  - intros d d' [= <-]. done.
  - intros d e d' [=].
  - intros d r d' [= <- <-]. done.
  - intros d s r d' [= <- <-]. done.
  - intros d s ps rows e d'. cbn [memory_db sq_query]. unfold memory_query.
    destruct (String.eqb s sql_insert_observation), (String.eqb s sql_insert_event);
      intros H; by repeat case_match; simplify_eq.
  - intros d i rows o d' [= <- <- <-]. cbn [m_tables m_saved sq_last_rowid memory_db m_rowid].
    split; [done|]. intros _. split; [done|]. split; [done|]. apply fresh_id_bound.
  - intros d id e rows o d' [= <- <- <-]. split; [done|]. intros _. split; [|done].
    cbn [m_tables]. unfold add_events. cbn [map]. by destruct e as [? ? ? ? []].
  - intros d id r d' [= <- <-]. split_and!; [done..|apply gives_all].
  - intros d name from to r d' [= <- <-]. split_and!; [done..|apply gives_all].
  - intros d id r d' [= <- <-]. split_and!; [done..|apply gives_all].
  - intros d name current r d' [= <- <-]. split_and!; [done..|apply gives_all].
Qed.

Definition empty_db : Memory := mkMemory (mkTables [] []) None 0.

Definition sample (version source : string) : PackageIdentity :=
  mkIdentity "demo" version "any" "valid" source "7" "8" "" "9" "10".
Definition sample_event (detail : string) : StoredEvent :=
  mkStored "observation" "event" "demo" detail true.

Lemma store_all_or_nothing_witness :
  let r := store memory_db empty_db (sample "1" "a") [sample_event "x"] in
  match r.1 with
  | Err _ => m_tables r.2 = m_tables empty_db ∨
             ∃ id, m_tables r.2 =
                   with_observation id (sample "1" "a") [sample_event "x"] (m_tables empty_db)
  | Ok o => m_tables r.2 = with_observation (so_id o) (sample "1" "a") [sample_event "x"]
                             (m_tables empty_db) ∧ 0 < so_id o ∧
            Forall (λ r, ob_id r < so_id o) [] ∧ Forall (λ p : Z * StoredEvent, p.1 < so_id o) [] ∧
            so_baseline o = true
  end.
Proof.
  intros r. apply (store_all_or_nothing memory_db m_tables m_saved empty_db (sample "1" "a")
                     [sample_event "x"] r.1 r.2). apply surjective_pairing.
Defined.

Lemma store_then_compare_witness :
  let r1 := store memory_db empty_db (sample "1" "a") [sample_event "x"; sample_event "y"] in
  let r2 := store memory_db r1.2 (sample "2" "b") [sample_event "z"; sample_event "y"] in
  let r := compare memory_db r2.2 "demo" "1" "2" in
  ∃ x, r.1 = Ok x ∧ compared x = true ∧ from_baseline x = true ∧
       added_events x = [event_key (sample_event "z")].
Proof.
  intros r1 r2 r. eexists. split; [vm_compute; reflexivity|].
  pose proof (store_then_compare memory_db m_tables m_saved empty_db (sample "1" "a")
    [sample_event "x"; sample_event "y"] (mkStoredObservation 1 true) r1.2 (sample "2" "b")
    [sample_event "z"; sample_event "y"] (mkStoredObservation 2 false) r2.2) as H.
  edestruct H as (H1 & H2 & _); [reflexivity|discriminate|reflexivity|reflexivity|reflexivity
    |constructor|vm_compute; reflexivity|vm_compute; reflexivity|vm_compute; reflexivity|].
  split; [exact H1|]. split; [exact H2|]. vm_compute. reflexivity.
Defined.
