(* ===== verification/Statements.v ===== *)
(** * Statements of SQLite (src/package/storage.cpp)

    The calls below the queries of Storage: the class [Statement], which
    prepares in its constructor and finalises in its destructor, [check] with
    its exceptions, and [migrate] and the members of [Database] as the sequences
    of calls they make.  They refine the functions of Storage, and leave no
    statement open, whatever fails. *)

From S2P Require Import Prelude CxxString Fuel StrOrder Storage.

(** ** The calls of sqlite3.h *)

Definition SQLITE_OK : Z := 0.
Definition SQLITE_ROW : Z := 100.
Definition SQLITE_DONE : Z := 101.

(** On one connection: a result code where the call gives one, a statement by
    its address; [column_text] may be null. *)
Record Api (D : Type) := mkApi {
  sqlite3_exec : D → string → Z * D;
  sqlite3_prepare_v2 : D → string → (Z * Z) * D;
  sqlite3_bind_text : D → Z → nat → string → Z * D;
  sqlite3_bind_int64 : D → Z → nat → Z → Z * D;
  sqlite3_step : D → Z → Z * D;
  sqlite3_reset : D → Z → Z * D;
  sqlite3_clear_bindings : D → Z → Z * D;
  sqlite3_finalize : D → Z → D;
  sqlite3_column_text : D → Z → nat → option string;
  sqlite3_column_int64 : D → Z → nat → Z;
  sqlite3_errmsg : D → string;
  sqlite3_last_insert_rowid : D → Z;
  (** the result, and whether there is a handle *)
  sqlite3_open_v2 : D → string → (Z * bool) * D;
  sqlite3_close : D → D;
}.
Arguments sqlite3_exec {D}.
Arguments sqlite3_prepare_v2 {D}.
Arguments sqlite3_bind_text {D}.
Arguments sqlite3_bind_int64 {D}.
Arguments sqlite3_step {D}.
Arguments sqlite3_reset {D}.
Arguments sqlite3_clear_bindings {D}.
Arguments sqlite3_finalize {D}.
Arguments sqlite3_column_text {D}.
Arguments sqlite3_column_int64 {D}.
Arguments sqlite3_errmsg {D}.
Arguments sqlite3_last_insert_rowid {D}.
Arguments sqlite3_open_v2 {D}.
Arguments sqlite3_close {D}.

(** ** Exceptions and scopes *)

(** A computation on the connection that gives a value or throws; [None] is a
    loop that has run out of fuel. *)
Definition Exec (D X : Type) : Type := D → option (expected X string * D).

#[export] Instance exec_ret {D} : MRet (Exec D) := λ X x d, Some (Ok x, d).
#[export] Instance exec_bind {D} : MBind (Exec D) := λ X Y f m d,
  match m d with
  | Some (Ok x, d) => f x d
  | Some (Err e, d) => Some (Err e, d)
  | None => None
  end.

Section Calls.
Context {D : Type} (A : Api D).

(** [throw std::runtime_error(message)] *)
Definition throw {X} (message : string) : Exec D X := λ d, Some (Err message, d).

(** What is read of the connection without changing it. *)
Definition gets {X} (f : D → X) : Exec D X := λ d, Some (Ok (f d), d).

(** [try { m } catch (...) { handler; throw; }] *)
Definition rethrowing {X} (m : Exec D X) (handler : D → D) : Exec D X := λ d,
  match m d with
  | Some (Err e, d) => Some (Err e, handler d)
  | r => r
  end.

(** [m] in a scope whose end, normal or by an exception, runs a destructor. *)
Definition scoped {X} (m : Exec D X) (destructor : D → D) : Exec D X := λ d,
  '(r, d) ← m d; Some (r, destructor d).

Definition check (result : Z) (operation : string) : Exec D () := λ d,
  if negb (result =? SQLITE_OK)
  then throw (operation +:+ ": " +:+ sqlite3_errmsg A d) d
  else Some (Ok (), d).

(** [check(f(...), database, operation)] *)
Definition checked (f : D → Z * D) (operation : string) : Exec D () := λ d,
  let '(result, d) := f d in check result operation d.

Definition exec (sql : string) : Exec D () := checked (λ d, sqlite3_exec A d sql) "sqlite".

(** ** The class Statement *)

(** [Statement name(database, sql);] and the rest of its scope.  When the
    constructor throws, the destructor is not run. *)
Definition statement {X} (sql : string) (body : Z → Exec D X) : Exec D X := λ d,
  let '((result, statement_), d) := sqlite3_prepare_v2 A d sql in
  (_ ← check result "prepare";
   scoped (body statement_) (λ d, sqlite3_finalize A d statement_) : Exec D X) d.

Definition text (statement_ : Z) (index : nat) (value : string) : Exec D () :=
  checked (λ d, sqlite3_bind_text A d statement_ index (from_c_str value)) "bind text".

Definition integer (statement_ : Z) (index : nat) (value : Z) : Exec D () :=
  checked (λ d, sqlite3_bind_int64 A d statement_ index value) "bind integer".

Definition next (statement_ : Z) : Exec D bool := λ d,
  let '(result, d) := sqlite3_step A d statement_ in
  if result =? SQLITE_ROW then Some (Ok true, d)
  else if result =? SQLITE_DONE then Some (Ok false, d)
  else (_ ← check result "step"; mret false : Exec D bool) d.

Definition reset (statement_ : Z) : Exec D () :=
  _ ← checked (λ d, sqlite3_reset A d statement_) "reset";
  checked (λ d, sqlite3_clear_bindings A d statement_) "clear bindings".

Definition text_at (statement_ : Z) (index : nat) (d : D) : string :=
  default "" (sqlite3_column_text A d statement_ index).
Definition integer_at (statement_ : Z) (index : nat) (d : D) : Z :=
  sqlite3_column_int64 A d statement_ index.

(** [while (statement.next()) acc = f(acc);] where [f] reads the columns. *)
Fixpoint while_next {X} (fuel : nat) (statement_ : Z) (f : D → X → X) (acc : X) : Exec D X :=
  match fuel with
  | O => λ _, None
  | S fuel =>
      more ← next statement_;
      if (more : bool) then acc ← gets (λ d, f d acc); while_next fuel statement_ f acc
      else mret acc
  end.

(** ** The functions of storage.cpp *)

Definition ignore_exec (sql : string) (d : D) : D := (sqlite3_exec A d sql).2.

Fixpoint execs (statements : list string) : Exec D () :=
  match statements with
  | [] => mret ()
  | sql :: statements => _ ← exec sql; execs statements
  end.

Definition migrate : Exec D () :=
  _ ← exec sql_foreign_keys;
  _ ← exec sql_begin;
  rethrowing
    (_ ← exec sql_create_migrations;
     statement sql_current_version (λ current,
       more ← next current;
       version ← if (more : bool) then gets (λ d, s32 (integer_at current 0 d)) else mret 0;
       if schema_version <? version
       then throw "database schema is newer than this build"
       else
         execs ((if version <? 1
                 then [sql_create_observations; sql_create_events; sql_create_index;
                       sql_insert_migration]
                 else []) ++ [sql_commit])))
    (ignore_exec sql_rollback).

(** [Database::open] *)
Definition open (path : string) : Exec D () := λ d,
  let '((result, handle), d) := sqlite3_open_v2 A d path in
  if negb (result =? SQLITE_OK) then
    let message := if (handle : bool) then sqlite3_errmsg A d else "sqlite open failed" in
    let d := if handle then sqlite3_close A d else d in
    throw ("open database: " +:+ message) d
  else rethrowing migrate (sqlite3_close A) d.

(** Texts bound one after the other. *)
Fixpoint texts (statement_ : Z) (index : nat) (values : list string) : Exec D () :=
  match values with
  | [] => mret ()
  | v :: values => _ ← text statement_ index v; texts statement_ (S index) values
  end.

Definition bind_identity (statement_ : Z) (i : PackageIdentity) : Exec D () :=
  texts statement_ 1
    [i_name i; i_version i; i_architecture i; i_signature i; i_source_revision i;
     i_dependency_fingerprint i; i_package_hash i; i_build_options i; i_static_fingerprint i;
     i_dynamic_fingerprint i].

(** The loop over the events. *)
Fixpoint insert_events (event_insert id : Z) (events : list StoredEvent) : Exec D () :=
  match events with
  | [] => mret ()
  | e :: events =>
      _ ← integer event_insert 1 id;
      _ ← texts event_insert 2 [v_category e; v_action e; v_subject e; v_detail e];
      _ ← integer event_insert 6 (if v_dynamic e then 1 else 0);
      _ ← next event_insert;
      _ ← reset event_insert;
      insert_events event_insert id events
  end.

Definition store (identity : PackageIdentity) (events : list StoredEvent)
    : Exec D StoredObservation :=
  _ ← exec sql_begin;
  rethrowing
    (statement sql_insert_observation (λ insert,
       _ ← bind_identity insert identity;
       _ ← text insert 11 (i_name identity);
       _ ← next insert;
       id ← gets (sqlite3_last_insert_rowid A);
       statement sql_insert_event (λ event_insert,
         _ ← insert_events event_insert id events;
         _ ← exec sql_commit;
         statement sql_select_baseline (λ baseline,
           _ ← integer baseline 1 id;
           more ← next baseline;
           gets (λ d, mkStoredObservation id
                        ((more : bool) && negb (integer_at baseline 0 d =? 0)))))))
    (ignore_exec sql_rollback).

(** A row of the versions read into its side. *)
Definition read_side (query : Z) (from : string) (d : D) (sides : Side * Side) : Side * Side :=
  let side := mkSide (integer_at query 0 d) (map (λ i, text_at query i d) (seq 2 8))
                (negb (integer_at query 10 d =? 0)) in
  if bool_decide (text_at query 1 d = from) then (side, sides.2) else (sides.1, side).

(** The rows of the events of one observation. *)
Definition event_rows (fuel : nat) (id : Z) : Exec D (list string) :=
  statement sql_select_events (λ events,
    _ ← integer events 1 id;
    while_next fuel events (λ d found, found ++ [text_at events 0 d]) []).

Definition compare (fuel : nat) (name from to : string) : Exec D VersionDelta :=
  statement sql_select_versions (λ query,
    _ ← texts query 1 [name; from; to];
    sides ← while_next fuel query (read_side query from) (no_side, no_side);
    let '(f, t) := sides in
    if (s_id f =? 0) || (s_id t =? 0) then mret no_delta
    else
      old_rows ← event_rows fuel (s_id f);
      new_rows ← event_rows fuel (s_id t);
      mret (version_delta f t old_rows new_rows)).

Definition previous_version (name current : string) : Exec D (option string) :=
  statement sql_previous_version (λ query,
    _ ← texts query 1 [name; current];
    more ← next query;
    if negb more then mret None else gets (λ d, Some (text_at query 0 d))).

End Calls.
