(* ===== verification/StatementsSpec.v ===== *)
(** * What the statements of SQLite do: the queries of Storage

    The documented behaviour of the calls, in terms of a connection's content
    and its open statements; the rules by which a sequence of calls implements a
    function on the content; and the refinement of Storage by Statements.  A
    connection made from any queries shows that the laws can be met. *)

From S2P Require Import Prelude CxxString Fuel StrOrder Storage StorageSpec Statements.

(** ** Open statements *)

(** How far a statement is: not started; stepping, with what is still to come
    and the content it was started on; at its end. *)
Inductive Progress (C : Type) :=
| Ready
| Stepping (rows : list sql_row) (error : option string) (content : C)
| Ended.
Arguments Ready {C}.
Arguments Stepping {C}.
Arguments Ended {C}.

Record Prepared (C : Type) := mkPrepared {
  p_sql : string;
  p_bound : gmap nat sql_value;
  p_progress : Progress C;
}.
Arguments mkPrepared {C}.
Arguments p_sql {C}.
Arguments p_bound {C}.
Arguments p_progress {C}.

(** The statements that [exec] is used for. *)
Definition executed : list string :=
  [sql_begin; sql_commit; sql_rollback; sql_foreign_keys; sql_create_migrations;
   sql_create_observations; sql_create_events; sql_create_index; sql_insert_migration].

Ltac is_executed := apply list_elem_of_In; cbn [executed In]; tauto.

(** The columns of the current row. *)
Definition row_at {D} (A : Api D) (st : Z) (row : sql_row) (d : D) : Prop :=
  ∀ i, text_at A st i d = column_text row i ∧ integer_at A st i d = column_integer row i.

(** Outcomes of a step of statement [st] that has [rows] and [error] to come. *)
Definition step_outcome {D C} (A : Api D) (st : Z) (rows : list sql_row) (error : option string)
    (content : C) (code : Z) (d : D) : Progress C → Prop :=
  match rows, error with
  | row :: rest, _ =>
      λ p, code = SQLITE_ROW ∧ p = Stepping rest error content ∧ row_at A st row d
  | [], None => λ p, code = SQLITE_DONE ∧ p = Ended
  | [], Some e => λ _, (code ≠ SQLITE_OK ∧ code ≠ SQLITE_ROW ∧ code ≠ SQLITE_DONE) ∧
           e = "step: " +:+ sqlite3_errmsg A d
  end.

(** The value of an error code: the message, after the operation that failed. *)
Definition coded {D} (A : Api D) (code : Z) (operation : string) (d : D) : expected unit string :=
  if code =? SQLITE_OK then Ok () else Err (operation +:+ ": " +:+ sqlite3_errmsg A d).

Definition sqlite3_bind {D} (A : Api D) (d : D) (st : Z) (index : nat) (v : sql_value) : Z * D :=
  match v with
  | SText s => sqlite3_bind_text A d st index s
  | SInt z => sqlite3_bind_int64 A d st index z
  end.
Definition bind_operation (v : sql_value) : string :=
  match v with SText _ => "bind text" | SInt _ => "bind integer" end.

(** What sqlite3.h documents of the calls, for the statements of this program:
    [core] is the content of the database as the connection sees it, [stmts]
    its open statements.  A statement has its effect and its rows are settled
    when it is first stepped; stepping on is only described while the content
    has not changed. *)
Class ApiLaws {D C : Type} (A : Api D) (Q : Sqlite C)
    (open_v2 : C → string → expected unit string * C) (close : C → C)
    (core : D → C) (stmts : D → gmap Z (Prepared C)) := {
  exec_law d s code d' :
    s ∈ executed → sqlite3_exec A d s = (code, d') →
    sq_exec Q (core d) s = (coded A code "sqlite" d', core d') ∧ stmts d' = stmts d;
  prepare_call_law d s code st d' :
    sqlite3_prepare_v2 A d s = ((code, st), d') →
    sq_prepare Q (core d) s = (coded A code "prepare" d', core d') ∧
    if code =? SQLITE_OK
    then stmts d !! st = None ∧ stmts d' = <[st := mkPrepared s ∅ Ready]> (stmts d)
    else stmts d' = stmts d;
  bind_law d st s bound index v code d' :
    stmts d !! st = Some (mkPrepared s bound Ready) → sqlite3_bind A d st index v = (code, d') →
    core d' = core d ∧
    if code =? SQLITE_OK
    then stmts d' = <[st := mkPrepared s (<[index := v]> bound) Ready]> (stmts d)
    else stmts d' = stmts d ∧
         ∀ ps, ps !! pred index = Some v →
           sq_query Q (core d) s ps =
             (([], Some (bind_operation v +:+ ": " +:+ sqlite3_errmsg A d')), core d);
  step_first_law d st s ps code d' :
    stmts d !! st = Some (mkPrepared s (map_seq 1 ps) Ready) → sqlite3_step A d st = (code, d') →
    ∃ p, (sq_query Q (core d) s ps).2 = core d' ∧
      stmts d' = <[st := mkPrepared s (map_seq 1 ps) p]> (stmts d) ∧
      step_outcome A st (sq_query Q (core d) s ps).1.1 (sq_query Q (core d) s ps).1.2 (core d') code d' p;
  step_next_law d st s bound rows error code d' :
    stmts d !! st = Some (mkPrepared s bound (Stepping rows error (core d))) →
    sqlite3_step A d st = (code, d') →
    ∃ p, core d' = core d ∧ stmts d' = <[st := mkPrepared s bound p]> (stmts d) ∧
      step_outcome A st rows error (core d) code d' p;
  reset_law d st s bound p code d' :
    stmts d !! st = Some (mkPrepared s bound p) → p ≠ Ready → sqlite3_reset A d st = (code, d') →
    code = SQLITE_OK ∧ core d' = core d ∧ stmts d' = <[st := mkPrepared s bound Ready]> (stmts d);
  clear_law d st s bound code d' :
    stmts d !! st = Some (mkPrepared s bound Ready) → sqlite3_clear_bindings A d st = (code, d') →
    code = SQLITE_OK ∧ core d' = core d ∧ stmts d' = <[st := mkPrepared s ∅ Ready]> (stmts d);
  finalize_law d st :
    core (sqlite3_finalize A d st) = core d ∧ stmts (sqlite3_finalize A d st) = delete st (stmts d);
  rowid_law d : sqlite3_last_insert_rowid A d = sq_last_rowid Q (core d);
  close_law d :
    stmts d = ∅ → core (sqlite3_close A d) = close (core d) ∧ stmts (sqlite3_close A d) = ∅;
  open_law d path code handle d' :
    sqlite3_open_v2 A d path = ((code, handle), d') →
    if code =? SQLITE_OK then stmts d' = ∅ ∧ open_v2 (core d) path = (Ok (), core d')
    else
      let d'' := if (handle : bool) then sqlite3_close A d' else d' in
      stmts d'' = ∅ ∧
      open_v2 (core d) path =
        (Err (if handle then sqlite3_errmsg A d' else "sqlite open failed"), core d'');
}.

(** ** Functions on the content *)

Definition Pure (C X : Type) : Type := C → expected X string * C.

#[export] Instance pure_ret {C} : MRet (Pure C) := λ X x c, (Ok x, c).
#[export] Instance pure_bind {C} : MBind (Pure C) := λ X Y f m c,
  match m c with
  | (Ok x, c) => f x c
  | (Err e, c) => (Err e, c)
  end.

Definition pure_rethrowing {C X} (f : Pure C X) (handler : C → C) : Pure C X := λ c,
  match f c with (Err e, c) => (Err e, handler c) | r => r end.

Section Rules.
Context {D C : Type} (A : Api D) (Q : Sqlite C).
Context (open_v2 : C → string → expected unit string * C) (close : C → C).
Context (core : D → C) (stmts : D → gmap Z (Prepared C)) `{!ApiLaws A Q open_v2 close core stmts}.

(** Only the statements of [S] may have changed. *)
Definition others (S : gset Z) (d d' : D) : Prop := ∀ st, st ∉ S → stmts d' !! st = stmts d !! st.

#[local] Instance others_preorder S : PreOrder (others S).
Proof. split; [by intros d st|]. intros d1 d2 d3 H1 H2 st Hst. rewrite H2, H1; done. Qed.

Lemma others_weaken S S' d d' : S ⊆ S' → others S d d' → others S' d d'.
Proof. intros HS H st Hst. apply H. set_solver. Qed.

Lemma others_insert st p d d' : stmts d' = <[st := p]> (stmts d) → others {[st]} d d'.
Proof. intros H x Hx. rewrite H. apply lookup_insert_ne. set_solver. Qed.

Lemma others_same S d d' : stmts d' = stmts d → others S d d'.
Proof. by intros H st _; rewrite H. Qed.

(** The same error, or values in relation. *)
Definition related {X Y} (J : X → Y → D → Prop) (r : expected X string) (r' : expected Y string)
    (d : D) : Prop :=
  match r, r' with
  | Ok x, Ok y => J x y d
  | Err e, Err e' => e = e'
  | _, _ => False
  end.

(** From a connection with [I] the calls [m] do to the content what [f] does,
    change the statements of [S] at most, and give values related by [J]. *)
Definition implements {X Y} (S : gset Z) (I : D → Prop) (m : nat → Exec D X) (f : Pure C Y)
    (J : X → Y → D → Prop) : Prop :=
  ∀ d, I d → eventually (λ x, core x.2 = (f (core d)).2 ∧ related J x.1 (f (core d)).1 x.2 ∧
                              others S d x.2) (λ n, m n d).

Section Compose.
Context {X Y : Type}.
Implicit Types (m : nat → Exec D X) (f : Pure C Y) (J : X → Y → D → Prop) (I : D → Prop).

Lemma implements_ret S I x y J :
  (∀ d, I d → J x y d) → implements S I (λ _, mret x) (mret y) J.
Proof. intros H d Hd. apply eventually_ret. cbn. split_and!; [done|by apply H|done]. Qed.

Lemma implements_gets S I (g : D → X) y J :
  (∀ d, I d → J (g d) y d) → implements S I (λ _, gets g) (mret y) J.
Proof. intros H d Hd. apply eventually_ret. cbn. split_and!; [done|by apply H|done]. Qed.

Lemma implements_throw S I e J : implements S I (λ _, throw e) (λ c, (Err e, c) : expected Y _ * C) J.
Proof. intros d Hd. by apply eventually_ret. Qed.

Lemma implements_weaken S S' I I' m f J J' :
  S ⊆ S' → (∀ d, I' d → I d) → (∀ x y d, J x y d → J' x y d) →
  implements S I m f J → implements S' I' m f J'.
Proof.
  intros HS HI HJ H d Hd. eapply eventually_weaken; [|by apply H, HI].
  intros [r d'] (Hc & Hr & Ho). split_and!; [done| |by eapply others_weaken].
  cbn in *. destruct r, (f (core d)).1; cbn in *; auto.
Qed.

Lemma implements_given (P : Prop) S m f J :
  (P → implements S (λ _, True) m f J) → implements S (λ _, P) m f J.
Proof. intros H d Hd. by apply H. Qed.

Lemma implements_code S I m m' f J :
  (∀ n d, m n d = m' n d) → implements S I m' f J → implements S I m f J.
Proof.
  intros E H d Hd. destruct (H d Hd) as (n & r & HP & Hn). exists n, r. split; [done|].
  intros fuel Hle. rewrite E. by apply Hn.
Qed.

Lemma implements_spec S I m f f' J :
  (∀ c, f c = f' c) → implements S I m f' J → implements S I m f J.
Proof. intros E H d Hd. rewrite E. by apply H. Qed.

Lemma implements_bind {X' Y'} S I (J : X' → Y' → D → Prop) (m : nat → Exec D X') (k : nat → X' → Exec D X)
    (f : Pure C Y') (g : Y' → Pure C Y) J' :
  implements S I m f J → (∀ x y, implements S (J x y) (λ n, k n x) (g y) J') →
  implements S I (λ n, m n ≫= k n) (f ≫= g) J'.
Proof.
  intros Hm Hk d Hd. destruct (Hm d Hd) as (n & [r d1] & (Hc & Hr & Ho) & Hn). cbn [fst snd] in *.
  unfold mbind, pure_bind, exec_bind. destruct (f (core d)) as [[y|e] c]; cbn in Hc, Hr; subst c.
  - destruct r as [x|]; [|done]. destruct (Hk x y d1 Hr) as (n' & [r' d2] & (Hc' & Hr' & Ho') & Hn').
    exists (n + n')%nat, (r', d2). split; [split_and!; [done..|by etrans]|].
    intros fuel Hle. rewrite Hn by lia. apply Hn'. lia.
  - destruct r as [|e']; [done|]. cbn in Hr. subst e'. exists n, (Err e, d1).
    split; [by split_and!|]. intros fuel Hle. by rewrite Hn.
Qed.

Lemma implements_rethrowing S I m f h h' J :
  (∀ d, core (h d) = h' (core d) ∧ stmts (h d) = stmts d) →
  implements S I m f J → implements S I (λ n, rethrowing (m n) h) (pure_rethrowing f h') J.
Proof.
  intros Hh H d Hd. destruct (H d Hd) as (n & [r d1] & (Hc & Hr & Ho) & Hn). cbn [fst snd] in *.
  unfold pure_rethrowing. destruct (f (core d)) as [[y|e] c]; cbn in Hc, Hr; subst c.
  - destruct r as [x|]; [|done]. exists n, (Ok x, d1). split; [by split_and!|].
    intros fuel Hle. unfold rethrowing. by rewrite Hn.
  - destruct r as [|e']; [done|]. destruct (Hh d1) as [Hc' Hs']. exists n, (Err e', h d1).
    split; [split_and!; [done..|]|].
    + etrans; [exact Ho|]. by apply others_same.
    + intros fuel Hle. unfold rethrowing. by rewrite Hn.
Qed.

End Compose.

(** ** The calls *)

(** The conditions on the content that a query is run for. *)
Definition prepared (sql : string) : Pure C () := λ c, sq_prepare Q c sql.
Definition queried (sql : string) (ps : list sql_value) : Pure C (list sql_row * option string) :=
  λ c, let '(r, c) := sq_query Q c sql ps in (Ok r, c).
Definition lift {X} (r : expected X string) : Pure C X := λ c, (r, c).

(** The statement has been prepared and bound to [ps], but not stepped. *)
Definition bound_to (st : Z) (sql : string) (ps : list sql_value) (d : D) : Prop :=
  stmts d !! st = Some (mkPrepared sql (map_seq 1 ps) Ready).

Lemma check_coded code operation d : check A code operation d = Some (coded A code operation d, d).
Proof. unfold check, coded. by destruct (code =? SQLITE_OK). Qed.

Lemma implements_exec S sql :
  sql ∈ executed →
  implements S (λ _, True) (λ _, exec A sql) (λ c, sq_exec Q c sql) (λ _ _ _, True).
Proof.
  intros Hs d _. unfold exec, checked. destruct (sqlite3_exec A d sql) as [code d1] eqn:E.
  destruct (exec_law _ _ _ _ Hs E) as [-> Hst]. rewrite check_coded. apply eventually_ret.
  cbn [fst snd]. split_and!; [done|by destruct (coded _ _ _ _)|by apply others_same].
Qed.

(** A [Statement] and its scope. *)
Lemma implements_statement {X} sql (body : nat → Z → Exec D X) f :
  (∀ st, implements {[st]} (bound_to st sql []) (λ n, body n st) f (λ x y _, x = y)) →
  implements ∅ (λ _, True) (λ n, statement A sql (body n)) (prepared sql ≫= λ _, f) (λ x y _, x = y).
Proof.
  intros Hb d _. unfold statement, mbind, pure_bind, prepared.
  destruct (sqlite3_prepare_v2 A d sql) as [[code st] d1] eqn:E.
  destruct (prepare_call_law _ _ _ _ _ E) as [-> Hst]. unfold exec_bind. rewrite check_coded.
  unfold coded. destruct (code =? SQLITE_OK).
  - destruct Hst as [Hfresh Hst]. destruct (Hb st d1) as (n & [r d2] & (Hc & Hr & Ho) & Hn).
    { unfold bound_to. by rewrite Hst, lookup_insert_eq. }
    cbn [fst snd] in *. destruct (finalize_law (A := A) d2 st) as [Hfc Hfs].
    exists n, (r, sqlite3_finalize A d2 st). cbn [fst snd]. split; [split_and!|].
    + congruence.
    + destruct r, (f (core d1)).1; cbn in *; done.
    + intros x _. rewrite Hfs. destruct (decide (x = st)) as [->|Hx].
      * by rewrite lookup_delete_eq, Hfresh.
      * rewrite lookup_delete_ne, Ho by set_solver. by rewrite Hst, lookup_insert_ne.
    + intros fuel Hle. unfold scoped. by rewrite Hn.
  - apply eventually_ret. cbn. split_and!; [done|done|by apply others_same].
Qed.

(** *** Binding *)

Lemma checked_bind st index v d :
  (match v with
   | SText s => checked A (λ d, sqlite3_bind_text A d st index s) "bind text"
   | SInt z => checked A (λ d, sqlite3_bind_int64 A d st index z) "bind integer"
   end) d = let '(code, d) := sqlite3_bind A d st index v in
            Some (coded A code (bind_operation v) d, d).
Proof.
  destruct v; cbn; unfold checked; [destruct (sqlite3_bind_text _ _ _ _ _)|destruct (sqlite3_bind_int64 _ _ _ _ _)];
    apply check_coded.
Qed.

(** A query fails when one of its values cannot be bound: a function of its
    result that starts with the query fails alike. *)
Lemma implements_bind_value {X Y} st sql ps v qs bind m (f : list sql_row * option string → Pure C Y)
    (J : X → Y → D → Prop) :
  (∀ d, bind d = (match v with
     | SText s => checked A (λ d, sqlite3_bind_text A d st (S (length ps)) s) "bind text"
     | SInt z => checked A (λ d, sqlite3_bind_int64 A d st (S (length ps)) z) "bind integer"
     end) d) →
  (∀ e c, f ([], Some e) c = (Err e, c)) →
  implements {[st]} (bound_to st sql (ps ++ [v])) m (queried sql (ps ++ v :: qs) ≫= f) J →
  implements {[st]} (bound_to st sql ps) (λ n, bind ≫= λ _ : (), m n) (queried sql (ps ++ v :: qs) ≫= f) J.
Proof.
  intros Hbind Hf Hm d Hd. unfold bound_to in Hd.
  destruct (sqlite3_bind A d st (S (length ps)) v) as [code d1] eqn:E.
  destruct (bind_law _ _ _ _ _ _ _ _ Hd E) as [Hc Hs].
  assert (bind d = Some (coded A code (bind_operation v) d1, d1)) as Hb.
  { by rewrite Hbind, checked_bind, E. }
  unfold coded in Hb. destruct (code =? SQLITE_OK) eqn:Ecode.
  - destruct (Hm d1) as (n & x & (Hxc & Hxr & Hxo) & Hn).
    { unfold bound_to. rewrite Hs, lookup_insert_eq. by rewrite map_seq_snoc. }
    exists n, x. rewrite <- Hc. split; [split_and!; [done..|]|].
    + etrans; [|exact Hxo]. by eapply others_insert.
    + intros fuel Hle. unfold mbind, exec_bind. rewrite Hb. by apply Hn.
  - destruct Hs as [Hs Hq]. exists 0%nat, (Err (bind_operation v +:+ ": " +:+ sqlite3_errmsg A d1), d1).
    assert ((queried sql (ps ++ v :: qs) ≫= f) (core d) =
            (Err (bind_operation v +:+ ": " +:+ sqlite3_errmsg A d1), core d)) as ->.
    { unfold mbind, pure_bind, queried. rewrite Hq; [apply Hf|]. cbn. by apply list_lookup_middle. }
    cbn [fst snd related]. split; [split_and!; [done..|by apply others_same]|].
    intros fuel _. unfold mbind, exec_bind. by rewrite Hb.
Qed.

Lemma exec_bind_assoc {X Y Z} (m : Exec D X) (f : X → Exec D Y) (g : Y → Exec D Z) d :
  ((m ≫= f) ≫= g) d = (m ≫= λ x, f x ≫= g) d.
Proof. unfold mbind, exec_bind. by destruct (m d) as [[[x|e] d1]|]. Qed.

Lemma implements_texts {X Y} st sql ps l qs m (f : list sql_row * option string → Pure C Y)
    (J : X → Y → D → Prop) :
  (∀ e c, f ([], Some e) c = (Err e, c)) →
  implements {[st]} (bound_to st sql (ps ++ map bind_text l)) m
    (queried sql (ps ++ map bind_text l ++ qs) ≫= f) J →
  implements {[st]} (bound_to st sql ps) (λ n, texts A st (S (length ps)) l ≫= λ _, m n)
    (queried sql (ps ++ map bind_text l ++ qs) ≫= f) J.
Proof.
  intros Hf. revert ps. induction l as [|v l IH]; intros ps Hm.
  - rewrite app_nil_r in Hm. by eapply implements_code; [|exact Hm].
  - eapply implements_code; [intros n d; apply exec_bind_assoc|].
    cbn [map app]. apply implements_bind_value; [done|done|].
    specialize (IH (ps ++ [bind_text v])). rewrite length_app, Nat.add_1_r, <- !app_assoc in IH.
    apply IH, Hm.
Qed.

Lemma implements_integer {X Y} st sql ps z qs m (f : list sql_row * option string → Pure C Y)
    (J : X → Y → D → Prop) :
  (∀ e c, f ([], Some e) c = (Err e, c)) →
  implements {[st]} (bound_to st sql (ps ++ [SInt z])) m (queried sql (ps ++ SInt z :: qs) ≫= f) J →
  implements {[st]} (bound_to st sql ps) (λ n, integer A st (S (length ps)) z ≫= λ _, m n)
    (queried sql (ps ++ SInt z :: qs) ≫= f) J.
Proof. intros Hf Hm. by apply implements_bind_value. Qed.

Lemma implements_text {X Y} st sql ps v qs m (f : list sql_row * option string → Pure C Y)
    (J : X → Y → D → Prop) :
  (∀ e c, f ([], Some e) c = (Err e, c)) →
  implements {[st]} (bound_to st sql (ps ++ [bind_text v])) m
    (queried sql (ps ++ bind_text v :: qs) ≫= f) J →
  implements {[st]} (bound_to st sql ps) (λ n, text A st (S (length ps)) v ≫= λ _, m n)
    (queried sql (ps ++ bind_text v :: qs) ≫= f) J.
Proof. intros Hf Hm. by apply implements_bind_value. Qed.

(** *** Stepping *)

(** [next] in terms of the outcome of the step. *)
Lemma next_outcome st rows error (content : C) code d d1 p :
  sqlite3_step A d st = (code, d1) → step_outcome A st rows error content code d1 p →
  match rows, error with
  | row :: rest, _ =>
      next A st d = Some (Ok true, d1) ∧ p = Stepping rest error content ∧ row_at A st row d1
  | [], None => next A st d = Some (Ok false, d1) ∧ p = Ended
  | [], Some e => next A st d = Some (Err e, d1)
  end.
Proof.
  intros E. unfold next. rewrite E. destruct rows as [|row rest]; [destruct error as [e|]|]; cbn.
  - intros [(H0 & H1 & H2) ->]. unfold mbind, exec_bind. rewrite check_coded. unfold coded.
    by rewrite !(proj2 (Z.eqb_neq _ _)) by done.
  - by intros [-> ->].
  - by intros (-> & -> & Hr).
Qed.

(** The statement has been stepped, and a row found is there to be read. *)
Definition stepped (st : Z) (sql : string) (more : bool) (found : option sql_row) (d : D) : Prop :=
  more = bool_decide (is_Some found) ∧ (∀ row, found = Some row → row_at A st row d) ∧
  ∃ bound p, stmts d !! st = Some (mkPrepared sql bound p) ∧ p ≠ Ready.

Lemma implements_next st sql ps :
  implements {[st]} (bound_to st sql ps) (λ _, next A st)
    (queried sql ps ≫= λ r, lift (next_row r)) (stepped st sql).
Proof.
  intros d Hd. destruct (sqlite3_step A d st) as [code d1] eqn:E.
  destruct (step_first_law _ _ _ _ _ _ Hd E) as (p & Hc & Hs & Ho).
  apply (next_outcome _ _ _ _ _ _ _ _ E) in Ho. unfold mbind, pure_bind, queried, lift.
  destruct (sq_query Q (core d) sql ps) as [[rows error] c]. cbn [fst snd] in *. subst c.
  assert (others {[st]} d d1) as Hot by (by eapply others_insert).
  assert (stmts d1 !! st = Some (mkPrepared sql (map_seq 1 ps) p)) as Hst by (by rewrite Hs, lookup_insert_eq).
  exists 0%nat. destruct rows as [|row rest]; [destruct error as [e|]|].
  - exists (Err e, d1). by split; [split_and!|].
  - destruct Ho as [-> ->]. exists (Ok false, d1). split; [|done]. split_and!; [done| |done].
    split; [done|]. split; [done|]. by exists (map_seq 1 ps), Ended.
  - destruct Ho as (-> & -> & Hrow). exists (Ok true, d1). split; [|done]. split_and!; [done| |done].
    split; [done|]. split; [by intros r [= <-]|]. by eexists _, _.
Qed.

(** From a statement about to give [rows], by either law of stepping. *)
Lemma while_next_rows {X} st sql bound (f : D → X → X) (g : X → sql_row → X) error c rows :
  (∀ d acc row, row_at A st row d → f d acc = g acc row) →
  ∀ d acc,
    (∀ code d1, sqlite3_step A d st = (code, d1) →
       ∃ p, core d1 = c ∧ stmts d1 = <[st := mkPrepared sql bound p]> (stmts d) ∧
            step_outcome A st rows error c code d1 p) →
    eventually (λ x, core x.2 = c ∧ related (λ x y _, x = y) x.1
        (match every_row (rows, error) with Ok l => Ok (foldl g acc l) | Err e => Err e end) x.2 ∧
        others {[st]} d x.2)
      (λ n, while_next A n st f acc d).
Proof.
  intros Hfg. induction rows as [|row rows IH]; intros d acc Hstep;
    destruct (sqlite3_step A d st) as [code d1] eqn:E;
    destruct (Hstep _ _ eq_refl) as (p & Hc & Hs & Ho);
    apply (next_outcome _ _ _ _ _ _ _ _ E) in Ho;
    assert (others {[st]} d d1) as Hot by (by eapply others_insert).
  - destruct error as [e|]; [exists 1%nat, (Err e, d1)|destruct Ho as [Ho _]; exists 1%nat, (Ok acc, d1)].
    all: split; [by split_and!|]; intros [|fuel] Hle; [lia|]; cbn [while_next].
    all: unfold mbind at 1, exec_bind; by rewrite Ho.
  - destruct Ho as (Hn & -> & Hrow).
    destruct (IH d1 (g acc row)) as (n & x & (Hxc & Hxr & Hxo) & Hx).
    { intros code' d2 E'. subst c. eapply step_next_law in E' as (p & Hc' & Hs' & Ho');
        [by eauto|by rewrite Hs, lookup_insert_eq]. }
    exists (S n), x. split; [split_and!; [done| |by etrans]|].
    + by destruct error.
    + intros [|fuel] Hle; [lia|]. cbn [while_next]. unfold mbind at 1, exec_bind. rewrite Hn.
      cbn. unfold mbind, exec_bind, gets. rewrite (Hfg _ _ _ Hrow). apply Hx. lia.
Qed.

Lemma implements_while {X} st sql ps (f : D → X → X) (g : X → sql_row → X) acc :
  (∀ d acc row, row_at A st row d → f d acc = g acc row) →
  implements {[st]} (bound_to st sql ps) (λ n, while_next A n st f acc)
    (queried sql ps ≫= λ r, lift (every_row r) ≫= λ l, mret (foldl g acc l)) (λ x y _, x = y).
Proof.
  intros Hfg d Hd.
  pose proof (while_next_rows st sql (map_seq 1 ps) f g (sq_query Q (core d) sql ps).1.2
    (sq_query Q (core d) sql ps).2 (sq_query Q (core d) sql ps).1.1 Hfg d acc) as H.
  unfold mbind, pure_bind, queried, lift. destruct (sq_query Q (core d) sql ps) as [[rows error] c] eqn:Eq.
  cbn [fst snd] in *. eapply eventually_weaken; [|apply H].
  - intros [r d'] (Hc & Hr & Ho). destruct (every_row _); cbn in *; by split_and!.
  - intros code d1 E. destruct (step_first_law _ _ _ _ _ _ Hd E) as (p & Hc & Hs & Ho).
    rewrite Eq in Hc, Ho. cbn in Hc, Ho. subst c. by exists p.
Qed.

Lemma implements_reset st sql :
  implements {[st]} (λ d, ∃ bound p, stmts d !! st = Some (mkPrepared sql bound p) ∧ p ≠ Ready)
    (λ _, reset A st) (mret ()) (λ _ _, bound_to st sql []).
Proof.
  intros d (bound & p & Hd & Hp).
  destruct (sqlite3_reset A d st) as [code d1] eqn:E1.
  destruct (reset_law _ _ _ _ _ _ _ Hd Hp E1) as (-> & Hc1 & Hs1).
  destruct (sqlite3_clear_bindings A d1 st) as [code d2] eqn:E2.
  destruct (clear_law d1 st sql bound code d2) as (-> & Hc2 & Hs2); [by rewrite Hs1, lookup_insert_eq|done|].
  exists 0%nat, (Ok (), d2). cbn [fst snd]. split; [split_and!|].
  - cbn. congruence.
  - unfold bound_to. cbn. by rewrite Hs2, lookup_insert_eq.
  - etrans; [by eapply others_insert|]. by eapply others_insert.
  - intros fuel _. unfold reset, checked, mbind, exec_bind. rewrite E1, check_coded.
    cbn. by rewrite E2, check_coded.
Qed.

Lemma implements_rowid S I :
  implements S I (λ _, gets (sqlite3_last_insert_rowid A)) (λ c, (Ok (sq_last_rowid Q c), c))
    (λ x y _, x = y).
Proof. intros d _. apply eventually_ret. cbn. split_and!; [done| |done]. apply rowid_law. Qed.

(** ** The functions of storage.cpp *)

Lemma pure_bind_assoc {X Y Z} (m : Pure C X) (f : X → Pure C Y) (g : Y → Pure C Z) c :
  ((m ≫= f) ≫= g) c = (m ≫= λ x, f x ≫= g) c.
Proof. unfold mbind, pure_bind. by destruct (m c) as [[x|e] c1]. Qed.

(** The statement is stepped once and the rest goes on with what was found. *)
Lemma implements_next_then {X Y} st sql ps (k : nat → bool → Exec D X) (g : option sql_row → Pure C Y) J :
  (∀ more found, implements {[st]} (stepped st sql more found) (λ n, k n more) (g found) J) →
  implements {[st]} (bound_to st sql ps) (λ n, next A st ≫= k n)
    (queried sql ps ≫= λ r, lift (next_row r) ≫= g) J.
Proof.
  intros Hk. eapply implements_spec; [intros c; symmetry; apply pure_bind_assoc|].
  eapply implements_bind; [apply implements_next|done].
Qed.

(** A statement in the scope of another. *)
Lemma implements_inner {X} S I (m : nat → Exec D X) f :
  implements ∅ (λ _, True) m f (λ x y _, x = y) → implements S I m f (λ x y _, x = y).
Proof. apply implements_weaken; [set_solver|done|done]. Qed.

Lemma implements_insert_events st id es :
  implements {[st]} (bound_to st sql_insert_event []) (λ _, Statements.insert_events A st id es)
    (λ c, Storage.insert_events Q c id es) (λ _ _ _, True).
Proof.
  induction es as [|e es IH]; [by apply implements_ret|].
  eapply implements_spec with (queried sql_insert_event (bind_event id e) ≫= λ r,
    lift (next_row r) ≫= λ _, (mret () : Pure C ()) ≫= λ _,
    ((λ c, Storage.insert_events Q c id es) : Pure C ())).
  { intros c. cbn [Storage.insert_events]. unfold mbind, pure_bind, queried, lift.
    destruct (sq_query Q c _ _) as [r c1]. by destruct (next_row r). }
  cbn [Statements.insert_events].
  apply (implements_integer st _ [] id); [done|].
  apply (implements_texts st _ [SInt id] [v_category e; v_action e; v_subject e; v_detail e]
           [SInt (if v_dynamic e then 1 else 0)]); [done|].
  apply (implements_integer st _
           (SInt id :: map bind_text [v_category e; v_action e; v_subject e; v_detail e])
           (if v_dynamic e then 1 else 0) []); [done|].
  apply implements_next_then. intros more found.
  eapply implements_bind; [|intros x y; exact IH].
  eapply implements_weaken; [| | |apply (implements_reset st sql_insert_event)]; [done| |done].
  by intros d (_ & _ & Hst).
Qed.

Lemma rollback_calls d :
  core (ignore_exec A sql_rollback d) = (sq_exec Q (core d) sql_rollback).2 ∧
  stmts (ignore_exec A sql_rollback d) = stmts d.
Proof.
  unfold ignore_exec. destruct (sqlite3_exec A d sql_rollback) as [code d1] eqn:E.
  apply exec_law in E as [-> Hs]; [done|is_executed].
Qed.

(** A statement that is stepped once, in terms of [first_row]. *)
Lemma first_row_steps {Y} sql ps (g : option sql_row → Pure C Y) c :
  (prepared sql ≫= λ _, queried sql ps ≫= λ r, lift (next_row r) ≫= g) c =
  match first_row Q c sql ps with (Ok o, c) => g o c | (Err e, c) => (Err e, c) end.
Proof.
  unfold mbind, pure_bind, prepared, queried, lift, first_row.
  destruct (sq_prepare Q c sql) as [[[]|e] c1]; [|done].
  destruct (sq_query Q c1 sql ps) as [r c2]. by destruct (next_row r).
Qed.

Lemma all_rows_steps {Y} sql ps (g : list sql_row → Pure C Y) c :
  (prepared sql ≫= λ _, queried sql ps ≫= λ r, lift (every_row r) ≫= g) c =
  match all_rows Q c sql ps with (Ok l, c) => g l c | (Err e, c) => (Err e, c) end.
Proof.
  unfold mbind, pure_bind, prepared, queried, lift, all_rows.
  destruct (sq_prepare Q c sql) as [[[]|e] c1]; [|done].
  destruct (sq_query Q c1 sql ps) as [r c2]. by destruct (every_row r).
Qed.

Lemma implements_previous_version name current :
  implements ∅ (λ _, True) (λ _, Statements.previous_version A name current)
    (λ c, Storage.previous_version Q c name current) (λ x y _, x = y).
Proof.
  apply implements_spec with (prepared sql_previous_version ≫= λ _,
    queried sql_previous_version [bind_text name; bind_text current] ≫= λ r, lift (next_row r) ≫=
    λ found, mret ((λ row, column_text row 0) <$> found)).
  - intros c. by rewrite first_row_steps.
  - apply implements_statement. intros st.
    apply (implements_texts st _ [] [name; current] []); [done|].
    apply implements_next_then. intros more found d (-> & Hrow & _).
    destruct found as [row|]; apply eventually_ret; cbn; [|done].
    split_and!; [done| |done]. f_equal. by apply Hrow.
Qed.

(** *** store *)

(** The observation read after the commit. *)
Definition observed (id : Z) (found : option sql_row) : StoredObservation :=
  mkStoredObservation id
    match found with None => false | Some row => negb (column_integer row 0 =? 0) end.

Definition stored_pure (identity : PackageIdentity) (events : list StoredEvent)
    : Pure C StoredObservation :=
  prepared sql_insert_observation ≫= λ _,
  queried sql_insert_observation (Storage.bind_identity identity ++ [bind_text (i_name identity)]) ≫= λ r,
  lift (next_row r) ≫= λ _, ((λ c, (Ok (sq_last_rowid Q c), c)) : Pure C Z) ≫= λ id,
  prepared sql_insert_event ≫= λ _, ((λ c, Storage.insert_events Q c id events) : Pure C ()) ≫= λ _,
  ((λ c, sq_exec Q c sql_commit) : Pure C ()) ≫= λ _,
  prepared sql_select_baseline ≫= λ _, queried sql_select_baseline [SInt id] ≫= λ r,
  lift (next_row r) ≫= λ found, mret (observed id found).

Lemma stored_pure_store identity events c :
  (((λ c, sq_exec Q c sql_begin) : Pure C ()) ≫= λ _, pure_rethrowing (stored_pure identity events)
     (λ c, (sq_exec Q c sql_rollback).2)) c = Storage.store Q c identity events.
Proof.
  unfold mbind at 1, pure_bind at 1, Storage.store. destruct (sq_exec Q c sql_begin) as [[[]|e] c1]; [|done].
  unfold pure_rethrowing, stored_pure. rewrite first_row_steps.
  destruct (first_row Q c1 _ _) as [[o|e] c2]; [|done].
  unfold mbind at 1, pure_bind at 1. unfold mbind at 1, pure_bind at 1, prepared at 1.
  destruct (sq_prepare Q c2 _) as [[[]|e] c3]; [|done]. unfold mbind at 1, pure_bind at 1.
  destruct (Storage.insert_events Q c3 _ events) as [[[]|e] c4]; [|done].
  unfold mbind at 1, pure_bind at 1. destruct (sq_exec Q c4 sql_commit) as [[[]|e] c5]; [|done].
  rewrite first_row_steps. by destruct (first_row Q c5 _ _) as [[found|e] c6].
Qed.

Lemma implements_store identity events :
  implements ∅ (λ _, True) (λ _, Statements.store A identity events)
    (λ c, Storage.store Q c identity events) (λ x y _, x = y).
Proof.
  eapply implements_spec; [intros c; symmetry; apply stored_pure_store|].
  eapply implements_bind; [apply implements_exec; is_executed|intros x y].
  apply implements_rethrowing; [apply rollback_calls|]. unfold stored_pure.
  apply implements_statement. intros st.
  apply (implements_texts st _ [] [i_name identity; i_version identity; i_architecture identity;
    i_signature identity; i_source_revision identity; i_dependency_fingerprint identity;
    i_package_hash identity; i_build_options identity; i_static_fingerprint identity;
    i_dynamic_fingerprint identity] [bind_text (i_name identity)]); [done|].
  apply (implements_text st _ (Storage.bind_identity identity) (i_name identity) []); [done|].
  apply implements_next_then. intros more found.
  eapply implements_bind; [apply implements_rowid|intros id id'; apply (implements_given (id = id')); intros ->].
  apply implements_inner, implements_statement. intros st'.
  eapply implements_bind; [apply implements_insert_events|intros ? ?].
  eapply implements_weaken with {[st']} (λ _, True) (λ x y _, x = y); [done..|].
  eapply implements_bind; [apply implements_exec; is_executed|intros ? ?].
  apply implements_inner, implements_statement. intros st''.
  apply (implements_integer st'' _ [] id' []); [done|].
  apply implements_next_then. intros more' row d (-> & Hrow & _).
  apply eventually_ret. split_and!; [done| |done]. unfold observed. cbn.
  destruct row as [row|]; [|done]. cbn. do 3 f_equal. by apply Hrow.
Qed.

(** *** compare *)

Lemma implements_while_then {X Y Z} st sql ps (f : D → Z → Z) (g : Z → sql_row → Z) acc
    (k : nat → Z → Exec D X) (h : Z → Pure C Y) J :
  (∀ d acc row, row_at A st row d → f d acc = g acc row) →
  (∀ z, implements {[st]} (λ _, True) (λ n, k n z) (h z) J) →
  implements {[st]} (bound_to st sql ps) (λ n, while_next A n st f acc ≫= k n)
    (queried sql ps ≫= λ r, lift (every_row r) ≫= λ l, h (foldl g acc l)) J.
Proof.
  intros Hfg Hk.
  apply implements_spec with
    ((queried sql ps ≫= λ r, lift (every_row r) ≫= λ l, mret (foldl g acc l)) ≫= h).
  { intros c. rewrite pure_bind_assoc. unfold mbind, pure_bind, queried, lift.
    destruct (sq_query Q c sql ps) as [r c1]. by destruct (every_row r). }
  eapply implements_bind; [by apply implements_while|].
  intros z z'. apply (implements_given (z = z')). intros ->. apply Hk.
Qed.

Definition event_rows_pure (id : Z) : Pure C (list string) :=
  prepared sql_select_events ≫= λ _, queried sql_select_events [SInt id] ≫= λ r,
  lift (every_row r) ≫= λ rows, mret (foldl (λ found row, found ++ [column_text row 0]) [] rows).

Lemma implements_event_rows id :
  implements ∅ (λ _, True) (λ n, event_rows A n id) (event_rows_pure id) (λ x y _, x = y).
Proof.
  apply implements_statement. intros st. apply (implements_integer st _ [] id []); [done|].
  apply implements_while. intros d found row Hrow. by destruct (Hrow 0%nat) as [-> _].
Qed.

Lemma foldl_snoc_map {X Y} (f : X → Y) acc l :
  foldl (λ found x, found ++ [f x]) acc l = acc ++ map f l.
Proof.
  revert acc. induction l as [|x l IH]; intros acc; cbn; [by rewrite app_nil_r|].
  by rewrite IH, <- app_assoc.
Qed.

Lemma event_rows_all {Y} id (g : list string → Pure C Y) c :
  (event_rows_pure id ≫= g) c =
  match all_rows Q c sql_select_events [SInt id] with
  | (Ok rows, c) => g (map (λ row, column_text row 0) rows) c
  | (Err e, c) => (Err e, c)
  end.
Proof.
  unfold mbind at 1, pure_bind at 1, event_rows_pure. rewrite all_rows_steps.
  destruct (all_rows Q c _ _) as [[rows|e] c1]; [|done]. cbn. by rewrite foldl_snoc_map.
Qed.

Lemma read_side_row st from d sides row :
  row_at A st row d → Statements.read_side A st from d sides = Storage.read_side from sides row.
Proof.
  intros Hrow. unfold Statements.read_side, Storage.read_side, side_of.
  rewrite (proj1 (Hrow 1%nat)), (proj2 (Hrow 0%nat)), (proj2 (Hrow 10%nat)).
  rewrite (map_ext (λ i, text_at A st i d) (column_text row)) by (intros i; apply Hrow). done.
Qed.

Definition compared_pure (sides : Side * Side) : Pure C VersionDelta :=
  let '(f, t) := sides in
  if (s_id f =? 0) || (s_id t =? 0) then mret no_delta
  else event_rows_pure (s_id f) ≫= λ old_rows, event_rows_pure (s_id t) ≫= λ new_rows,
       mret (version_delta f t old_rows new_rows).

Lemma implements_compare name from to :
  implements ∅ (λ _, True) (λ n, Statements.compare A n name from to)
    (λ c, Storage.compare Q c name from to) (λ x y _, x = y).
Proof.
  apply implements_spec with (prepared sql_select_versions ≫= λ _,
    queried sql_select_versions [bind_text name; bind_text from; bind_text to] ≫= λ r,
    lift (every_row r) ≫= λ rows, compared_pure (foldl (Storage.read_side from) (no_side, no_side) rows)).
  { intros c. rewrite all_rows_steps. unfold Storage.compare.
    destruct (all_rows Q c _ _) as [[rows|e] c1]; [|done]. unfold compared_pure.
    destruct (foldl _ _ rows) as [f t]. destruct (_ || _); [done|].
    rewrite event_rows_all. destruct (all_rows Q c1 _ _) as [[old|e] c2]; [|done].
    rewrite event_rows_all. by destruct (all_rows Q c2 _ _) as [[new|e] c3]. }
  apply implements_statement. intros st.
  apply (implements_texts st _ [] [name; from; to] []); [done|].
  apply implements_while_then; [intros d acc row; apply read_side_row|]. intros [f t].
  unfold compared_pure. destruct (_ || _); [by apply implements_ret|].
  eapply implements_bind; [apply implements_inner, implements_event_rows|intros o o'].
  apply (implements_given (o = o')). intros ->.
  eapply implements_bind; [apply implements_inner, implements_event_rows|intros n n'].
  apply (implements_given (n = n')). intros ->. by apply implements_ret.
Qed.

(** *** migrate and open *)

Lemma implements_execs S l :
  Forall (λ s, s ∈ executed) l →
  implements S (λ _, True) (λ _, execs A l) (λ c, exec_all Q c l) (λ _ _ _, True).
Proof.
  induction 1 as [|sql l Hs _ IH]; [by apply implements_ret|].
  apply implements_spec with (((λ c, sq_exec Q c sql) : Pure C ()) ≫= λ _,
    ((λ c, exec_all Q c l) : Pure C ())).
  { intros c. cbn [exec_all]. unfold mbind, pure_bind. by destruct (sq_exec Q c sql) as [[[]|e] c1]. }
  eapply implements_bind; [by apply implements_exec|by intros x y].
Qed.

(** The statements that bring a database of some version to the current one. *)
Definition upgrades (version : Z) : list string :=
  (if version <? 1
   then [sql_create_observations; sql_create_events; sql_create_index; sql_insert_migration]
   else []) ++ [sql_commit].

Definition migrated_pure (found : option sql_row) : Pure C () := λ c,
  let version := match found with None => 0 | Some row => s32 (column_integer row 0) end in
  if schema_version <? version then (Err "database schema is newer than this build", c)
  else exec_all Q c (upgrades version).

Definition migrate_pure : Pure C () :=
  ((λ c, sq_exec Q c sql_create_migrations) : Pure C ()) ≫= λ _,
  prepared sql_current_version ≫= λ _, queried sql_current_version [] ≫= λ r,
  lift (next_row r) ≫= migrated_pure.

Lemma migrate_pure_migrate c :
  (((λ c, sq_exec Q c sql_foreign_keys) : Pure C ()) ≫= λ _,
   ((λ c, sq_exec Q c sql_begin) : Pure C ()) ≫= λ _,
   pure_rethrowing migrate_pure (λ c, (sq_exec Q c sql_rollback).2)) c = Storage.migrate Q c.
Proof.
  unfold Storage.migrate. cbn [exec_all]. unfold mbind at 1, pure_bind at 1.
  destruct (sq_exec Q c sql_foreign_keys) as [[[]|e] c0]; [|done].
  unfold mbind at 1, pure_bind at 1.
  destruct (sq_exec Q c0 sql_begin) as [[[]|e] c1]; [|done].
  unfold pure_rethrowing, migrate_pure, mbind at 1, pure_bind at 1.
  destruct (sq_exec Q c1 _) as [[[]|e] c2]; [|done]. rewrite first_row_steps.
  destruct (first_row Q c2 _ _) as [[found|e] c3]; [|done].
  unfold migrated_pure, upgrades. destruct (_ <? _); [done|].
  by destruct (exec_all Q c3 _) as [[[]|e] c4].
Qed.

Lemma implements_version st more found :
  implements {[st]} (stepped st sql_current_version more found)
    (λ _, if more then gets (λ d, s32 (integer_at A st 0 d)) else mret 0)
    (mret match found with None => 0 | Some row => s32 (column_integer row 0) end : Pure C Z)
    (λ x y _, x = y).
Proof.
  intros d (-> & Hrow & _). destruct found as [row|]; apply eventually_ret; cbn; [|done].
  split_and!; [done| |done]. f_equal. by apply Hrow.
Qed.

Lemma upgrades_executed version : Forall (λ s, s ∈ executed) (upgrades version).
Proof. unfold upgrades. destruct (version <? 1); repeat constructor; is_executed. Qed.

Lemma implements_unit S I (m : nat → Exec D ()) (f : Pure C ()) :
  implements S I m f (λ _ _ _, True) → implements S I m f (λ x y _, x = y).
Proof. apply implements_weaken; [done|done|]. by intros [] []. Qed.

Lemma implements_migrate :
  implements ∅ (λ _, True) (λ _, Statements.migrate A) (λ c, Storage.migrate Q c) (λ x y _, x = y).
Proof.
  eapply implements_spec; [intros c; symmetry; apply migrate_pure_migrate|].
  eapply implements_bind; [apply implements_exec; is_executed|intros ? ?].
  eapply implements_bind; [apply implements_exec; is_executed|intros ? ?].
  apply implements_rethrowing; [apply rollback_calls|].
  eapply implements_bind; [apply implements_exec; is_executed|intros ? ?].
  apply implements_statement. intros st.
  apply implements_next_then. intros more found.
  apply implements_spec with
    ((mret match found with None => 0 | Some row => s32 (column_integer row 0) end : Pure C Z) ≫=
     λ version, (if schema_version <? version
       then λ c, (Err "database schema is newer than this build", c)
       else λ c, exec_all Q c (upgrades version)) : Pure C ()).
  { intros c. unfold migrated_pure, mbind, pure_bind. cbn. by destruct (_ <? _). }
  eapply implements_bind; [apply implements_version|intros v v'].
  apply (implements_given (v = v')). intros ->. apply implements_unit.
  destruct (_ <? v'); [apply implements_throw|].
  apply implements_execs, upgrades_executed.
Qed.

(** ** Refinement *)

(** The calls give what the function gives on the content, and leave the
    statements that are open as they are. *)
Definition carries_out {X} (m : nat → Exec D X) (f : Pure C X) : Prop :=
  ∀ d, eventually (λ x, f (core d) = (x.1, core x.2) ∧ stmts x.2 = stmts d) (λ n, m n d).

Lemma carries_out_implements {X} (m : nat → Exec D X) f :
  implements ∅ (λ _, True) m f (λ x y _, x = y) → carries_out m f.
Proof.
  intros H d. eapply eventually_weaken; [|by apply H]. intros [r d'] (Hc & Hr & Ho). cbn in *. split.
  - destruct (f (core d)) as [r' c]. cbn in *. subst c. f_equal. by destruct r, r'; cbn in *; subst.
  - apply map_eq. intros st. by apply Ho.
Qed.

Lemma open_carries_out path d :
  eventually (λ x, open_database Q open_v2 close (core d) path = (x.1, core x.2) ∧ stmts x.2 = ∅)
    (λ _, open A path d).
Proof.
  unfold open, open_database. destruct (sqlite3_open_v2 A d path) as [[code handle] d1] eqn:E.
  apply open_law in E. destruct (code =? SQLITE_OK); cbn [negb].
  - destruct E as [Hs ->].
    destruct (carries_out_implements _ _ implements_migrate d1) as (n & [r d2] & (Hm & Hs2) & Hn).
    cbn [fst snd] in *. rewrite Hm. rewrite Hs in Hs2. destruct r as [u|e].
    + exists n, (Ok u, d2). destruct u. split; [done|]. intros fuel Hle. unfold rethrowing. by rewrite (Hn fuel).
    + destruct (close_law d2 Hs2) as [Hc Hs3]. exists n, (Err e, sqlite3_close A d2). cbn [fst snd].
      split; [by rewrite Hc|]. intros fuel Hle. unfold rethrowing. by rewrite (Hn fuel).
  - destruct E as [Hs ->]. apply eventually_ret. by destruct handle.
Qed.

(** C39: whatever fails, the sequences of SQLite calls that storage.cpp makes
    return, do to the database exactly what the functions of Storage do, throw
    where those give an error and with its message, and leave no statement
    open that was not open before. *)
Theorem statements_refine_queries :
  carries_out (λ _, Statements.migrate A) (Storage.migrate Q) ∧
  (∀ i es, carries_out (λ _, Statements.store A i es) (λ c, Storage.store Q c i es)) ∧
  (∀ name from to,
     carries_out (λ n, Statements.compare A n name from to) (λ c, Storage.compare Q c name from to)) ∧
  (∀ name current,
     carries_out (λ _, Statements.previous_version A name current)
       (λ c, Storage.previous_version Q c name current)) ∧
  (∀ path d,
     eventually (λ x, open_database Q open_v2 close (core d) path = (x.1, core x.2) ∧ stmts x.2 = ∅)
       (λ _, open A path d)).
Proof.
  split; [apply carries_out_implements, implements_migrate|].
  split; [intros; apply carries_out_implements, implements_store|].
  split; [intros; apply carries_out_implements, implements_compare|].
  split; [intros; apply carries_out_implements, implements_previous_version|].
  apply open_carries_out.
Qed.

(** What holds of the function holds of its calls: an observation is stored
    whole or not at all by the calls [store] makes. *)
Lemma store_calls_all_or_nothing tables saved `{!SqliteLaws Q tables saved} i es d :
  eventually (λ x,
    match x.1 with
    | Err _ => tables (core x.2) = tables (core d) ∨
               ∃ id, tables (core x.2) = with_observation id i es (tables (core d))
    | Ok o => tables (core x.2) = with_observation (so_id o) i es (tables (core d))
    end) (λ _, Statements.store A i es d).
Proof.
  eapply eventually_weaken; [|apply (carries_out_implements _ _ (implements_store i es))].
  intros [r d'] [E%(store_spec Q tables saved) _]. cbn in *. destruct r; [by destruct E|done].
Qed.

End Rules.
