(* ===== verification/Connection.v ===== *)
(** * A connection over any queries

    An implementation of the calls of Statements by a given [Sqlite]: a
    statement runs its query when it is first stepped and hands out the rows
    one by one.  The laws of StatementsSpec hold of it, so they can be met. *)

From S2P Require Import Prelude CxxString Fuel StrOrder Storage StorageSpec Statements StatementsSpec.

Record Connection (C : Type) := mkConnection {
  cn_content : C;
  cn_statements : gmap Z (Prepared C);
  cn_rows : gmap Z sql_row;
  cn_message : string;
}.
Arguments mkConnection {C}.
Arguments cn_content {C}.
Arguments cn_statements {C}.
Arguments cn_rows {C}.
Arguments cn_message {C}.

(** Messages begin with the operation that failed. *)
Class Prefixed {C} (Q : Sqlite C) := {
  exec_prefixed c s e : (sq_exec Q c s).1 = Err e → ∃ m, e = "sqlite: " +:+ m;
  prepare_prefixed c s e : (sq_prepare Q c s).1 = Err e → ∃ m, e = "prepare: " +:+ m;
  query_prefixed c s ps e : (sq_query Q c s ps).1.2 = Some e → ∃ m, e = "step: " +:+ m;
}.

Section Connection.
Context {C : Type} (Q : Sqlite C).
Implicit Types d : Connection C.

Definition with_content (c : C) d : Connection C :=
  mkConnection c (cn_statements d) (cn_rows d) (cn_message d).
Definition with_statement (st : Z) (p : Prepared C) d : Connection C :=
  mkConnection (cn_content d) (<[st := p]> (cn_statements d)) (cn_rows d) (cn_message d).
Definition with_row (st : Z) (row : sql_row) d : Connection C :=
  mkConnection (cn_content d) (cn_statements d) (<[st := row]> (cn_rows d)) (cn_message d).

(** The message of an error of [operation], without the operation. *)
Definition message (operation e : string) : string := str_drop (str_length (operation +:+ ": ")) e.
Definition failing (m : string) d : Connection C :=
  mkConnection (cn_content d) (cn_statements d) (cn_rows d) m.

Definition SQLITE_ERROR : Z := 1.

Definition answer (operation : string) (r : expected unit string * C) d : Z * Connection C :=
  match r with
  | (Ok _, c) => (SQLITE_OK, with_content c d)
  | (Err e, c) => (SQLITE_ERROR, failing (message operation e) (with_content c d))
  end.

Definition parameters (bound : gmap nat sql_value) : list sql_value :=
  omap (λ i, bound !! i) (seq 1 (base.size bound)).

Definition hand_out (st : Z) (sql : string) (bound : gmap nat sql_value) (rows : list sql_row)
    (error : option string) (c : C) d : Z * Connection C :=
  match rows, error with
  | row :: rest, _ =>
      (SQLITE_ROW, with_row st row (with_statement st (mkPrepared sql bound (Stepping rest error c)) d))
  | [], None => (SQLITE_DONE, with_statement st (mkPrepared sql bound Ended) d)
  | [], Some e => (SQLITE_ERROR, failing e (with_statement st (mkPrepared sql bound Ended) d))
  end.

Definition step (d : Connection C) (st : Z) : Z * Connection C :=
  match cn_statements d !! st with
  | Some (mkPrepared sql bound Ready) =>
      let '((rows, error), c) := sq_query Q (cn_content d) sql (parameters bound) in
      hand_out st sql bound rows (message "step" <$> error) c (with_content c d)
  | Some (mkPrepared sql bound (Stepping rows error c)) => hand_out st sql bound rows error c d
  | _ => (SQLITE_DONE, d)
  end.

Definition change (st : Z) (f : Prepared C → Prepared C) d : Z * Connection C :=
  match cn_statements d !! st with
  | Some p => (SQLITE_OK, with_statement st (f p) d)
  | None => (SQLITE_ERROR, d)
  end.

Definition bind_at (d : Connection C) (st : Z) (i : nat) (v : sql_value) : Z * Connection C :=
  change st (λ p, mkPrepared (p_sql p) (<[i := v]> (p_bound p)) (p_progress p)) d.

Definition calls : Api (Connection C) := {|
  sqlite3_exec d s := answer "sqlite" (sq_exec Q (cn_content d) s) d;
  sqlite3_prepare_v2 d s :=
    let st := fresh (dom (cn_statements d)) in
    match sq_prepare Q (cn_content d) s with
    | (Ok _, c) => ((SQLITE_OK, st), with_statement st (mkPrepared s ∅ Ready) (with_content c d))
    | (Err e, c) => ((SQLITE_ERROR, 0), failing (message "prepare" e) (with_content c d))
    end;
  sqlite3_bind_text d st i s := bind_at d st i (SText s);
  sqlite3_bind_int64 d st i z := bind_at d st i (SInt z);
  sqlite3_step := step;
  sqlite3_reset d st := change st (λ p, mkPrepared (p_sql p) (p_bound p) Ready) d;
  sqlite3_clear_bindings d st := change st (λ p, mkPrepared (p_sql p) ∅ (p_progress p)) d;
  sqlite3_finalize d st :=
    mkConnection (cn_content d) (delete st (cn_statements d)) (cn_rows d) (cn_message d);
  sqlite3_column_text d st i :=
    match (cn_rows d !! st) ≫= (.!! i) with
    | Some (SText s) => Some s
    | Some (SInt z) => Some (to_string z)
    | None => None
    end;
  sqlite3_column_int64 d st i := column_integer (default [] (cn_rows d !! st)) i;
  sqlite3_errmsg := cn_message;
  sqlite3_last_insert_rowid d := sq_last_rowid Q (cn_content d);
  sqlite3_open_v2 d _ := ((SQLITE_OK, true), mkConnection (cn_content d) ∅ ∅ "");
  sqlite3_close d := d;
|}.

(** ** The laws *)

Lemma size_map_seq (ps : list sql_value) : base.size (map_seq 1 ps : gmap nat sql_value) = length ps.
Proof.
  induction ps as [|v ps IH] using rev_ind; [done|].
  rewrite map_seq_snoc, map_size_insert_None, IH, length_app; [cbn; lia|apply map_seq_snoc_disjoint].
Qed.

Lemma omap_map_seq (ps : list sql_value) k :
  omap (λ i, (map_seq k ps : gmap nat sql_value) !! i) (seq k (length ps)) = ps.
Proof.
  revert k. induction ps as [|v ps IH]; intros k; [done|]. cbn [length seq map_seq omap list_omap].
  rewrite lookup_insert_eq. f_equal. etrans; [|apply (IH (S k))].
  apply list_omap_ext, Forall_Forall2_diag, Forall_forall. intros i Hi%list_elem_of_In%in_seq.
  by rewrite lookup_insert_ne by lia.
Qed.

Lemma parameters_map_seq ps : parameters (map_seq 1 ps) = ps.
Proof. unfold parameters. rewrite size_map_seq. apply omap_map_seq. Qed.

Lemma message_operation operation m :
  operation +:+ ": " +:+ message operation (operation +:+ ": " +:+ m) = operation +:+ ": " +:+ m.
Proof. unfold message. by rewrite <- (app_assoc_str operation ": " m), str_drop_app, app_assoc_str. Qed.

Lemma coded_error operation m d :
  coded calls SQLITE_ERROR operation (failing (message operation (operation +:+ ": " +:+ m)) d) =
  Err (operation +:+ ": " +:+ m).
Proof. unfold coded. cbn. by rewrite message_operation. Qed.

(** The statements with the messages of [step] after their operation. *)
Definition view_progress (p : Progress C) : Progress C :=
  match p with
  | Stepping rows error c => Stepping rows ((λ m, "step: " +:+ m) <$> error) c
  | p => p
  end.
Definition view (p : Prepared C) : Prepared C :=
  mkPrepared (p_sql p) (p_bound p) (view_progress (p_progress p)).
Definition statements d : gmap Z (Prepared C) := view <$> cn_statements d.

Lemma statements_ready d st sql bound :
  statements d !! st = Some (mkPrepared sql bound Ready) →
  cn_statements d !! st = Some (mkPrepared sql bound Ready).
Proof.
  unfold statements. rewrite lookup_fmap. destruct (_ !! st) as [[sql' bound' []]|]; cbn; [|done..].
  by intros [= <- <-].
Qed.

Lemma statements_stepping d st sql bound rows error c :
  statements d !! st = Some (mkPrepared sql bound (Stepping rows error c)) →
  ∃ error', error = (λ m, "step: " +:+ m) <$> error' ∧
    cn_statements d !! st = Some (mkPrepared sql bound (Stepping rows error' c)).
Proof.
  unfold statements. rewrite lookup_fmap. destruct (_ !! st) as [[sql' bound' []]|]; cbn; [done| |done..].
  intros [= <- <- <- <- <-]. by eexists.
Qed.

Lemma answer_law operation r d code d' :
  (∀ e, r.1 = Err e → ∃ m, e = operation +:+ ": " +:+ m) →
  answer operation r d = (code, d') →
  r = (coded calls code operation d', cn_content d') ∧ statements d' = statements d.
Proof.
  intros Hp. destruct r as [[[]|e] c]; intros [= <- <-]; [done|].
  destruct (Hp e eq_refl) as [m ->]. split; [|done].
  by rewrite coded_error.
Qed.

Lemma hand_out_law st sql bound rows error c d code d' :
  hand_out st sql bound rows error c d = (code, d') →
  cn_content d' = cn_content d ∧
  ∃ p, statements d' = <[st := mkPrepared sql bound p]> (statements d) ∧
       step_outcome calls st rows ((λ m, "step: " +:+ m) <$> error) c code d' p.
Proof.
  unfold hand_out. destruct rows as [|row rest]; [destruct error as [e|]|];
    intros [= <- <-]; (split; [done|]).
  - exists Ended. split; [exact (fmap_insert view _ st (mkPrepared sql bound Ended))|done].
  - exists Ended. split; [exact (fmap_insert view _ st (mkPrepared sql bound Ended))|done].
  - exists (view_progress (Stepping rest error c)).
    split; [exact (fmap_insert view _ st (mkPrepared sql bound (Stepping rest error c)))|].
    split_and!; [done..|]. intros i. unfold text_at, integer_at. cbn.
    rewrite lookup_insert_eq. cbn. unfold column_text. by destruct (row !! i) as [[]|].
Qed.

Lemma change_law st f d code d' p :
  cn_statements d !! st = Some p → change st f d = (code, d') →
  code = SQLITE_OK ∧ cn_content d' = cn_content d ∧ statements d' = <[st := view (f p)]> (statements d).
Proof. unfold change. intros -> [= <- <-]. split_and!; [done..|]. apply fmap_insert. Qed.

Lemma statements_some d st p :
  statements d !! st = Some p → ∃ q, cn_statements d !! st = Some q ∧ p = view q.
Proof. unfold statements. rewrite lookup_fmap. destruct (_ !! st) as [q|]; [|done]. intros [= <-]. by exists q. Qed.

#[export] Instance calls_laws `{!Prefixed Q} :
  ApiLaws calls Q (λ c _, (Ok (), c)) id cn_content statements.
Proof.
  split.
  - intros d s code d' _ E. apply answer_law in E; [done|]. apply exec_prefixed.
  - intros d s code st d'. cbn [calls sqlite3_prepare_v2].
    destruct (sq_prepare Q (cn_content d) s) as [[[]|e] c] eqn:E; intros [= <- <- <-].
    + split; [done|]. split; [|exact (fmap_insert view _ _ (mkPrepared s ∅ Ready))]. unfold statements. rewrite lookup_fmap.
      rewrite (not_elem_of_dom_1 _ _ (is_fresh (dom (cn_statements d)))). done.
    + pose proof (prepare_prefixed (cn_content d) s e) as H. rewrite E in H.
      destruct (H eq_refl) as [m ->]. split; [|done].
      change ("prepare: " +:+ m) with ("prepare" +:+ ": " +:+ m). by rewrite coded_error.
  - intros d st s bound i v code d' Hd%statements_ready. destruct v; cbn; intros E;
      destruct (change_law _ _ _ _ _ _ Hd E) as (-> & Hc & Hs); by split.
  - intros d st s ps code d' Hd%statements_ready. cbn [calls sqlite3_step]. unfold step.
    rewrite Hd, parameters_map_seq. pose proof (query_prefixed (cn_content d) s ps) as Hp.
    destruct (sq_query Q (cn_content d) s ps) as [[rows error] c]. intros E.
    apply hand_out_law in E as (Hc & p & Hs & Ho). exists p. cbn in Hc. subst c.
    split; [done|]. split; [done|]. destruct error as [e|]; [|done].
    destruct (Hp e eq_refl) as [m ->]. cbn [fst snd fmap option_fmap option_map] in *.
    change ("step: " +:+ message "step" ("step: " +:+ m)) with
      ("step" +:+ ": " +:+ message "step" ("step" +:+ ": " +:+ m)) in Ho.
    by rewrite message_operation in Ho.
  - intros d st s bound rows error code d' Hd.
    destruct (statements_stepping _ _ _ _ _ _ _ Hd) as (error' & -> & Hd').
    cbn [calls sqlite3_step]. unfold step. rewrite Hd'. intros E.
    apply hand_out_law in E as (Hc & p & Hs & Ho). by exists p.
  - intros d st s bound p code d' Hd _ E. destruct (statements_some _ _ _ Hd) as ([] & Hq & [= -> -> ->]).
    exact (change_law _ _ _ _ _ _ Hq E).
  - intros d st s bound code d' Hd%statements_ready E. exact (change_law _ _ _ _ _ _ Hd E).
  - intros d st. split; [done|]. apply fmap_delete.
  - done.
  - intros d Hd. by split.
  - by intros d path code handle d' [= <- <- <-].
Qed.
End Connection.

(** ** The database in memory, by calls *)

#[export] Instance memory_prefixed : Prefixed memory_db.
Proof.
  split; [done..|]. intros c s ps e. cbn [memory_db sq_query]. unfold memory_query.
  destruct (String.eqb s sql_insert_observation), (String.eqb s sql_insert_event);
    intros H; repeat case_match; cbn in H; simplify_eq; by exists "bind".
Qed.

Definition memory_connection : Connection Memory := mkConnection empty_db ∅ ∅ "".

Lemma statements_refine_queries_witness :
  ∃ d', store (calls memory_db) (sample "1" "a") [sample_event "x"; sample_event "y"] memory_connection =
        Some (Ok (mkStoredObservation 1 true), d') ∧
    Storage.store memory_db empty_db (sample "1" "a") [sample_event "x"; sample_event "y"] =
      (Ok (mkStoredObservation 1 true), cn_content d') ∧
    statements d' = ∅.
Proof.
  destruct (statements_refine_queries (calls memory_db) memory_db (λ c _, (Ok (), c)) id cn_content
    statements) as (_ & H & _).
  destruct (H (sample "1" "a") [sample_event "x"; sample_event "y"] memory_connection)
    as (n & [r d'] & [E Hs] & Hn).
  specialize (Hn n (Nat.le_refl n)). cbn [fst snd] in E, Hs.
  assert (r = Ok (mkStoredObservation 1 true)) as ->.
  { change r with ((r, cn_content d').1). rewrite <- E. vm_compute. reflexivity. }
  exists d'. split; [exact Hn|]. split; [exact E|]. rewrite Hs. reflexivity.
Defined.
