(* ===== verification/Fingerprint.v ===== *)
(** * Fingerprints (fingerprint and file_fingerprint of src/package/package.cpp,
      file_fingerprint of src/package/build.cpp)

    The 64-bit multiplicative hash by which files are compared. *)

From S2P Require Import Prelude CxxString.

Definition hash_basis : Z := 1469598103934665603.
Definition hash_prime : Z := 1099511628211.

(** [hash ^= character; hash *= prime;] *)
Definition hash_step (hash : Z) (c : ascii) : Z := u64 (Z.lxor hash (code c) * hash_prime).

(** The hash of the characters of a buffer, from a given state. *)
Fixpoint hash_chars (hash : Z) (s : string) : Z :=
  match s with
  | "" => hash
  | String c s => hash_chars (hash_step hash c) s
  end.

Definition fingerprint (value : string) : string := to_string (hash_chars hash_basis value).

Definition chunk_size : nat := Z.to_nat 8192.

(** The loop of [file_fingerprint]: [read] fills the buffer with what is left,
    up to its size, and the loop ends when it has read nothing. *)
Fixpoint hash_file (fuel : nat) (hash : Z) (content : string) : option Z :=
  match fuel with
  | O => None
  | S fuel =>
      let buffer := str_take chunk_size content in
      if bool_decide (buffer = "") then Some hash
      else hash_file fuel (hash_chars hash buffer) (str_drop chunk_size content)
  end.

(** [file_fingerprint] of a file with the given content, none when it cannot be
    opened; the fuel always suffices ([file_fingerprint_spec]). *)
Definition file_fingerprint (content : option string) : string :=
  match content with
  | None => ""
  | Some content => to_string (default 0 (hash_file (S (str_length content)) hash_basis content))
  end.

(** ** Properties *)

Lemma hash_chars_app hash s t : hash_chars hash (s +:+ t) = hash_chars (hash_chars hash s) t.
Proof. revert hash. induction s as [|c s IH]; intros hash; [done|]. rewrite app_String. apply IH. Qed.

Lemma chunk_size_pos : (0 < chunk_size)%nat.
Proof. unfold chunk_size. lia. Qed.

Lemma hash_file_whole fuel hash content :
  (str_length content < fuel)%nat → hash_file fuel hash content = Some (hash_chars hash content).
Proof.
  revert hash content. induction fuel as [|fuel IH]; intros hash content Hf; [lia|].
  pose proof chunk_size_pos as Hp. cbn [hash_file]. case_bool_decide as Hb.
  - destruct content as [|c s]; [done|]. destruct chunk_size; [lia|done].
  - assert (str_length content ≠ 0%nat) by (destruct content; [by destruct chunk_size|done]).
    rewrite IH by (rewrite str_length_drop; lia).
    by rewrite <- hash_chars_app, str_take_drop.
Qed.

Lemma file_fingerprint_spec content : file_fingerprint (Some content) = fingerprint content.
Proof. unfold file_fingerprint. by rewrite hash_file_whole by lia. Qed.

Lemma hash_chars_range hash s : 0 ≤ hash < 2 ^ 64 → 0 ≤ hash_chars hash s < 2 ^ 64.
Proof.
  revert hash. induction s as [|c s IH]; intros hash Hh; [done|]. cbn [hash_chars].
  apply IH. apply u64_range.
Qed.

Lemma char_code_range c : 0 ≤ code c < 256.
Proof. unfold code. pose proof (N_ascii_bounded c). lia. Qed.

Lemma lxor_range a b n : 0 ≤ n → 0 ≤ a < 2 ^ n → 0 ≤ b < 2 ^ n → 0 ≤ Z.lxor a b < 2 ^ n.
Proof.
  intros Hn Ha Hb. destruct (Z.eq_dec a 0) as [->|Ha0]; [by rewrite Z.lxor_0_l|].
  destruct (Z.eq_dec b 0) as [->|Hb0]; [by rewrite Z.lxor_0_r|].
  assert (0 ≤ Z.lxor a b) as H0 by (apply Z.lxor_nonneg; lia). split; [done|].
  destruct (Z.eq_dec (Z.lxor a b) 0) as [->|Hne]; [lia|].
  apply Z.log2_lt_pow2; [lia|]. eapply Z.le_lt_trans; [apply Z.log2_lxor; lia|].
  apply Z.max_lub_lt; apply Z.log2_lt_pow2; lia.
Qed.

(** The inverse of the prime modulo 2^64. *)
Definition hash_inverse : Z := 14886173955864302971.

Lemma hash_step_inj h h' c d :
  0 ≤ h < 2 ^ 64 → 0 ≤ h' < 2 ^ 64 → hash_step h c = hash_step h' d →
  Z.lxor h (code c) = Z.lxor h' (code d).
Proof.
  intros Hh Hh' H. unfold hash_step, u64 in H.
  assert (∀ h c, 0 ≤ h < 2 ^ 64 →
    (Z.lxor h (code c) * hash_prime) mod 2 ^ 64 * hash_inverse mod 2 ^ 64 = Z.lxor h (code c)) as Hinv.
  { intros x y Hx. pose proof (char_code_range y).
    rewrite Zmult_mod_idemp_l, <- Z.mul_assoc, <- Zmult_mod_idemp_r.
    change ((hash_prime * hash_inverse) mod 2 ^ 64) with 1. rewrite Z.mul_1_r.
    apply Z.mod_small, lxor_range; lia. }
  rewrite <- (Hinv h c Hh), <- (Hinv h' d Hh'). by rewrite H.
Qed.

Lemma lxor_cancel_r a b c : Z.lxor a c = Z.lxor b c → a = b.
Proof. intros H. apply (f_equal (λ x, Z.lxor x c)) in H. by rewrite !Z.lxor_assoc, Z.lxor_nilpotent, !Z.lxor_0_r in H. Qed.

Lemma lxor_cancel_l a b c : Z.lxor c a = Z.lxor c b → a = b.
Proof. rewrite !(Z.lxor_comm c). apply lxor_cancel_r. Qed.

Lemma hash_chars_inj h h' s :
  0 ≤ h < 2 ^ 64 → 0 ≤ h' < 2 ^ 64 → hash_chars h s = hash_chars h' s → h = h'.
Proof.
  revert h h'. induction s as [|c s IH]; intros h h' Hh Hh' H; [done|].
  cbn [hash_chars] in H. apply IH in H; [|apply u64_range..].
  apply hash_step_inj in H; [|done|done]. by eapply lxor_cancel_r.
Qed.

(** The fingerprint of a file, computed in blocks, is that of its whole
    content, and it tells apart any two contents that differ in one byte. *)
Theorem fingerprint_detects_byte a b c d :
  c ≠ d →
  file_fingerprint (Some (a +:+ String c b)) = fingerprint (a +:+ String c b) ∧
  file_fingerprint (Some (a +:+ String c b)) ≠ file_fingerprint (Some (a +:+ String d b)).
Proof.
  intros Hne. rewrite !file_fingerprint_spec. split; [done|]. unfold fingerprint.
  intros H. apply (inj pretty) in H. rewrite !hash_chars_app in H. cbn [hash_chars] in H.
  apply hash_chars_inj in H; [|apply u64_range..].
  assert (0 ≤ hash_chars hash_basis a < 2 ^ 64) by by apply hash_chars_range.
  apply hash_step_inj in H; [|done|done]. apply lxor_cancel_l in H. apply Hne.
  unfold code in H. apply N2Z.inj in H.
  by rewrite <- (ascii_N_embedding c), <- (ascii_N_embedding d), H.
Qed.

Lemma fingerprint_detects_byte_witness :
  file_fingerprint (Some "ab") = fingerprint "ab" ∧
  file_fingerprint (Some "ab") ≠ file_fingerprint (Some "ac").
Proof. apply (fingerprint_detects_byte "a" "" "b" "c"). discriminate. Defined.
