(* ===== verification/Package.v ===== *)
(** * The package scanner: texts and files (include/execell/package/package.hpp,
      src/package/package.cpp)

    The data of the scanner, the readers of .PKGINFO, the fragments of JSON,
    and the files written into a root. *)

From S2P Require Import Prelude CxxString Lines FsPath Json.

(** ** Data *)

Module Package.

Record Options := mkOptions {
  privileged : bool;
  run_all : bool;
  byte_diff : bool;
  confirm_privileged : bool;
  workers : Z;
  timeout : Z;
  format : string;
  network : string;
  mirrors : list string;
  allowed_hosts : list string;
  rootfs : string;
  session_root : string;
  database : string;
  cgroup_root : string;
  build_repetitions : Z;
}.

(** [Options{}] *)
Definition default_options : Options :=
  mkOptions false false false false 4 30 "terminal" "off" [] [] "" "/tmp/execell-package"
    "/tmp/execell-package/observations.db" "" 1.

Record Metadata := mkMetadata {
  package : string;
  name : string;
  version : string;
  architecture : string;
  dependencies : list string;
  files : list string;
  scripts : list string;
  hooks : list string;
  executables : list string;
  executable_fingerprints : list string;
  signature : string;
}.

Record Result := mkResult {
  ok : bool;
  error : string;
  metadata : Metadata;
  created : list string;
  modified : list string;
  deleted : list string;
  mode_changed : list string;
  ownership_changed : list string;
  hash_changed : list string;
  risk_factors : list string;
  risk_score : Z;
  verdict : string;
  risk_level : string;
  risk_action : string;
  session : string;
  installed : bool;
  report_data : string;
  baseline : bool;
  smoke_scans : list string;
  process_events : list string;
  network_events : list string;
  events : list string;
  coverage : list string;
  coverage_confidence : Z;
}.

Definition no_metadata : Metadata := mkMetadata "" "" "" "" [] [] [] [] [] [] "".

(** [Result{}] *)
Definition no_result : Result :=
  mkResult false "" no_metadata [] [] [] [] [] [] [] 0 "reject" "none" "reject" "" false "" false
    [] [] [] [] [] 0.

(** Assignments to the members of a result. *)

(** [ok = false] with an error. *)
Definition refuse (message : string) (r : Result) : Result :=
  mkResult false message (metadata r) (created r) (modified r) (deleted r) (mode_changed r)
    (ownership_changed r) (hash_changed r) (risk_factors r) (risk_score r) (verdict r)
    (risk_level r) (risk_action r) (session r) (installed r) (report_data r) (baseline r)
    (smoke_scans r) (process_events r) (network_events r) (events r) (coverage r)
    (coverage_confidence r).

Definition set_error (message : string) (r : Result) : Result :=
  mkResult (ok r) message (metadata r) (created r) (modified r) (deleted r) (mode_changed r)
    (ownership_changed r) (hash_changed r) (risk_factors r) (risk_score r) (verdict r)
    (risk_level r) (risk_action r) (session r) (installed r) (report_data r) (baseline r)
    (smoke_scans r) (process_events r) (network_events r) (events r) (coverage r)
    (coverage_confidence r).

Definition set_ok (b : bool) (r : Result) : Result :=
  mkResult b (error r) (metadata r) (created r) (modified r) (deleted r) (mode_changed r)
    (ownership_changed r) (hash_changed r) (risk_factors r) (risk_score r) (verdict r)
    (risk_level r) (risk_action r) (session r) (installed r) (report_data r) (baseline r)
    (smoke_scans r) (process_events r) (network_events r) (events r) (coverage r)
    (coverage_confidence r).

Definition set_metadata (m : Metadata) (r : Result) : Result :=
  mkResult (ok r) (error r) m (created r) (modified r) (deleted r) (mode_changed r)
    (ownership_changed r) (hash_changed r) (risk_factors r) (risk_score r) (verdict r)
    (risk_level r) (risk_action r) (session r) (installed r) (report_data r) (baseline r)
    (smoke_scans r) (process_events r) (network_events r) (events r) (coverage r)
    (coverage_confidence r).

Definition set_session (path : string) (r : Result) : Result :=
  mkResult (ok r) (error r) (metadata r) (created r) (modified r) (deleted r) (mode_changed r)
    (ownership_changed r) (hash_changed r) (risk_factors r) (risk_score r) (verdict r)
    (risk_level r) (risk_action r) path (installed r) (report_data r) (baseline r) (smoke_scans
    r) (process_events r) (network_events r) (events r) (coverage r) (coverage_confidence r).

Definition set_installed (b : bool) (r : Result) : Result :=
  mkResult (ok r) (error r) (metadata r) (created r) (modified r) (deleted r) (mode_changed r)
    (ownership_changed r) (hash_changed r) (risk_factors r) (risk_score r) (verdict r)
    (risk_level r) (risk_action r) (session r) b (report_data r) (baseline r) (smoke_scans r)
    (process_events r) (network_events r) (events r) (coverage r) (coverage_confidence r).

Definition set_baseline (b : bool) (r : Result) : Result :=
  mkResult (ok r) (error r) (metadata r) (created r) (modified r) (deleted r) (mode_changed r)
    (ownership_changed r) (hash_changed r) (risk_factors r) (risk_score r) (verdict r)
    (risk_level r) (risk_action r) (session r) (installed r) (report_data r) b (smoke_scans r)
    (process_events r) (network_events r) (events r) (coverage r) (coverage_confidence r).

Definition set_report (text : string) (r : Result) : Result :=
  mkResult (ok r) (error r) (metadata r) (created r) (modified r) (deleted r) (mode_changed r)
    (ownership_changed r) (hash_changed r) (risk_factors r) (risk_score r) (verdict r)
    (risk_level r) (risk_action r) (session r) (installed r) text (baseline r) (smoke_scans r)
    (process_events r) (network_events r) (events r) (coverage r) (coverage_confidence r).

Definition set_verdict (text : string) (r : Result) : Result :=
  mkResult (ok r) (error r) (metadata r) (created r) (modified r) (deleted r) (mode_changed r)
    (ownership_changed r) (hash_changed r) (risk_factors r) (risk_score r) text (risk_level r)
    (risk_action r) (session r) (installed r) (report_data r) (baseline r) (smoke_scans r)
    (process_events r) (network_events r) (events r) (coverage r) (coverage_confidence r).

Definition set_risk (score : Z) (level action : string) (r : Result) : Result :=
  mkResult (ok r) (error r) (metadata r) (created r) (modified r) (deleted r) (mode_changed r)
    (ownership_changed r) (hash_changed r) (risk_factors r) score (verdict r) level action
    (session r) (installed r) (report_data r) (baseline r) (smoke_scans r) (process_events r)
    (network_events r) (events r) (coverage r) (coverage_confidence r).

Definition add_factors (l : list string) (r : Result) : Result :=
  mkResult (ok r) (error r) (metadata r) (created r) (modified r) (deleted r) (mode_changed r)
    (ownership_changed r) (hash_changed r) (risk_factors r ++ l) (risk_score r) (verdict r)
    (risk_level r) (risk_action r) (session r) (installed r) (report_data r) (baseline r)
    (smoke_scans r) (process_events r) (network_events r) (events r) (coverage r)
    (coverage_confidence r).

Definition add_events (l : list string) (r : Result) : Result :=
  mkResult (ok r) (error r) (metadata r) (created r) (modified r) (deleted r) (mode_changed r)
    (ownership_changed r) (hash_changed r) (risk_factors r) (risk_score r) (verdict r)
    (risk_level r) (risk_action r) (session r) (installed r) (report_data r) (baseline r)
    (smoke_scans r) (process_events r) (network_events r) (events r ++ l) (coverage r)
    (coverage_confidence r).

Definition set_changes (c m d mode owner hash : list string) (r : Result) : Result :=
  mkResult (ok r) (error r) (metadata r) c m d mode owner hash (risk_factors r) (risk_score r)
    (verdict r) (risk_level r) (risk_action r) (session r) (installed r) (report_data r)
    (baseline r) (smoke_scans r) (process_events r) (network_events r) (events r) (coverage r)
    (coverage_confidence r).

Definition set_observed (smoke processes network_ coverage_ : list string) (confidence : Z) (r : Result) : Result :=
  mkResult (ok r) (error r) (metadata r) (created r) (modified r) (deleted r) (mode_changed r)
    (ownership_changed r) (hash_changed r) (risk_factors r) (risk_score r) (verdict r)
    (risk_level r) (risk_action r) (session r) (installed r) (report_data r) (baseline r) smoke
    processes network_ (events r) coverage_ confidence.

(** [metadata.executables] and its fingerprints grow by one. *)
Definition add_executable (path fingerprint : string) (m : Metadata) : Metadata :=
  mkMetadata (package m) (name m) (version m) (architecture m) (dependencies m) (files m)
    (scripts m) (hooks m) (executables m ++ [path]) (executable_fingerprints m ++ [fingerprint])
    (signature m).

End Package.

(** [max_command_output] *)
Definition max_command_output : Z := 2 ^ 20.

(** ** Reading .PKGINFO *)

(** [value] *)
Definition value (text key : string) : string :=
  let prefix := key +:+ " = " in
  match find_str text prefix 0 with
  | None => ""
  | Some start => line_rest text (start + str_length prefix)
  end.

(** The loop of [values]. *)
Fixpoint values_loop (fuel : nat) (text prefix : string) (pos : nat) : option (list string) :=
  match fuel with
  | O => None
  | S fuel =>
      match find_str text prefix pos with
      | None => Some []
      | Some pos =>
          let begin := (pos + str_length prefix)%nat in
          rest ← values_loop fuel text prefix begin;
          Some (line_rest text begin :: rest)
      end
  end.

(** [values], with fuel that always suffices ([values_by_line]). *)
Definition values (text key : string) : list string :=
  default [] (values_loop (S (S (str_length text))) text (key +:+ " = ") 0).

(** The reference: in each line, what follows every occurrence of the prefix. *)
Fixpoint line_values (fuel : nat) (prefix l : string) : list string :=
  match fuel with
  | O => []
  | S fuel =>
      match find_suffix (λ t, starts_with t prefix) l with
      | None => []
      | Some p =>
          let rest := str_drop (p + str_length prefix) l in
          rest :: line_values fuel prefix rest
      end
  end.

Definition all_values (text prefix : string) : list string :=
  flat_map (λ l, line_values (S (str_length l)) prefix l) (split_on newline text).

Section Values.
Context (prefix : string) (Hne : prefix ≠ "") (Hnl : str_elem newline prefix = false).

Lemma prefix_length : (0 < str_length prefix)%nat.
Proof. destruct prefix; [done|]. unfold str_length. simpl. lia. Qed.

Lemma line_values_fuel fuel fuel' l :
  (str_length l < fuel)%nat → (str_length l < fuel')%nat →
  line_values fuel prefix l = line_values fuel' prefix l.
Proof.
  revert fuel' l. induction fuel as [|fuel IH]; intros [|fuel'] l Hf Hf'; [lia..|].
  cbn [line_values]. destruct (find_suffix _ l) as [p|] eqn:E; [|done]. f_equal.
  apply find_fits in E. pose proof prefix_length. apply IH; rewrite str_length_drop; lia.
Qed.

(** The loop in the last line, [n] characters into it. *)
Lemma values_last fuel a l n :
  str_elem newline l = false → (n ≤ str_length l)%nat → (str_length l - n < fuel)%nat →
  values_loop fuel (a +:+ l) prefix (str_length a + n) =
  Some (line_values (S (str_length l)) prefix (str_drop n l)).
Proof.
  intros Hl. revert n. induction fuel as [|fuel IH]; intros n Hn Hf; [lia|].
  pose proof prefix_length as Hp. cbn [values_loop line_values].
  assert (find_str (a +:+ l) prefix (str_length a + n) =
          Nat.add (str_length a + n) <$> find_suffix (λ t, starts_with t prefix) (str_drop n l)) as ->.
  { unfold find_str. rewrite (proj2 (Nat.leb_le _ _)) by (rewrite str_length_app; lia).
    by rewrite <- str_drop_drop, str_drop_app. }
  destruct (find_suffix _ (str_drop n l)) as [p|] eqn:E; [|done]. cbn [fmap option_fmap option_map].
  apply find_fits in E. rewrite str_length_drop in E.
  replace (str_length a + n + p + str_length prefix)%nat
    with (str_length a + (n + p + str_length prefix))%nat by lia.
  rewrite IH by lia. cbn [mbind option_bind]. rewrite line_rest_last by (done || lia).
  rewrite str_drop_drop. replace (n + (p + str_length prefix))%nat with (n + p + str_length prefix)%nat by lia.
  do 2 f_equal. apply line_values_fuel; rewrite str_length_drop; lia.
Qed.

(** The loop in a line that others follow goes on in the next line. *)
Lemma values_line a l t rest :
  str_elem newline l = false →
  (∀ fuel, (str_length t < fuel)%nat →
     values_loop fuel (a +:+ l +:+ String newline t) prefix (str_length a + S (str_length l)) =
     Some rest) →
  ∀ fuel n, (n ≤ str_length l)%nat → (str_length l - n + str_length t + 1 < fuel)%nat →
  values_loop fuel (a +:+ l +:+ String newline t) prefix (str_length a + n) =
  Some (line_values (S (str_length l)) prefix (str_drop n l) ++ rest).
Proof.
  intros Hl Hnext fuel. induction fuel as [|fuel IH]; intros n Hn Hf; [lia|].
  pose proof prefix_length as Hp.
  assert (∀ m, (m ≤ str_length l)%nat →
    find_str (a +:+ l +:+ String newline t) prefix (str_length a + m) =
    Nat.add (str_length a + m) <$>
      find_suffix (λ t, starts_with t prefix) (str_drop m l +:+ String newline t)) as Hfind.
  { intros m Hm. unfold find_str. rewrite (proj2 (Nat.leb_le _ _)) by (rewrite !str_length_app; lia).
    by rewrite <- str_drop_drop, str_drop_app, str_drop_app_le. }
  cbn [line_values]. destruct (find_suffix _ (str_drop n l)) as [p|] eqn:E.
  - cbn [values_loop]. rewrite Hfind, find_line, E by done. cbn [fmap option_fmap option_map].
    apply find_fits in E. rewrite str_length_drop in E.
    replace (str_length a + n + p + str_length prefix)%nat
      with (str_length a + (n + p + str_length prefix))%nat by lia.
    rewrite IH by lia. cbn [mbind option_bind]. rewrite line_rest_line by (done || lia).
    rewrite str_drop_drop.
    replace (n + (p + str_length prefix))%nat with (n + p + str_length prefix)%nat by lia.
    cbn [app]. do 3 f_equal. apply line_values_fuel; rewrite str_length_drop; lia.
  - cbn [app]. rewrite <- (Hnext (S fuel)) by lia. cbn [values_loop]. rewrite Hfind, find_line, E by done.
    rewrite str_length_drop.
    assert (find_str (a +:+ l +:+ String newline t) prefix (str_length a + S (str_length l)) =
            Nat.add (str_length a + S (str_length l)) <$> find_suffix (λ t, starts_with t prefix) t) as ->.
    { unfold find_str. rewrite (proj2 (Nat.leb_le _ _)) by (rewrite !str_length_app; unfold str_length; simpl; lia).
      replace (S (str_length l)) with (str_length l + 1)%nat by lia.
      by rewrite <- !str_drop_drop, !str_drop_app. }
    destruct (find_suffix _ t) as [p|]; [|done]. cbn [fmap option_fmap option_map].
    by replace (str_length a + n + (str_length l - n + S p))%nat
      with (str_length a + S (str_length l) + p)%nat by lia.
Qed.

Lemma values_lines a ls :
  ls ≠ [] → Forall (λ l, str_elem newline l = false) ls →
  ∀ fuel, (str_length (join (str newline) ls) < fuel)%nat →
  values_loop fuel (a +:+ join (str newline) ls) prefix (str_length a) =
  Some (flat_map (λ l, line_values (S (str_length l)) prefix l) ls).
Proof.
  revert a. induction ls as [|l ls IH]; intros a Hls0 Hls fuel Hf; [done|].
  apply Forall_cons in Hls as [Hl Hls]. rewrite <- (Nat.add_0_r (str_length a)).
  destruct ls as [|l2 ls].
  - cbn [join flat_map] in *. rewrite app_nil_r. apply (values_last fuel a l 0); [done|lia|lia].
  - set (t := join (str newline) (l2 :: ls)) in *.
    change (join (str newline) (l :: l2 :: ls)) with (l +:+ String newline t) in *.
    apply (values_line a l t (flat_map _ (l2 :: ls))); [done| |lia|].
    + intros fuel' Hf'. rewrite <- (IH (a +:+ l +:+ str newline)) with (fuel := fuel') by done.
      rewrite !app_assoc_str, !str_length_app. change (str_length (str newline)) with 1%nat.
      f_equal. lia.
    + rewrite str_length_app in Hf. unfold str_length in *. simpl in *. lia.
Qed.

Lemma values_loop_all text :
  values_loop (S (S (str_length text))) text prefix 0 = Some (all_values text prefix).
Proof.
  unfold all_values. pose proof (values_lines "" (split_on newline text)) as H.
  rewrite join_split_on, app_empty_l in H. apply H; [|..|lia].
  - by destruct (split_on_cons newline text) as (? & ? & ->).
  - apply Forall_forall. intros l Hl. by eapply split_on_no_sep.
Qed.

Lemma value_head_loop fuel text l :
  values_loop fuel text prefix 0 = Some l →
  match find_str text prefix 0 with
  | None => ""
  | Some start => line_rest text (start + str_length prefix)
  end = hd "" l.
Proof.
  destruct fuel as [|fuel]; [done|]. cbn [values_loop].
  destruct (find_str text prefix 0) as [p|]; [|by intros [= <-]].
  destruct (values_loop fuel _ _ _) as [rest|]; [|done]. by intros [= <-].
Qed.

End Values.

Lemma key_prefix key : str_elem newline key = false →
  key +:+ " = " ≠ "" ∧ str_elem newline (key +:+ " = ") = false.
Proof.
  intros Hk. split; [by destruct key|]. by rewrite str_elem_app, Hk.
Qed.

(** Reading a key of .PKGINFO by searching the whole text is reading its
    lines: the values are, line by line, what follows each occurrence of the
    key with its separator, and the single value is the first of them. *)
Theorem values_by_line text key :
  str_elem newline key = false →
  values text key = all_values text (key +:+ " = ") ∧
  value text key = hd "" (values text key).
Proof.
  intros Hk. destruct (key_prefix key Hk) as [Hne Hnl].
  pose proof (values_loop_all _ Hne Hnl text) as H. unfold values. rewrite H. split; [done|].
  unfold value. by apply (value_head_loop _ _ _ _ H).
Qed.

Lemma values_by_line_witness :
  values (quoted "pkgname = a") "pkgname" = ["a"] ∧ value "pkgname = a" "pkgname" = "a".
Proof.
  destruct (values_by_line "pkgname = a" "pkgname" eq_refl) as [H1 H2].
  split; [exact H1|exact H2].
Defined.

(** *** A printed .PKGINFO reads back *)

Lemma contains_none l p : contains_str l p = false → find_suffix (λ t, starts_with t p) l = None.
Proof.
  unfold contains_str, find_str. cbn [Nat.leb str_drop]. intros H%bool_decide_eq_false.
  destruct (find_suffix _ l); [|done]. by destruct H.
Qed.

Lemma line_values_none fuel p l : contains_str l p = false → line_values fuel p l = [].
Proof. intros H. destruct fuel; [done|]. cbn [line_values]. by rewrite contains_none. Qed.

(** The values of a line that begins with the key. *)
Lemma line_values_own p v : contains_str v p = false → line_values (S (str_length (p +:+ v))) p (p +:+ v) = [v].
Proof.
  intros Hv. cbn [line_values]. assert (find_suffix (λ t, starts_with t p) (p +:+ v) = Some 0%nat) as ->.
  { destruct (p +:+ v) as [|c t] eqn:E; cbn [find_suffix]; by rewrite <- E, starts_with_app. }
  cbn [Nat.add]. rewrite str_drop_app, line_values_none by done. done.
Qed.

(** .PKGINFO reads back: in a file of lines [key = value] the values of a
    key are those of its lines, in order, provided that the key and its
    separator occur nowhere else (in another key, or in a value). *)
Theorem pkginfo_reads_back (fields : list (string * string)) key :
  str_elem newline key = false →
  Forall (λ f, str_elem newline f.1 = false ∧ str_elem newline f.2 = false ∧
               contains_str f.2 (key +:+ " = ") = false ∧
               (f.1 ≠ key → contains_str (f.1 +:+ " = " +:+ f.2) (key +:+ " = ") = false)) fields →
  values (concat_str (map (λ f, f.1 +:+ " = " +:+ f.2 +:+ str newline) fields)) key =
  map snd (List.filter (λ f, bool_decide (f.1 = key)) fields).
Proof.
  intros Hk Hf. destruct (key_prefix key Hk) as [Hne Hnl].
  unfold values. rewrite (values_loop_all _ Hne Hnl). cbn [default from_option id].
  unfold all_values. induction Hf as [|[k v] fields (H1 & H2 & H3 & H4) _ IH].
  - cbn [map concat_str split_on flat_map List.filter].
    by rewrite line_values_none by by destruct key.
  - cbn [map concat_str List.filter fst snd] in *.
    rewrite !app_assoc_str. change (str newline +:+ ?t) with (String newline t).
    rewrite <- (app_assoc_str " = " v), <- (app_assoc_str k).
    rewrite split_newline_cons by by rewrite !str_elem_app, H1, H2.
    cbn [flat_map]. rewrite IH. case_bool_decide as Hkey.
    + subst k. rewrite <- (app_assoc_str key), line_values_own by done. done.
    + by rewrite line_values_none by by apply H4.
Qed.

Lemma pkginfo_reads_back_witness :
  values (quoted "pkgname = a" +:+ str newline +:+ "depend = b" +:+ str newline +:+
          "depend = c" +:+ str newline) "depend" = ["b"; "c"].
Proof.
  apply (pkginfo_reads_back [("pkgname", "a"); ("depend", "b"); ("depend", "c")] "depend");
    [reflexivity|].
  repeat apply Forall_cons_2; try apply Forall_nil_2;
    (split_and!; [reflexivity..|intros H; first [reflexivity|by destruct H]]).
Defined.

(** A key is also found at the end of another one: the dependencies of a package
    that has none include what it needs only to be built. *)
Theorem dependencies_include_makedepend what :
  str_elem newline what = false → contains_str what "depend = " = false →
  values ("makedepend = " +:+ what) "depend" = [what].
Proof.
  intros Hn Hc. destruct (key_prefix "depend" eq_refl) as [Hne Hnl].
  unfold values. rewrite (values_loop_all _ Hne Hnl). cbn [default from_option id]. unfold all_values.
  rewrite split_on_single by (rewrite str_elem_app; by rewrite Hn).
  cbn [flat_map]. rewrite app_nil_r.
  change ("makedepend = " +:+ what) with ("make" +:+ ("depend = " +:+ what)).
  cbn [line_values]. 
  replace (find_suffix _ ("make" +:+ ("depend = " +:+ what))) with (Some 4%nat) by done.
  cbn [str_drop]. by rewrite line_values_none.
Qed.

(** ** JSON *)

(** The body of the loop of [json_escape]. *)
Definition json_escape_char (c : ascii) : string :=
  (if bool_decide (c = dquote) || bool_decide (c = backslash) then str backslash else "") +:+
  (if bool_decide (c = newline) then "\n"
   else if bool_decide (c = carriage_return) then "\r"
   else if bool_decide (c = tab) then "\t"
   else str c).

Definition json_escape (s : string) : string := escape_with json_escape_char s.

(** The loop of [json_array] and [json_object_array]: [rest] with a comma before
    every element but the first. *)
Fixpoint array_items (first : bool) (items : list string) : string :=
  match items with
  | [] => ""
  | x :: items => (if first then "" else ",") +:+ x +:+ array_items false items
  end.

Definition json_array (values : list string) : string :=
  "[" +:+ array_items true (map (λ v, str dquote +:+ json_escape v +:+ str dquote) values) +:+ "]".

Definition json_object_array (values : list string) : string :=
  "[" +:+ array_items true values +:+ "]".

(** Characters the scanner's JSON can hold. *)
Definition textual (c : ascii) : bool :=
  (32 <=? code c) || bool_decide (c = newline) || bool_decide (c = carriage_return) ||
  bool_decide (c = tab).

Lemma textual_encodes c : textual c = true → encodes json_escape_char c.
Proof. intros H rest. destruct c as [[] [] [] [] [] [] [] []]; try discriminate H; done. Qed.

Lemma textual_encodes_str s : str_forall textual s = true → encodes_str json_escape_char s.
Proof.
  induction s as [|c s IH]; [done|]. cbn [str_forall encodes_str]. rewrite andb_true_iff.
  intros [? ?]. split; [by apply textual_encodes|auto].
Qed.

Lemma array_items_join items : array_items true items = join "," items.
Proof.
  destruct items as [|x items]; [done|]. cbn [array_items]. rewrite app_empty_l.
  revert x. induction items as [|y items IH]; intros x; [by rewrite app_empty_r|].
  cbn [array_items]. rewrite IH. done.
Qed.

Lemma json_array_print values :
  json_array values = print_json json_escape_char (JArr (map JStr values)).
Proof. unfold json_array. rewrite array_items_join. cbn [print_json]. by rewrite map_map. Qed.

Lemma json_object_array_print enc (docs : list json) :
  json_object_array (map (print_json enc) docs) = print_json enc (JArr docs).
Proof. unfold json_object_array. by rewrite array_items_join. Qed.

(** ** Files in a root *)

(** [open_how] of [write_root_file]; the flags are those that depend on
    [exclusive]. *)
Record OpenHow := mkOpenHow { how_exclusive : bool; how_truncate : bool; how_mode : Z; how_beneath : bool }.

Record RootOps (W : Type) := mkRootOps {
  (** [open(root, O_RDONLY | O_DIRECTORY | O_CLOEXEC)] *)
  ro_open_root : W → string → option Z * W;
  ro_openat2 : W → Z → string → OpenHow → option Z * W;
  (** [write]: the count or [errno] *)
  ro_write : W → Z → string → expected Z Z * W;
  ro_close : W → Z → bool * W;
}.
Arguments ro_open_root {W}.
Arguments ro_openat2 {W}.
Arguments ro_write {W}.
Arguments ro_close {W}.

Section RootFiles.
Context {W : Type} (R : RootOps W).

(** The loop of [write_root_file] on what is left of the data. *)
Fixpoint root_write_loop (fuel : nat) (w : W) (fd : Z) (rest : string) : option (bool * W) :=
  match fuel with
  | O => None
  | S fuel =>
      if bool_decide (rest = "") then Some (true, w)
      else
        match ro_write R w fd rest with
        | (Err e, w) => if e =? 4 then root_write_loop fuel w fd rest else Some (false, w)
        | (Ok count, w) =>
            if count =? 0 then Some (false, w)
            else root_write_loop fuel w fd (str_drop (Z.to_nat count) rest)
        end
  end.

(** [write_root_file] *)
Definition write_root_file (fuel : nat) (w : W) (root relative data : string) (exclusive : bool)
    : option (bool * W) :=
  match ro_open_root R w root with
  | (None, w) => Some (false, w)
  | (Some root_fd, w) =>
      let '(fd, w) :=
        ro_openat2 R w root_fd (from_c_str relative)
          (mkOpenHow exclusive (negb exclusive) 448 true) in
      let w := (ro_close R w root_fd).2 in
      match fd with
      | None => Some (false, w)
      | Some fd =>
          '(written, w) ← root_write_loop fuel w fd data;
          if (written : bool) then Some (ro_close R w fd)
          else Some (false, (ro_close R w fd).2)
      end
  end.

(** [kept w fd] is the data accepted on an open descriptor. *)
Class RootLaws (kept : W → Z → string) := {
  openat2_empty w dir path how fd w' :
    ro_openat2 R w dir path how = (Some fd, w') →
    fd ≠ dir ∧ kept w' fd = "" ∧ how_beneath how = true;
  root_close_keeps w fd fd' b w' : ro_close R w fd = (b, w') → fd' ≠ fd → kept w' fd' = kept w fd';
  root_write_accepts w fd s n w' :
    ro_write R w fd s = (Ok n, w') →
    0 ≤ n ≤ size s ∧ kept w' fd = kept w fd +:+ str_take (Z.to_nat n) s;
  root_write_refuses w fd s e w' : ro_write R w fd s = (Err e, w') → kept w' fd = kept w fd;
}.

Context (kept : W → Z → string) `{!RootLaws kept}.

Lemma root_write_complete fuel w fd rest w' :
  root_write_loop fuel w fd rest = Some (true, w') → kept w' fd = kept w fd +:+ rest.
Proof.
  revert w rest. induction fuel as [|fuel IH]; intros w rest; [done|]. cbn [root_write_loop].
  case_bool_decide as Hr; [subst; intros [= <-]; by rewrite app_empty_r|].
  destruct (ro_write R w fd rest) as [[n|e] w1] eqn:E.
  - apply root_write_accepts in E as [_ Hw]. destruct (n =? 0); [done|]. intros H.
    by rewrite (IH _ _ H), Hw, app_assoc_str, str_take_drop.
  - apply root_write_refuses in E. destruct (_ =? 4); [|done]. intros H. by rewrite (IH _ _ H), E.
Qed.

(** A file staged in a root is written completely: success means that the
    name was opened beneath the root, without following links, that exactly the
    given data was written to it, and that it was closed without error. *)
Theorem write_root_file_complete fuel w root relative data exclusive w' :
  write_root_file fuel w root relative data exclusive = Some (true, w') →
  ∃ root_fd fd w1 w2 w3,
    ro_openat2 R w1 root_fd (from_c_str relative) (mkOpenHow exclusive (negb exclusive) 448 true) =
      (Some fd, w2) ∧
    kept w3 fd = data ∧ ro_close R w3 fd = (true, w').
Proof.
  unfold write_root_file. destruct (ro_open_root R w root) as [[root_fd|] w1]; [|done].
  destruct (ro_openat2 R w1 root_fd _ _) as [[fd|] w2] eqn:Eo; [|by destruct (ro_close R w2 root_fd)].
  destruct (ro_close R w2 root_fd) as [b wc] eqn:Ec. cbn [snd].
  destruct (root_write_loop fuel wc fd data) as [[[] w3]|] eqn:E; [| |done]; cbn [mbind option_bind].
  - intros [= Hc]. exists root_fd, fd, w1, w2, w3. split; [done|]. split; [|by destruct (ro_close R w3 fd)].
    destruct (openat2_empty _ _ _ _ _ _ Eo) as (Hne & H0 & _).
    rewrite (root_write_complete _ _ _ _ _ E), (root_close_keeps _ _ _ _ _ Ec Hne), H0. done.
  - done.
Qed.

End RootFiles.

(** A root with one file, that takes at most three bytes at a time. *)
Definition slow_root : RootOps string := {|
  ro_open_root w _ := (Some 3, w);
  ro_openat2 w dir _ how :=
    if how_beneath how && negb (dir =? 5) then (Some 5, "") else (None, w);
  ro_write w _ s := (Ok (size (str_take 3 s)), w +:+ str_take 3 s);
  ro_close w _ := (true, w);
|}.

#[export] Instance slow_root_laws : RootLaws slow_root (λ w _, w).
Proof.
  split; cbn.
  - intros w dir path how fd w'. destruct (how_beneath how); [|done]. cbn [andb].
    destruct (Z.eqb_spec dir 5); [done|]. by intros [= <- <-].
  - by intros w fd fd' b w' [= _ <-].
  - intros w fd s n w' [= <- <-]. unfold size. rewrite Nat2Z.id.
    destruct s as [|a [|b [|c s]]]; (split; [unfold str_length; simpl; lia|done]).
  - done.
Qed.

Lemma write_root_file_complete_witness :
  ∃ root_fd fd w1 w2 w3,
    ro_openat2 slow_root w1 root_fd (from_c_str "usr/bin/x") (mkOpenHow true false 448 true) =
      (Some fd, w2) ∧
    w3 = "#!/bin/sh" ∧ ro_close slow_root w3 fd = (true, "#!/bin/sh").
Proof.
  apply (write_root_file_complete slow_root (λ w _, w) 9 "" "/r" "usr/bin/x" "#!/bin/sh" true).
  vm_compute. reflexivity.
Defined.
