(* ===== verification/Inspect.v ===== *)
(** * Inspection of a package (package_name and inspect of src/package/package.cpp)

    What the scanner asks of a package before it installs it: its name, its
    metadata, its listing and its signature.  The archive is read through the
    adapter of Archive; the file system and the captured run of gpgv are
    parameters. *)

From S2P Require Import Prelude CxxString Lines FsPath Json Capture Seccomp Sandbox.
From S2P Require Import Archive ArchiveSpec Package.

(** [package_name] *)
Definition package_name (path : string) : bool :=
  ends_with path ".pkg.tar.zst" || ends_with path ".pkg.tar.xz" ||
  ends_with path ".pkg.tar.gz" || ends_with path ".pkg.tar.bz2" ||
  ends_with path ".pkg.tar.lrz" || ends_with path ".pkg.tar.lzo" ||
  ends_with path ".pkg.tar.lz4" || ends_with path ".pkg.tar.lz".

(** What the scanner asks of the file system and of programs. *)
Record PackageHost (A : Type) := mkPackageHost {
  ph_regular : string → bool;
  ph_symlink : string → bool;
  ph_exists : string → bool;
  (** [access(path, X_OK) == 0] *)
  ph_executable : string → bool;
  (** libarchive on a file *)
  ph_archive : string → Libarchive A;
  (** [sandbox::run_captured] with a timeout *)
  ph_run_captured : list string → Config → Z → Captured;
}.
Arguments ph_regular {A}.
Arguments ph_symlink {A}.
Arguments ph_exists {A}.
Arguments ph_executable {A}.
Arguments ph_archive {A}.
Arguments ph_run_captured {A}.

(** The tests on a listed path that make it a maintainer script or a hook. *)
Definition is_script (path : string) : bool :=
  bool_decide (path = ".INSTALL") || ends_with path "/.INSTALL".
Definition is_hook (path : string) : bool :=
  ends_with path ".hook" || contains_str path "/hooks/".

Definition gpgv : string := "/usr/bin/gpgv".

(** The sandbox gpgv runs in. *)
Definition verify_config (timeout : Z) : Config :=
  mkConfig namespaces true true true true true true true false true true false
    (u64 timeout) 0 32 (16 * 1024 * 1024) "" "" default_package_syscalls
    (mkCgroup "" 0 0 0 100000).

Section Inspect.
Context {A : Type} (H : PackageHost A).

Definition keyring : string :=
  if ph_exists H "/etc/pacman.d/gnupg/pubring.gpg" then "/etc/pacman.d/gnupg/pubring.gpg"
  else "/etc/pacman.d/gnupg/pubring.kbx".

(** A result without success: the error and the metadata so far. *)
Definition failed (error : string) (m : Package.Metadata) : Package.Result :=
  Package.mkResult false error m [] [] [] [] [] [] [] 0 "reject" "none" "reject" "" false "" false
    [] [] [] [] [] 0.

(** The end of [inspect]: the detached signature. *)
Definition verify_signature (package : string) (timeout : Z) (m : Package.Metadata) : Package.Result :=
  let sig := package +:+ ".sig" in
  if negb (ph_exists H sig) || ph_symlink H sig
  then failed "signature verification failed: detached signature missing" m
  else if negb (ph_executable H gpgv)
  then failed "signature verification unavailable: gpgv missing" m
  else if negb (ph_exists H keyring)
  then failed "signature verification unavailable: Arch keyring missing" m
  else
    let verify :=
      ph_run_captured H [gpgv; "--keyring"; keyring; sig; package] (verify_config timeout) timeout in
    if c_timed_out verify || negb (c_status verify =? 0)
    then failed (if c_timed_out verify then "signature verification timed out"
                 else "signature verification failed") m
    else
      Package.mkResult true ""
        (Package.mkMetadata (Package.package m) (Package.name m) (Package.version m)
           (Package.architecture m) (Package.dependencies m) (Package.files m) (Package.scripts m)
           (Package.hooks m) (Package.executables m) (Package.executable_fingerprints m) "valid")
        [] [] [] [] [] [] [] 0 "reject" "none" "reject" "" false "" false [] [] [] [] [] 0.

(** [inspect]; [None] when the fuel of the archive adapter runs out. *)
Definition inspect (fuel : nat) (package : string) (timeout : Z) : option Package.Result :=
  let m := Package.mkMetadata package "" "" "" [] [] [] [] [] [] "" in
  if negb (package_name (filename package))
  then Some (failed "unsupported package: expected .pkg.tar.*" m)
  else if negb (ph_regular H package) || ph_symlink H package
  then Some (failed "package does not exist" m)
  else
    info ← read (ph_archive H package) fuel default_limits ".PKGINFO" (2 ^ 20);
    match info with
    | Err e => Some (failed e m)
    | Ok info =>
        let name := value info "pkgname" in
        let version := value info "pkgver" in
        let arch := value info "arch" in
        let deps := values info "depend" in
        let m := Package.mkMetadata package name version arch deps [] [] [] [] [] "" in
        if bool_decide (name = "") || bool_decide (version = "") || bool_decide (arch = "")
        then Some (failed "package metadata missing required identity fields" m)
        else if negb (bool_decide (arch = "x86_64")) && negb (bool_decide (arch = "any"))
        then Some (failed ("unsupported architecture: " +:+ arch) m)
        else
          listing ← list_archive (ph_archive H package) fuel default_limits;
          match listing with
          | Err e => Some (failed e m)
          | Ok entries =>
              let files := map e_path entries in
              Some (verify_signature package timeout
                      (Package.mkMetadata package name version arch deps files
                         (List.filter is_script files) (List.filter is_hook files) [] [] ""))
          end
    end.

(** ** What inspection guarantees *)

(** A package that may be scanned. *)
Record inspected (package : string) (timeout : Z) (m : Package.Metadata) : Prop := {
  in_suffix : package_name (filename package) = true;
  in_regular : ph_regular H package = true ∧ ph_symlink H package = false;
  in_identity : Package.name m ≠ "" ∧ Package.version m ≠ "";
  in_architecture : Package.architecture m = "x86_64" ∨ Package.architecture m = "any";
  in_files : Forall (λ f, plain_relative f ∧ size f ≤ 4096) (Package.files m);
  in_scripts : Package.scripts m = List.filter is_script (Package.files m);
  in_hooks : Package.hooks m = List.filter is_hook (Package.files m);
  in_signature : Package.signature m = "valid" ∧
    c_status (ph_run_captured H [gpgv; "--keyring"; keyring; package +:+ ".sig"; package]
                (verify_config timeout) timeout) = 0 ∧
    c_timed_out (ph_run_captured H [gpgv; "--keyring"; keyring; package +:+ ".sig"; package]
                   (verify_config timeout) timeout) = false;
}.

Lemma verify_signature_ok package timeout m r :
  verify_signature package timeout m = r → Package.ok r = true →
  let run := ph_run_captured H [gpgv; "--keyring"; keyring; package +:+ ".sig"; package]
               (verify_config timeout) timeout in
  c_status run = 0 ∧ c_timed_out run = false ∧ Package.signature (Package.metadata r) = "valid" ∧
  Package.files (Package.metadata r) = Package.files m ∧
  Package.scripts (Package.metadata r) = Package.scripts m ∧
  Package.hooks (Package.metadata r) = Package.hooks m ∧
  Package.name (Package.metadata r) = Package.name m ∧
  Package.version (Package.metadata r) = Package.version m ∧
  Package.architecture (Package.metadata r) = Package.architecture m.
Proof.
  unfold verify_signature. intros <-. cbn zeta.
  destruct (negb (ph_exists H _) || _); [done|]. destruct (negb (ph_executable H gpgv)); [done|].
  destruct (negb (ph_exists H keyring)); [done|].
  set (run := ph_run_captured H _ _ _).
  destruct (c_timed_out run) eqn:Et; [done|]. cbn [orb].
  by destruct (Z.eqb_spec (c_status run) 0) as [Hs|].
Qed.

Lemma safe_entry_path e : safe_entry default_limits e → plain_relative (e_path e) ∧ size (e_path e) ≤ 4096.
Proof. intros []. done. Qed.

Lemma inspect_sound fuel package timeout r :
  inspect fuel package timeout = Some r → Package.ok r = true →
  inspected package timeout (Package.metadata r).
Proof.
  unfold inspect. destruct (package_name (filename package)) eqn:En; cbn [negb]; [|by intros [= <-]].
  destruct (ph_regular H package) eqn:Er; cbn [negb orb]; [|by intros [= <-]].
  destruct (ph_symlink H package) eqn:Es; [by intros [= <-]|].
  destruct (read _ _ _ _ _) as [[info|e]|]; cbn [mbind option_bind]; [|by intros [= <-]|done].
  destruct (bool_decide_reflect (value info "pkgname" = "")) as [|Hname]; [by intros [= <-]|].
  destruct (bool_decide_reflect (value info "pkgver" = "")) as [|Hver]; [by intros [= <-]|].
  destruct (bool_decide_reflect (value info "arch" = "")) as [|Harch]; [by intros [= <-]|]. cbn [orb].
  destruct (bool_decide_reflect (value info "arch" = "x86_64")) as [Hx|Hx],
    (bool_decide_reflect (value info "arch" = "any")) as [Ha|Ha]; cbn [negb andb];
    try (by intros [= <-]);
    (destruct (list_archive _ _ _) as [[entries|e]|] eqn:El; cbn [mbind option_bind];
       [|by intros [= <-]|done]);
    intros [= Hr] Hok;
    destruct (verify_signature_ok _ _ _ _ Hr Hok) as (H1 & H2 & H3 & H4 & H5 & H6 & H7 & H8 & H9);
    cbn in *; (split; [done|done|by rewrite H7, H8|rewrite H9; auto| |by rewrite H5, H4|by rewrite H6, H4|done]);
    rewrite H4; apply Forall_fmap; unfold list_archive in El;
    (destruct (open _ _) as [rd|] eqn:Eo; [|done]);
    (apply list_loop_limits in El as [Hs _]; [|cbn; lia|cbn; lia|constructor|cbn; lia|cbn; lia|cbn; lia]);
    (eapply Forall_impl; [exact Hs|]); intros x Hx'; by apply safe_entry_path.
Qed.

(** A package passes inspection only if it is a regular file with a known
    suffix, has a name, a version and a supported architecture, every path of
    its listing stays below the root it will be extracted to, its scripts and
    hooks are those of its listing, and gpgv accepted its signature. *)
Theorem inspect_accepts_only fuel package timeout r :
  inspect fuel package timeout = Some r → Package.ok r = true →
  inspected package timeout (Package.metadata r).
Proof. apply inspect_sound. Qed.

End Inspect.

(** A package with metadata, a script and a program, in memory, and a host on
    which it is well signed. *)
Definition sample_info : string :=
  "pkgname = demo" +:+ str newline +:+ "pkgver = 1-1" +:+ str newline +:+ "arch = any" +:+ str newline.

Definition sample_files : list (RawEntry * string) :=
  [(raw_file ".PKGINFO" (size sample_info), sample_info);
   (raw_file ".INSTALL" 9, "#!/bin/sh"); (raw_file "usr/bin/demo" 9, "#!/bin/sh")].

Definition sample_host : PackageHost MemReader := {|
  ph_regular _ := true;
  ph_symlink _ := false;
  ph_exists _ := true;
  ph_executable _ := true;
  ph_archive _ := mem_archive 100 sample_files;
  ph_run_captured _ _ _ := mkCaptured 0 false false "" "";
|}.

Definition sample_path : string := "/tmp/demo-1-1-any.pkg.tar.zst".

Lemma inspect_accepts_only_witness :
  ∃ r, inspect sample_host 50 sample_path 30 = Some r ∧ Package.scripts (Package.metadata r) = [".INSTALL"] ∧
       inspected sample_host sample_path 30 (Package.metadata r).
Proof.
  eexists. split; [vm_compute; reflexivity|]. split; [reflexivity|].
  eapply (inspect_accepts_only sample_host 50 sample_path 30); vm_compute; reflexivity.
Defined.
