(* ===== verification/Rootfs.v ===== *)
(** * Root file systems of a session (include/execell/package/rootfs.hpp,
      src/package/rootfs.cpp)

    A [Session] is a pair of Btrfs snapshots, or a plain directory when there is
    no Btrfs, with the process that removes them when the program dies.  The
    file system and the processes are a parameter, each call on the current
    world. *)

From S2P Require Import Prelude CxxString Lines FsPath Json Charconv.

(** ** Data *)

Inductive Mode := btrfs_mode | degraded.

#[export] Instance Mode_eq_dec : EqDecision Mode.
Proof. solve_decision. Defined.

Record Capabilities := mkRootCapabilities {
  cap_btrfs : bool;
  cap_rootless : bool;
  cap_rootful : bool;
  cap_user_namespace : bool;
  cap_mount_namespace : bool;
}.

(** The members of [Session]; a path that is not set is empty. *)
Record Session := mkSession {
  s_source : string;
  s_writable : string;
  s_workspace : string;
  s_base : string;
  s_guardian : Z;
  s_mode : Mode;
}.

(** [Session()] *)
Definition no_session : Session := mkSession "" "" "" "" (-1) degraded.

Definition path (s : Session) : string := s_writable s.
Definition isolated (s : Session) : bool := bool_decide (s_mode s = btrfs_mode).

(** [Session::event] *)
Definition event (s : Session) : string :=
  if isolated s then quoted "{'schema_version':1,'type':'rootfs_btrfs'}"
  else quoted "{'schema_version':1,'type':'rootfs_degraded','isolated':false}".

(** ** Capabilities of the host *)

(** [enabled] on the content of a file under /proc: a number that is positive;
    [long] values are read up to the first character that is no digit. *)
Definition enabled (content : option string) : bool :=
  match content with
  | None => false
  | Some text => match parse_int text with Some (v, _) => 0 <? v | None => false end
  end.

(** The loop of [capability] over the lines of /proc/self/status. *)
Fixpoint capability_lines (bit : Z) (lines : list string) : bool :=
  match lines with
  | [] => false
  | line :: lines =>
      if starts_with line "CapEff:" then
        let value := match from_chars 16 (str_drop 8 line) with Some (v, _) => v | None => 0 end in
        negb (Z.land value (u64 (Z.shiftl 1 bit)) =? 0)
      else capability_lines bit lines
  end.

Definition capability (bit : Z) (status : string) : bool :=
  capability_lines bit (split_on newline status).

(** [detect], from what it reads of the system. *)
Definition detect (max_user_namespaces : option string) (mnt_readable : bool) (status : string)
    (on_btrfs : bool) (euid : Z) : Capabilities :=
  let user := enabled max_user_namespaces in
  let mount := mnt_readable in
  let admin := capability 21 status in
  mkRootCapabilities on_btrfs (user && mount) ((euid =? 0) && admin) user mount.

(** ** Sessions *)

Record RootfsOps (W : Type) := mkRootfsOps {
  fs_symlink : W → string → bool;
  fs_exists : W → string → bool;
  (** [statfs] with [f_type == BTRFS_SUPER_MAGIC] *)
  fs_btrfs : W → string → bool;
  (** [create_directories]: the message of its error *)
  fs_mkdirs : W → string → option string * W;
  (** [remove_all]: the message of its error *)
  fs_remove : W → string → option string * W;
  (** [open(path, O_RDONLY | O_DIRECTORY | O_CLOEXEC)] *)
  fs_opendir : W → string → option Z * W;
  fs_close : W → Z → W;
  (** the two [ioctl]s: parent descriptor, source descriptor, name, read-only *)
  fs_snap_create : W → Z → Z → string → bool → bool * W;
  fs_subvol_create : W → Z → string → bool * W;
  (** [fork], whose child becomes the guardian with these arguments of rm *)
  fs_fork : W → list string → Z * W;
  (** [kill(pid, SIGTERM)] and [waitpid] *)
  fs_stop : W → Z → W;
  (** [session_sequence.fetch_add(1)] *)
  fs_next : W → Z * W;
}.
Arguments fs_symlink {W}.
Arguments fs_exists {W}.
Arguments fs_btrfs {W}.
Arguments fs_mkdirs {W}.
Arguments fs_remove {W}.
Arguments fs_opendir {W}.
Arguments fs_close {W}.
Arguments fs_snap_create {W}.
Arguments fs_subvol_create {W}.
Arguments fs_fork {W}.
Arguments fs_stop {W}.
Arguments fs_next {W}.

Section Session.
Context {W : Type} (O : RootfsOps W) (pid uid : Z).

(** [snapshot] *)
Definition snapshot (w : W) (source parent name : string) (readonly : bool) : bool * W :=
  let '(source_fd, w) := fs_opendir O w source in
  let '(parent_fd, w) := fs_opendir O w parent in
  match source_fd, parent_fd with
  | Some source_fd, Some parent_fd =>
      let '(ok, w) := fs_snap_create O w parent_fd source_fd name readonly in
      (ok, fs_close O (fs_close O w source_fd) parent_fd)
  | Some fd, None | None, Some fd => (false, fs_close O w fd)
  | None, None => (false, w)
  end.

(** [create_subvolume] *)
Definition create_subvolume (w : W) (parent name : string) : bool * W :=
  match fs_opendir O w parent with
  | (None, w) => (false, w)
  | (Some parent_fd, w) =>
      let '(ok, w) := fs_subvol_create O w parent_fd name in
      (ok, fs_close O w parent_fd)
  end.

(** [guardian_arguments], as [launch_guardian] fills it *)
Definition guardian_arguments (source writable base workspace : string) : list string :=
  ["rm"; "-rf"; source; writable; base; workspace].

(** [launch_guardian] in the parent; Guardian.v has what the child does. *)
Definition launch_guardian (w : W) (source writable base workspace : string) : Z * W :=
  fs_fork O w (guardian_arguments source writable base workspace).

(** [remove_path], which drops the error. *)
Definition remove_path (w : W) (p : string) : W :=
  if bool_decide (p = "") then w else (fs_remove O w p).2.

(** [Session::release] *)
Definition release (w : W) (s : Session) : W * Session :=
  let w := remove_path (remove_path (remove_path w (s_source s)) (s_writable s)) (s_base s) in
  let w := if 0 <? s_guardian s then fs_stop O w (s_guardian s) else w in
  (remove_path w (s_workspace s),
   mkSession "" "" "" "" (if 0 <? s_guardian s then -1 else s_guardian s) (s_mode s)).

(** [Session(Session&&)]: the new session and what is left of the other.  A
    [std::filesystem::path] that is moved from is empty. *)
Definition move_construct (other : Session) : Session * Session :=
  (mkSession (s_source other) (s_writable other) (s_workspace other) (s_base other)
     (s_guardian other) (s_mode other),
   mkSession "" "" "" "" (-1) (s_mode other)).

(** [operator=(Session&&)] of two different sessions *)
Definition move_assign (w : W) (s other : Session) : W * Session * Session :=
  let '(w, _) := release w s in
  (w, mkSession (s_source other) (s_writable other) (s_workspace other) (s_base other)
        (s_guardian other) (s_mode other),
   mkSession "" "" "" "" (-1) (s_mode other)).

(** [~Session] *)
Definition destroy (w : W) (s : Session) : W := (release w s).1.

(** An error return of [create]: the session under construction is destroyed. *)
Definition abandon (w : W) (s : Session) (error : string) : expected Session string * W :=
  (Err error, destroy w s).

(** The fallback to a plain directory, with or without a guardian. *)
Definition fallback (w : W) (workspace base : string) (guardian : bool) (error : string)
    : expected Session string * W :=
  let writable := path_append workspace ("rootfs-" +:+ to_string pid) in
  match fs_mkdirs O w writable with
  | (Some message, w) =>
      abandon w (mkSession "" writable workspace base (-1) degraded) (error +:+ message)
  | (None, w) =>
      if guardian then
        let '(g, w) := launch_guardian w "" writable base workspace in
        (Ok (mkSession "" writable workspace base g degraded), w)
      else (Ok (mkSession "" writable workspace base (-1) degraded), w)
  end.

(** [Session::create] *)
Definition create (w : W) (source workspace : string) : expected Session string * W :=
  if bool_decide (workspace = "") || fs_symlink O w workspace
  then (Err "rootfs workspace must not be symlink", w)
  else
    match fs_mkdirs O w workspace with
    | (Some message, w) => (Err ("rootfs workspace creation failed: " +:+ message), w)
    | (None, w) =>
        let origin := if bool_decide (source = "") then workspace else source in
        if negb (fs_exists O w origin) || negb (fs_btrfs O w origin)
        then fallback w workspace "" false "temporary rootfs creation failed: "
        else
          let '(n, w) := fs_next O w in
          let stamp := to_string pid +:+ "-" +:+ to_string uid +:+ "-" +:+ to_string n in
          let parent := if bool_decide (source = "") then workspace else parent_path source in
          let base := if bool_decide (source = "")
                      then path_append workspace (".execell-base-" +:+ stamp) else "" in
          let '(made, w) := if bool_decide (source = "")
                            then create_subvolume w workspace (filename base) else (true, w) in
          if negb made
          then abandon w (mkSession "" "" workspace base (-1) degraded)
                 "Btrfs base subvolume creation failed"
          else
            let snapshot_source := if bool_decide (source = "") then base else source in
            let source_ := path_append parent (".execell-source-" +:+ stamp) in
            let writable := path_append parent (".execell-session-" +:+ stamp) in
            if fs_exists O w source_ || fs_exists O w writable
            then abandon w (mkSession source_ writable workspace base (-1) degraded)
                   "rootfs session name collision"
            else
              let '(first, w) := snapshot w snapshot_source parent (filename source_) true in
              let '(second, w) := if first then snapshot w source_ parent (filename writable) false
                                  else (false, w) in
              if negb second then
                let w := remove_path (remove_path (remove_path w base) source_) writable in
                fallback w workspace base true "rootfs snapshot and fallback creation failed: "
              else
                let '(g, w) := launch_guardian w source_ writable base workspace in
                (Ok (mkSession source_ writable workspace base g btrfs_mode), w)
    end.

End Session.

(** ** What the file system promises *)

Class RootfsLaws {W : Type} (O : RootfsOps W) : Prop := {
  (** [remove_all] that reports no error leaves nothing of a path; with or
      without an error it creates nothing *)
  remove_gone w p w' : fs_remove O w p = (None, w') → fs_exists O w' p = false;
  remove_only w p q : fs_exists O w q = false → fs_exists O (fs_remove O w p).2 q = false;
  (** nor does the guardian, which only removes *)
  stop_only w g q : fs_exists O w q = false → fs_exists O (fs_stop O w g) q = false;
}.

(** The paths a session owns. *)
Definition owned (s : Session) : list string :=
  [s_source s; s_writable s; s_base s; s_workspace s].

Section Facts.
Context {W : Type} (O : RootfsOps W) (pid uid : Z).

(** The path, when removing it now reports an error. *)
Definition refusal (w : W) (p : string) : list string :=
  if bool_decide (p = "") then [] else match (fs_remove O w p).1 with Some _ => [p] | None => [] end.

(** The paths among [ps] that [remove_all] reports an error for, when they are
    removed one after the other. *)
Fixpoint refusals (w : W) (ps : list string) : list string :=
  match ps with
  | [] => []
  | p :: ps => refusal w p ++ refusals (remove_path O w p) ps
  end.

(** The files when [release] comes to the workspace. *)
Definition before_workspace (w : W) (s : Session) : W :=
  let w := foldl (remove_path O) w [s_source s; s_writable s; s_base s] in
  if 0 <? s_guardian s then fs_stop O w (s_guardian s) else w.

(** The paths of a session that are not removed by [release], because
    [remove_all] reports an error for them, which [remove_path] drops. *)
Definition refused (w : W) (s : Session) : list string :=
  refusals w [s_source s; s_writable s; s_base s] ++ refusal (before_workspace w s) (s_workspace s).

Lemma release_world w s : (release O w s).1 = remove_path O (before_workspace w s) (s_workspace s).
Proof. done. Qed.

Context `{!RootfsLaws O}.

Lemma remove_path_gone w p :
  p ≠ "" → p ∉ refusal w p → fs_exists O (remove_path O w p) p = false.
Proof.
  intros. unfold refusal, remove_path in *. rewrite bool_decide_false in * by done.
  destruct (fs_remove O w p) as [[m|] w'] eqn:E; cbn in *; [set_solver|by apply remove_gone in E].
Qed.

Lemma remove_path_only w p q :
  fs_exists O w q = false → fs_exists O (remove_path O w p) q = false.
Proof. intros. unfold remove_path. case_bool_decide; [done | by apply remove_only]. Qed.

Lemma removals_only w ps q :
  fs_exists O w q = false → fs_exists O (foldl (remove_path O) w ps) q = false.
Proof. revert w. induction ps as [|p ps IH]; intros w Hq; [done|]. by apply IH, remove_path_only. Qed.

(** Of the paths that are removed one after the other, one that still exists
    was refused. *)
Lemma removals_gone w ps q :
  q ∈ ps → q ≠ "" → q ∉ refusals w ps → fs_exists O (foldl (remove_path O) w ps) q = false.
Proof.
  intros Hq Hne. revert w. induction ps as [|p ps IH]; intros w Hr; [by apply elem_of_nil in Hq|].
  cbn [refusals foldl] in *. rewrite not_elem_of_app in Hr.
  apply elem_of_cons in Hq as [<-|Hq]; [|apply IH; [done|naive_solver]].
  apply removals_only, remove_path_gone; naive_solver.
Qed.

(** Whatever a session owns is gone once it is released, unless [remove_all]
    refused it. *)
Lemma release_gone w s q :
  q ∈ owned s → q ≠ "" → q ∉ refused w s → fs_exists O (release O w s).1 q = false.
Proof.
  rewrite release_world. unfold owned, refused. rewrite not_elem_of_app. intros Hq Hne [H1 H2].
  destruct (decide (q = s_workspace s)) as [->|Hw]; [by apply remove_path_gone|].
  assert (q ∈ [s_source s; s_writable s; s_base s]) as Hin by set_solver.
  apply remove_path_only. unfold before_workspace.
  destruct (0 <? s_guardian s); [apply stop_only|]; by apply removals_gone.
Qed.

End Facts.

(** *** Read-only snapshots *)

(** What a file system does with a read-only subvolume that holds files
    ([sealed]): the files cannot be unlinked, so that [remove_all] reports an
    error and the subvolume stays; removing something else, or a guardian that
    runs rm, does not change that. *)
Class SealLaws {W : Type} (O : RootfsOps W) (sealed : W → string → Prop) : Prop := {
  sealed_exists w p : sealed w p → fs_exists O w p = true;
  sealed_refuses w p : sealed w p → is_Some (fs_remove O w p).1;
  sealed_remove w p q : sealed w p → sealed (fs_remove O w q).2 p;
  sealed_stop w p g : sealed w p → sealed (fs_stop O w g) p;
}.

(** The read-only snapshot of a session is left behind: [release] drops the
    error of [remove_all] and forgets the path. *)
Theorem read_only_source_stays {W} (O : RootfsOps W) sealed `{!SealLaws O sealed} w s :
  s_source s ≠ "" → sealed w (s_source s) →
  fs_exists O (release O w s).1 (s_source s) = true ∧ s_source s ∈ refused O w s ∧
  s_source (release O w s).2 = "".
Proof.
  intros Hne Hs.
  assert (∀ v q, sealed v (s_source s) → sealed (remove_path O v q) (s_source s)) as Hr.
  { intros v q Hv. unfold remove_path. case_bool_decide; [done|by apply sealed_remove]. }
  split_and!; [| |done].
  - apply (sealed_exists (sealed := sealed)). rewrite release_world. apply Hr.
    unfold before_workspace. cbn [foldl]. destruct (0 <? s_guardian s); [apply sealed_stop|]; auto.
  - unfold refused, refusals, refusal at 1. rewrite bool_decide_false by done.
    destruct (sealed_refuses w (s_source s) Hs) as [m ->]. set_solver.
Qed.

(** ** What [create] guarantees *)

(** A session that was built from two fresh snapshots: the source as it was,
    read-only, and the writable one taken from that. *)
Definition built_from_snapshots {W} (O : RootfsOps W) (s : Session) : Prop :=
  ∃ w origin parent w1 w2,
    fs_exists O w (s_source s) = false ∧ fs_exists O w (s_writable s) = false ∧
    snapshot O w origin parent (filename (s_source s)) true = (true, w1) ∧
    snapshot O w1 (s_source s) parent (filename (s_writable s)) false = (true, w2).

(** The names of the two snapshots of a session. *)
Definition source_name (parent : string) (pid uid n : Z) : string :=
  path_append parent (".execell-source-" +:+ to_string pid +:+ "-" +:+ to_string uid +:+ "-" +:+ to_string n).
Definition session_name (parent : string) (pid uid n : Z) : string :=
  path_append parent (".execell-session-" +:+ to_string pid +:+ "-" +:+ to_string uid +:+ "-" +:+ to_string n).

Section CreateFacts.
Context {W : Type} (O : RootfsOps W) (pid uid : Z).

Lemma fallback_degraded w workspace base guardian error s w' :
  fallback O pid w workspace base guardian error = (Ok s, w') → isolated s = false.
Proof.
  unfold fallback, abandon. destruct (fs_mkdirs O w _) as [[m|] v]; [done|].
  destruct guardian; [destruct (launch_guardian O v _ _ _ _)|]; by intros [= <- <-].
Qed.

Lemma create_isolated w source workspace s w' :
  create O pid uid w source workspace = (Ok s, w') →
  isolated s = true → built_from_snapshots O s.
Proof.
  unfold create. intros Hc Hi. destruct (_ || _); [done|].
  destruct (fs_mkdirs O w workspace) as [[m|] w1]; [done|].
  destruct (_ || _); [by apply fallback_degraded in Hc; rewrite Hi in Hc|].
  destruct (fs_next O w1) as [n w2].
  destruct (if bool_decide (source = "") then _ else _) as [made w3].
  destruct made; cbn [negb] in Hc; [|done].
  destruct (fs_exists O w3 _) eqn:E1; cbn [orb] in Hc; [done|].
  destruct (fs_exists O w3 _) eqn:E2 in Hc; [done|].
  destruct (snapshot O w3 _ _ _ true) as [[] w4] eqn:S1.
  - destruct (snapshot O w4 _ _ _ false) as [[] w5] eqn:S2; cbn [negb] in Hc.
    + destruct (launch_guardian O w5 _ _ _ _) as [g w6]. injection Hc as <- <-.
      eexists w3, _, _, w4, w5. by split_and!.
    + by apply fallback_degraded in Hc; rewrite Hi in Hc.
  - cbn [negb] in Hc. by apply fallback_degraded in Hc; rewrite Hi in Hc.
Qed.

(** A session says it is isolated only when it was built from a read-only
    snapshot of the source and a writable snapshot of that one, both taken
    under names that did not exist; on every other path [create] gives an
    error or a degraded session. *)
Theorem isolated_only_from_snapshots w source workspace s w' :
  create O pid uid w source workspace = (Ok s, w') →
  isolated s = true → built_from_snapshots O s.
Proof. apply create_isolated. Qed.

(** What [create] does when the names of the new snapshots are taken: it
    reports a collision, and the session it was building, which it destroys,
    owns the directory that was there before, and the workspace: they are
    removed, unless the file system refuses. *)
Theorem collision_removes_existing `{!RootfsLaws O} w w1 w2 source workspace n p :
  source ≠ "" → workspace ≠ "" → fs_symlink O w workspace = false →
  fs_mkdirs O w workspace = (None, w1) →
  fs_exists O w1 source = true → fs_btrfs O w1 source = true →
  fs_next O w1 = (n, w2) →
  p = source_name (parent_path source) pid uid n ∨ p = session_name (parent_path source) pid uid n →
  fs_exists O w2 p = true → p ≠ "" →
  ∃ s, create O pid uid w source workspace = (Err "rootfs session name collision", destroy O w2 s) ∧
    p ∈ owned s ∧ workspace ∈ owned s ∧
    ∀ q, q ∈ [p; workspace] → q ∉ refused O w2 s → fs_exists O (destroy O w2 s) q = false.
Proof.
  intros Hs Hw Hl Hm He Hb Hn Hp Hex Hne. unfold create.
  rewrite (bool_decide_false (workspace = "")), Hl, Hm, (bool_decide_false (source = "")), He, Hb, Hn
    by done. cbn [orb negb].
  fold (source_name (parent_path source) pid uid n) (session_name (parent_path source) pid uid n).
  replace (fs_exists O w2 _ || fs_exists O w2 _) with true
    by (destruct Hp as [-> | ->]; rewrite Hex; by rewrite ?orb_true_r).
  eexists. split; [reflexivity|].
  assert (∀ q, q ∈ [p; workspace] →
    q ∈ owned (mkSession (source_name (parent_path source) pid uid n)
                 (session_name (parent_path source) pid uid n) workspace "" (-1) degraded)) as Ho
    by (unfold owned; cbn; intros q; rewrite !elem_of_cons; naive_solver).
  split_and!; [apply Ho; set_solver..|].
  intros q Hq Hr. apply release_gone; [done|by apply Ho| |done]. set_solver.
Qed.

(** Once a session is released, or the program that held it has thrown it
    away, none of the paths it owned is left but those the file system refused
    to remove; the session owns nothing any more. *)
Theorem released_session_is_gone `{!RootfsLaws O} w s p :
  p ∈ owned s → p ≠ "" → p ∉ refused O w s →
  fs_exists O (release O w s).1 p = false ∧ owned (release O w s).2 = ["";"";"";""].
Proof. intros Hp Hne Hr. split; [by apply release_gone | done]. Qed.

End CreateFacts.

(** ** A file system in memory: the paths that exist, all on Btrfs *)

Definition memory_root : RootfsOps (list string) := {|
  fs_symlink _ _ := false;
  fs_exists w p := bool_decide (p ∈ w);
  fs_btrfs _ _ := true;
  fs_mkdirs w p := (None, p :: w);
  fs_remove w p := (None, filter (.≠ p) w);
  fs_opendir w p := (if bool_decide (p ∈ w) then Some 3 else None, w);
  fs_close w _ := w;
  fs_snap_create w _ _ name _ := (true, ("/srv/" +:+ name) :: w);
  fs_subvol_create w _ name := (true, w);
  fs_fork w _ := (77, w);
  fs_stop w _ := w;
  fs_next w := (0, w);
|}.

#[export] Instance memory_root_laws : RootfsLaws memory_root.
Proof.
  split.
  - cbn. intros w p w' [= <-]. apply bool_decide_eq_false. rewrite list_elem_of_filter. naive_solver.
  - intros w p q. cbn. rewrite !bool_decide_eq_false, list_elem_of_filter. naive_solver.
  - done.
Qed.

Lemma isolated_only_from_snapshots_witness :
  ∃ s w', create memory_root 7 0 ["/srv"; "/srv/arch"] "/srv/arch" "/tmp/work" = (Ok s, w') ∧
          built_from_snapshots memory_root s.
Proof.
  eexists _, _. split; [vm_compute; reflexivity|].
  eapply (isolated_only_from_snapshots memory_root 7 0 ["/srv"; "/srv/arch"] "/srv/arch" "/tmp/work");
    vm_compute; reflexivity.
Defined.

Lemma collision_removes_existing_witness :
  let w := ["/srv"; "/srv/arch"; "/srv/.execell-session-7-0-0"] in
  ∃ s, create memory_root 7 0 w "/srv/arch" "/tmp/work"
       = (Err "rootfs session name collision", destroy memory_root ("/tmp/work" :: w) s) ∧
       "/srv/.execell-session-7-0-0" ∈ owned s.
Proof.
  intros w.
  destruct (collision_removes_existing memory_root 7 0 w ("/tmp/work" :: w) ("/tmp/work" :: w)
              "/srv/arch" "/tmp/work" 0 "/srv/.execell-session-7-0-0") as (s & H1 & H2 & _);
    first [done | right; vm_compute; reflexivity | by exists s].
Defined.

Lemma released_session_is_gone_witness :
  let s := mkSession "/a" "/b" "/tmp/work" "" 77 btrfs_mode in
  fs_exists memory_root (release memory_root ["/a"; "/b"; "/tmp/work"] s).1 "/tmp/work" = false ∧
  owned (release memory_root ["/a"; "/b"; "/tmp/work"] s).2 = ["";"";"";""].
Proof.
  intros s. apply (released_session_is_gone memory_root); [|done|].
  - unfold owned; cbn; rewrite !elem_of_cons; tauto.
  - apply (bool_decide_unpack _). vm_compute. done.
Defined.

(** ** A file system in memory with read-only snapshots: the paths that exist,
    and those that cannot be removed *)

Definition sealing_root : RootfsOps (list string * list string) := {|
  fs_symlink _ _ := false;
  fs_exists w p := bool_decide (p ∈ w.1);
  fs_btrfs _ _ := true;
  fs_mkdirs w p := (None, (p :: w.1, w.2));
  fs_remove w p :=
    if bool_decide (p ∈ w.2) then (Some "Read-only file system", w) else (None, (filter (.≠ p) w.1, w.2));
  fs_opendir w p := (if bool_decide (p ∈ w.1) then Some 3 else None, w);
  fs_close w _ := w;
  fs_snap_create w _ _ name ro :=
    let p := "/srv/" +:+ name in (true, (p :: w.1, if (ro : bool) then p :: w.2 else w.2));
  fs_subvol_create w _ name := (true, w);
  fs_fork w _ := (77, w);
  fs_stop w _ := w;
  fs_next w := (0, w);
|}.

Definition sealed_in (w : list string * list string) (p : string) : Prop := p ∈ w.1 ∧ p ∈ w.2.

#[export] Instance sealing_root_seals : SealLaws sealing_root sealed_in.
Proof.
  unfold sealed_in. split; cbn.
  - intros w p [H _]. by apply bool_decide_true.
  - intros w p [_ H]. by rewrite bool_decide_true.
  - intros w p q [H1 H2]. case_bool_decide as Hq; cbn; [done|].
    rewrite list_elem_of_filter. split; [|done]. split; [by intros ->|done].
  - done.
Qed.

#[export] Instance sealing_root_laws : RootfsLaws sealing_root.
Proof.
  split; cbn.
  - intros w p w'. case_bool_decide; [done|]. intros [= <-]. cbn.
    apply bool_decide_eq_false. rewrite list_elem_of_filter. naive_solver.
  - intros w p q. destruct (bool_decide (p ∈ w.2)); cbn; [done|].
    intros Hq. apply bool_decide_eq_false in Hq. apply bool_decide_eq_false.
    rewrite list_elem_of_filter. naive_solver.
  - done.
Qed.

(** The session [create] builds on it leaves its source snapshot behind. *)
Lemma read_only_source_stays_witness :
  ∃ s w, create sealing_root 7 0 (["/srv"; "/srv/arch"], []) "/srv/arch" "/tmp/work" = (Ok s, w) ∧
    fs_exists sealing_root (release sealing_root w s).1 (s_source s) = true.
Proof.
  eexists _, _. split; [vm_compute; reflexivity|].
  apply (read_only_source_stays sealing_root sealed_in); [done|].
  split; apply (bool_decide_unpack _); vm_compute; done.
Defined.
