(* ===== verification/Guardian.v ===== *)
(** * The guardian of a session (src/package/rootfs.cpp)

    The child of [launch_guardian]: what a process does between [fork] and
    [pause], what SIGTERM does to it at each point, and when it removes the
    paths of its session.  [guarded] puts such processes beside a file system
    given as [RootfsOps], so that [create], a crash of the program and the
    guardian compose. *)

From S2P Require Import Prelude CxxString FsPath Rootfs.

(** ** The process *)

(** Where the child of [launch_guardian] is: before and after
    [prctl(PR_SET_PDEATHSIG, SIGTERM)], after the test of [getppid()], after
    [sigaction], in [execv] of rm, gone through [_exit(0)], or killed. *)
Inductive Stage := Forked | Watching | Checked | Armed | Removing | Left | Killed.

#[export] Instance Stage_eq_dec : EqDecision Stage.
Proof. solve_decision. Defined.

(** The next step of the child; [ppid] is what [getppid()] returns.  In [pause]
    it stays. *)
Definition guardian_step (ppid : Z) (s : Stage) : Stage :=
  match s with
  | Forked => Watching
  | Watching => if ppid =? 1 then Left else Checked
  | Checked => Armed
  | Armed | Removing | Left | Killed => s
  end.

(** [guardian_cleanup], the handler of SIGTERM. *)
Definition guardian_cleanup (exec_ok : bool) : Stage := if exec_ok then Removing else Left.

(** SIGTERM: its default action until the handler is installed; the handler
    then, and while it runs, and in the rm it becomes, the signal is blocked. *)
Definition on_sigterm (exec_ok : bool) (s : Stage) : Stage :=
  match s with
  | Forked | Watching | Checked => Killed
  | Armed => guardian_cleanup exec_ok
  | Removing | Left | Killed => s
  end.

(** The death of the parent: the kernel sends the signal asked for, if it was
    asked for by then. *)
Definition on_parent_death (exec_ok : bool) (s : Stage) : Stage :=
  match s with Forked => Forked | _ => on_sigterm exec_ok s end.

(** What can happen to a guardian. *)
Inductive Happening := Runs | ParentDies | Terminated.

Section Life.
(** [parent] is the program, [reaper] the process orphans are given to. *)
Context (parent reaper : Z) (exec_ok : bool).

(** The parent's state and the guardian's. *)
Definition happen (x : bool * Stage) (h : Happening) : bool * Stage :=
  match h with
  | Runs => (x.1, guardian_step (if x.1 then parent else reaper) x.2)
  | ParentDies => if x.1 then (false, on_parent_death exec_ok x.2) else x
  | Terminated => (x.1, on_sigterm exec_ok x.2)
  end.

Definition life (hs : list Happening) : Stage := (foldl happen (true, Forked) hs).2.

End Life.

Section LifeFacts.
Context (parent reaper : Z) (exec_ok : bool) (Hparent : parent ≠ 1).

Lemma life_app hs hs' :
  life parent reaper exec_ok (hs ++ hs') =
  (foldl (happen parent reaper exec_ok) (foldl (happen parent reaper exec_ok) (true, Forked) hs) hs').2.
Proof. unfold life. by rewrite foldl_app. Qed.

(** The stage after [n] steps of the guardian while the program lives. *)
Lemma own_steps n :
  foldl (happen parent reaper exec_ok) (true, Forked) (replicate n Runs)
  = (true, match n with 0%nat => Forked | 1%nat => Watching | 2%nat => Checked | _ => Armed end).
Proof.
  induction n as [|n IH]; [done|]. rewrite replicate_S_end, foldl_app, IH.
  destruct n as [|[|[|n]]]; cbn; try done. by rewrite (proj2 (Z.eqb_neq _ _)).
Qed.

(** Stages nothing leads out of. *)
Lemma final_stage b s hs :
  s ∈ [Removing; Left; Killed] → (foldl (happen parent reaper exec_ok) (b, s) hs).2 = s.
Proof.
  intros Hs. revert b. induction hs as [|h hs IH]; intros b; [done|]. cbn.
  assert (∃ b', happen parent reaper exec_ok (b, s) h = (b', s)) as [b' ->]; [|apply IH].
  rewrite !elem_of_cons in Hs.
  destruct Hs as [->|[->|[->|Hs%elem_of_nil]]]; [..|done]; destruct b, h; cbn; eauto.
Qed.

(** A guardian without its parent that was not yet watching never removes
    anything unless it is terminated by somebody. *)
Lemma orphan_stage s hs :
  s ∈ [Forked; Watching; Checked; Armed; Left] → Forall (.≠ Terminated) hs →
  (foldl (happen parent reaper exec_ok) (false, s) hs).2 ∈ [Forked; Watching; Checked; Armed; Left].
Proof.
  intros Hs Hh. revert s Hs. induction Hh as [|h hs Hh _ IH]; intros s Hs; [done|]. cbn.
  destruct h; [|by apply IH|done]. apply IH.
  rewrite !elem_of_cons in Hs |- *.
  destruct Hs as [->|[->|[->|[->|[->|Hs%elem_of_nil]]]]]; [..|done]; cbn;
    try (destruct (reaper =? 1)); tauto.
Qed.

End LifeFacts.

(** A guardian that took three steps of its own (it watches its parent, has
    found it alive, and has installed its handler) becomes an rm of its session
    when the program dies or stops it, whatever else happens.  When the program
    dies before that, and nobody else terminates the guardian, it never removes
    anything; when it is terminated before that, it is dead. *)
Theorem guardian_cleans_up parent reaper n hs :
  parent ≠ 1 →
  (∀ h, h ≠ Runs → (3 ≤ n)%nat →
     life parent reaper true (replicate n Runs ++ h :: hs) = Removing) ∧
  ((n < 3)%nat → Forall (.≠ Terminated) hs →
     life parent reaper true (replicate n Runs ++ ParentDies :: hs) ≠ Removing) ∧
  ((n < 3)%nat → life parent reaper true (replicate n Runs ++ Terminated :: hs) = Killed).
Proof.
  intros Hp. split_and!.
  - intros h Hh Hn. rewrite life_app, own_steps by done.
    destruct n as [|[|[|n]]]; [lia..|]. cbn.
    destruct h; [done|apply final_stage; set_solver|apply final_stage; set_solver].
  - intros Hn Hhs. rewrite life_app, own_steps by done.
    destruct n as [|[|[|n]]]; [| | |lia]; cbn.
    + pose proof (orphan_stage parent reaper true Forked hs) as Ho. intros E.
      rewrite E in Ho. specialize (Ho ltac:(set_solver) Hhs). set_solver.
    + rewrite final_stage by set_solver. done.
    + rewrite final_stage by set_solver. done.
  - intros Hn. rewrite life_app, own_steps by done.
    destruct n as [|[|[|n]]]; [| | |lia]; cbn; apply final_stage; set_solver.
Qed.

Lemma guardian_cleans_up_witness :
  life 40 1 true [Runs; Runs; Runs; ParentDies; Runs] = Removing ∧
  life 40 1 true [Runs; ParentDies; Runs; Runs] ≠ Removing.
Proof.
  split.
  - apply (proj1 (guardian_cleans_up 40 1 3 [Runs] ltac:(done)) ParentDies); [done|lia].
  - apply (proj1 (proj2 (guardian_cleans_up 40 1 1 [Runs; Runs] ltac:(done)))); [lia|].
    by repeat constructor.
Defined.

(** ** Guardians beside a file system *)

Record Watched (W : Type) := mkWatched {
  files : W;
  (** by pid: the arguments of rm and where the process is *)
  guardians : gmap Z (list string * Stage);
}.
Arguments mkWatched {W}.
Arguments files {W}.
Arguments guardians {W}.

Section Watched.
Context {W : Type} (O : RootfsOps W) (parent : Z) (exec_ok : bool).

(** What [rm -rf] does to the files: each argument is removed, and an error
    does not stop it. *)
Definition rm (f : W) (args : list string) : W := foldl (remove_path O) f (drop 2 args).

(** Guardian [g] goes from its stage to another. *)
Definition move_guardian (to : Stage → Stage) (w : Watched W) (g : Z) : Watched W :=
  match guardians w !! g with
  | None => w
  | Some (args, s) =>
      mkWatched (if bool_decide (s = Armed) && bool_decide (to s = Removing)
                 then rm (files w) args else files w)
        (<[g := (args, to s)]> (guardians w))
  end.

(** The program is killed: the guardians are left. *)
Definition crash (w : Watched W) : Watched W :=
  foldl (move_guardian (on_parent_death exec_ok)) w (map_to_list (guardians w)).*1.

(** The elements before the first [g]. *)
Fixpoint before (g : Z) (l : list Z) : list Z :=
  match l with [] => [] | k :: l => if decide (k = g) then [] else k :: before g l end.

(** The world in which guardian [g] is told of the crash: the guardians before
    it have been. *)
Definition crash_until (w : Watched W) (g : Z) : Watched W :=
  foldl (move_guardian (on_parent_death exec_ok)) w (before g (map_to_list (guardians w)).*1).

(** The operations of a session, with the processes it forks. *)
Definition guarded : RootfsOps (Watched W) :=
  let on {A} (f : W → A * W) (w : Watched W) : A * Watched W :=
    ((f (files w)).1, mkWatched (f (files w)).2 (guardians w)) in {|
    fs_symlink w := fs_symlink O (files w);
    fs_exists w := fs_exists O (files w);
    fs_btrfs w := fs_btrfs O (files w);
    fs_mkdirs w p := on (λ f, fs_mkdirs O f p) w;
    fs_remove w p := on (λ f, fs_remove O f p) w;
    fs_opendir w p := on (λ f, fs_opendir O f p) w;
    fs_close w fd := mkWatched (fs_close O (files w) fd) (guardians w);
    fs_snap_create w a b name ro := on (λ f, fs_snap_create O f a b name ro) w;
    fs_subvol_create w a name := on (λ f, fs_subvol_create O f a name) w;
    fs_fork w args :=
      let '(g, f) := fs_fork O (files w) args in
      (g, mkWatched f (if 0 <? g then <[g := (args, Forked)]> (guardians w) else guardians w));
    fs_stop w g :=
      let w := move_guardian (on_sigterm exec_ok) w g in
      mkWatched (files w) (delete g (guardians w));
    fs_next w := on (fs_next O) w;
  |}.

(** Guardian [g] takes [n] steps of its own between two states, while the
    program and the other guardians do whatever they do. *)
Inductive ran (g : Z) : nat → Watched W → Watched W → Prop :=
| ran_here w : ran g 0 w w
| ran_other n w w1 w2 : ran g n w w1 → guardians w2 !! g = guardians w1 !! g → ran g n w w2
| ran_own n w w1 : ran g n w w1 → ran g (S n) w (move_guardian (guardian_step parent) w1 g).

End Watched.

Section WatchedFacts.
Context {W : Type} (O : RootfsOps W) `{!RootfsLaws O} (parent : Z).

Lemma move_guardian_only to w g p :
  fs_exists O (files w) p = false → fs_exists O (files (move_guardian O to w g)) p = false.
Proof.
  intros Hf. unfold move_guardian. destruct (guardians w !! g) as [[args s]|]; [|done].
  cbn. destruct (_ && _); [by apply removals_only|done].
Qed.

Lemma move_guardian_other to w g g' :
  g ≠ g' → guardians (move_guardian O to w g) !! g' = guardians w !! g'.
Proof.
  intros Hne. unfold move_guardian. destruct (guardians w !! g) as [[args s]|]; [|done].
  by apply lookup_insert_ne.
Qed.

#[export] Instance guarded_laws exec_ok : RootfsLaws (guarded O exec_ok).
Proof.
  split; cbn.
  - intros w p w'. destruct (fs_remove O (files w) p) as [e f] eqn:E. cbn.
    intros [= -> <-]. by eapply remove_gone.
  - intros w p q. apply remove_only.
  - intros w g q. apply move_guardian_only.
Qed.

(** A crash removes the paths of every guardian that was armed, but those that
    its rm cannot remove. *)
Lemma crash_gone w g args p :
  guardians w !! g = Some (args, Armed) → p ∈ drop 2 args → p ≠ "" →
  p ∉ refusals O (files (crash_until O true w g)) (drop 2 args) →
  fs_exists O (files (crash O true w)) p = false.
Proof.
  intros Hg Hp Hne. unfold crash, crash_until.
  assert (g ∈ (map_to_list (guardians w)).*1) as Hin.
  { apply list_elem_of_fmap. exists (g, (args, Armed)). by rewrite elem_of_map_to_list. }
  revert Hin Hg. generalize (map_to_list (guardians w)).*1. intros l. revert w.
  assert (∀ l w, fs_exists O (files w) p = false →
    fs_exists O (files (foldl (move_guardian O (on_parent_death true)) w l)) p = false) as Hkeep.
  { clear l. induction l as [|k l IH]; intros w Hw; [done|]. cbn. apply IH. by apply move_guardian_only. }
  induction l as [|k l IH]; intros w Hin Hg; [by apply elem_of_nil in Hin|]. cbn.
  destruct (decide (k = g)) as [->|Hk]; cbn [foldl]; intros Hr.
  - apply Hkeep. unfold move_guardian. rewrite Hg. cbn. by apply removals_gone.
  - apply IH; [|by rewrite move_guardian_other|done]. by apply elem_of_cons in Hin as [->|].
Qed.

(** A crash in which no guardian is armed leaves the files as they are. *)
Lemma crash_kept w :
  (∀ g args s, guardians w !! g = Some (args, s) → s ≠ Armed) → files (crash O true w) = files w.
Proof.
  unfold crash. generalize (map_to_list (guardians w)).*1. intros l. revert w.
  induction l as [|k l IH]; intros w Hw; [done|]. cbn.
  assert (files (move_guardian O (on_parent_death true) w k) = files w) as Hf.
  { unfold move_guardian. destruct (guardians w !! k) as [[args s]|] eqn:E; [|done]. cbn.
    by rewrite bool_decide_eq_false_2 by by eapply Hw. }
  rewrite IH, Hf; [done|]. intros g args s. unfold move_guardian.
  destruct (guardians w !! k) as [[args' s']|] eqn:E; [|apply Hw]. cbn.
  intros [[_ E']|[_ H]]%lookup_insert_Some; [|by eapply Hw].
  apply Hw in E. simplify_eq. by destruct s'.
Qed.

(** The stage of a guardian after [n] steps. *)
Definition stage_after (n : nat) : Stage :=
  match n with 0%nat => Forked | 1%nat => Watching | 2%nat => Checked | _ => Armed end.

Lemma ran_stage g n w w' args :
  parent ≠ 1 → guardians w !! g = Some (args, Forked) → ran O parent g n w w' →
  guardians w' !! g = Some (args, stage_after n).
Proof.
  intros Hp Hg Hr. induction Hr as [w|n w w1 w2 Hr IH E|n w w1 Hr IH]; [done| |].
  - rewrite E. by apply IH.
  - unfold move_guardian. rewrite IH by done. cbn. rewrite lookup_insert_eq.
    destruct n as [|[|[|n]]]; cbn; try done. by rewrite (proj2 (Z.eqb_neq _ _)).
Qed.

End WatchedFacts.

(** ** A session after a crash *)

(** The last thing [create] does for an isolated session is to launch its
    guardian, with its four paths. *)
Lemma create_launches {W} (O : RootfsOps W) pid uid w source workspace s w' :
  create O pid uid w source workspace = (Ok s, w') → isolated s = true →
  ∃ w0, launch_guardian O w0 (s_source s) (s_writable s) (s_base s) (s_workspace s)
        = (s_guardian s, w').
Proof.
  unfold create. intros Hc Hi. destruct (_ || _); [done|].
  destruct (fs_mkdirs O w workspace) as [[m|] w1]; [done|].
  destruct (_ || _); [by apply fallback_degraded in Hc; rewrite Hi in Hc|].
  destruct (fs_next O w1) as [k w2].
  destruct (if bool_decide (source = "") then _ else _) as [made w3].
  destruct made; cbn [negb] in Hc; [|done].
  destruct (_ || _); [done|].
  destruct (snapshot O w3 _ _ _ true) as [first w4].
  destruct (if first then _ else _) as [second w5].
  destruct second; cbn [negb] in Hc; [|by apply fallback_degraded in Hc; rewrite Hi in Hc].
  destruct (launch_guardian O w5 _ _ _ _) as [g w6] eqn:E. injection Hc as <- <-. by exists w5.
Qed.

Section Crash.
Context {W : Type} (O : RootfsOps W) `{!RootfsLaws O} (parent : Z).

Lemma create_guarded exec_ok pid uid w source workspace s w' :
  create (guarded O exec_ok) pid uid w source workspace = (Ok s, w') →
  isolated s = true → 0 < s_guardian s →
  guardians w' !! s_guardian s
  = Some (guardian_arguments (s_source s) (s_writable s) (s_base s) (s_workspace s), Forked).
Proof.
  intros Hc Hi Hg. destruct (create_launches _ _ _ _ _ _ _ _ Hc Hi) as [w0 Hl].
  unfold launch_guardian in Hl. cbn in Hl. destruct (fs_fork O (files w0) _) as [g f].
  injection Hl as Eg <-. cbn. rewrite Eg, (proj2 (Z.ltb_lt 0 _)) by done.
  apply lookup_insert_eq.
Qed.

(** C19: when the program is killed while it holds an isolated session, the rm
    that the session's guardian becomes removes every path of the session, but
    those that it reports an error for (as the file system does for a read-only
    snapshot with contents), if the guardian had taken its three steps by then,
    whatever the program did in between.  If it had not, and there is no other
    guardian, no file is removed. *)
Theorem crash_removes_session pid uid w source workspace s w1 w2 n :
  parent ≠ 1 →
  create (guarded O true) pid uid w source workspace = (Ok s, w1) →
  isolated s = true → 0 < s_guardian s → ran O parent (s_guardian s) n w1 w2 →
  ((3 ≤ n)%nat → ∀ p, p ∈ owned s → p ≠ "" →
     p ∉ refusals O (files (crash_until O true w2 (s_guardian s))) (owned s) →
     fs_exists O (files (crash O true w2)) p = false) ∧
  ((n < 3)%nat → (∀ g, g ≠ s_guardian s → guardians w2 !! g = None) →
     files (crash O true w2) = files w2).
Proof.
  intros Hp Hc Hi Hg Hr.
  pose proof (ran_stage O parent _ _ _ _ _ Hp (create_guarded _ _ _ _ _ _ _ _ Hc Hi Hg) Hr) as Hs.
  split; intros Hn.
  - intros p Ho Hne Hk. destruct n as [|[|[|n]]]; [lia..|].
    by eapply (crash_gone O); [exact Hs|..].
  - intros Hother. apply crash_kept. intros g args st Hst.
    destruct (decide (g = s_guardian s)) as [->|Hne]; [|by rewrite Hother in Hst].
    rewrite Hs in Hst. destruct n as [|[|[|n]]]; [| | |lia]; by simplify_eq/=.
Qed.

End Crash.

Lemma crash_removes_session_witness :
  ∃ s w1, create (guarded memory_root true) 7 0 (mkWatched ["/srv"; "/srv/arch"] ∅) "/srv/arch" "/tmp/work"
          = (Ok s, w1) ∧
          fs_exists memory_root (files w1) (s_writable s) = true ∧
          let step w := move_guardian memory_root (guardian_step 7) w (s_guardian s) in
          fs_exists memory_root (files (crash memory_root true (step (step (step w1))))) (s_writable s)
          = false.
Proof.
  eexists _, _. split; [vm_compute; reflexivity|]. split; [vm_compute; reflexivity|]. cbv zeta.
  eapply (crash_removes_session memory_root 7 7 0 (mkWatched ["/srv"; "/srv/arch"] ∅) "/srv/arch"
            "/tmp/work" _ _ _ 3); [done|vm_compute; reflexivity|reflexivity|reflexivity| |lia| |done|].
  - repeat constructor.
  - unfold owned. cbn. set_solver.
  - apply (bool_decide_unpack _). vm_compute. done.
Defined.
