(* ===== verification/Sessions.v ===== *)
(** * The sessions of a program (src/package/rootfs.cpp)

    Several [Session] objects at once, as the scanner has them: [create], the
    moves, [release] and the destructor in any order, on any file system.  The
    file system is made to log the paths given to [remove_all] and the guardians
    that are stopped; what is logged is never what another session holds. *)

From S2P Require Import Prelude CxxString FsPath Rootfs.

(** ** What a session holds *)

(** A path, or a guardian. *)
Definition resource : Type := string + Z.

Definition path_resource (p : string) : list resource := if bool_decide (p = "") then [] else [inl p].

(** What a session holds, in the order [release] gives it back. *)
Definition session_resources (s : Session) : list resource :=
  path_resource (s_source s) ++ path_resource (s_writable s) ++ path_resource (s_base s) ++
  (if 0 <? s_guardian s then [inr (s_guardian s)] else []) ++ path_resource (s_workspace s).

Lemma elem_of_path_resource p r : r ∈ path_resource p ↔ p ≠ "" ∧ r = inl p.
Proof. unfold path_resource. case_bool_decide; set_solver. Qed.

Lemma elem_of_session_resources s r :
  r ∈ session_resources s ↔
  (∃ p, p ∈ owned s ∧ p ≠ "" ∧ r = inl p) ∨ (0 < s_guardian s ∧ r = inr (s_guardian s)).
Proof.
  unfold session_resources, owned. rewrite !elem_of_app, !elem_of_path_resource.
  destruct (Z.ltb_spec 0 (s_guardian s)); set_solver by lia.
Qed.

(** ** A file system that logs *)

Section Logged.
Context {W : Type} (O : RootfsOps W).

Definition logged : RootfsOps (W * list resource) :=
  let on {A} (f : W → A * W) (w : W * list resource) : A * (W * list resource) :=
    ((f w.1).1, ((f w.1).2, w.2)) in {|
    fs_symlink w := fs_symlink O w.1;
    fs_exists w := fs_exists O w.1;
    fs_btrfs w := fs_btrfs O w.1;
    fs_mkdirs w p := on (λ v, fs_mkdirs O v p) w;
    fs_remove w p := ((fs_remove O w.1 p).1, ((fs_remove O w.1 p).2, w.2 ++ [inl p]));
    fs_opendir w p := on (λ v, fs_opendir O v p) w;
    fs_close w fd := (fs_close O w.1 fd, w.2);
    fs_snap_create w a b name ro := on (λ v, fs_snap_create O v a b name ro) w;
    fs_subvol_create w a name := on (λ v, fs_subvol_create O v a name) w;
    fs_fork w args := on (λ v, fs_fork O v args) w;
    fs_stop w g := (fs_stop O w.1 g, w.2 ++ [inr g]);
    fs_next w := on (fs_next O) w;
  |}.

(** What is observed of a world: the session counter, and the processes that
    were forked and not reaped. *)
Context (obs : W → Z * gset Z).

(** The atomic counter gives every number once (it wraps after 2^64); [fork]
    gives a process id that no child has which was not reaped, and stopping a
    guardian reaps that one; nothing else changes either. *)
Class ObservedFs : Prop := {
  obs_mkdirs w p : obs (fs_mkdirs O w p).2 = obs w;
  obs_remove w p : obs (fs_remove O w p).2 = obs w;
  obs_opendir w p : obs (fs_opendir O w p).2 = obs w;
  obs_close w fd : obs (fs_close O w fd) = obs w;
  obs_snap_create w a b name ro : obs (fs_snap_create O w a b name ro).2 = obs w;
  obs_subvol_create w a name : obs (fs_subvol_create O w a name).2 = obs w;
  obs_next w :
    (fs_next O w).1 = (obs w).1 ∧ obs (fs_next O w).2 = ((obs w).1 + 1, (obs w).2);
  obs_fork w args :
    let g := (fs_fork O w args).1 in
    obs (fs_fork O w args).2 =
      (if 0 <? g then ((obs w).1, {[g]} ∪ (obs w).2) else obs w) ∧
    (0 < g → g ∉ (obs w).2);
  obs_stop w g : obs (fs_stop O w g) = ((obs w).1, (obs w).2 ∖ {[g]});
}.
Context `{!ObservedFs}.

Lemma remove_path_logged w p :
  obs (remove_path logged w p).1 = obs w.1 ∧
  (remove_path logged w p).2 = w.2 ++ path_resource p.
Proof.
  unfold remove_path, path_resource. case_bool_decide; cbn; [by rewrite app_nil_r|].
  by rewrite obs_remove.
Qed.

Lemma release_logged w s :
  obs (release logged w s).1.1 =
    (if 0 <? s_guardian s then ((obs w.1).1, (obs w.1).2 ∖ {[s_guardian s]}) else obs w.1) ∧
  (release logged w s).1.2 = w.2 ++ session_resources s.
Proof.
  unfold release, session_resources. cbn [fst].
  destruct (remove_path_logged w (s_source s)) as [E1 L1].
  set (w1 := remove_path logged w _) in *.
  destruct (remove_path_logged w1 (s_writable s)) as [E2 L2].
  set (w2 := remove_path logged w1 _) in *.
  destruct (remove_path_logged w2 (s_base s)) as [E3 L3].
  set (w3 := remove_path logged w2 _) in *.
  set (w4 := if 0 <? s_guardian s then _ else _).
  destruct (remove_path_logged w4 (s_workspace s)) as [E4 L4].
  rewrite E4, L4. unfold w4. destruct (0 <? s_guardian s); cbn.
  - rewrite obs_stop, E3, E2, E1, L3, L2, L1, <- !app_assoc. done.
  - rewrite E3, E2, E1, L3, L2, L1, <- !app_assoc. done.
Qed.

Lemma snapshot_logged w source parent name ro :
  obs (snapshot logged w source parent name ro).2.1 = obs w.1 ∧
  (snapshot logged w source parent name ro).2.2 = w.2.
Proof.
  unfold snapshot. cbn.
  destruct (fs_opendir O w.1 source) as [a w1] eqn:E1. destruct (fs_opendir O w1 parent) as [b w2] eqn:E2.
  pose proof (obs_opendir w.1 source) as H1. pose proof (obs_opendir w1 parent) as H2.
  rewrite E1 in H1. rewrite E2 in H2. cbn in *. rewrite E2.
  destruct a, b; cbn; rewrite ?obs_close, ?obs_snap_create; split; congruence.
Qed.

Lemma create_subvolume_logged w parent name :
  obs (create_subvolume logged w parent name).2.1 = obs w.1 ∧
  (create_subvolume logged w parent name).2.2 = w.2.
Proof.
  unfold create_subvolume. cbn. pose proof (obs_opendir w.1 parent) as H1.
  destruct (fs_opendir O w.1 parent) as [[a|] w1]; cbn in *; rewrite ?obs_close, ?obs_subvol_create;
    done.
Qed.

End Logged.

(** ** Names *)

Lemma ends_with_slash a : last_char a = Some slash → ∃ b, a = b +:+ "/".
Proof.
  induction a as [|c a IH]; [done|]. destruct a as [|d a].
  - intros [= ->]. by exists "".
  - intros H. destruct (IH H) as [b ->]. exists (String c b). by rewrite app_String.
Qed.

Lemma no_slash_relative n : str_elem slash n = false → is_absolute n = false.
Proof.
  intros Hn. unfold is_absolute. destruct (starts_with n "/") eqn:E; [|done].
  apply starts_with_spec in E as [t ->]. cbn in Hn. done.
Qed.

(** The filename of a path with a name appended is that name. *)
Lemma filename_append a n : str_elem slash n = false → filename (path_append a n) = n.
Proof.
  intros Hn. unfold path_append. rewrite no_slash_relative by done.
  assert (∀ b, filename (b +:+ "/" +:+ n) = n) as Hb.
  { intros b. unfold filename. rewrite <- app_assoc_str.
    rewrite (split_on_app_last slash (b +:+ "/") n (split_on slash b)) by (done || apply split_on_snoc).
    by rewrite last_snoc. }
  unfold has_filename. destruct (last_char a) as [c|] eqn:Ha.
  - case_bool_decide as Hc; cbn [negb]; [|apply Hb]. subst.
    apply ends_with_slash in Ha as [b ->]. by rewrite app_assoc_str.
  - assert (a = "") as ->.
    { destruct a as [|c a]; [done|]. exfalso. revert c Ha. induction a as [|d a IH]; [done|].
      intros c. apply IH. }
    rewrite app_empty_l. unfold filename. by rewrite split_on_single.
Qed.

Lemma app_inj_r a b t : a +:+ t = b +:+ t → a = b.
Proof.
  revert b. induction a as [|c a IH]; intros [|d b] H; [done|..].
  1,2: apply (f_equal str_length) in H; rewrite !str_length_app in H; cbn in H; lia.
  rewrite !app_String in H. injection H as -> H. f_equal. by apply IH.
Qed.

Lemma app_inj_l a s t : a +:+ s = a +:+ t → s = t.
Proof. induction a as [|c a IH]; [done|]. rewrite !app_String. intros [= H]. by apply IH. Qed.

Lemma append_inj a b n :
  has_filename a = true → has_filename b = true → str_elem slash n = false →
  path_append a n = path_append b n → a = b.
Proof.
  unfold path_append. intros -> -> Hn. rewrite no_slash_relative by done. apply app_inj_r.
Qed.

Section Names.
Context (pid uid : Z).

(** The names [create] makes up, and the fallback's. *)
Definition stamp (tag : string) (n : Z) : string :=
  ".execell-" +:+ tag +:+ "-" +:+ to_string pid +:+ "-" +:+ to_string uid +:+ "-" +:+ to_string n.
Definition tags : list string := ["source"; "session"; "base"].
Definition fallback_name : string := "rootfs-" +:+ to_string pid.

Lemma stamp_no_slash tag n : tag ∈ tags → str_elem slash (stamp tag n) = false.
Proof.
  intros Ht. unfold stamp. rewrite !str_elem_app, !(to_string_no_char slash) by done.
  unfold tags in Ht. rewrite !elem_of_cons, elem_of_nil in Ht.
  by destruct Ht as [->|[->|[->|[]]]].
Qed.

Lemma fallback_no_slash : str_elem slash fallback_name = false.
Proof. unfold fallback_name. rewrite str_elem_app, to_string_no_char; done. Qed.

Lemma stamp_inj tag tag' n n' : tag ∈ tags → tag' ∈ tags → stamp tag n = stamp tag' n' → n = n'.
Proof.
  intros Ht Ht' H. unfold stamp in H. apply app_inj_l in H.
  unfold tags in *. rewrite !elem_of_cons, elem_of_nil in Ht, Ht'.
  destruct Ht as [->|[->|[->|[]]]], Ht' as [->|[->|[->|[]]]]; try discriminate H;
    do 6 apply app_inj_l in H; by apply (inj pretty) in H.
Qed.

(** A workspace that has a name of its own. *)
Record good_workspace (workspace : string) : Prop := {
  gw_filename : has_filename workspace = true;
  gw_stamp : ∀ tag n, filename workspace ≠ stamp tag n;
  gw_fallback : filename workspace ≠ fallback_name;
}.

(** What sessions of workspace [workspace] hold when [o] is observed. *)
Inductive issued (o : Z * gset Z) (workspace : string) : resource → Prop :=
| issued_workspace : good_workspace workspace → issued o workspace (inl workspace)
| issued_fallback :
    good_workspace workspace → issued o workspace (inl (path_append workspace fallback_name))
| issued_stamp parent tag n :
    tag ∈ tags → n < o.1 → issued o workspace (inl (path_append parent (stamp tag n)))
| issued_guardian g : g ∈ o.2 → issued o workspace (inr g).

(** What [create] may use when [o] is observed before it. *)
Inductive fresh (o : Z * gset Z) (workspace : string) : resource → Prop :=
| fresh_workspace : good_workspace workspace → fresh o workspace (inl workspace)
| fresh_fallback :
    good_workspace workspace → fresh o workspace (inl (path_append workspace fallback_name))
| fresh_stamp parent tag :
    tag ∈ tags → fresh o workspace (inl (path_append parent (stamp tag o.1)))
| fresh_guardian g : g ∉ o.2 → fresh o workspace (inr g).

Lemma stamp_not_fallback tag n : stamp tag n ≠ fallback_name.
Proof. done. Qed.

(** Nothing that was issued is fresh for another workspace. *)
Lemma issued_not_fresh o workspace workspace' r :
  issued o workspace r → fresh o workspace' r → workspace ≠ workspace' → False.
Proof.
  intros Hi Hf Hne.
  assert (∀ a, filename (path_append a fallback_name) = fallback_name) as Ef
    by (intros; apply filename_append, fallback_no_slash).
  assert (∀ a tag n, tag ∈ tags → filename (path_append a (stamp tag n)) = stamp tag n) as Es
    by (intros; by apply filename_append, stamp_no_slash).
  destruct Hi as [Hw|Hw|parent tag n Ht Hn|g Hg]; inversion Hf as [Hw'|Hw' E|parent' tag' Ht' E|g' Hg'];
    subst; try done.
  - destruct Hw as [_ _ Hb]. by rewrite Ef in Hb.
  - destruct Hw as [_ Hb _]. eapply Hb. by apply Es.
  - destruct Hw' as [_ _ Hb]. by rewrite Ef in Hb.
  - eapply append_inj in E; [by destruct Hne|apply Hw'|apply Hw|apply fallback_no_slash].
  - apply (f_equal filename) in E. by rewrite Ef, Es in E.
  - destruct Hw' as [_ Hb _]. eapply Hb. by apply Es.
  - apply (f_equal filename) in E. by rewrite Ef, Es in E.
  - apply (f_equal filename) in E. rewrite !Es in E by done. apply stamp_inj in E; [lia|done..].
Qed.

Lemma issued_mono o o' workspace r :
  o.1 ≤ o'.1 → (∀ g, r = inr g → g ∈ o.2 → g ∈ o'.2) → issued o workspace r → issued o' workspace r.
Proof.
  intros Hn Hg. destruct 1; [by constructor|by constructor|constructor; [done|lia]|].
  constructor. by eapply Hg.
Qed.

End Names.

(** ** What [create] takes *)

Section Create.
Context {W : Type} (O : RootfsOps W) (obs : W → Z * gset Z) `{!ObservedFs O obs} (pid uid : Z).
Implicit Types w : W * list resource.

(** What an operation that makes a session of [workspace] does: it gives back
    only what is fresh, and holds in the end what is fresh and issued by then. *)
Record outcome w w' (workspace : string) (held : list resource) : Prop := {
  out_counter : (obs w.1).1 ≤ (obs w'.1).1;
  out_children : (obs w.1).2 ⊆ (obs w'.1).2;
  out_held : Forall (λ r, fresh pid uid (obs w.1) workspace r ∧ issued pid uid (obs w'.1) workspace r) held;
  out_given : ∃ given, w'.2 = w.2 ++ given ∧ Forall (fresh pid uid (obs w.1) workspace) given;
}.

(** The guardian of the new session. *)
Lemma launch_outcome w v workspace held g v' source writable base workspace' :
  outcome w v workspace held →
  launch_guardian (logged O) v source writable base workspace' = (g, v') →
  outcome w v' workspace (held ++ if 0 <? g then [inr g] else []).
Proof.
  intros [Hc Hch Hh (given & Hg & Hf)] Hl. unfold launch_guardian in Hl. cbn in Hl.
  pose proof (obs_fork O obs v.1 (guardian_arguments source writable base workspace')) as [Ho Hn]. cbn zeta in Ho, Hn.
  injection Hl as Hgv <-. rewrite Hgv in *.
  assert (∀ r, issued pid uid (obs v.1) workspace r →
    issued pid uid (obs (fs_fork O v.1 (guardian_arguments source writable base workspace')).2) workspace r) as Hmono.
  { intros r. apply issued_mono; rewrite Ho; destruct (0 <? g); cbn; try done; set_solver. }
  split; cbn [fst snd].
  - rewrite Ho. by destruct (0 <? g).
  - rewrite Ho. destruct (0 <? g); cbn; set_solver.
  - apply Forall_app. split; [eapply Forall_impl; [exact Hh|]; intros r [? ?]; auto|].
    destruct (Z.ltb_spec 0 g); [|done]. constructor; [|done]. split.
    + constructor. intros Hin. apply Hn; [done|]. by apply Hch.
    + constructor. rewrite Ho. cbn. set_solver.
  - by exists given.
Qed.

(** A session under construction is destroyed. *)
Lemma abandon_outcome w v workspace held s :
  outcome w v workspace held → s_guardian s = -1 →
  (∀ r, r ∈ session_resources s → r ∈ held) → outcome w (destroy (logged O) v s) workspace [].
Proof.
  intros [Hc Hch Hh (given & Hg & Hf)] Hs Hr. destruct (release_logged O obs v s) as [Ho Hl].
  rewrite Hs in Ho. change (0 <? -1) with false in Ho. cbv iota in Ho.
  unfold destroy. split; rewrite ?Ho; try done. exists (given ++ session_resources s). split.
  - by rewrite Hl, Hg, app_assoc.
  - apply Forall_app. split; [done|]. apply Forall_forall. intros r Hin%Hr.
    rewrite Forall_forall in Hh. by apply Hh.
Qed.

(** Steps that leave what is observed and the log alone. *)
Lemma outcome_same w v v' workspace held :
  outcome w v workspace held → obs v'.1 = obs v.1 → v'.2 = v.2 → outcome w v' workspace held.
Proof. intros [Hc Hch Hh Hg] Ho Hl. by split; rewrite ?Ho, ?Hl. Qed.

Lemma remove_outcome w v workspace held p :
  outcome w v workspace held → (p ≠ "" → inl p ∈ held) →
  outcome w (remove_path (logged O) v p) workspace held.
Proof.
  intros [Hc Hch Hh (given & Hg & Hf)] Hp. destruct (remove_path_logged O obs v p) as [Ho Hl].
  split; rewrite ?Ho; try done. exists (given ++ path_resource p). split.
  - by rewrite Hl, Hg, app_assoc.
  - apply Forall_app. split; [done|]. apply Forall_forall. intros r [Hne ->]%elem_of_path_resource.
    rewrite Forall_forall in Hh. by apply Hh, Hp.
Qed.

Lemma outcome_fewer w v workspace held held' :
  outcome w v workspace held → (∀ r, r ∈ held' → r ∈ held) → outcome w v workspace held'.
Proof.
  intros [Hc Hch Hh Hg] Hr. split; try done. rewrite Forall_forall in *. auto.
Qed.

(** Paths that are fresh and issued whatever the state. *)
Lemma outcome_own w v workspace held :
  good_workspace pid uid workspace → outcome w v workspace held →
  outcome w v workspace (inl workspace :: inl (path_append workspace (fallback_name pid)) :: held).
Proof.
  intros Hw [Hc Hch Hh Hg]. split; try done.
  constructor; [by split; constructor|]. constructor; [by split; constructor|done].
Qed.

(** The result of an operation that makes a session. *)
Definition makes w (r : expected Session string * (W * list resource)) (workspace : string) : Prop :=
  match r with
  | (Ok s, w') => s_workspace s = workspace ∧ outcome w w' workspace (session_resources s)
  | (Err _, w') => outcome w w' workspace []
  end.

(** Members of a session from members of what may be held. *)
Lemma session_resources_in s held :
  (∀ p, p ∈ owned s → p ≠ "" → inl p ∈ held) →
  ∀ r, r ∈ session_resources s → r ∈ held ++ if 0 <? s_guardian s then [inr (s_guardian s)] else [].
Proof.
  intros Hp r. rewrite elem_of_session_resources, elem_of_app.
  intros [(p & Hin & Hne & ->)|[Hg ->]]; [left; by apply Hp|right].
  rewrite (proj2 (Z.ltb_lt _ _)) by done. by left.
Qed.

Lemma fallback_outcome w v workspace held base guardian error :
  good_workspace pid uid workspace → outcome w v workspace held → (base ≠ "" → inl base ∈ held) →
  makes w (fallback (logged O) pid v workspace base guardian error) workspace.
Proof.
  intros Hw Hv Hb. unfold fallback. fold (fallback_name pid).
  set (writable := path_append workspace (fallback_name pid)).
  destruct (fs_mkdirs (logged O) v writable) as [e v1] eqn:Em.
  apply outcome_own in Hv; [|done]. fold writable in Hv.
  assert (outcome w v1 workspace (inl workspace :: inl writable :: held)) as Hv1.
  { injection Em as _ <-. eapply outcome_same; [exact Hv| |done]. cbn. by rewrite (obs_mkdirs O obs). }
  assert (∀ g m p, p ∈ owned (mkSession "" writable workspace base g m) → p ≠ "" →
    (inl p : resource) ∈ inl workspace :: inl writable :: held) as Hin.
  { intros g m p. unfold owned. cbn. rewrite !elem_of_cons, elem_of_nil.
    intros [->|[->|[->|[->|[]]]]] Hne; [done|auto..]. }
  destruct e as [m|].
  - eapply abandon_outcome; [exact Hv1|done|]. intros r Hr.
    apply session_resources_in with (held := inl workspace :: inl writable :: held) in Hr; [|apply Hin].
    cbn [s_guardian] in Hr. by rewrite app_nil_r in Hr.
  - destruct guardian.
    + destruct (launch_guardian _ v1 _ _ _ _) as [g v2] eqn:El. split; [done|].
      eapply outcome_fewer; [by eapply launch_outcome|]. apply session_resources_in, Hin.
    + split; [done|]. eapply outcome_fewer; [exact Hv1|]. intros r Hr.
      apply session_resources_in with (held := inl workspace :: inl writable :: held) in Hr; [|apply Hin].
      cbn [s_guardian] in Hr. by rewrite app_nil_r in Hr.
Qed.

(** [create] holds, and gives back on its errors, what is its own. *)
Lemma create_outcome w source workspace :
  good_workspace pid uid workspace →
  makes w (create (logged O) pid uid w source workspace) workspace.
Proof.
  intros Hw. assert (outcome w w workspace []) as H0.
  { split; [done..|constructor|]. exists []. by rewrite app_nil_r. }
  unfold create. destruct (_ || _); [done|].
  destruct (fs_mkdirs (logged O) w workspace) as [e w1] eqn:Em.
  assert (outcome w w1 workspace [] ∧ obs w1.1 = obs w.1) as [H1 E1].
  { injection Em as _ <-. split; [|cbn; by rewrite (obs_mkdirs O obs)].
    eapply outcome_same; [exact H0| |done]. cbn. by rewrite (obs_mkdirs O obs). }
  destruct e as [m|]; [done|]. clear Em.
  destruct (_ || _); [by eapply fallback_outcome|].
  destruct (fs_next (logged O) w1) as [n w2] eqn:En.
  assert (n = (obs w.1).1 ∧ obs w2.1 = ((obs w.1).1 + 1, (obs w.1).2) ∧ w2.2 = w1.2) as (-> & E2 & L2).
  { destruct (obs_next O obs w1.1) as [Hn Ho]. injection En as <- <-. cbn. by rewrite Hn, Ho, E1. }
  clear En. set (n := (obs w.1).1) in *. cbv zeta.
  set (parent := if bool_decide (source = "") then workspace else parent_path source).
  set (base := if bool_decide (source = "") then _ else "").
  set (source_ := path_append parent _). set (writable := path_append parent _).
  set (held := path_resource base ++ [inl source_; inl writable]).
  assert (outcome w w2 workspace held) as H2.
  { assert (∀ p tag, tag ∈ tags →
      fresh pid uid (obs w.1) workspace (inl (path_append p (stamp pid uid tag n))) ∧
      issued pid uid (obs w2.1) workspace (inl (path_append p (stamp pid uid tag n)))) as Hstamp.
    { intros p tag Ht. split; [by constructor|]. constructor; [done|]. rewrite E2. cbn. lia. }
    assert ("source" ∈ tags ∧ "session" ∈ tags ∧ "base" ∈ tags) as (T1 & T2 & T3)
      by (unfold tags; set_solver).
    split.
    - rewrite E2. cbn. fold n. lia.
    - by rewrite E2.
    - apply Forall_app. split; [|constructor; [exact (Hstamp parent _ T1)|constructor; [exact (Hstamp parent _ T2)|done]]].
      apply Forall_forall. intros r [Hb ->]%elem_of_path_resource. revert Hb. unfold base.
      destruct (bool_decide (source = "")); [|done]. intros _. exact (Hstamp workspace _ T3).
    - destruct H1 as [_ _ _ (given & Hg & Hf)]. exists given. by rewrite L2. }
  assert (∀ g m p, p ∈ owned (mkSession source_ writable workspace base g m) → p ≠ "" →
    (inl p : resource) ∈ inl workspace :: inl (path_append workspace (fallback_name pid)) :: held) as Hin.
  { intros g m p. unfold owned, held. cbn. rewrite !elem_of_cons, elem_of_nil, elem_of_app.
    rewrite elem_of_path_resource, !elem_of_cons.
    intros [->|[->|[->|[->|[]]]]] Hne; auto 8. }
  assert (∀ v p q e, outcome w v workspace held → p ∈ [source_; ""] → q ∈ [writable; ""] →
    makes w (abandon (logged O) v (mkSession p q workspace base (-1) degraded) e) workspace) as Habandon.
  { intros v p q e Hv Hp Hq. eapply abandon_outcome; [by apply outcome_own|done|]. intros r Hr.
    apply session_resources_in with (held :=
      inl workspace :: inl (path_append workspace (fallback_name pid)) :: held) in Hr.
    - cbn [s_guardian] in Hr. by rewrite app_nil_r in Hr.
    - intros x. unfold owned. cbn. intros Hx Hne. apply (Hin (-1) degraded); [|done]. unfold owned. cbn.
      rewrite !elem_of_cons, elem_of_nil in *. naive_solver. }
  destruct (if bool_decide (source = "") then create_subvolume _ _ _ _ else _) as [made w3] eqn:E3.
  assert (outcome w w3 workspace held) as H3.
  { destruct (bool_decide (source = "")); [|by simplify_eq].
    destruct (create_subvolume_logged O obs w2 workspace (filename base)) as [Ho Hl].
    rewrite E3 in Ho, Hl. by eapply outcome_same. }
  clear E3. destruct made; cbn [negb]; [|apply Habandon; set_solver].
  destruct (_ || _); [apply Habandon; set_solver|].
  destruct (snapshot (logged O) w3 _ _ _ true) as [first w4] eqn:E4.
  assert (outcome w w4 workspace held) as H4.
  { edestruct (snapshot_logged O obs w3) as [Ho Hl]. rewrite E4 in Ho, Hl. by eapply outcome_same. }
  clear E4. destruct (if first then snapshot _ _ _ _ _ _ else _) as [second w5] eqn:E5.
  assert (outcome w w5 workspace held) as H5.
  { destruct first; [|by simplify_eq].
    edestruct (snapshot_logged O obs w4) as [Ho Hl]. rewrite E5 in Ho, Hl. by eapply outcome_same. }
  clear E5. destruct second; cbn [negb].
  - destruct (launch_guardian _ w5 _ _ _ _) as [g w6] eqn:El. split; [done|].
    eapply outcome_fewer; [eapply launch_outcome; [by apply outcome_own|exact El]|].
    apply session_resources_in, Hin.
  - assert (base ≠ "" → (inl base : resource) ∈ held) as Hb.
    { intros Hb. apply elem_of_app. left. by apply elem_of_path_resource. }
    eapply fallback_outcome; [done| |exact Hb].
    apply remove_outcome; [apply remove_outcome; [apply remove_outcome; [done|exact Hb]|]|];
      intros _; apply elem_of_app; right; set_solver.
Qed.

End Create.

(** ** The sessions of a program *)

Section System.
Context {W : Type} (O : RootfsOps W) (obs : W → Z * gset Z) (pid uid : Z).

(** The objects by name, and the world with the log. *)
Definition Sessions : Type := gmap nat Session * (W * list resource).

(** A workspace for a new session: with a name of its own, and not that of a
    session there is. *)
Definition free_workspace (sessions : gmap nat Session) (workspace : string) : Prop :=
  good_workspace pid uid workspace ∧ ∀ i s, sessions !! i = Some s → s_workspace s ≠ workspace.

(** What is done with the object [i]; [create] makes it or fails.  Between two
    operations the files change, processes are forked and others reaped, but not
    those that are guardians. *)
Inductive session_step (i : nat) : Sessions → Sessions → Prop :=
| session_create sessions w source workspace s w' :
    sessions !! i = None → free_workspace sessions workspace →
    create (logged O) pid uid w source workspace = (Ok s, w') →
    session_step i (sessions, w) (<[i := s]> sessions, w')
| session_fails sessions w source workspace e w' :
    sessions !! i = None → free_workspace sessions workspace →
    create (logged O) pid uid w source workspace = (Err e, w') →
    session_step i (sessions, w) (sessions, w')
| session_release sessions w s :
    sessions !! i = Some s →
    session_step i (sessions, w)
      (let '(w', s') := release (logged O) w s in (<[i := s']> sessions, w'))
| session_construct sessions w j other :
    sessions !! i = None → sessions !! j = Some other →
    session_step i (sessions, w)
      (let '(s, other') := move_construct other in (<[i := s]> (<[j := other']> sessions), w))
| session_assign sessions w j s other :
    i ≠ j → sessions !! i = Some s → sessions !! j = Some other →
    session_step i (sessions, w)
      (let '(w', s', other') := move_assign (logged O) w s other in
       (<[i := s']> (<[j := other']> sessions), w'))
| session_destroy sessions w s :
    sessions !! i = Some s →
    session_step i (sessions, w) (delete i sessions, destroy (logged O) w s)
| session_elsewhere sessions w v :
    (obs w.1).1 ≤ (obs v).1 →
    (∀ j s, sessions !! j = Some s → s_guardian s ∈ (obs w.1).2 → s_guardian s ∈ (obs v).2) →
    session_step i (sessions, w) (sessions, (v, w.2)).

(** What is held was issued, and by one session only. *)
Record sessions_wf (x : Sessions) : Prop := {
  wf_issued i s r :
    x.1 !! i = Some s → r ∈ session_resources s → issued pid uid (obs x.2.1) (s_workspace s) r;
  wf_apart i j s t r :
    i ≠ j → x.1 !! i = Some s → x.1 !! j = Some t →
    r ∈ session_resources s → r ∉ session_resources t;
}.

(** A step accounts for what it gives back: it is logged, it is not held by
    another session, and whatever was held still is, or was given back. *)
Definition accounts (i : nat) (x x' : Sessions) : Prop :=
  ∃ given, x'.2.2 = x.2.2 ++ given ∧
    (∀ j s r, j ≠ i → x.1 !! j = Some s → r ∈ given → r ∉ session_resources s) ∧
    (∀ j s r, x.1 !! j = Some s → r ∈ session_resources s →
       r ∈ given ∨ ∃ k t, x'.1 !! k = Some t ∧ r ∈ session_resources t).

Context `{!ObservedFs O obs}.

(** Sessions that hold less, or hold what another held. *)
Lemma sessions_wf_fewer sessions sessions' w w' (f : nat → nat) :
  sessions_wf (sessions, w) →
  (obs w.1).1 ≤ (obs w'.1).1 →
  (∀ i s', sessions' !! i = Some s' → session_resources s' = [] ∨
     ∃ s, sessions !! f i = Some s ∧ session_resources s' = session_resources s ∧
          s_workspace s' = s_workspace s ∧ (0 < s_guardian s → s_guardian s ∈ (obs w.1).2 →
            s_guardian s ∈ (obs w'.1).2)) →
  (∀ i j s t, sessions' !! i = Some s → sessions' !! j = Some t →
     session_resources s ≠ [] → session_resources t ≠ [] → f i = f j → i = j) →
  sessions_wf (sessions', w').
Proof.
  intros [Hi Ha] Hc Hs Hf. split; cbn in *.
  - intros i s' r Hs' Hr. destruct (Hs _ _ Hs') as [E|(s & Hsi & E & -> & Hg)].
    { rewrite E in Hr. by apply elem_of_nil in Hr. }
    rewrite E in Hr. eapply issued_mono; [exact Hc| |by eapply Hi].
    intros g -> Hin. apply elem_of_session_resources in Hr as [(p & _ & _ & [=])|[Hg0 [= ->]]]. auto.
  - intros i j s t r Hij Hsi Htj Hr Hr'.
    destruct (Hs _ _ Hsi) as [E|(s1 & Hs1 & E & _)]; rewrite ?E in Hr; [by apply elem_of_nil in Hr|].
    destruct (Hs _ _ Htj) as [E'|(t1 & Ht1 & E' & _)]; rewrite ?E' in Hr'; [by apply elem_of_nil in Hr'|].
    refine (Ha (f i) (f j) s1 t1 r _ Hs1 Ht1 Hr Hr').
    intros Hfij. apply Hij. eapply Hf; [done|done|..|done]; rewrite ?E, ?E'; intros H0.
    + rewrite H0 in Hr. by apply elem_of_nil in Hr.
    + rewrite H0 in Hr'. by apply elem_of_nil in Hr'.
Qed.

(** Releasing a session leaves the guardians of the others. *)
Lemma release_others sessions w i s j t :
  sessions_wf (sessions, w) → sessions !! i = Some s → sessions !! j = Some t → i ≠ j →
  0 < s_guardian t → s_guardian t ∈ (obs w.1).2 →
  s_guardian t ∈ (obs (release (logged O) w s).1.1).2.
Proof.
  intros [_ Ha] Hi Hj Hij Ht Hin. destruct (release_logged O obs w s) as [-> _].
  destruct (Z.ltb_spec 0 (s_guardian s)) as [Hs|]; [|done]. cbn. apply elem_of_difference.
  split; [done|]. rewrite elem_of_singleton. intros E.
  apply (Ha i j s t (inr (s_guardian s)) Hij Hi Hj); apply elem_of_session_resources; right; [done|].
  by rewrite E.
Qed.

Lemma release_counter w s : (obs w.1).1 ≤ (obs (release (logged O) w s).1.1).1.
Proof.
  destruct (release_logged O obs w s) as [-> _]. by destruct (0 <? s_guardian s).
Qed.

Lemma create_step i sessions w source workspace :
  sessions_wf (sessions, w) → sessions !! i = None → free_workspace sessions workspace →
  let x' := match create (logged O) pid uid w source workspace with
            | (Ok s, w') => (<[i := s]> sessions, w')
            | (Err _, w') => (sessions, w')
            end in
  sessions_wf x' ∧ accounts i (sessions, w) x'.
Proof.
  intros [Hi Ha] Hnone [Hgood Hfree]. cbn in Hi, Ha.
  pose proof (create_outcome O obs pid uid w source workspace Hgood) as Hm. unfold makes in Hm.
  assert (∀ w' held, outcome obs pid uid w w' workspace held →
    (∀ j t r, sessions !! j = Some t → r ∈ session_resources t →
       issued pid uid (obs w'.1) (s_workspace t) r ∧ r ∉ held) ∧
    ∃ given, w'.2 = w.2 ++ given ∧
      ∀ j t r, sessions !! j = Some t → r ∈ given → r ∉ session_resources t) as Hold.
  { intros w' held [Hc Hch Hh (given & Hg & Hf)]. rewrite Forall_forall in Hh, Hf. split.
    - intros j t r Hj Hr. pose proof (Hi _ _ _ Hj Hr) as Hr'. split.
      + eapply issued_mono; [exact Hc| |exact Hr']. set_solver.
      + intros Hin. eapply issued_not_fresh; [exact Hr'|by apply Hh|by eapply Hfree].
    - exists given. split; [done|]. intros j t r Hj Hin Hr.
      eapply issued_not_fresh; [by eapply Hi|by apply Hf|by eapply Hfree]. }
  destruct (create (logged O) pid uid w source workspace) as [[s|e] w'].
  - destruct Hm as [Hws Ho]. destruct (Hold _ _ Ho) as [Hothers (given & Hg & Hd)].
    destruct Ho as [_ _ Hh _]. rewrite Forall_forall in Hh. cbv zeta. split; [split; cbn|].
    + intros j t r [[<- <-]|[Hne Hj]]%lookup_insert_Some Hr; [rewrite Hws; by apply Hh|by eapply Hothers].
    + intros j k t t' r Hjk [[<- <-]|[Hne Hj]]%lookup_insert_Some [[<- <-]|[Hne' Hk]]%lookup_insert_Some Hr Hr'.
      * done.
      * by eapply (proj2 (Hothers _ _ _ Hk Hr')).
      * by eapply (proj2 (Hothers _ _ _ Hj Hr)).
      * by eapply (Ha j k).
    + exists given. split_and!; [done|intros; by eapply Hd|].
      intros j t r Hj Hr. right. exists j, t. cbn in *. by rewrite lookup_insert_ne by congruence.
  - destruct (Hold _ _ Hm) as [Hothers (given & Hg & Hd)]. cbv zeta. split; [split; cbn|].
    + intros. by eapply Hothers.
    + done.
    + exists given. split_and!; [done|intros; by eapply Hd|]. intros j t r Hj Hr. right. by exists j, t.
Qed.

(** A released, moved-from or destroyed session holds nothing. *)
Lemma released_resources w s : session_resources (release (logged O) w s).2 = [].
Proof. unfold release, session_resources. cbn. destruct (Z.ltb_spec 0 (s_guardian s)); [done|]. by rewrite (proj2 (Z.ltb_ge _ _)). Qed.

Lemma session_step_wf i x x' :
  sessions_wf x → session_step i x x' → sessions_wf x' ∧ accounts i x x'.
Proof.
  intros Hwf Hs. destruct Hs as [sessions w source workspace s w' Hi Hf Hc
    |sessions w source workspace e w' Hi Hf Hc|sessions w s Hi|sessions w j other Hi Hj
    |sessions w j s other Hij Hi Hj|sessions w s Hi|sessions w v Hc Hg].
  - pose proof (create_step i sessions w source workspace Hwf Hi Hf) as H. by rewrite Hc in H.
  - pose proof (create_step i sessions w source workspace Hwf Hi Hf) as H. by rewrite Hc in H.
  - pose proof (released_resources w s) as Hr. destruct (release_logged O obs w s) as [_ Hl].
    pose proof (release_others sessions w i s) as Hot. pose proof (release_counter w s) as Hct.
    destruct (release (logged O) w s) as [w' s'] eqn:E. cbn in *. split.
    + eapply (sessions_wf_fewer sessions _ w w' id); [done|done| |by intros].
      intros k t [[<- <-]|[Hne Hk]]%lookup_insert_Some; [by left|right]. exists t. split_and!; [done..|].
      intros. by eapply Hot.
    + exists (session_resources s). split_and!; [done| |].
      * intros j t r Hji Hj Hin. by apply (wf_apart _ Hwf i j s t r (not_eq_sym Hji)).
      * intros j t r Hj Hin. destruct (decide (j = i)) as [->|Hne]; [left; by simplify_eq/=|right].
        exists j, t. cbn in *. by rewrite lookup_insert_ne.
  - cbn [move_construct]. split.
    + eapply (sessions_wf_fewer sessions _ w w (λ k, if decide (k = i) then j else k)); [done|done|..].
      * intros k t [[<- <-]|[Hne [[<- <-]|[Hne' Hk]]%lookup_insert_Some]]%lookup_insert_Some;
          [right|by left|right].
        -- rewrite decide_True by done. exists other. by split_and!.
        -- rewrite decide_False by done. exists t. by split_and!.
      * intros k l t u [[<- <-]|[Hne [[<- <-]|[Hne' Hk]]%lookup_insert_Some]]%lookup_insert_Some
          [[<- <-]|[Hne2 [[<- <-]|[Hne2' Hl]]%lookup_insert_Some]]%lookup_insert_Some Ht Hu;
          repeat case_decide; try done; congruence.
    + exists []. split_and!; [cbn; by rewrite app_nil_r|by intros j' t r _ _ Hin%elem_of_nil|].
      intros k t r Hk Hr. right. destruct (decide (k = j)) as [->|Hne].
      * eexists i, _. cbn in *. rewrite lookup_insert_eq. split; [done|]. by simplify_eq.
      * exists k, t. cbn in *. rewrite !lookup_insert_ne by congruence. done.
  - pose proof (release_others sessions w i s) as Hot. pose proof (release_counter w s) as Hct.
    destruct (release_logged O obs w s) as [_ Hl]. unfold move_assign.
    destruct (release (logged O) w s) as [w' s'] eqn:E. cbn [fst snd] in *. split.
    + eapply (sessions_wf_fewer sessions _ w w' (λ k, if decide (k = i) then j else k)); [done|done|..].
      * intros k t [[<- <-]|[Hne [[<- <-]|[Hne' Hk]]%lookup_insert_Some]]%lookup_insert_Some;
          [right|by left|right].
        -- rewrite decide_True by done. exists other. split_and!; [done..|]. intros. by eapply Hot.
        -- rewrite decide_False by done. exists t. split_and!; [done..|]. intros. by eapply Hot.
      * intros k l t u [[<- <-]|[Hne [[<- <-]|[Hne' Hk]]%lookup_insert_Some]]%lookup_insert_Some
          [[<- <-]|[Hne2 [[<- <-]|[Hne2' Hl']]%lookup_insert_Some]]%lookup_insert_Some Ht Hu;
          repeat case_decide; try done; congruence.
    + exists (session_resources s). split_and!; [done| |].
      * intros k t r Hki Hk Hin. by apply (wf_apart _ Hwf i k s t r (not_eq_sym Hki)).
      * intros k t r Hk Hr. destruct (decide (k = i)) as [->|Hne]; [left; by simplify_eq/=|right].
        destruct (decide (k = j)) as [->|Hne'].
        -- cbn in Hk. assert (t = other) as -> by congruence. eexists i, _. cbn [fst].
           rewrite lookup_insert_eq. by split.
        -- exists k, t. cbn in *. by rewrite !lookup_insert_ne by congruence.
  - pose proof (release_others sessions w i s) as Hot. pose proof (release_counter w s) as Hct.
    destruct (release_logged O obs w s) as [_ Hl]. unfold destroy. split.
    + eapply (sessions_wf_fewer sessions _ w _ id); [done|done| |by intros].
      intros k t [Hne Hk]%lookup_delete_Some. right. exists t. split_and!; [done..|]. intros. by eapply Hot.
    + exists (session_resources s). split_and!; [done| |].
      * intros k t r Hki Hk Hin. by apply (wf_apart _ Hwf i k s t r (not_eq_sym Hki)).
      * intros k t r Hk Hr. destruct (decide (k = i)) as [->|Hne]; [left; by simplify_eq/=|right].
        exists k, t. cbn in *. by rewrite lookup_delete_ne.
  - split.
    + eapply (sessions_wf_fewer sessions _ w _ id); [done|done| |by intros].
      intros k t Hk. right. exists t. split_and!; [done..|]. intros _. by eapply Hg.
    + exists []. split_and!; [cbn; by rewrite app_nil_r|by intros j' t r _ _ Hin%elem_of_nil|].
      intros k t r Hk Hr. right. by exists k, t.
Qed.

(** C21: whatever is done with the sessions of a program ([create], which takes
    a workspace that no other session has, moves, releases and destructions), an
    operation on one of them gives to [remove_all], and stops, only what no
    other session holds (paths are compared as texts); and whatever a session held is still held by a session
    or has been given back by that operation. *)
Theorem sessions_remove_their_own w x i x' :
  rtc (λ y y', ∃ j, session_step j y y') (∅, w) x → session_step i x x' →
  ∃ given, x'.2.2 = x.2.2 ++ given ∧
    (∀ j s r, j ≠ i → x.1 !! j = Some s → r ∈ given → r ∉ session_resources s) ∧
    (∀ j s r, x.1 !! j = Some s → r ∈ session_resources s →
       r ∈ given ∨ ∃ k t, x'.1 !! k = Some t ∧ r ∈ session_resources t).
Proof.
  intros Hr Hs. assert (sessions_wf x) as Hwf; [|by apply (session_step_wf i x x')].
  assert (sessions_wf (∅, w)) as H0 by by split.
  remember (∅, w) as y eqn:E. clear E.
  induction Hr as [y|y z x [j Hj] _ IH]; [done|]. apply IH; [done|]. by eapply session_step_wf.
Qed.

End System.

(** A session that was moved from gives nothing back: the session [create]
    returns by value keeps its directories when the local variable is
    destroyed. *)
Lemma moved_session_inert {W} (O : RootfsOps W) w s :
  destroy O w (move_construct s).2 = w ∧ isolated (move_construct s).2 = isolated s.
Proof. done. Qed.

(** ** Two sessions of one source *)

(** The paths that exist, all on Btrfs, the session counter, and the processes
    that were not reaped: there are two numbers for them. *)
Definition counting_root : RootfsOps (list string * (Z * gset Z)) := {|
  fs_symlink _ _ := false;
  fs_exists w p := bool_decide (p ∈ w.1);
  fs_btrfs _ _ := true;
  fs_mkdirs w p := (None, (p :: w.1, w.2));
  fs_remove w p := (None, (filter (.≠ p) w.1, w.2));
  fs_opendir w p := (if bool_decide (p ∈ w.1) then Some 3 else None, w);
  fs_close w _ := w;
  fs_snap_create w _ _ name _ := (true, (("/srv/" +:+ name) :: w.1, w.2));
  fs_subvol_create w _ name := (true, w);
  fs_fork w _ :=
    let g := if bool_decide (100 ∈ w.2.2) then if bool_decide (101 ∈ w.2.2) then -1 else 101 else 100 in
    (g, if 0 <? g then (w.1, (w.2.1, {[g]} ∪ w.2.2)) else w);
  fs_stop w g := (w.1, (w.2.1, w.2.2 ∖ {[g]}));
  fs_next w := (w.2.1, (w.1, (w.2.1 + 1, w.2.2)));
|}.

#[export] Instance counting_root_observed : ObservedFs counting_root snd.
Proof.
  split; try done. intros [paths [n pids]] args. cbn.
  destruct (bool_decide_reflect (100 ∈ pids)); [destruct (bool_decide_reflect (101 ∈ pids))|];
    cbn; by split.
Qed.

Lemma temporary_workspace pid uid : good_workspace pid uid "/tmp/a" ∧ good_workspace pid uid "/tmp/b".
Proof. by split; split. Qed.

Definition two_sessions_world : list string * (Z * gset Z) := (["/srv"; "/srv/arch"], (0, ∅)).

Lemma sessions_remove_their_own_witness :
  let C w := create (logged counting_root) 7 0 w "/srv/arch" in
  ∃ s1 w1 s2 w2, C (two_sessions_world, []) "/tmp/a" = (Ok s1, w1) ∧ C w1 "/tmp/b" = (Ok s2, w2) ∧
    ∃ given, (destroy (logged counting_root) w2 s1).2 = w2.2 ++ given ∧
      ∀ r, r ∈ given → r ∉ session_resources s2.
Proof.
  intros C.
  destruct (C (two_sessions_world, []) "/tmp/a") as [[s1|] w1] eqn:E1; [|discriminate (f_equal fst E1)].
  destruct (C w1 "/tmp/b") as [[s2|] w2] eqn:E2;
    [|exfalso; injection E1 as <- <-; discriminate (f_equal fst E2)].
  exists s1, w1, s2, w2. split; [done|]. split; [done|].
  destruct (temporary_workspace 7 0) as [Ha Hb].
  assert (s_workspace s1 = "/tmp/a") as Hw1 by by injection E1 as <- _.
  pose proof (sessions_remove_their_own counting_root snd 7 0 (two_sessions_world, [])
    (<[1%nat := s2]> (<[0%nat := s1]> ∅), w2) 0%nat
    (delete 0%nat (<[1%nat := s2]> (<[0%nat := s1]> ∅)), destroy (logged counting_root) w2 s1))
    as (given & Hg & Hd & _).
  - eapply rtc_l; [exists 0%nat; eapply session_create; [done| |exact E1]|
      eapply rtc_once; exists 1%nat; eapply session_create; [done| |exact E2]].
    + split; [done|]. intros i s Hi. by rewrite lookup_empty in Hi.
    + split; [done|]. intros i s [[<- <-]|[_ Hi]]%lookup_insert_Some; [by rewrite Hw1|].
      by rewrite lookup_empty in Hi.
  - by apply session_destroy.
  - exists given. split; [exact Hg|]. intros r Hr. by eapply (Hd 1%nat s2).
Defined.
