(* ===== verification/Diff.v ===== *)
(** * What a package changed (snapshot and the comparison in scan of
      src/package/package.cpp)

    The state of the files below a root, before and after the installation, and
    the six lists of differences between two such states. *)

From Stdlib Require Import Sorting.Sorted.
From S2P Require Import Prelude CxxString StrOrder Fingerprint.

(** ** The state of a root *)

Record FileState := mkFileState {
  fs_size : Z;
  fs_mode : Z;
  fs_uid : Z;
  fs_gid : Z;
  fs_hash : string;
}.

#[export] Instance FileState_eq_dec : EqDecision FileState.
Proof. solve_decision. Defined.

(** An entry that the walk over a root yields: its path relative to the root,
    its status, and what it contains or points to. *)
Inductive Kind := RegularFile | SymbolicLink | OtherFile.

Record Entry := mkEntry {
  en_relative : string;
  en_kind : Kind;
  en_permissions : Z;
  en_size : Z;
  en_uid : Z;
  en_gid : Z;
  en_content : option string;
  en_target : string;
}.

(** The body of the loop of [snapshot]. *)
Definition record_entry (result : list (string * FileState)) (e : Entry) : list (string * FileState) :=
  match en_kind e with
  | RegularFile =>
      map_set (en_relative e)
        (mkFileState (en_size e) (u32 (en_permissions e)) (u32 (en_uid e)) (u32 (en_gid e))
           (file_fingerprint (en_content e))) result
  | SymbolicLink =>
      map_set (en_relative e)
        (mkFileState 0 (u32 (en_permissions e)) 0 0 (fingerprint (en_target e))) result
  | OtherFile => result
  end.

(** [snapshot], from the walk over the root; [None] when there is no root. *)
Definition snapshot (walk : option (list Entry)) : list (string * FileState) :=
  match walk with
  | None => []
  | Some entries => foldl record_entry [] entries
  end.

(** ** The differences *)

Record Differences := mkDifferences {
  d_created : list string;
  d_modified : list string;
  d_deleted : list string;
  d_mode : list string;
  d_ownership : list string;
  d_hash : list string;
}.

Definition no_differences : Differences := mkDifferences [] [] [] [] [] [].

(** The body of the loop over [after]. *)
Definition compare_state (before : list (string * FileState)) (d : Differences)
    (entry : string * FileState) : Differences :=
  let '(path, state) := entry in
  let note (b : bool) (l : list string) := if b then l ++ [path] else l in
  match map_get path before with
  | None =>
      mkDifferences (d_created d ++ [path]) (d_modified d) (d_deleted d) (d_mode d)
        (d_ownership d) (d_hash d)
  | Some old =>
      mkDifferences (d_created d)
        (note (negb (fs_size old =? fs_size state)) (d_modified d)) (d_deleted d)
        (note (negb (fs_mode old =? fs_mode state)) (d_mode d))
        (note (negb (fs_uid old =? fs_uid state) || negb (fs_gid old =? fs_gid state)) (d_ownership d))
        (note (negb (bool_decide (fs_hash old = fs_hash state))) (d_hash d))
  end.

(** The body of the loop over [before]. *)
Definition note_deleted (after : list (string * FileState)) (d : Differences)
    (entry : string * FileState) : Differences :=
  match map_get entry.1 after with
  | Some _ => d
  | None =>
      mkDifferences (d_created d) (d_modified d) (d_deleted d ++ [entry.1]) (d_mode d)
        (d_ownership d) (d_hash d)
  end.

(** The comparison of [scan]. *)
Definition diff (before after : list (string * FileState)) : Differences :=
  foldl (note_deleted after) (foldl (compare_state before) no_differences after) before.

(** ** What the lists hold *)

Lemma snapshot_sorted walk : StronglySorted str_lt (map fst (snapshot walk)).
Proof.
  destruct walk as [entries|]; [|constructor]. cbn [snapshot].
  enough (∀ m, StronglySorted str_lt (map fst m) →
               StronglySorted str_lt (map fst (foldl record_entry m entries))) by (apply H; constructor).
  induction entries as [|e entries IH]; intros m Hm; [done|]. cbn [foldl]. apply IH.
  unfold record_entry. destruct (en_kind e); auto using map_set_sorted.
Qed.

Lemma snapshot_get_elem walk p s : map_get p (snapshot walk) = Some s ↔ (p, s) ∈ snapshot walk.
Proof. apply map_get_elem, sorted_keys_nodup, snapshot_sorted. Qed.

(** How a path of [after] relates to [before]. *)
Definition both (before : list (string * FileState)) (R : FileState → FileState → bool)
    (e : string * FileState) : bool :=
  match map_get e.1 before with Some old => R old e.2 | None => false end.

Definition fresh (before : list (string * FileState)) (e : string * FileState) : bool :=
  match map_get e.1 before with Some _ => false | None => true end.

Definition size_differs (a b : FileState) : bool := negb (fs_size a =? fs_size b).
Definition mode_differs (a b : FileState) : bool := negb (fs_mode a =? fs_mode b).
Definition owner_differs (a b : FileState) : bool :=
  negb (fs_uid a =? fs_uid b) || negb (fs_gid a =? fs_gid b).
Definition hash_differs (a b : FileState) : bool := negb (bool_decide (fs_hash a = fs_hash b)).

Definition paths (P : string * FileState → bool) (m : list (string * FileState)) : list string :=
  map fst (List.filter P m).

Lemma paths_cons P e m : paths P (e :: m) = (if P e then [e.1] else []) ++ paths P m.
Proof. unfold paths. cbn [List.filter]. by destruct (P e). Qed.

Lemma compare_loop before m d :
  foldl (compare_state before) d m =
  mkDifferences (d_created d ++ paths (fresh before) m)
    (d_modified d ++ paths (both before size_differs) m) (d_deleted d)
    (d_mode d ++ paths (both before mode_differs) m)
    (d_ownership d ++ paths (both before owner_differs) m)
    (d_hash d ++ paths (both before hash_differs) m).
Proof.
  revert d. induction m as [|[p s] m IH]; intros d.
  - cbn. rewrite !app_nil_r. by destruct d.
  - cbn [foldl]. rewrite IH, !paths_cons. unfold fresh, both, compare_state. cbn [fst snd].
    destruct (map_get p before) as [old|]; cbn; [|by rewrite <- !app_assoc].
    unfold size_differs, mode_differs, owner_differs, hash_differs.
    f_equal; try done; case_match; by rewrite <- ?app_assoc.
Qed.

Lemma deleted_loop after m d :
  foldl (note_deleted after) d m =
  mkDifferences (d_created d) (d_modified d) (d_deleted d ++ paths (fresh after) m) (d_mode d)
    (d_ownership d) (d_hash d).
Proof.
  revert d. induction m as [|[p s] m IH]; intros d.
  - cbn. rewrite app_nil_r. by destruct d.
  - cbn [foldl]. rewrite IH, paths_cons. unfold fresh, note_deleted. cbn [fst].
    destruct (map_get p after); cbn; [done|by rewrite <- app_assoc].
Qed.

Lemma diff_paths before after :
  diff before after =
  mkDifferences (paths (fresh before) after) (paths (both before size_differs) after)
    (paths (fresh after) before) (paths (both before mode_differs) after)
    (paths (both before owner_differs) after) (paths (both before hash_differs) after).
Proof. unfold diff. by rewrite deleted_loop, compare_loop. Qed.

Lemma elem_of_paths P walk p :
  p ∈ paths P (snapshot walk) ↔ ∃ s, map_get p (snapshot walk) = Some s ∧ P (p, s) = true.
Proof.
  unfold paths. rewrite list_elem_of_In, in_map_iff. setoid_rewrite filter_In. split.
  - intros ([q s] & <- & Hin & HP). exists s. split; [|done].
    by apply snapshot_get_elem, list_elem_of_In.
  - intros (s & Hg & HP). exists (p, s). split_and!; [done|by apply list_elem_of_In, snapshot_get_elem|done].
Qed.

Lemma elem_of_fresh old new p :
  p ∈ paths (fresh (snapshot old)) (snapshot new) ↔
  map_get p (snapshot old) = None ∧ is_Some (map_get p (snapshot new)).
Proof.
  rewrite elem_of_paths. unfold fresh. cbn [fst]. split.
  - intros (s & -> & HP). by destruct (map_get p (snapshot old)).
  - intros [-> [s Hs]]. eauto.
Qed.

Lemma elem_of_both R old new p :
  p ∈ paths (both (snapshot old) R) (snapshot new) ↔
  ∃ a b, map_get p (snapshot old) = Some a ∧ map_get p (snapshot new) = Some b ∧ R a b = true.
Proof.
  rewrite elem_of_paths. unfold both. cbn [fst snd]. split.
  - intros (s & Hs & HP). destruct (map_get p (snapshot old)); [eauto|done].
  - intros (a & b & -> & Hb & HR). eauto.
Qed.

Lemma no_path (l : list string) : l = [] ↔ ∀ p, p ∉ l.
Proof. destruct l as [|x l]; split; [intros _; apply not_elem_of_nil|done..|]. intros H. by destruct (H x); left. Qed.

Lemma differs_none (a b : FileState) :
  size_differs a b = false → mode_differs a b = false → owner_differs a b = false →
  hash_differs a b = false → a = b.
Proof.
  unfold size_differs, mode_differs, owner_differs, hash_differs.
  rewrite orb_false_iff, !negb_false_iff, !Z.eqb_eq, bool_decide_eq_true.
  destruct a, b. cbn. by intros -> -> [-> ->] ->.
Qed.

Lemma no_differences_equal old new :
  diff (snapshot old) (snapshot new) = no_differences ↔
  ∀ p, map_get p (snapshot old) = map_get p (snapshot new).
Proof.
  rewrite diff_paths. split.
  - intros [= H1 H2 H3 H4 H5 H6] p.
    rewrite no_path in H1, H2, H3, H4, H5, H6.
    specialize (H1 p). specialize (H2 p). specialize (H3 p). specialize (H4 p). specialize (H5 p).
    specialize (H6 p). rewrite elem_of_fresh in H1, H3. rewrite elem_of_both in H2, H4, H5, H6.
    destruct (map_get p (snapshot old)) as [a|] eqn:Ea, (map_get p (snapshot new)) as [b|] eqn:Eb;
      [|by destruct H3; eauto|by destruct H1; eauto|done].
    f_equal. apply differs_none; apply not_true_is_false; intros HR;
      [apply H2 | apply H4 | apply H5 | apply H6]; by exists a, b.
  - intros H. unfold no_differences. f_equal; apply no_path; intros p.
    1, 3: rewrite elem_of_fresh; intros [H1 [s H2]]; specialize (H p); congruence.
    all: rewrite elem_of_both; intros (a & b & Ha & Hb & HR); rewrite H, Hb in Ha;
      injection Ha as ->; revert HR.
    + unfold size_differs. by rewrite Z.eqb_refl.
    + unfold mode_differs. by rewrite Z.eqb_refl.
    + unfold owner_differs. by rewrite !Z.eqb_refl.
    + unfold hash_differs. by rewrite bool_decide_true.
Qed.

(** C22: the scanner's list of changes between two walks over a root is exact:
    a path is created or deleted if only one of the two states has it, modified
    if the sizes differ, and listed under mode, owner and hash if those do; the
    six lists are empty only if the two states are the same. *)
Theorem diff_exact old new :
  let d := diff (snapshot old) (snapshot new) in
  (∀ p, p ∈ d_created d ↔ map_get p (snapshot old) = None ∧ is_Some (map_get p (snapshot new))) ∧
  (∀ p, p ∈ d_deleted d ↔ map_get p (snapshot new) = None ∧ is_Some (map_get p (snapshot old))) ∧
  (∀ p R l, (R, l) ∈ [(size_differs, d_modified d); (mode_differs, d_mode d);
                      (owner_differs, d_ownership d); (hash_differs, d_hash d)] →
     p ∈ l ↔ ∃ a b, map_get p (snapshot old) = Some a ∧ map_get p (snapshot new) = Some b ∧
                    R a b = true) ∧
  (d = no_differences ↔ ∀ p, map_get p (snapshot old) = map_get p (snapshot new)).
Proof.
  intros d. split_and!; [| | |apply no_differences_equal]; subst d; rewrite diff_paths; cbn.
  - intros p. apply elem_of_fresh.
  - intros p. apply elem_of_fresh.
  - intros p R l. rewrite !elem_of_cons, elem_of_nil.
    intros [[= -> ->] | [[= -> ->] | [[= -> ->] | [[= -> ->] | []]]]]; apply elem_of_both.
Qed.

(** A link whose target changed and a program that lost its permission. *)
Example differences_of_sample :
  let file mode := mkEntry "usr/bin/demo" RegularFile mode 4 0 0 (Some "demo") "" in
  let link target := mkEntry "usr/lib/demo.so" SymbolicLink 511 0 0 0 None target in
  let d := diff (snapshot (Some [file 493; link "demo.so.1"])) (snapshot (Some [link "demo.so.2"; file 420])) in
  d_mode d = ["usr/bin/demo"] ∧ d_hash d = ["usr/lib/demo.so"] ∧ d_created d = [] ∧ d_deleted d = [].
Proof. vm_compute. done. Qed.
