(* ===== verification/Artifacts.v ===== *)
(** * Reports of the package scanner (write_artifacts, compare, report, cleanup,
      fetch and print of src/package/package.cpp)

    The JSON documents of a session, and the commands that read them back, ask
    the database for the differences of two versions, or remove old sessions. *)

From S2P Require Import Prelude CxxString Json FsPath Storage Package.

(** ** The documents of a session *)

Definition metadata_document (m : Package.Metadata) : string :=
  quoted "{'schema_version':2,'package':'" +:+ json_escape (Package.package m) +:+
  quoted "','name':'" +:+ json_escape (Package.name m) +:+
  quoted "','version':'" +:+ json_escape (Package.version m) +:+
  quoted "','architecture':'" +:+ json_escape (Package.architecture m) +:+
  quoted "','signature':'" +:+ json_escape (Package.signature m) +:+
  quoted "','dependencies':" +:+ json_array (Package.dependencies m) +:+
  quoted ",'scripts':" +:+ json_array (Package.scripts m) +:+
  quoted ",'hooks':" +:+ json_array (Package.hooks m) +:+
  quoted ",'files':" +:+ json_array (Package.files m) +:+
  quoted ",'executables':" +:+ json_array (Package.executables m) +:+
  quoted ",'executable_fingerprints':" +:+ json_array (Package.executable_fingerprints m) +:+
  "}" +:+ str newline.

Definition summary_document (r : Package.Result) : string :=
  quoted "{'schema_version':2,'ok':" +:+ bool_text (Package.ok r) +:+
  quoted ",'risk_score':" +:+ to_string (Package.risk_score r) +:+
  quoted ",'verdict':'" +:+ json_escape (Package.verdict r) +:+
  quoted "','coverage_confidence':" +:+ to_string (Package.coverage_confidence r) +:+
  "}" +:+ str newline.

Definition filesystem_document (r : Package.Result) : string :=
  quoted "{'schema_version':2,'created':" +:+ json_array (Package.created r) +:+
  quoted ",'modified':" +:+ json_array (Package.modified r) +:+
  quoted ",'deleted':" +:+ json_array (Package.deleted r) +:+
  quoted ",'mode_changed':" +:+ json_array (Package.mode_changed r) +:+
  quoted ",'ownership_changed':" +:+ json_array (Package.ownership_changed r) +:+
  quoted ",'hash_changed':" +:+ json_array (Package.hash_changed r) +:+
  "}" +:+ str newline.

(** The documents of the processes and of the network. *)
Definition events_document (events : list string) : string :=
  quoted "{'schema_version':1,'events':" +:+ json_object_array events +:+ "}" +:+ str newline.

Definition risk_document (r : Package.Result) : string :=
  quoted "{'schema_version':2,'score':" +:+ to_string (Package.risk_score r) +:+
  quoted ",'verdict':'" +:+ json_escape (Package.verdict r) +:+
  quoted "','factors':" +:+ json_array (Package.risk_factors r) +:+
  quoted ",'coverage':" +:+ json_array (Package.coverage r) +:+
  quoted ",'coverage_confidence':" +:+ to_string (Package.coverage_confidence r) +:+
  "}" +:+ str newline.

(** The six documents in the order they are written. *)
Definition documents (r : Package.Result) : list (string * string) :=
  [("metadata.json", metadata_document (Package.metadata r));
   ("summary.json", summary_document r);
   ("filesystem.json", filesystem_document r);
   ("processes.json", events_document (Package.process_events r));
   ("network.json", events_document (Package.network_events r));
   ("risk.json", risk_document r)].

(** [events.jsonl] *)
Definition event_lines (events : list string) : string :=
  concat_str (map (λ e, e +:+ str newline) events).

Record ArtifactOps (W : Type) := mkArtifactOps {
  (** [create_directories]: the message of its error *)
  ar_mkdirs : W → string → option string * W;
  (** an [ofstream] that is opened, written to and asked if it is [good()] *)
  ar_write : W → string → string → bool * W;
}.
Arguments ar_mkdirs {W}.
Arguments ar_write {W}.

Section Write.
Context {W : Type} (O : ArtifactOps W).

(** The calls of [write], joined by [&&]. *)
Fixpoint write_documents (w : W) (session : string) (docs : list (string * string)) : bool * W :=
  match docs with
  | [] => (true, w)
  | (name, text) :: docs =>
      match ar_write O w (path_append session name) text with
      | (true, w) => write_documents w session docs
      | (false, w) => (false, w)
      end
  end.

(** [write_artifacts] *)
Definition write_artifacts (w : W) (r : Package.Result) : bool * W :=
  match ar_mkdirs O w (Package.session r) with
  | (Some _, w) => (false, w)
  | (None, w) =>
      let '(ok, w) := write_documents w (Package.session r) (documents r) in
      let '(good, w) := ar_write O w (path_append (Package.session r) "events.jsonl")
                          (event_lines (Package.events r)) in
      (ok && good, w)
  end.

End Write.

(** ** The commands *)

(** [fetch] *)
Definition fetch (target : string) (options : Package.Options) : Package.Result :=
  Package.set_error "fetch unavailable: download phase requires isolated network sandbox"
    Package.no_result.

(** The document [compare] builds of a difference. *)
Definition delta_document (name from to : string) (delta : VersionDelta) : string :=
  quoted "{'schema_version':1,'package':'" +:+ json_escape name +:+
  quoted "','from':'" +:+ json_escape from +:+
  quoted "','to':'" +:+ json_escape to +:+
  quoted "','compared':" +:+ bool_text (compared delta) +:+
  quoted ",'from_baseline':" +:+ bool_text (from_baseline delta) +:+
  quoted ",'identity_changed':" +:+ bool_text (identity_changed delta) +:+
  quoted ",'source_changed':" +:+ bool_text (source_changed delta) +:+
  quoted ",'dependencies_changed':" +:+ bool_text (dependencies_changed delta) +:+
  quoted ",'added_events':" +:+ json_array (added_events delta) +:+
  quoted ",'removed_events':" +:+ json_array (removed_events delta) +:+
  "}" +:+ str newline.

Section Compare.
Context {D : Type} (Q : Sqlite D) (open_v2 : D → string → expected unit string * D)
  (close : D → D) (mkdirs : D → string → option string * D).

(** [package::compare] *)
Definition compare_versions (d : D) (name from to : string) (options : Package.Options)
    : Package.Result * D :=
  let parent := parent_path (Package.database options) in
  let '(error, d) := if bool_decide (parent = "") then (None, d) else mkdirs d parent in
  match error with
  | Some message =>
      (Package.set_error ("SQLite database parent creation failed: " +:+ message) Package.no_result, d)
  | None =>
      let failure e := Package.set_error ("SQLite comparison failed: " +:+ e) Package.no_result in
      match open_database Q open_v2 close d (Package.database options) with
      | (Err e, d) => (failure e, d)
      | (Ok _, d) =>
          match compare Q d name from to with
          | (Err e, d) => (failure e, close d)
          | (Ok delta, d) =>
              (Package.set_report (delta_document name from to delta)
                 (Package.set_ok (compared delta)
                    (Package.set_error
                       (if compared delta then "" else "no observations for requested versions")
                       Package.no_result)), close d)
          end
      end
  end.

End Compare.

(** [report]; [summary] is what summary.json of the session holds. *)
Definition report (summary : option string) (session : string) : Package.Result :=
  let r := Package.set_session session Package.no_result in
  match summary with
  | None =>
      Package.set_error ("session report missing: " +:+ path_append session "summary.json") r
  | Some text => Package.set_report text (Package.set_ok true r)
  end.

(** ** Cleaning up *)

(** An entry of a directory: its path, whether it is a directory (links are
    followed, and the [error_code] says that a link leads nowhere), and whether
    it is a link. *)
Record DirEntry := mkDirEntry {
  de_path : string;
  de_directory : expected bool string;
  de_symlink : bool;
}.

(** The test of the two loops of [cleanup]: the [error_code] it leaves, and
    whether the entry is to be removed. *)
Definition removable (prefix : string) (e : DirEntry) : option string * bool :=
  match de_directory e with
  | Err m => (Some m, false)
  | Ok directory =>
      (None, directory && negb (de_symlink e) && starts_with (filename (de_path e)) prefix)
  end.

Record CleanupOps (W : Type) := mkCleanupOps {
  cl_directory : W → string → expected bool string;
  cl_symlink : W → string → bool;
  (** [directory_iterator] with an error code: the entries, or the error *)
  cl_entries : W → string → expected (list DirEntry) string;
  (** [remove_all]: the message of its error *)
  cl_remove : W → string → option string * W;
  (** [temp_directory_path] *)
  cl_temp : W → expected string string;
}.
Arguments cl_directory {W}.
Arguments cl_symlink {W}.
Arguments cl_entries {W}.
Arguments cl_remove {W}.
Arguments cl_temp {W}.

Section Cleanup.
Context {W : Type} (O : CleanupOps W).

(** A loop of [cleanup] with its [error_code], which every iteration tests and
    the calls on the entry overwrite. *)
Fixpoint cleanup_loop (prefix : string) (w : W) (ec : option string) (entries : list DirEntry)
    : option string * W :=
  match entries with
  | [] => (ec, w)
  | e :: entries =>
      match ec with
      | Some _ => (ec, w)
      | None =>
          match removable prefix e with
          | (_, true) =>
              let '(ec, w) := cl_remove O w (de_path e) in cleanup_loop prefix w ec entries
          | (ec, false) => cleanup_loop prefix w ec entries
          end
      end
  end.

Definition cleanup_directory (prefix : string) (w : W) (path : string) : option string * W :=
  match cl_entries O w path with
  | Err e => (Some e, w)
  | Ok entries => cleanup_loop prefix w None entries
  end.

(** [cleanup] *)
Definition cleanup (w : W) (options : Package.Options) : Package.Result * W :=
  let root := Package.session_root options in
  let w :=
    match cl_directory O w root with
    | Ok true => if cl_symlink O w root then w else (cleanup_directory "session-" w root).2
    | _ => w
    end in
  let '(ec, w) :=
    match cl_temp O w with
    | Err e => (Some e, w)
    | Ok temp =>
        match cl_directory O w temp with
        | Ok true => cleanup_directory "execell-package-" w temp
        | Ok false => (None, w)
        | Err e => (Some e, w)
        end
    end in
  match ec with
  | None => (Package.set_ok true Package.no_result, w)
  | Some e => (Package.set_error ("cleanup failed: " +:+ e) Package.no_result, w)
  end.

(** An entry whose status cannot be read, such as a link that leads nowhere,
    ends a loop of [cleanup]: what follows it stays. *)
Lemma cleanup_loop_stops prefix w e entries m :
  de_directory e = Err m → cleanup_loop prefix w None (e :: entries) = (Some m, w).
Proof. intros He. cbn [cleanup_loop]. unfold removable. rewrite He. by destruct entries. Qed.

End Cleanup.

(** ** Printing a result *)

(** [print], as what it writes on standard output. *)
Definition print (r : Package.Result) (options : Package.Options) : string :=
  let format := Package.format options in
  let m := Package.metadata r in
  if negb (bool_decide (Package.report_data r = "")) &&
     (bool_decide (format = "json") || bool_decide (format = "jsonl"))
  then Package.report_data r
  else if bool_decide (format = "jsonl") then event_lines (Package.events r)
  else if bool_decide (format = "json") then
    quoted "{'ok':" +:+ bool_text (Package.ok r) +:+
    quoted ",'error':'" +:+ json_escape (Package.error r) +:+
    quoted "','package':'" +:+ json_escape (Package.package m) +:+
    quoted "','name':'" +:+ json_escape (Package.name m) +:+
    quoted "','version':'" +:+ json_escape (Package.version m) +:+
    quoted "','architecture':'" +:+ json_escape (Package.architecture m) +:+
    quoted "','signature':'" +:+ json_escape (Package.signature m) +:+
    quoted "','risk_score':" +:+ to_string (Package.risk_score r) +:+
    quoted ",'risk_level':'" +:+ json_escape (Package.risk_level r) +:+
    quoted "','risk_action':'" +:+ json_escape (Package.risk_action r) +:+
    quoted "','verdict':'" +:+ json_escape (Package.verdict r) +:+
    quoted "','baseline':" +:+ bool_text (Package.baseline r) +:+
    quoted ",'session':'" +:+ json_escape (Package.session r) +:+
    quoted "','created':" +:+ to_string (Z.of_nat (length (Package.created r))) +:+
    quoted ",'modified':" +:+ to_string (Z.of_nat (length (Package.modified r))) +:+
    quoted ",'deleted':" +:+ to_string (Z.of_nat (length (Package.deleted r))) +:+
    "}" +:+ str newline
  else if negb (bool_decide (Package.report_data r = "")) then Package.report_data r
  else
    (if Package.ok r then "package: " +:+ Package.name m +:+ " " +:+ Package.version m
     else "package: rejected") +:+ str newline +:+
    (if bool_decide (Package.error r = "") then ""
     else "error: " +:+ Package.error r +:+ str newline) +:+
    (if Package.ok r then
       "architecture: " +:+ Package.architecture m +:+ " signature: " +:+ Package.signature m +:+
       str newline +:+ "risk: " +:+ to_string (Package.risk_score r) +:+ " verdict: " +:+
       Package.verdict r +:+ str newline +:+ "files: " +:+ to_string (Z.of_nat (length (Package.files m))) +:+
       " executables: " +:+ to_string (Z.of_nat (length (Package.executables m))) +:+ str newline +:+
       "session: " +:+ quoted_path (Package.session r) +:+ str newline
     else "").

(** ** The documents are JSON *)

Definition jstrings (l : list string) : json := JArr (map JStr l).

Definition metadata_json (m : Package.Metadata) : json :=
  JObj [("schema_version", JNum 2); ("package", JStr (Package.package m));
        ("name", JStr (Package.name m)); ("version", JStr (Package.version m));
        ("architecture", JStr (Package.architecture m)); ("signature", JStr (Package.signature m));
        ("dependencies", jstrings (Package.dependencies m)); ("scripts", jstrings (Package.scripts m));
        ("hooks", jstrings (Package.hooks m)); ("files", jstrings (Package.files m));
        ("executables", jstrings (Package.executables m));
        ("executable_fingerprints", jstrings (Package.executable_fingerprints m))].

Definition summary_json (r : Package.Result) : json :=
  JObj [("schema_version", JNum 2); ("ok", JBool (Package.ok r));
        ("risk_score", JNum (Package.risk_score r)); ("verdict", JStr (Package.verdict r));
        ("coverage_confidence", JNum (Package.coverage_confidence r))].

Definition filesystem_json (r : Package.Result) : json :=
  JObj [("schema_version", JNum 2); ("created", jstrings (Package.created r));
        ("modified", jstrings (Package.modified r)); ("deleted", jstrings (Package.deleted r));
        ("mode_changed", jstrings (Package.mode_changed r));
        ("ownership_changed", jstrings (Package.ownership_changed r));
        ("hash_changed", jstrings (Package.hash_changed r))].

Definition risk_json (r : Package.Result) : json :=
  JObj [("schema_version", JNum 2); ("score", JNum (Package.risk_score r));
        ("verdict", JStr (Package.verdict r)); ("factors", jstrings (Package.risk_factors r));
        ("coverage", jstrings (Package.coverage r));
        ("coverage_confidence", JNum (Package.coverage_confidence r))].

Definition delta_json (name from to : string) (delta : VersionDelta) : json :=
  JObj [("schema_version", JNum 1); ("package", JStr name); ("from", JStr from); ("to", JStr to);
        ("compared", JBool (compared delta)); ("from_baseline", JBool (from_baseline delta));
        ("identity_changed", JBool (identity_changed delta));
        ("source_changed", JBool (source_changed delta));
        ("dependencies_changed", JBool (dependencies_changed delta));
        ("added_events", jstrings (added_events delta));
        ("removed_events", jstrings (removed_events delta))].

Lemma print_jstrings l : print_json json_escape_char (jstrings l) = json_array l.
Proof. symmetry. apply json_array_print. Qed.

Definition texts (l : list string) : bool := forallb (str_forall textual) l.

Lemma encodable_jstrings l : texts l = true → encodable json_escape_char (jstrings l).
Proof.
  unfold texts, jstrings. cbn [encodable]. induction l as [|s l IH]; [done|].
  cbn [forallb map foldr encodable]. rewrite andb_true_iff. intros [? ?].
  split; [by apply textual_encodes_str|auto].
Qed.

(** Proves that a document is the printed value: both are concatenations. *)
Local Ltac print_document :=
  intros; cbn [print_json map join fst snd]; rewrite ?print_jstrings; unfold print_string, json_escape;
  autorewrite with execell_str; reflexivity.

Lemma metadata_print m :
  metadata_document m = print_json json_escape_char (metadata_json m) +:+ str newline.
Proof. unfold metadata_document, metadata_json. print_document. Qed.

Lemma summary_print r :
  summary_document r = print_json json_escape_char (summary_json r) +:+ str newline.
Proof. unfold summary_document, summary_json. print_document. Qed.

Lemma filesystem_print r :
  filesystem_document r = print_json json_escape_char (filesystem_json r) +:+ str newline.
Proof. unfold filesystem_document, filesystem_json. print_document. Qed.

Lemma risk_print r :
  risk_document r = print_json json_escape_char (risk_json r) +:+ str newline.
Proof. unfold risk_document, risk_json. print_document. Qed.

Lemma delta_print name from to delta :
  delta_document name from to delta =
  print_json json_escape_char (delta_json name from to delta) +:+ str newline.
Proof. unfold delta_document, delta_json. print_document. Qed.

(** The texts of a result that its documents hold. *)
Definition textual_metadata (m : Package.Metadata) : bool :=
  texts [Package.package m; Package.name m; Package.version m; Package.architecture m;
         Package.signature m] &&
  texts (Package.dependencies m) && texts (Package.scripts m) && texts (Package.hooks m) &&
  texts (Package.files m) && texts (Package.executables m) &&
  texts (Package.executable_fingerprints m).

Definition textual_result (r : Package.Result) : bool :=
  textual_metadata (Package.metadata r) && str_forall textual (Package.verdict r) &&
  texts (Package.created r) && texts (Package.modified r) && texts (Package.deleted r) &&
  texts (Package.mode_changed r) && texts (Package.ownership_changed r) &&
  texts (Package.hash_changed r) && texts (Package.risk_factors r) && texts (Package.coverage r).

(** A document is a line with a value of JSON. *)
Definition holds_json (document : string) (v : json) : Prop :=
  ∃ text, document = text +:+ str newline ∧ parse_document text = Some v.

Lemma holds_print document v :
  document = print_json json_escape_char v +:+ str newline → encodable json_escape_char v →
  holds_json document v.
Proof. intros -> He. eexists. split; [done|]. by apply parse_print. Qed.

Local Ltac encodable_document :=
  cbn [encodable foldr fst snd metadata_json summary_json filesystem_json risk_json];
  repeat match goal with
         | |- _ ∧ _ => split
         | |- True => exact I
         | |- encodable _ (jstrings _) => apply encodable_jstrings; assumption
         | |- encodes_str _ _ => apply textual_encodes_str; first [assumption | reflexivity]
         end.

(** C34: the documents a scan leaves in its session are JSON with the fields of
    the result: metadata, summary, changed files and risk read back as what the
    scanner recorded, whatever quotes, backslashes or line ends the package put
    in its names, as long as they hold no other control character. *)
Theorem documents_read_back r :
  textual_result r = true →
  holds_json (metadata_document (Package.metadata r)) (metadata_json (Package.metadata r)) ∧
  holds_json (summary_document r) (summary_json r) ∧
  holds_json (filesystem_document r) (filesystem_json r) ∧
  holds_json (risk_document r) (risk_json r).
Proof.
  unfold textual_result, textual_metadata, texts at 1. cbn [forallb].
  rewrite !andb_true_iff. intros H. destruct_and! H.
  split_and!; apply holds_print; auto using metadata_print, summary_print, filesystem_print, risk_print;
    encodable_document.
Qed.

(** A package whose version holds a quote. *)
Definition quoting_result : Package.Result :=
  Package.add_factors ["hooks: x"]
    (Package.set_metadata
       (Package.mkMetadata "/tmp/a.pkg.tar.zst" "a" (String dquote "1") "any" ["b"] [".INSTALL"]
          [".INSTALL"] [] [] [] "valid") Package.no_result).

Lemma documents_read_back_witness :
  holds_json (summary_document quoting_result) (summary_json quoting_result) ∧
  holds_json (metadata_document (Package.metadata quoting_result))
    (metadata_json (Package.metadata quoting_result)).
Proof. split; apply (documents_read_back quoting_result); vm_compute; reflexivity. Defined.

(** A control character other than a line end or a tab is not escaped: the
    document of a package that has one is no JSON. *)
Example control_character_breaks_document :
  let m := Package.mkMetadata "p" (str (ascii_of_nat 1)) "1" "any" [] [] [] [] [] [] "valid" in
  parse_document (str_take (str_length (metadata_document m) - 1) (metadata_document m)) = None.
Proof. vm_compute. reflexivity. Qed.
