(* ===== verification/Observation.v ===== *)
(** * Observed package runs (include/execell/package/observation.hpp,
      src/package/observation.cpp; StderrTraceReporter of src/sandbox/sandbox.cpp)

    The trace lines a sandboxed run prints on standard error and their
    extraction from the captured text, and the observation of one script or
    executable.  What an observation finds out from the system (files, the
    root snapshot, the captured run) is a parameter, the record [Host]. *)

From S2P Require Import Prelude CxxString Lines FsPath Json Event Report Capture Seccomp Sandbox.

(** ** The trace lines *)

Definition marker : string := "EXECELL_TRACE:".

(** The chain of [if constexpr] of [StderrTraceReporter::report]. *)
Definition trace_kind (e : Event) : string :=
  match e with
  | FileOpened _ _ _ => "file_opened"
  | FileRead _ _ _ _ => "file_read"
  | FileWritten _ _ _ _ => "file_written"
  | NetworkConnected _ _ _ => "network_connected"
  | NetworkBound _ _ _ => "network_bound"
  | ProcessExec _ _ _ => "process_exec"
  | ProcessSpawned _ _ _ => "process_spawned"
  | ProcessExited _ _ _ _ => "process_exited"
  | _ => "event"
  end.

(** What follows the marker on the line of an event. *)
Definition trace_payload (e : Event) : string :=
  quoted "{'type':'" +:+ trace_kind e +:+ quoted "','pid':" +:+
  to_string (ctx_pid (context_of e)) +:+ quoted ",'sequence':" +:+
  to_string (ctx_sequence (context_of e)) +:+ "}".

Definition trace_line (e : Event) : string := marker +:+ trace_payload e +:+ str newline.

(** [StderrTraceReporter], its stream as the text accepted so far. *)
Module StderrTraceReporter.

Definition t : Type := string.

Definition report (stderr : t) (e : Event) : t := stderr +:+ trace_line e.

#[global] Instance reporter : Reporter t := {
  report := report;
  stop_requested _ := false;
}.

End StderrTraceReporter.

(** ** Extraction *)

(** The lists of a [Result] the extraction adds to. *)
Record Extract := mkExtract {
  x_events : list string; x_network : list string; x_processes : list string }.

Definition no_extract : Extract := mkExtract [] [] [].

(** One event of the captured text. *)
Definition add_event (x : Extract) (event : string) : Extract :=
  mkExtract (x_events x ++ [event])
    (if contains_str event "network_" then x_network x ++ [event] else x_network x)
    (if contains_str event "process_" then x_processes x ++ [event] else x_processes x).

(** The loop [while ((trace_position = stderr_data.find(...)) != npos)]. *)
Fixpoint extract_loop (fuel : nat) (data : string) (position : nat) (x : Extract)
    : option Extract :=
  match fuel with
  | O => None
  | S fuel =>
      match find_str data marker position with
      | None => Some x
      | Some position =>
          let begin := (position + str_length marker)%nat in
          let last := find_char data newline begin in
          let event :=
            substr data begin (match last with
                               | None => str_length data - begin
                               | Some last => last - begin
                               end)%nat in
          extract_loop fuel data
            (match last with None => str_length data | Some last => last + 1 end)%nat
            (add_event x event)
      end
  end.

(** The reference: what follows the marker on each line that has one. *)
Definition after_marker (l : string) : option string :=
  match find_suffix (λ t, starts_with t marker) l with
  | None => None
  | Some p => Some (str_drop (p + str_length marker) l)
  end.

Definition marked (data : string) : list string := omap after_marker (split_on newline data).

(** *** The loop finds the marked lines *)

(** The loop at the start of the last line [l] of a text. *)
Lemma extract_last_line fuel a l x :
  str_elem newline l = false →
  extract_loop (S (S fuel)) (a +:+ l) (str_length a) x =
  Some (foldl add_event x (option_list (after_marker l))).
Proof.
  intros Hl. cbn [extract_loop]. rewrite (find_from marker).
  unfold after_marker. destruct (find_suffix _ l) as [p|] eqn:Ep; [|done].
  cbn [fmap option_fmap option_map]. apply find_fits in Ep.
  set (begin := (str_length a + p + str_length marker)%nat).
  assert (str_drop begin (a +:+ l) = str_drop (p + str_length marker) l) as Hd.
  { unfold begin. rewrite <- Nat.add_assoc, <- str_drop_drop, str_drop_app. done. }
  rewrite find_char_drop by (rewrite str_length_app; unfold begin; lia).
  rewrite Hd, find_newline_none by by apply str_elem_drop. cbn [fmap option_fmap option_map].
  unfold substr. rewrite Hd, str_take_length by (rewrite str_length_drop, str_length_app; unfold begin; lia).
  unfold find_str. rewrite Nat.leb_refl, str_drop_length. done.
Qed.

(** The loop at the start of a line that holds the marker: the event is taken
    and the loop goes on after the newline. *)
Lemma extract_marked_line fuel a l rest x p :
  str_elem newline l = false → find_suffix (λ t, starts_with t marker) l = Some p →
  extract_loop (S fuel) (a +:+ l +:+ String newline rest) (str_length a) x =
  extract_loop fuel (a +:+ l +:+ String newline rest) (str_length a + S (str_length l))
    (add_event x (str_drop (p + str_length marker) l)).
Proof.
  intros Hl Ep. cbn [extract_loop]. rewrite (find_from marker), (find_line marker), Ep by done.
  cbn [fmap option_fmap option_map]. apply find_fits in Ep.
  set (begin := (str_length a + p + str_length marker)%nat).
  assert (str_drop begin (a +:+ l +:+ String newline rest)
          = str_drop (p + str_length marker) l +:+ String newline rest) as Hd.
  { unfold begin. rewrite <- Nat.add_assoc, <- str_drop_drop, str_drop_app.
    by apply str_drop_app_le. }
  rewrite find_char_drop by (rewrite !str_length_app; unfold begin; lia).
  rewrite Hd, find_newline_line by by apply str_elem_drop. cbn [fmap option_fmap option_map].
  unfold substr. rewrite Hd, str_length_drop.
  replace (begin + (str_length l - (p + str_length marker)) - begin)%nat
    with (str_length (str_drop (p + str_length marker) l)) by (rewrite str_length_drop; lia).
  rewrite str_take_app. f_equal. unfold begin. lia.
Qed.

(** A line without the marker is skipped: the search goes on into the next. *)
Lemma extract_unmarked_line fuel a l rest x :
  find_suffix (λ t, starts_with t marker) l = None →
  extract_loop fuel (a +:+ l +:+ String newline rest) (str_length a) x =
  extract_loop fuel (a +:+ l +:+ String newline rest) (str_length a + S (str_length l)) x.
Proof.
  intros Ep. destruct fuel as [|fuel]; [done|]. cbn [extract_loop].
  pose proof (find_from marker (a +:+ l +:+ str newline) rest) as Hr.
  rewrite !app_assoc_str in Hr. change (str newline +:+ rest) with (String newline rest) in Hr.
  replace (str_length (a +:+ l +:+ str newline)) with (str_length a + S (str_length l))%nat in Hr
    by (rewrite !str_length_app; change (str_length (str newline)) with 1%nat; lia).
  rewrite Hr, (find_from marker), (find_line marker), Ep by done.
  destruct (find_suffix _ rest) as [p|]; [|done]. cbn [fmap option_fmap option_map].
  by replace (str_length a + (str_length l + S p))%nat
    with (str_length a + S (str_length l) + p)%nat by lia.
Qed.

(** Extraction from the lines [ls] on, at the end of the text [a] before them. *)
Lemma extract_loop_lines fuel a ls x :
  ls ≠ [] → Forall (λ l, str_elem newline l = false) ls → (length ls < fuel)%nat →
  extract_loop fuel (a +:+ join (str newline) ls) (str_length a) x =
  Some (foldl add_event x (omap after_marker ls)).
Proof.
  revert fuel a x. induction ls as [|l ls IH]; intros fuel a x Hne Hls Hf; [done|].
  apply Forall_cons in Hls as [Hl Hls]. destruct ls as [|l2 ls].
  { destruct fuel as [|[|fuel]]; [simpl in Hf; lia|simpl in Hf; lia|].
    cbn [join omap list_omap]. rewrite extract_last_line by done. by destruct (after_marker l). }
  set (rest := join (str newline) (l2 :: ls)) in *.
  change (join (str newline) (l :: l2 :: ls)) with (l +:+ String newline rest).
  assert (∀ fuel x, (length (l2 :: ls) < fuel)%nat →
    extract_loop fuel (a +:+ l +:+ String newline rest) (str_length a + S (str_length l)) x =
    Some (foldl add_event x (omap after_marker (l2 :: ls)))) as Hrest.
  { intros fuel' x' Hf'. rewrite <- (IH fuel' (a +:+ l +:+ str newline) x') by done.
    rewrite !app_assoc_str, !str_length_app. change (str_length (str newline)) with 1%nat.
    f_equal. lia. }
  cbn [omap list_omap]. unfold after_marker at 1.
  destruct (find_suffix _ l) as [p|] eqn:Ep.
  - destruct fuel as [|fuel]; [lia|]. rewrite (extract_marked_line _ _ _ _ _ p) by done.
    rewrite Hrest by (simpl in *; lia). done.
  - rewrite extract_unmarked_line by done. apply Hrest. simpl in *. lia.
Qed.

(** The extraction with fuel that always suffices. *)
Definition extract (data : string) : Extract :=
  default no_extract (extract_loop (S (S (str_length data))) data 0 no_extract).

Lemma extract_marked data : extract data = foldl add_event no_extract (marked data).
Proof.
  unfold extract, marked.
  pose proof (extract_loop_lines (S (S (str_length data))) "" (split_on newline data) no_extract) as H.
  rewrite join_split_on, app_empty_l in H. change (str_length "") with 0%nat in H.
  rewrite H; [done| | |].
  - by destruct (split_on_cons newline data) as (? & ? & ->).
  - apply Forall_forall. intros l Hl. by eapply split_on_no_sep.
  - pose proof (split_on_length newline data). lia.
Qed.

Lemma add_events_events x l : x_events (foldl add_event x l) = x_events x ++ l.
Proof.
  revert x. induction l as [|e l IH]; intros x; [by rewrite app_nil_r|].
  cbn [foldl]. rewrite IH. cbn. by rewrite <- app_assoc.
Qed.

Lemma add_events_network x l :
  x_network (foldl add_event x l) = x_network x ++ List.filter (λ e, contains_str e "network_") l.
Proof.
  revert x. induction l as [|e l IH]; intros x; [by rewrite app_nil_r|].
  cbn [foldl List.filter]. rewrite IH. unfold add_event.
  destruct (contains_str e "network_"); cbn; by rewrite <- ?app_assoc.
Qed.

Lemma add_events_processes x l :
  x_processes (foldl add_event x l) = x_processes x ++ List.filter (λ e, contains_str e "process_") l.
Proof.
  revert x. induction l as [|e l IH]; intros x; [by rewrite app_nil_r|].
  cbn [foldl List.filter]. rewrite IH. unfold add_event.
  destruct (contains_str e "process_"); cbn; by rewrite <- ?app_assoc.
Qed.

(** Extracting trace events from captured standard error finds, for any
    text, exactly what follows the marker on each line that holds one, in
    order, and files among the network and process events those whose text
    names them: the index loop is equivalent to the reference over lines. *)
Theorem extract_is_marked_lines data :
  x_events (extract data) = marked data ∧
  x_network (extract data) = List.filter (λ e, contains_str e "network_") (marked data) ∧
  x_processes (extract data) = List.filter (λ e, contains_str e "process_") (marked data).
Proof.
  rewrite extract_marked, add_events_events, add_events_network, add_events_processes. done.
Qed.

(** ** Round trip of the trace *)

Lemma trace_kind_clean e : str_elem newline (trace_kind e) = false.
Proof. by destruct e. Qed.

Lemma trace_payload_no_newline e : str_elem newline (trace_payload e) = false.
Proof.
  unfold trace_payload. rewrite !str_elem_app, trace_kind_clean, !(to_string_no_char newline) by done.
  done.
Qed.

(** The document of a trace line. *)
Definition trace_json (e : Event) : json :=
  JObj [("type", JStr (trace_kind e)); ("pid", JNum (ctx_pid (context_of e)));
        ("sequence", JNum (ctx_sequence (context_of e)))].

Lemma trace_payload_print e : trace_payload e = print_json attest_char (trace_json e).
Proof.
  unfold trace_payload, trace_json. cbn [print_json map join fst snd]. unfold print_string.
  replace (escape_with attest_char (trace_kind e)) with (trace_kind e) by by destruct e.
  autorewrite with execell_str. reflexivity.
Qed.

Lemma after_marker_line e : after_marker (marker +:+ trace_payload e) = Some (trace_payload e).
Proof. done. Qed.

Lemma marked_line l t :
  str_elem newline l = false →
  marked (l +:+ String newline t) = option_list (after_marker l) ++ marked t.
Proof.
  intros Hl. unfold marked. rewrite split_newline_cons by done. cbn [omap list_omap].
  by destruct (after_marker l).
Qed.

Lemma marked_trace_line e t : marked (trace_line e +:+ t) = trace_payload e :: marked t.
Proof.
  unfold trace_line. rewrite !app_assoc_str. change (str newline +:+ t) with (String newline t).
  rewrite <- (app_assoc_str marker), marked_line.
  - by rewrite after_marker_line.
  - rewrite str_elem_app, trace_payload_no_newline. done.
Qed.

Lemma report_all_trace out es :
  report_all (out : StderrTraceReporter.t) es = out +:+ concat_str (map trace_line es).
Proof.
  revert out. induction es as [|e es IH]; intros out; [by rewrite app_empty_r|].
  change (report_all out (e :: es)) with (report_all (out +:+ trace_line e : StderrTraceReporter.t) es).
  rewrite IH. cbn [map concat_str]. by rewrite app_assoc_str.
Qed.

Lemma marked_trace es t : marked (concat_str (map trace_line es) +:+ t) = map trace_payload es ++ marked t.
Proof.
  induction es as [|e es IH]; [done|]. cbn [map concat_str].
  rewrite app_assoc_str, marked_trace_line, IH. done.
Qed.

(** The trace a sandboxed tracer prints on standard error is recovered from
    the captured text: the extraction returns one payload per event, in order,
    and each is a JSON object with the event's kind, pid and sequence number. *)
Theorem trace_round_trip es :
  x_events (extract (report_all ("" : StderrTraceReporter.t) es)) = map trace_payload es ∧
  Forall (λ e, parse_document (trace_payload e) = Some (trace_json e)) es.
Proof.
  split.
  - rewrite report_all_trace, app_empty_l, extract_marked, add_events_events.
    rewrite <- (app_empty_r (concat_str _)), marked_trace. cbn. by rewrite app_nil_r.
  - apply Forall_forall. intros e _. rewrite trace_payload_print. apply parse_print.
    unfold trace_json. cbn [encodable foldr fst snd].
    split_and!; try done; apply printable_encodes_str; by destruct e.
Qed.

(** The observed program shares the tracer's standard error and can forge
    its trace: a line it prints with the marker is taken for an event, and
    anything may follow the marker. *)
Theorem forged_event es forged fs :
  str_elem newline forged = false →
  x_events (extract (concat_str (map trace_line es) +:+
                     (marker +:+ forged +:+ str newline) +:+ concat_str (map trace_line fs))) =
  map trace_payload es ++ [forged] ++ map trace_payload fs.
Proof.
  intros Hn. rewrite extract_marked, add_events_events, marked_trace. cbn [x_events no_extract app].
  f_equal. rewrite !app_assoc_str. change (str newline +:+ ?t) with (String newline t).
  rewrite <- (app_assoc_str marker), marked_line.
  - rewrite <- (app_empty_r (concat_str _)), marked_trace. cbn. by rewrite app_nil_r.
  - rewrite str_elem_app, Hn. done.
Qed.

Lemma forged_event_witness :
  x_events (extract (concat_str (map trace_line []) +:+
                     (marker +:+ "x" +:+ str newline) +:+ concat_str (map trace_line []))) = ["x"].
Proof. apply (forged_event [] "x" []); vm_compute; reflexivity. Defined.

(** ** One observation *)

Record Options := mkOptions {
  o_timeout : Z;
  o_global_timeout : Z;
  o_network : bool;
  o_run_all : bool;
  o_max_workers : Z;
  o_output_limit : Z;
  o_cgroup_root : string;
}.

Record Result := mkResult {
  r_events : list string;
  r_processes : list string;
  r_network : list string;
  r_smoke : list string;
  r_risk_factors : list string;
  r_coverage : list string;
}.

Definition empty_result : Result := mkResult [] [] [] [] [] [].

(** Appends the lists of [b] to those of [a]. *)
Definition append_result (a b : Result) : Result :=
  mkResult (r_events a ++ r_events b) (r_processes a ++ r_processes b)
    (r_network a ++ r_network b) (r_smoke a ++ r_smoke b)
    (r_risk_factors a ++ r_risk_factors b) (r_coverage a ++ r_coverage b).

(** The body of the loop of [escape]. *)
Definition escape_char (c : ascii) : string :=
  (if bool_decide (c = dquote) || bool_decide (c = backslash) then str backslash else "") +:+
  (if bool_decide (c = newline) then "\n"
   else if bool_decide (c = carriage_return) then "\r"
   else str c).

Definition escape (value : string) : string := escape_with escape_char value.

(** What [run_one] asks of the system. *)
Record Host := mkHost {
  h_pid : Z;
  (** [is_regular_file] *)
  h_regular : string → bool;
  (** the path of the root snapshot, when it was created and is isolated *)
  h_session : option string;
  (** the values of [sequence] *)
  h_sequence : Z;
  h_create_directory : string → bool;
  h_run_captured : list string → Config → Z → Z → Captured;
}.

Definition cgroup_directory (h : Host) (options : Options) : string :=
  path_append (o_cgroup_root options)
    ("execell-task-" +:+ to_string (h_pid h) +:+ "-" +:+ to_string (h_sequence h)).

(** The sandbox of an observation. *)
Definition observation_config (options : Options) (isolated_root task_cgroup : string) : Config :=
  mkConfig namespaces true true true true true false true false true true true
    (u64 (o_timeout options)) 0 64 (64 * 1024 * 1024) isolated_root ""
    default_package_syscalls (mkCgroup task_cgroup 0 0 0 100000).

(** The flags on the combined output. *)
Definition output_flags (combined : string) : list string :=
  let flag text factor := if contains_str combined text then [factor] else [] in
  flag "systemctl" "service activation attempt" ++
  flag "/etc/systemd" "service persistence attempt" ++
  flag "/etc/cron" "persistence attempt" ++
  flag "setuid" "privilege change attempt" ++
  flag "setcap" "capability change attempt".

(** What is recorded of a finished run. *)
Definition captured_result (path : string) (script : bool) (config : Config) (c : Captured) : Result :=
  let x := extract (c_stderr c) in
  let kind := if script then "maintainer_script" else "executable_smoke" in
  mkResult
    ([quoted "{'schema_version':1,'type':'attestation','manifest':" +:+ attestation config +:+ "}";
      quoted "{'schema_version':1,'type':'" +:+ kind +:+ quoted "','path':'" +:+ escape path +:+
      quoted "','status':" +:+ to_string (c_status c) +:+ quoted ",'timed_out':" +:+
      bool_text (c_timed_out c) +:+ quoted ",'stdout':'" +:+ escape (c_stdout c) +:+
      quoted "','stderr':'" +:+ escape (c_stderr c) +:+ quoted "'}"] ++ x_events x)
    ((quoted "{'path':'" +:+ escape path +:+ quoted "','status':" +:+ to_string (c_status c) +:+ "}")
     :: x_processes x)
    ((quoted "{'path':'" +:+ escape path +:+ quoted "','isolated':true}") :: x_network x)
    [path +:+ ":" +:+ (if c_status c =? 0 then "passed" else "failed") +:+ ":status=" +:+
     to_string (c_status c) +:+ (if c_timed_out c then ":timeout" else "")]
    (output_flags (c_stdout c +:+ str newline +:+ c_stderr c))
    [path +:+ ":" +:+ (if c_timed_out c then "timed-out" else "executed")].

(** [run_one]: what it adds to its result. *)
Definition run_one (h : Host) (root path : string) (script : bool) (options : Options) : Result :=
  if is_absolute path || contains_str path ".." then empty_result
  else if negb (h_regular h (path_append root path)) then
    mkResult [quoted "{'schema_version':1,'type':'observation_skipped','path':'" +:+ escape path +:+
              quoted "','reason':'not staged'}"] [] [] [] [] [path +:+ ":skipped:not-staged"]
  else
    match h_session h with
    | None =>
        mkResult [quoted "{'schema_version':1,'type':'observation_rejected','reason':'snapshot'}"]
          [] [] [] ["per-observation rootfs snapshot unavailable"] [path +:+ ":rejected:snapshot"]
    | Some isolated_root =>
        if negb (h_regular h (path_append isolated_root path)) then
          mkResult [] [] [] [] ["per-observation snapshot missing staged file"]
            [path +:+ ":rejected:missing-file"]
        else
          let task_cgroup :=
            if bool_decide (o_cgroup_root options = "") then "" else cgroup_directory h options in
          if negb (bool_decide (o_cgroup_root options = "")) && negb (h_create_directory h task_cgroup)
          then mkResult [] [] [] [] ["cgroup task creation failed"] []
          else
            let config := observation_config options isolated_root task_cgroup in
            let sandbox_path := "/" +:+ path in
            let command := if script then ["/bin/sh"; sandbox_path; "install"] else [sandbox_path] in
            captured_result path script config
              (h_run_captured h command config (o_timeout options) (o_output_limit options))
    end.

(** An observation never runs without isolation: whatever path, root and
    options it is given (a timeout of at most a day, a cgroup root that is
    absolute and not a link), the sandbox it configures is acceptable, has its
    own user, mount and network namespaces, drops capabilities, sets
    no_new_privileges and installs the package filter. *)
Theorem observation_isolated options root task_cgroup is_symlink :
  0 ≤ o_timeout options ≤ 86400 →
  task_cgroup = "" ∨ (is_absolute task_cgroup = true ∧ is_symlink task_cgroup = false) →
  let c := observation_config options root task_cgroup in
  acceptable is_symlink c ∧
  user_namespace c = true ∧ mount_namespace c = true ∧ network_namespace c = true ∧
  drop_capabilities c = true ∧ no_new_privileges c = true ∧
  seccomp_allowlist c = default_package_syscalls ∧ clean_environment c = true.
Proof.
  intros Ht Hcg. cbn zeta. split; [|done].
  constructor; cbn [observation_config backend mount_namespace user_namespace network_namespace
    drop_capabilities no_new_privileges seccomp_allowlist cpu_seconds address_space_bytes
    max_processes cgroup cg_path]; try done; try lia; auto.
  - rewrite u64_small by lia. lia.
  - destruct Hcg as [->|[Ha Hs]]; [by left|]. right. constructor; cbn; [done|lia|lia].
Qed.

Lemma observation_isolated_witness :
  acceptable (λ _, false) (observation_config (mkOptions 30 30 false false 4 1048576 "") "/tmp/r" "").
Proof.
  apply (observation_isolated (mkOptions 30 30 false false 4 1048576 "") "/tmp/r" "" (λ _, false));
    [cbn; lia|left; reflexivity].
Defined.

(** The text an observation records of a run is not always JSON: a control
    character other than newline and carriage return in the program's output
    is copied into the event unescaped. *)
Theorem observed_control_character c :
  printable c = false → c ≠ newline → c ≠ carriage_return →
  parse_document
    (default "" (r_events (captured_result "x" false default_config
                             (mkCaptured 0 false false (str c) "")) !! 1%nat)) = None.
Proof.
  intros Hp Hn Hr. destruct c as [[] [] [] [] [] [] [] []]; try discriminate Hp;
    try (by exfalso; apply Hn); try (by exfalso; apply Hr); vm_compute; reflexivity.
Qed.

Lemma observed_control_character_witness :
  parse_document
    (default "" (r_events (captured_result "x" false default_config
                             (mkCaptured 0 false false (str tab) "")) !! 1%nat)) = None.
Proof. apply observed_control_character; [reflexivity|discriminate|discriminate]. Defined.
