(* ===== verification/ObservedTrace.v ===== *)
(** * The trace of an observed program, end to end

    A traced sandbox runs [trace::run] with the [StderrTraceReporter]
    (src/sandbox/sandbox.cpp); [run_one] (src/package/observation.cpp) finds its
    lines in the captured standard error, between those of the program.  This
    file composes the tracer, the reporter and the extraction. *)

From S2P Require Import Prelude CxxString Lines FsPath Json Event Stop Memory SyscallDecoder.
From S2P Require Import Report Tracer TracerScript TracerSpec TracerReports Capture Sandbox Observation.

(** ** Two writers of one stream *)

(** A line on standard error: the tracer's for an event, or the program's. *)
Definition stderr_line (l : Event + string) : string :=
  match l with
  | inl e => trace_line e
  | inr s => s +:+ str newline
  end.

Definition stderr_text (ls : list (Event + string)) : string := concat_str (map stderr_line ls).

Definition traced_events (ls : list (Event + string)) : list Event :=
  omap (λ l, match l with inl e => Some e | inr _ => None end) ls.

(** A line of the program that does not hold the marker. *)
Definition plain_line (l : Event + string) : Prop :=
  match l with
  | inl _ => True
  | inr s => str_elem newline s = false ∧ after_marker s = None
  end.

Lemma marked_stderr ls : Forall plain_line ls → marked (stderr_text ls) = map trace_payload (traced_events ls).
Proof.
  unfold stderr_text. induction 1 as [|l ls Hl _ IH]; [done|]. cbn [map concat_str].
  destruct l as [e|s]; cbn [stderr_line].
  - rewrite marked_trace_line, IH. done.
  - destruct Hl as [Hn Hm]. rewrite app_assoc_str. change (str newline +:+ ?t) with (String newline t).
    rewrite marked_line, Hm, IH by done. done.
Qed.

(** ** From the stops to the recorded events *)

Section Observed.
Context {W : Type} (K : Kernel W).

(** C18: what an observation records of a traced run is its trace: the tracer
    writes one line for each event of a complete trace (or none, when it fails
    before the first), and whatever lines without the marker the program
    writes between them, the events recorded after the two of the run itself
    are those of the trace, in order, each a JSON object with the event's kind,
    process and number. *)
Theorem observed_trace_is_trace fuel w code text w' :
  Tracer.run K fuel ("" : StderrTraceReporter.t) w = Some (code, text, w') →
  ∃ es, text = stderr_text (map inl es) ∧
    ((es = [] ∧ code = EXIT_FAILURE) ∨ ∃ root, (k_fork K w).1 = Ok root ∧ final_trace root code es) ∧
    ∀ ls path script config c,
      traced_events ls = es → Forall plain_line ls → c_stderr c = stderr_text ls →
      drop 2 (r_events (captured_result path script config c)) = map trace_payload es ∧
      Forall (λ e, parse_document (trace_payload e) = Some (trace_json e)) es.
Proof.
  intros Hr. destruct (run_reports K fuel ("" : StderrTraceReporter.t) text w code w' Hr)
    as (es & -> & Ht).
  exists es. split; [|split; [exact Ht|]].
  - rewrite report_all_trace, app_empty_l. unfold stderr_text. by rewrite map_map.
  - intros ls path script config c Hes Hp Hc. split; [|apply (trace_round_trip es)].
    unfold captured_result. cbn [r_events app drop]. rewrite Hc, extract_marked, add_events_events.
    by rewrite marked_stderr, Hes.
Qed.

End Observed.

(** A program that starts and exits with 3, and prints a line in between. *)
Lemma observed_trace_is_trace_witness :
  ∃ text w', Tracer.run (script_kernel 7) 5 ("" : StderrTraceReporter.t)
               (script [sc_signal 7 SIGTRAP; sc_exit 7 3]) = Some (3, text, w') ∧
  ∃ es, text = stderr_text (map inl es) ∧
    ∀ path script config c,
      c_stderr c = "hello" +:+ str newline +:+ text →
      drop 2 (r_events (captured_result path script config c)) = map trace_payload es.
Proof.
  eexists _, _. split; [vm_compute; reflexivity|].
  destruct (observed_trace_is_trace (script_kernel 7) 5 (script [sc_signal 7 SIGTRAP; sc_exit 7 3])
    3 _ _ ltac:(vm_compute; reflexivity)) as (es & Ht & _ & He).
  exists es. split; [exact Ht|]. intros path script config c Hc.
  apply (He (inr "hello" :: map inl es) path script config c).
  - cbn. clear. induction es as [|e es IH]; [done|]. cbn. f_equal. exact IH.
  - constructor; [split; reflexivity|]. apply Forall_fmap, Forall_true. done.
  - rewrite Hc, Ht. reflexivity.
Defined.
