(* ===== verification/Observe.v ===== *)
(** * The observation of a package (observe of src/package/observation.cpp)

    The tasks of an observation are handled by worker threads that claim them
    from a shared counter, while the main thread destroys the workers: the
    destructor of a [std::jthread] requests a stop and joins.  The threads are
    a transition system over their shared state, one rule per atomic action;
    the merged result is a function of the partial results it leaves. *)

From S2P Require Import Prelude CxxString FsPath Json Event Report Capture Seccomp Sandbox.
From S2P Require Import Observation.

(** ** The worker pool *)

(** Where a worker is: before the test of its stop token, before the claim of
    an index, at work on a task, or returned. *)
Inductive worker := LoopStart | Checked | Working (index : nat) | Returned.

Record Pool (R : Type) := mkPool {
  p_next : nat;
  p_partial : list R;
  p_workers : list worker;
  p_stops : list bool;
  (** the workers the main thread has destroyed *)
  p_cleared : nat;
}.
Arguments mkPool {R}.
Arguments p_next {R}.
Arguments p_partial {R}.
Arguments p_workers {R}.
Arguments p_stops {R}.
Arguments p_cleared {R}.

Section Pool.
(** The results a task that is run can leave (they depend on the time left for
    it and on the system; a run that throws leaves what it had recorded and its
    failure), and the result of one that finds the global budget exhausted;
    [n] tasks. *)
Context {R : Type} (empty : R) (run : nat → R → Prop) (expired : nat → R) (n : nat).

Definition initial (workers : nat) : Pool R :=
  mkPool 0 (replicate n empty) (replicate workers LoopStart) (replicate workers false) 0.

Inductive pool_step : Pool R → Pool R → Prop :=
| step_stop p k :
    p_workers p !! k = Some LoopStart → p_stops p !! k = Some true →
    pool_step p (mkPool (p_next p) (p_partial p) (<[k := Returned]> (p_workers p)) (p_stops p)
                   (p_cleared p))
| step_check p k :
    p_workers p !! k = Some LoopStart → p_stops p !! k = Some false →
    pool_step p (mkPool (p_next p) (p_partial p) (<[k := Checked]> (p_workers p)) (p_stops p)
                   (p_cleared p))
| step_claim p k :
    p_workers p !! k = Some Checked →
    pool_step p (mkPool (S (p_next p)) (p_partial p)
                   (<[k := if (p_next p <? n)%nat then Working (p_next p) else Returned]>
                      (p_workers p))
                   (p_stops p) (p_cleared p))
| step_run p k i x :
    p_workers p !! k = Some (Working i) → run i x →
    pool_step p (mkPool (p_next p) (<[i := x]> (p_partial p)) (<[k := LoopStart]> (p_workers p))
                   (p_stops p) (p_cleared p))
| step_expire p k i :
    p_workers p !! k = Some (Working i) →
    pool_step p (mkPool (p_next p) (<[i := expired i]> (p_partial p)) (<[k := Returned]> (p_workers p))
                   (p_stops p) (p_cleared p))
| step_request p :
    p_stops p !! p_cleared p = Some false →
    pool_step p (mkPool (p_next p) (p_partial p) (p_workers p) (<[p_cleared p := true]> (p_stops p))
                   (p_cleared p))
| step_join p :
    p_stops p !! p_cleared p = Some true → p_workers p !! p_cleared p = Some Returned →
    pool_step p (mkPool (p_next p) (p_partial p) (p_workers p) (p_stops p) (S (p_cleared p))).

(** [workers.clear()] has returned. *)
Definition cleared (p : Pool R) : Prop := p_cleared p = length (p_workers p).

(** *** Invariant *)

Record pool_inv (p : Pool R) : Prop := {
  pi_length : length (p_partial p) = n;
  pi_claimed : ∀ k i, p_workers p !! k = Some (Working i) → (i < p_next p)%nat ∧ (i < n)%nat;
  pi_distinct : ∀ k k' i, p_workers p !! k = Some (Working i) →
    p_workers p !! k' = Some (Working i) → k = k';
  pi_pending : ∀ k i, p_workers p !! k = Some (Working i) → p_partial p !! i = Some empty;
  pi_fresh : ∀ i x, (p_next p ≤ i)%nat → p_partial p !! i = Some x → x = empty;
  pi_done : ∀ i x, (i < p_next p)%nat → p_partial p !! i = Some x →
    (∀ k, p_workers p !! k ≠ Some (Working i)) → run i x ∨ x = expired i;
  pi_cleared : ∀ k, (k < p_cleared p)%nat → p_workers p !! k = Some Returned;
  pi_bound : (p_cleared p ≤ length (p_workers p))%nat;
}.

Lemma initial_inv workers : pool_inv (initial workers).
Proof.
  split; cbn.
  - apply length_replicate.
  - intros k i [? _]%lookup_replicate. done.
  - intros k k' i [? _]%lookup_replicate. done.
  - intros k i [? _]%lookup_replicate. done.
  - intros i x _ [? _]%lookup_replicate. done.
  - lia.
  - lia.
  - lia.
Qed.

Lemma working_insert (ws : list worker) k b k' i :
  <[k := b]> ws !! k' = Some (Working i) →
  (k' = k ∧ b = Working i) ∨ (k' ≠ k ∧ ws !! k' = Some (Working i)).
Proof. rewrite list_lookup_insert_Some. naive_solver. Qed.

(** A worker without a task moves to another such state. *)
Lemma inv_idle p k a b next :
  pool_inv p → p_workers p !! k = Some a → a ≠ Returned →
  (∀ i, a ≠ Working i) → (∀ i, b ≠ Working i) →
  next = p_next p ∨ (next = S (p_next p) ∧ (n ≤ p_next p)%nat) →
  pool_inv (mkPool next (p_partial p) (<[k := b]> (p_workers p)) (p_stops p) (p_cleared p)).
Proof.
  intros [Hl Hc Hd Hp Hf Hdn Hcl Hb] Ha Hret Hna Hnb Hnext.
  assert (∀ k' i, <[k := b]> (p_workers p) !! k' = Some (Working i) →
                  p_workers p !! k' = Some (Working i)) as Hold.
  { intros k' i [[_ ?]|[_ ?]]%working_insert; [by destruct (Hnb i)|done]. }
  split; cbn.
  - done.
  - intros k' i Hw. destruct (Hc _ _ (Hold _ _ Hw)). lia.
  - intros k1 k2 i H1 H2. eapply Hd; eauto.
  - intros k' i Hw. eapply Hp; eauto.
  - intros i x Hi Hx. eapply Hf; [|done]. lia.
  - intros i x Hi Hx Hw. assert (i < p_next p)%nat as Hlt.
    { apply lookup_lt_Some in Hx. lia. }
    apply (Hdn i x Hlt Hx). intros k' Hk'. apply (Hw k').
    rewrite list_lookup_insert_ne; [done|]. intros ->. rewrite Ha in Hk'. injection Hk' as ->.
    by destruct (Hna i).
  - intros k' Hk'. rewrite list_lookup_insert_ne; [by apply Hcl|].
    intros ->. apply Hcl in Hk'. rewrite Ha in Hk'. by injection Hk'.
  - by rewrite length_insert.
Qed.

(** A worker stores the result of its task. *)
Lemma inv_finish p k i b x :
  pool_inv p → p_workers p !! k = Some (Working i) → (∀ j, b ≠ Working j) →
  run i x ∨ x = expired i →
  pool_inv (mkPool (p_next p) (<[i := x]> (p_partial p)) (<[k := b]> (p_workers p)) (p_stops p)
              (p_cleared p)).
Proof.
  intros [Hl Hc Hd Hp Hf Hdn Hcl Hb] Ha Hnb Hx.
  assert (∀ k' j, <[k := b]> (p_workers p) !! k' = Some (Working j) →
                  k' ≠ k ∧ p_workers p !! k' = Some (Working j) ∧ j ≠ i) as Hold.
  { intros k' j [[_ ?]|[Hne Hw]]%working_insert; [by destruct (Hnb j)|].
    split_and!; [done|done|]. intros ->. by apply Hne, (Hd _ _ i). }
  split; cbn.
  - by rewrite length_insert.
  - intros k' j Hw. destruct (Hold _ _ Hw) as (_ & Hw' & _). eauto.
  - intros k1 k2 j H1 H2. destruct (Hold _ _ H1) as (_ & ? & _), (Hold _ _ H2) as (_ & ? & _). eauto.
  - intros k' j Hw. destruct (Hold _ _ Hw) as (_ & Hw' & Hne).
    rewrite list_lookup_insert_ne by done. eauto.
  - intros j y Hj Hy. destruct (Hc _ _ Ha). rewrite list_lookup_insert_ne in Hy by lia. eauto.
  - intros j y Hj Hy Hw. rewrite list_lookup_insert_Some in Hy.
    destruct Hy as [(-> & <- & _)|[Hne Hy]]; [done|]. apply (Hdn j y Hj Hy).
    intros k' Hk'. apply (Hw k'). rewrite list_lookup_insert_ne; [done|].
    intros ->. rewrite Ha in Hk'. by injection Hk'.
  - intros k' Hk'. rewrite list_lookup_insert_ne; [by apply Hcl|].
    intros ->. apply Hcl in Hk'. by rewrite Ha in Hk'.
  - by rewrite length_insert.
Qed.

(** A worker claims the next task. *)
Lemma inv_claim p k :
  pool_inv p → p_workers p !! k = Some Checked → (p_next p < n)%nat →
  pool_inv (mkPool (S (p_next p)) (p_partial p) (<[k := Working (p_next p)]> (p_workers p))
              (p_stops p) (p_cleared p)).
Proof.
  intros [Hl Hc Hd Hp Hf Hdn Hcl Hb] Ha Hn.
  split; cbn.
  - done.
  - intros k' i [[_ [= <-]]|[_ Hw]]%working_insert; [lia|]. destruct (Hc _ _ Hw). lia.
  - intros k1 k2 i [[-> E1]|[Hn1 H1]]%working_insert [[-> E2]|[Hn2 H2]]%working_insert;
      [done| | |by eapply Hd].
    + injection E1 as <-. destruct (Hc _ _ H2). lia.
    + injection E2 as <-. destruct (Hc _ _ H1). lia.
  - intros k' i [[_ [= <-]]|[_ Hw]]%working_insert; [|eauto].
    destruct (lookup_lt_is_Some_2 (p_partial p) (p_next p)) as [x Hx]; [lia|].
    rewrite Hx. f_equal. by apply (Hf (p_next p)).
  - intros i x Hi Hx. eapply Hf; [|done]. lia.
  - intros i x Hi Hx Hw. destruct (decide (i = p_next p)) as [->|Hne].
    + exfalso. apply (Hw k). apply list_lookup_insert_eq. by eapply lookup_lt_Some.
    + apply (Hdn i x); [lia|done|]. intros k' Hk'. apply (Hw k').
      rewrite list_lookup_insert_ne; [done|]. intros ->. by rewrite Ha in Hk'.
  - intros k' Hk'. rewrite list_lookup_insert_ne; [by apply Hcl|].
    intros ->. apply Hcl in Hk'. by rewrite Ha in Hk'.
  - by rewrite length_insert.
Qed.

Lemma step_inv p p' : pool_inv p → pool_step p p' → pool_inv p'.
Proof.
  intros Hp Hs. destruct Hs as [p k Hk _|p k Hk _|p k Hk|p k i x Hk Hx|p k i Hk|p _|p Hst Hw].
  - by eapply inv_idle; eauto.
  - by eapply inv_idle; eauto.
  - destruct (Nat.ltb_spec (p_next p) n); [by apply inv_claim|].
    by eapply inv_idle; eauto.
  - by apply inv_finish; auto.
  - by apply inv_finish; auto.
  - by destruct Hp; split.
  - destruct Hp as [? ? ? ? ? ? Hcl Hb]. split; try done; cbn.
    + intros k Hk. destruct (decide (k = p_cleared p)) as [->|]; [done|]. apply Hcl. lia.
    + apply lookup_lt_Some in Hw. lia.
Qed.

Lemma steps_inv p p' : pool_inv p → rtc pool_step p p' → pool_inv p'.
Proof. induction 2; eauto using step_inv. Qed.

(** The slots once the workers have been joined. *)
Lemma pool_slots workers p :
  rtc pool_step (initial workers) p → cleared p →
  length (p_partial p) = n ∧
  ∃ m, ∀ i x, p_partial p !! i = Some x →
    ((i < m)%nat → run i x ∨ x = expired i) ∧ ((m ≤ i)%nat → x = empty).
Proof.
  intros Hr Hc. destruct (steps_inv _ _ (initial_inv workers) Hr) as [Hl _ _ _ Hf Hd Hcl _].
  split; [done|]. exists (p_next p). intros i x Hx. split; [|eauto].
  intros Hi. apply (Hd i x Hi Hx). intros k Hk.
  assert (p_workers p !! k = Some Returned) as E; [|by rewrite E in Hk].
  apply Hcl. rewrite Hc. by eapply lookup_lt_Some.
Qed.

(** Whatever the interleaving of the workers and of the main thread, when
    the workers have been joined there is a number of tasks up to which the slot
    of every task holds a result of its own run (or of its expiry), and beyond
    which every slot is still empty: a claimed task is never lost, and no result
    is overwritten or stored for another task. *)
Theorem pool_results workers p :
  rtc pool_step (initial workers) p → cleared p →
  length (p_partial p) = n ∧
  ∃ m, ∀ i x, p_partial p !! i = Some x →
    ((i < m)%nat → run i x ∨ x = expired i) ∧ ((m ≤ i)%nat → x = empty).
Proof. apply pool_slots. Qed.

(** The partial results are those of a first part of the tasks, in their order,
    and empty ones. *)
Lemma pool_prefix workers p :
  rtc pool_step (initial workers) p → cleared p →
  ∃ l k, p_partial p = l ++ replicate k empty ∧ (length l + k = n)%nat ∧
         ∀ i x, l !! i = Some x → run i x ∨ x = expired i.
Proof.
  intros Hr Hc. destruct (pool_slots _ _ Hr Hc) as (Hl & m & Hm).
  exists (take m (p_partial p)), (length (drop m (p_partial p))).
  split_and!.
  - rewrite <- (take_drop m (p_partial p)) at 1. f_equal.
    apply list_eq_same_length with (length (drop m (p_partial p))); [by rewrite length_replicate|done|].
    intros i x y _ Hx [-> _]%lookup_replicate. rewrite lookup_drop in Hx.
    by apply (Hm _ _ Hx); lia.
  - rewrite <- length_app, take_drop. done.
  - intros i x [Hx Hi]%lookup_take_Some. by apply Hm.
Qed.

(** The main thread stops and joins worker [k] before it has tested its token. *)
Lemma clear_one p k :
  p_cleared p = k → p_workers p !! k = Some LoopStart → p_stops p !! k = Some false →
  rtc pool_step p
    (mkPool (p_next p) (p_partial p) (<[k := Returned]> (p_workers p)) (<[k := true]> (p_stops p))
       (S k)).
Proof.
  intros <- Hw Hs.
  assert (p_cleared p < length (p_stops p))%nat by by eapply lookup_lt_Some.
  assert (p_cleared p < length (p_workers p))%nat by by eapply lookup_lt_Some.
  eapply rtc_l; [by apply step_request|].
  eapply rtc_l; [apply (step_stop _ (p_cleared p)); cbn; [done|by apply list_lookup_insert_eq]|].
  eapply rtc_l; [apply step_join; cbn; by apply list_lookup_insert_eq|].
  apply rtc_refl.
Qed.

Lemma clear_all p :
  (∀ k, (p_cleared p ≤ k < length (p_workers p))%nat →
     p_workers p !! k = Some LoopStart ∧ p_stops p !! k = Some false) →
  (p_cleared p ≤ length (p_workers p))%nat →
  ∃ p', rtc pool_step p p' ∧ cleared p' ∧ p_partial p' = p_partial p.
Proof.
  remember (length (p_workers p) - p_cleared p)%nat as d eqn:Hd. revert p Hd.
  induction d as [|d IH]; intros p Hd Hk Hle.
  - exists p. split; [apply rtc_refl|]. split; [|done]. unfold cleared. lia.
  - destruct (Hk (p_cleared p)) as [Hw Hs]; [lia|].
    pose proof (clear_one p (p_cleared p) eq_refl Hw Hs) as Hone.
    match type of Hone with rtc _ _ ?q => destruct (IH q) as (p' & Hr & Hc & Hp) end; cbn.
    + rewrite length_insert. lia.
    + rewrite length_insert. intros k Hk'. rewrite !list_lookup_insert_ne by lia. apply Hk. lia.
    + rewrite length_insert. lia.
    + exists p'. split; [by etrans|]. by split.
Qed.

(** The destruction of the workers begins as soon as they are started, and
    it asks them to stop: there is an execution, for any number of workers and
    tasks, in which every worker returns before it claims a task and every
    partial result is left empty. *)
Theorem pool_may_run_nothing workers :
  ∃ p, rtc pool_step (initial workers) p ∧ cleared p ∧ p_partial p = replicate n empty.
Proof.
  destruct (clear_all (initial workers)) as (p & Hr & Hc & Hp); [| |by exists p].
  - cbn. rewrite length_replicate. intros k Hk. rewrite !lookup_replicate_2 by lia. done.
  - cbn. lia.
Qed.

End Pool.

(** A run of one worker over one task. *)
Lemma pool_results_witness :
  ∃ p, rtc (pool_step (λ _ x, x = 7%nat) (λ _, 8%nat) 1) (initial 0%nat 1 1) p ∧ cleared p ∧
  length (p_partial p) = 1%nat ∧
  ∃ m, ∀ i x, p_partial p !! i = Some x →
    ((i < m)%nat → x = 7%nat ∨ x = 8%nat) ∧ ((m ≤ i)%nat → x = 0%nat).
Proof.
  set (p := mkPool 2 [7%nat] [Returned] [true] 1).
  assert (rtc (pool_step (λ _ x, x = 7%nat) (λ _, 8%nat) 1) (initial 0%nat 1 1) p) as Hr.
  { eapply rtc_l; [apply (step_check _ _ _ _ 0); reflexivity|].
    eapply rtc_l; [apply (step_claim _ _ _ _ 0); reflexivity|].
    eapply rtc_l; [apply (step_run _ _ _ _ 0 0 7%nat); reflexivity|].
    eapply rtc_l; [apply (step_check _ _ _ _ 0); reflexivity|].
    eapply rtc_l; [apply (step_claim _ _ _ _ 0); reflexivity|].
    eapply rtc_l; [apply step_request; reflexivity|].
    eapply rtc_l; [apply step_join; reflexivity|]. apply rtc_refl. }
  exists p. split; [exact Hr|]. split; [reflexivity|].
  exact (pool_results 0%nat (λ _ x, x = 7%nat) (λ _, 8%nat) 1 1 p Hr eq_refl).
Defined.

(** ** The merged result *)

Record ObservedTask := mkTask { t_path : string; t_script : bool }.

(** The tasks, in the order they are queued. *)
Definition queue (scripts hooks executables : list string) : list ObservedTask :=
  map (λ p, mkTask p true) scripts ++ map (λ p, mkTask p true) hooks ++
  map (λ p, mkTask p false) executables.

(** What is recorded for a task claimed after the deadline. *)
Definition expired_result (t : ObservedTask) : Result :=
  mkResult [] [] [] [t_path t +:+ ":skipped:global-timeout"]
    ["global observation budget exhausted"] [t_path t +:+ ":skipped:global-timeout"].

(** The number of workers. *)
Definition worker_count (options : Options) (tasks : list ObservedTask) : nat :=
  Nat.min (Nat.max (Z.to_nat (o_max_workers options)) 1) (length tasks).

(** [observe], from the partial results the workers leave; [present] is
    [exists(rootfs / path)] and [setuid_found] the walk over the root. *)
Definition observe (options : Options) (present : string → bool) (setuid_found : bool)
    (tasks : list ObservedTask) (partial : list Result) : Result :=
  let start := mkResult
    [quoted "{'schema_version':1,'type':'observation_start','network':'" +:+
     (if o_network options then "requested" else "isolated") +:+ quoted "'}";
     quoted "{'schema_version':1,'type':'sandbox_policy','no_new_privileges':true,'capabilities':'dropped'}"]
    [] [] (if bool_decide (tasks = []) then ["*:skipped:no executables discovered"] else []) [] [] in
  let merged := foldl append_result start partial in
  let services :=
    if present "etc/systemd/system" || present "etc/init.d"
    then mkResult [quoted "{'schema_version':1,'type':'service_path'}"] [] [] []
           ["service activation or persistence path present"] []
    else empty_result in
  let persistence :=
    if present "etc/cron.d" || present "etc/cron.hourly" || present "etc/cron.daily"
    then mkResult [quoted "{'schema_version':1,'type':'persistence_path'}"] [] [] []
           ["scheduled persistence path present"] []
    else empty_result in
  let privilege :=
    if setuid_found
    then mkResult [quoted "{'schema_version':1,'type':'privilege_change'}"] [] [] []
           ["setuid payload present"] []
    else empty_result in
  let complete :=
    mkResult [quoted "{'schema_version':1,'type':'observation_complete'}"] [] [] [] [] [] in
  foldl append_result merged [services; persistence; privilege; complete].

Lemma append_coverage r l :
  r_coverage (foldl append_result r l) = r_coverage r ++ flat_map r_coverage l.
Proof.
  revert r. induction l as [|x l IH]; intros r; [by rewrite app_nil_r|].
  cbn [foldl flat_map]. rewrite IH. cbn. by rewrite <- app_assoc.
Qed.

Lemma observe_coverage options present setuid_found tasks partial :
  r_coverage (observe options present setuid_found tasks partial) = flat_map r_coverage partial.
Proof.
  unfold observe. rewrite !append_coverage. cbn [r_coverage app flat_map].
  repeat case_match; cbn; by rewrite app_nil_r.
Qed.

Lemma replicate_coverage n : flat_map r_coverage (replicate n empty_result) = [].
Proof. by induction n. Qed.

(** ** What a task leaves *)

(** [task_options]: a run is given what is left of the global budget, in
    seconds, when that is less than its own timeout. *)
Definition task_options (options : Options) (seconds : Z) : Options :=
  mkOptions (Z.min (o_timeout options) seconds) (o_global_timeout options) (o_network options)
    (o_run_all options) (o_max_workers options) (o_output_limit options) (o_cgroup_root options).

(** What the handlers of exceptions add. *)
Definition worker_failure (what : string) : Result :=
  mkResult [quoted "{'schema_version':1,'type':'worker_failure'}"] [] [] []
    ["observation worker failed: " +:+ what] [].

(** What was recorded when a run threw: a first part of what it would have. *)
Record recorded (part whole : Result) : Prop := {
  rec_events : r_events part `prefix_of` r_events whole;
  rec_processes : r_processes part `prefix_of` r_processes whole;
  rec_network : r_network part `prefix_of` r_network whole;
  rec_smoke : r_smoke part `prefix_of` r_smoke whole;
  rec_factors : r_risk_factors part `prefix_of` r_risk_factors whole;
  rec_coverage : r_coverage part `prefix_of` r_coverage whole;
}.

Section Slots.
(** The systems a run may find. *)
Context (possible : Host → Prop) (root : string) (options : Options) (tasks : list ObservedTask).

(** The results the body of a worker's loop leaves for a task it runs. *)
Inductive slot_result (i : nat) : Result → Prop :=
| slot_ran t h seconds :
    tasks !! i = Some t → possible h → 1 ≤ seconds →
    slot_result i (run_one h root (t_path t) (t_script t) (task_options options seconds))
| slot_failed t h seconds part what :
    tasks !! i = Some t → possible h → 1 ≤ seconds →
    recorded part (run_one h root (t_path t) (t_script t) (task_options options seconds)) →
    slot_result i (append_result part (worker_failure what)).

(** The pool of [observe]. *)
Definition observe_step : Pool Result → Pool Result → Prop :=
  pool_step slot_result (λ i, from_option expired_result empty_result (tasks !! i)) (length tasks).

Definition observe_start : Pool Result :=
  initial empty_result (length tasks) (worker_count options tasks).

Lemma append_empty l : ∀ r k, foldl append_result r (l ++ replicate k empty_result) = foldl append_result r l.
Proof.
  intros r k. rewrite foldl_app. generalize (foldl append_result r l). intros x.
  induction k as [|k IH]; [done|]. cbn. replace (append_result x empty_result) with x; [done|].
  destruct x. unfold append_result. cbn. by rewrite !app_nil_r.
Qed.

(** C20: however the workers are interleaved, the merged result of an
    observation is that of running a first part of the tasks one after the
    other in the order of the queue: each of them left the result of a run of
    that very task, or of its expiry, and the tasks after them left nothing. *)
Theorem observation_is_sequential present setuid_found p :
  rtc observe_step observe_start p → cleared p →
  ∃ l, (length l ≤ length tasks)%nat ∧
    (∀ i x, l !! i = Some x →
       slot_result i x ∨ ∃ t, tasks !! i = Some t ∧ x = expired_result t) ∧
    observe options present setuid_found tasks (p_partial p)
    = observe options present setuid_found tasks l.
Proof.
  intros Hr Hc. destruct (pool_prefix _ _ _ _ _ _ Hr Hc) as (l & k & Hp & Hk & Hl).
  exists l. split_and!; [lia| |].
  - intros i x Hx. destruct (Hl _ _ Hx) as [|Hx']; [by left|right].
    destruct (lookup_lt_is_Some_2 tasks i) as [t Ht]; [apply lookup_lt_Some in Hx; lia|].
    exists t. rewrite Ht in Hx'. done.
  - unfold observe. by rewrite Hp, append_empty.
Qed.

End Slots.

(** One task, one worker, and a system on which the file was not staged. *)
Lemma observation_is_sequential_witness :
  let host := mkHost 7 (λ _, false) None 0 (λ _, true) (λ _ _ _ _, no_capture) in
  let options := mkOptions 30 30 false false 4 1048576 "" in
  let tasks := [mkTask "usr/bin/a" false] in
  let x := run_one host "/srv" "usr/bin/a" false (task_options options 12) in
  ∃ p, rtc (observe_step (.= host) "/srv" options tasks) (observe_start options tasks) p ∧ cleared p ∧
       p_partial p = [x] ∧
       ∃ l, (length l ≤ 1)%nat ∧
         observe options (λ _, false) false tasks (p_partial p) = observe options (λ _, false) false tasks l.
Proof.
  intros host options tasks x. set (p := mkPool 2 [x] [Returned] [true] 1).
  assert (rtc (observe_step (.= host) "/srv" options tasks) (observe_start options tasks) p) as Hr.
  { eapply rtc_l; [apply (step_check _ _ _ _ 0); reflexivity|].
    eapply rtc_l; [apply (step_claim _ _ _ _ 0); reflexivity|].
    eapply rtc_l; [apply (step_run _ _ _ _ 0 0 x); [reflexivity|]|].
    { apply (slot_ran (.= host) "/srv" options tasks 0 (mkTask "usr/bin/a" false) host 12); [done|done|lia]. }
    eapply rtc_l; [apply (step_check _ _ _ _ 0); reflexivity|].
    eapply rtc_l; [apply (step_claim _ _ _ _ 0); reflexivity|].
    eapply rtc_l; [apply step_request; reflexivity|].
    eapply rtc_l; [apply step_join; reflexivity|]. apply rtc_refl. }
  exists p. split; [exact Hr|]. split; [reflexivity|]. split; [reflexivity|].
  destruct (observation_is_sequential _ _ _ _ (λ _, false) false p Hr eq_refl) as (l & Hl & _ & He).
  exists l. split; [exact Hl|exact He].
Defined.

(** An observation can end without having run, or recorded, any of its
    tasks: for every queue, runs of the tasks and number of workers there is an
    execution after which the coverage of the result is empty, although the
    result says that the observation is complete. *)
Theorem observe_may_cover_nothing options present setuid_found tasks run :
  ∃ p, rtc (pool_step run (λ i, from_option expired_result empty_result (tasks !! i))
              (length tasks))
         (initial empty_result (length tasks) (worker_count options tasks)) p ∧
  cleared p ∧
  r_coverage (observe options present setuid_found tasks (p_partial p)) = [].
Proof.
  destruct (clear_all run (λ i, from_option expired_result empty_result (tasks !! i)) (length tasks)
    (initial empty_result (length tasks) (worker_count options tasks))) as (p & Hr & Hc & Hp).
  - cbn. rewrite length_replicate. intros k Hk. rewrite !lookup_replicate_2 by lia. done.
  - cbn. lia.
  - exists p. split; [done|]. split; [done|]. rewrite observe_coverage, Hp. apply replicate_coverage.
Qed.
