(* ===== verification/Scan.v ===== *)
(** * The scan of a package (scan of src/package/package.cpp)

    The stages of a scan in their order: the checks on the options, the
    inspection, the session and its root, the installation, the differences,
    the programs that are staged and observed, the risk, the database and the
    documents.  A stage that ends the scan gives the result it returns; the
    root is released on every way out. *)

From S2P Require Import Prelude CxxString FsPath Json Capture Seccomp Sandbox.
From S2P Require Import Archive Network Risk Fingerprint Package Inspect Storage.
From S2P Require Import Rootfs Diff Artifacts Observation Observe.

(** ** Streams *)

(** An [std::ifstream] and the bits of its state that the scanner asks for. *)
Record Ifstream := mkIfstream { rdbuf : string; eofbit : bool; failbit : bool }.

(** The constructor on a file. *)
Definition open_stream (content : option string) : Ifstream :=
  match content with
  | Some text => mkIfstream text false false
  | None => mkIfstream "" false true
  end.

(** A string made of two [istreambuf_iterator]s: they take the characters from
    the buffer, and do not touch the state of the stream. *)
Definition read_buffer (input : Ifstream) : string * Ifstream :=
  (rdbuf input, mkIfstream "" (eofbit input) (failbit input)).

(** ** What a scan asks of the system *)

(** The outcome of [create_directory] with an error code. *)
Inductive Created := CreatedNew | CreatedExists | CreatedError.

Record ScanOps (A W : Type) := mkScanOps {
  (** the package: its files, its archive and gpgv *)
  so_host : PackageHost A;
  so_fs : RootfsOps W;
  so_files : RootOps W;
  so_artifacts : ArtifactOps W;
  so_sqlite : Sqlite W;
  so_sqlite_open : W → string → expected unit string * W;
  so_sqlite_close : W → W;
  so_pid : Z;
  so_uid : Z;
  (** [steady_clock::now().time_since_epoch().count()] *)
  so_clock : W → Z * W;
  (** [temp_directory_path] *)
  so_temp : string;
  so_mkdir : W → string → Created * W;
  (** the walk of [snapshot], when the root exists *)
  so_walk : W → string → option (list Diff.Entry);
  (** the content of a file that can be opened *)
  so_content : W → string → option string;
  so_run_captured : W → list string → Config → Z → Captured * W;
  (** the partial results that the workers of an observation leave, and
      whether a file of the root has its set-user-id bit *)
  so_observed : W → string → list ObservedTask → Observation.Options → list Observation.Result * W;
  so_setuid : W → string → bool;
}.
Arguments so_host {A W}.
Arguments so_fs {A W}.
Arguments so_files {A W}.
Arguments so_artifacts {A W}.
Arguments so_sqlite {A W}.
Arguments so_sqlite_open {A W}.
Arguments so_sqlite_close {A W}.
Arguments so_pid {A W}.
Arguments so_uid {A W}.
Arguments so_clock {A W}.
Arguments so_temp {A W}.
Arguments so_mkdir {A W}.
Arguments so_walk {A W}.
Arguments so_content {A W}.
Arguments so_run_captured {A W}.
Arguments so_observed {A W}.
Arguments so_setuid {A W}.

(** ** Refusals *)

Definition set_assessment (a : Assessment) (r : Package.Result) : Package.Result :=
  Package.set_risk (score a) (level_text (level a)) (action_text (action a)) r.

(** The result for a request to scan with privileges. *)
Definition refuse_privileged : Package.Result :=
  Package.set_risk 0 "critical" "reject"
    (Package.set_error "privileged package scanning is disabled: rootless mode required"
       Package.no_result).

(** The name a failed inspection is rejected under. *)
Definition reject_name (error : string) : string :=
  if contains_str error "signature" then "signature"
  else if contains_str error "architecture" then "architecture"
  else if contains_str error "unsafe" || contains_str error "escape" then "escape"
  else "package_validation".

Definition reject_inspection (r : Package.Result) : option Package.Result :=
  a ← Engine.assess (Engine.reject Engine.new (reject_name (Package.error r)) (Package.error r));
  Some (set_assessment a r).

(** [ok = false], an error, and a critical rejection. *)
Definition refuse_critical (message : string) (r : Package.Result) : Package.Result :=
  Package.set_risk (Package.risk_score r) "critical" "reject" (Package.refuse message r).

(** The checks on the mirrors: the result to return, if any. *)
Definition check_mirrors (options : Package.Options) (r : Package.Result) : option Package.Result :=
  if bool_decide (Package.network options = "mirror") && bool_decide (Package.mirrors options = [])
  then Some (refuse_critical "mirror network policy requires at least one --mirror allowlist entry" r)
  else
    match List.find (λ mirror, negb (valid_mirror mirror)) (Package.mirrors options) with
    | Some mirror => Some (refuse_critical ("invalid mirror allowlist entry: " +:+ mirror) r)
    | None => None
    end.

(** ** The stages *)

Section Stages.
Context {A W : Type} (O : ScanOps A W).

(** The loop of [unique_directory], with the attempts that are left; the empty
    path when it gives up. *)
Fixpoint unique_directory (attempts : nat) (attempt : Z) (w : W) (parent prefix : string)
    : string * W :=
  match attempts with
  | 0%nat => ("", w)
  | S attempts =>
      let '(stamp, w) := so_clock O w in
      let candidate :=
        path_append parent (prefix +:+ to_string (so_pid O) +:+ "-" +:+ to_string stamp +:+ "-" +:+
                            to_string attempt) in
      match so_mkdir O w candidate with
      | (CreatedNew, w) => (candidate, w)
      | (CreatedExists, w) => unique_directory attempts (attempt + 1) w parent prefix
      | (CreatedError, w) => ("", w)
      end
  end.

(** The session of a scan: its directory, the workspace and the root; or the
    result to return. *)
Definition open_session (w : W) (options : Package.Options) (r : Package.Result)
    : expected (Session * Package.Result) Package.Result * W :=
  let parent := Package.session_root options in
  if fs_symlink (so_fs O) w parent
  then (Err (Package.refuse "session root must not be symlink" r), w)
  else
    let '(ec, w) := if fs_exists (so_fs O) w parent then (None, w) else fs_mkdirs (so_fs O) w parent in
    match ec with
    | Some message =>
        (Err (Package.refuse ("rootfs creation failed: " +:+ message) (Package.set_session "" r)), w)
    | None =>
        let '(artifact, w) := unique_directory 1000 0 w parent "session-" in
        let r := Package.set_session artifact r in
        if bool_decide (artifact = "")
        then (Err (Package.refuse "unique session directory creation failed" r), w)
        else
          let '(workspace, w) := unique_directory 1000 0 w (so_temp O) "execell-rootfs-" in
          if bool_decide (workspace = "")
          then (Err (Package.refuse "rootfs workspace creation failed" r), w)
          else
            match create (so_fs O) (so_pid O) (so_uid O) w (Package.rootfs options) workspace with
            | (Err error, w) => (Err (Package.refuse error r), w)
            | (Ok s, w) => (Ok (s, r), w)
            end
    end.

(** The sandbox pacman runs in. *)
Definition install_config (root : string) (options : Package.Options) : Config :=
  mkConfig namespaces true true true true true false true false true true false
    (u64 (Package.timeout options)) 0 128 (128 * 1024 * 1024) root "" default_package_syscalls
    (mkCgroup (Package.cgroup_root options) 0 0 0 100000).

Definition install_command (package : string) : list string :=
  ["/usr/bin/pacman"; "-U"; "--noconfirm"; "--root"; "/"; "--dbpath"; "/var/lib/pacman";
   "/var/cache/pacman/pkg/" +:+ filename package].

(** The installation: the result so far, or the one to return. *)
Definition install (fuel : nat) (w : W) (root package : string) (options : Package.Options)
    (r : Package.Result) : option (expected Package.Result Package.Result * W) :=
  if fs_exists (so_fs O) w (path_append root "usr/bin/pacman") then
    let w := (fs_mkdirs (so_fs O) w (path_append root "var/lib/pacman")).2 in
    let w := (fs_mkdirs (so_fs O) w (path_append root "var/cache/pacman/pkg")).2 in
    let input := open_stream (so_content O w package) in
    let '(package_data, input) := read_buffer input in
    if negb (eofbit input) then Some (Err (Package.refuse "package staging failed" r), w)
    else
      '(written, w) ← write_root_file (so_files O) fuel w root
                        ("var/cache/pacman/pkg/" +:+ filename package) package_data false;
      if negb written then Some (Err (Package.refuse "package staging write failed" r), w)
      else
        let '(installed, w) :=
          so_run_captured O w (install_command package) (install_config root options)
            (Package.timeout options) in
        if c_timed_out installed || negb (c_status installed =? 0)
        then Some (Err (Package.refuse (if c_timed_out installed then "pacman install timed out"
                                        else "pacman install failed") r), w)
        else Some (Ok (Package.set_installed true r), w)
  else
    Some (Ok (Package.add_factors
                ["rootless pacman runtime unavailable; install behavior not observed"] r), w).

(** The lists of changes of the result. *)
Definition set_differences (d : Differences) (r : Package.Result) : Package.Result :=
  Package.set_changes (d_created d) (d_modified d) (d_deleted d) (d_mode d) (d_ownership d)
    (d_hash d) r.

(** The test on the content of a listed file. *)
Definition is_program (content : string) : bool :=
  starts_with content (String (ascii_of_nat 127) "ELF") || starts_with content "#!".

(** [stage] *)
Definition stage (fuel : nat) (w : W) (root package path : string) : option W :=
  let target := path_append root path in
  if fs_exists (so_fs O) w target then Some w
  else
    content ← read (ph_archive (so_host O) package) fuel default_limits path max_command_output;
    match content with
    | Err _ => Some w
    | Ok content =>
        let w := (fs_mkdirs (so_fs O) w (parent_path target)).2 in
        '(_, w) ← write_root_file (so_files O) fuel w root path content true;
        Some w
    end.

(** The loop over the files that may be executables. *)
Fixpoint find_executables (fuel : nat) (w : W) (root package : string) (files : list string)
    (m : Package.Metadata) : option (Package.Metadata * W) :=
  match files with
  | [] => Some (m, w)
  | path :: files =>
      content ← read (ph_archive (so_host O) package) fuel default_limits path max_command_output;
      match content with
      | Err _ => find_executables fuel w root package files m
      | Ok content =>
          if negb (is_program content) then find_executables fuel w root package files m
          else
            w ← stage fuel w root package path;
            find_executables fuel w root package files
              (Package.add_executable path (path +:+ ":" +:+ fingerprint content) m)
      end
  end.

Fixpoint stage_all (fuel : nat) (w : W) (root package : string) (paths : list string) : option W :=
  match paths with
  | [] => Some w
  | path :: paths => w ← stage fuel w root package path; stage_all fuel w root package paths
  end.

(** The number of files that are looked at. *)
Definition executable_limit (m : Package.Metadata) : nat := Nat.min (length (Package.files m)) 128.

(** Staging: the executables join the metadata, and scripts and hooks are
    staged too. *)
Definition stage_programs (fuel : nat) (w : W) (root package : string) (r : Package.Result)
    : option (Package.Result * W) :=
  let m := Package.metadata r in
  '(m, w) ← find_executables fuel w root package (take (executable_limit m) (Package.files m)) m;
  w ← stage_all fuel w root package (Package.scripts m);
  w ← stage_all fuel w root package (Package.hooks m);
  Some (Package.set_metadata m r, w).

Definition observation_options (options : Package.Options) : Observation.Options :=
  Observation.mkOptions (Package.timeout options) (Package.timeout options)
    (bool_decide (Package.network options = "mirror")) (Package.run_all options)
    (Package.workers options) (2 ^ 20) (Package.cgroup_root options).

(** [coverage_confidence]: the percentage of tasks that have a coverage line. *)
Definition confidence (covered expected : nat) : Z :=
  if (expected =? 0)%nat then 0
  else Z.min 100 (Z.of_nat covered * 100 / Z.of_nat expected).

(** The observation and what the result takes from it. *)
Definition observe_programs (w : W) (root : string) (options : Package.Options) (r : Package.Result)
    : Observation.Result * Package.Result * W :=
  let m := Package.metadata r in
  let tasks := queue (Package.scripts m) (Package.hooks m) (Package.executables m) in
  let '(partial, w) := so_observed O w root tasks (observation_options options) in
  let observed :=
    observe (observation_options options) (λ p, fs_exists (so_fs O) w (path_append root p))
      (so_setuid O w root) tasks partial in
  (observed,
   Package.add_factors (r_risk_factors observed)
     (Package.add_events (r_events observed)
        (Package.set_observed (r_smoke observed) (r_processes observed) (r_network observed)
           (r_coverage observed) (confidence (length (r_coverage observed)) (length tasks)) r)), w).

(** The calls of the risk engine. *)
Definition risk_calls (options : Package.Options) (observed : Observation.Result)
    (r : Package.Result) : list Risk.call :=
  let m := Package.metadata r in
  let when (b : bool) c : list Risk.call := if b then [c] else [] in
  let nonempty (l : list string) := negb (bool_decide (l = [])) in
  when (negb (Package.installed r)) (CAdd "rootless" 5 "package install scripts were not executed") ++
  when (nonempty (Package.scripts m))
    (CAdd "scripts" 15 "maintainer scripts execute package-provided code") ++
  when (nonempty (Package.hooks m)) (CAdd "hooks" 20 "package hooks can execute during installation") ++
  when (nonempty (Package.created r))
    (CAdd "filesystem" (Z.min (Z.of_nat (length (Package.created r)) * 2) 20)
       "package changed files in isolated rootfs") ++
  when (nonempty (Package.mode_changed r)) (CAdd "file_modes" 15 "package changed file permissions") ++
  when (nonempty (Package.ownership_changed r))
    (CAdd "file_ownership" 20 "package changed file ownership") ++
  when (nonempty (Package.hash_changed r)) (CAdd "file_hashes" 10 "package changed file contents") ++
  when (nonempty (Package.network_events r) && bool_decide (Package.network options = "mirror"))
    (CAdd "network" 15 "package attempted network access under mirror policy") ++
  map (CAdd "observation" 10) (r_risk_factors observed).

(** The assessment: risk, verdict and the factors behind it; [None] when the
    sum of the weights overflows. *)
Definition assess_risk (options : Package.Options) (observed : Observation.Result)
    (r : Package.Result) : option Package.Result :=
  a ← Engine.assess (run (risk_calls options observed r));
  let r := set_assessment a r in
  let r := Package.set_verdict (Package.risk_action r) r in
  let r := if bool_decide (action a = reject_action) then Package.set_ok false r else r in
  Some (Package.add_factors (map (λ f, name f +:+ ": " +:+ explanation f) (factors a)) r).

(** The two events at the end. *)
Definition closing_events (options : Package.Options) : list string :=
  [quoted "{'schema_version':1,'type':'network_policy','mode':'" +:+ Package.network options +:+
   quoted "','allowlist':" +:+ json_array (Package.mirrors options) +:+ "}";
   quoted "{'schema_version':1,'type':'scan_complete'}"].

(** ** The database *)

Definition identity_of (w : W) (package : string) (options : Package.Options) (r : Package.Result)
    : PackageIdentity :=
  let m := Package.metadata r in
  mkIdentity (Package.name m) (Package.version m) (Package.architecture m) (Package.signature m) ""
    (fingerprint (json_array (Package.dependencies m)))
    (file_fingerprint (so_content O w package)) (Package.rootfs options)
    (fingerprint (json_array (Package.files m)))
    (fingerprint (json_object_array (Package.events r))).

Definition events_of (r : Package.Result) : list StoredEvent :=
  map (λ e, mkStored "observation" "event" (Package.name (Package.metadata r)) e true)
    (Package.events r).

(** What a difference to an earlier version does to the result. *)
Definition apply_delta (previous : string) (delta : VersionDelta) (r : Package.Result)
    : Package.Result :=
  if compared delta && (identity_changed delta || source_changed delta ||
                        dependencies_changed delta || negb (bool_decide (added_events delta = [])))
  then
    let r := Package.add_factors ["behavioral delta from version " +:+ previous] r in
    let score := Z.min 100 (Package.risk_score r + 15) in
    let r := Package.set_risk score (if 50 <=? score then "high" else "medium")
               (if 50 <=? score then "reject" else "audit") r in
    Package.set_verdict (Package.risk_action r) r
  else r.

(** The [try] block after the database is open. *)
Definition record_scan (w : W) (package : string) (options : Package.Options) (r : Package.Result)
    : Package.Result * W :=
  let failure e r := Package.add_factors ["SQLite observation storage failed: " +:+ e] r in
  let identity := identity_of w package options r in
  match previous_version (so_sqlite O) w (i_name identity) (i_version identity) with
  | (Err e, w) => (failure e r, w)
  | (Ok previous, w) =>
      match store (so_sqlite O) w identity (events_of r) with
      | (Err e, w) => (failure e r, w)
      | (Ok stored, w) =>
          let r := Package.set_baseline (so_baseline stored) r in
          match previous with
          | None => (r, w)
          | Some previous =>
              match compare (so_sqlite O) w (i_name identity) previous (i_version identity) with
              | (Err e, w) => (failure e r, w)
              | (Ok delta, w) => (apply_delta previous delta r, w)
              end
          end
      end
  end.

Definition store_scan (w : W) (package : string) (options : Package.Options) (r : Package.Result)
    : Package.Result * W :=
  let parent := parent_path (Package.database options) in
  let '(error, w) := if bool_decide (parent = "") then (None, w) else fs_mkdirs (so_fs O) w parent in
  match error with
  | Some _ => (Package.add_factors ["SQLite database parent creation failed"] r, w)
  | None =>
      match open_database (so_sqlite O) (so_sqlite_open O) (so_sqlite_close O) w
              (Package.database options) with
      | (Err e, w) => (Package.add_factors ["SQLite observation storage failed: " +:+ e] r, w)
      | (Ok _, w) =>
          let '(r, w) := record_scan w package options r in
          (r, so_sqlite_close O w)
      end
  end.

(** ** The scan *)

(** What follows the creation of the root. *)
Definition scan_session (fuel : nat) (w : W) (package : string) (options : Package.Options)
    (s : Session) (r : Package.Result) : option (Package.Result * W) :=
  if negb (isolated s)
  then Some (refuse_critical "scan rejected: Btrfs rootfs isolation unavailable" r, w)
  else
    let root := path s in
    let r := Package.add_events [event s] r in
    let before := Diff.snapshot (so_walk O w root) in
    '(installed, w) ← install fuel w root package options r;
    match installed with
    | Err r => Some (r, w)
    | Ok r =>
        let after := Diff.snapshot (so_walk O w root) in
        let r := set_differences (diff before after) r in
        '(r, w) ← stage_programs fuel w root package r;
        let '(observed, r, w) := observe_programs w root options r in
        r ← assess_risk options observed r;
        let r := Package.add_events (closing_events options) r in
        let '(r, w) := store_scan w package options r in
        let '(written, w) := write_artifacts (so_artifacts O) w r in
        Some (if written then r
              else Package.add_events [quoted "{'schema_version':1,'type':'artifact_error'}"] r, w)
    end.

(** [scan] *)
Definition scan (fuel : nat) (w : W) (package : string) (options : Package.Options)
    : option (Package.Result * W) :=
  if Package.privileged options then Some (refuse_privileged, w)
  else
    r ← inspect (so_host O) fuel package (Package.timeout options);
    if negb (Package.ok r) then r ← reject_inspection r; Some (r, w)
    else
      match check_mirrors options r with
      | Some r => Some (r, w)
      | None =>
          match open_session w options r with
          | (Err r, w) => Some (r, w)
          | (Ok (s, r), w) =>
              '(r, w) ← scan_session fuel w package options s r;
              Some (r, (release (so_fs O) w s).1)
          end
      end.

End Stages.
