(* ===== verification/ScanSpec.v ===== *)
(** * What a scan guarantees

    How each stage of Scan changes the result, and from that: what must hold of
    a package that a scan accepts, the bounds of its two scores, and two cases
    in which the code does not do what it means to. *)

From S2P Require Import Prelude CxxString FsPath Archive ArchiveSpec Network Risk Package Inspect.
From S2P Require Import Storage StorageSpec Rootfs Diff Artifacts Observation Observe Scan.

(** ** Results that differ in what later stages add *)

(** The same package: all that inspection found. *)
Definition same_package (m m' : Package.Metadata) : Prop :=
  Package.package m' = Package.package m ∧ Package.name m' = Package.name m ∧
  Package.version m' = Package.version m ∧ Package.architecture m' = Package.architecture m ∧
  Package.dependencies m' = Package.dependencies m ∧ Package.files m' = Package.files m ∧
  Package.scripts m' = Package.scripts m ∧ Package.hooks m' = Package.hooks m ∧
  Package.signature m' = Package.signature m.

#[export] Instance same_package_preorder : PreOrder same_package.
Proof.
  split; [by intros m; split_and!|]. intros m1 m2 m3 H12 H23. unfold same_package in *.
  destruct_and! H12. destruct_and! H23. split_and!; congruence.
Qed.

Lemma inspected_same {A} (H : PackageHost A) package timeout m m' :
  same_package m m' → inspected H package timeout m → inspected H package timeout m'.
Proof.
  intros (H1 & H2 & H3 & H4 & H5 & H6 & H7 & H8 & H9) [].
  split; rewrite ?H2, ?H3, ?H4, ?H6, ?H7, ?H8, ?H9; done.
Qed.

(** What the stages after the risk assessment leave as it is. *)
Definition same_scan (r r' : Package.Result) : Prop :=
  Package.ok r' = Package.ok r ∧ Package.installed r' = Package.installed r ∧
  same_package (Package.metadata r) (Package.metadata r') ∧
  Package.coverage_confidence r' = Package.coverage_confidence r.

#[export] Instance same_scan_preorder : PreOrder same_scan.
Proof.
  split; [by intros r; split_and!|]. intros r1 r2 r3 (?&?&?&?) (?&?&?&?).
  split_and!; try congruence. by etrans.
Qed.

Lemma confidence_bounds n k : 0 ≤ confidence n k ≤ 100.
Proof.
  unfold confidence. destruct (Nat.eqb_spec k 0); [lia|].
  assert (0 ≤ Z.of_nat n * 100 / Z.of_nat k) by (apply Z.div_pos; lia). lia.
Qed.

Section Stages.
Context {A W : Type} (O : ScanOps A W).

(** The staging of the package always fails: nothing sets the bit it asks for. *)
Lemma install_shape fuel w root package options r :
  ∃ w', install O fuel w root package options r =
        Some (if fs_exists (so_fs O) w (path_append root "usr/bin/pacman")
              then Err (Package.refuse "package staging failed" r)
              else Ok (Package.add_factors
                     ["rootless pacman runtime unavailable; install behavior not observed"] r), w').
Proof.
  unfold install. destruct (fs_exists _ _ _); [|by eexists].
  unfold open_stream. destruct (so_content O _ package); eexists; reflexivity.
Qed.

Lemma find_executables_same fuel w root package files m m' w' :
  find_executables O fuel w root package files m = Some (m', w') → same_package m m'.
Proof.
  revert w m. induction files as [|f files IH]; intros w m; cbn [find_executables].
  { by intros [= <- <-]. }
  destruct (read _ _ _ _ _) as [[c|e]|]; cbn [mbind option_bind]; [|by apply IH|done].
  destruct (negb (is_program c)); [by apply IH|].
  destruct (stage O fuel w root package f) as [w1|]; cbn [mbind option_bind]; [|done].
  intros Hf. etrans; [|by apply (IH _ _ Hf)]. by split_and!.
Qed.

Lemma stage_programs_shape fuel w root package r r' w' :
  stage_programs O fuel w root package r = Some (r', w') →
  ∃ m, r' = Package.set_metadata m r ∧ same_package (Package.metadata r) m.
Proof.
  unfold stage_programs. destruct (find_executables _ _ _ _ _ _ _) as [[m v]|] eqn:E; [|done].
  cbn [mbind option_bind]. destruct (stage_all O fuel v _ _ _) as [v1|]; cbn [mbind option_bind]; [|done].
  destruct (stage_all O fuel v1 _ _ _) as [v2|]; cbn [mbind option_bind]; [|done].
  intros [= <- <-]. exists m. split; [done|]. by eapply find_executables_same.
Qed.

Lemma observe_programs_shape w root options r observed r' w' :
  observe_programs O w root options r = (observed, r', w') →
  Package.ok r' = Package.ok r ∧ Package.installed r' = Package.installed r ∧
  Package.metadata r' = Package.metadata r ∧ 0 ≤ Package.coverage_confidence r' ≤ 100.
Proof.
  unfold observe_programs. destruct (so_observed O w _ _ _) as [partial v]. intros [= <- <- <-].
  split_and!; try done; apply confidence_bounds.
Qed.

Lemma assess_risk_shape options observed r r' :
  assess_risk options observed r = Some r' →
  Package.ok r' = Package.ok r && (Package.risk_score r' <? 50) ∧
  0 ≤ Package.risk_score r' ≤ 100 ∧
  Package.installed r' = Package.installed r ∧ Package.metadata r' = Package.metadata r ∧
  Package.coverage_confidence r' = Package.coverage_confidence r.
Proof.
  unfold assess_risk. rewrite assess_run. cbv zeta.
  set (cs := risk_calls options observed r).
  assert (existsb is_reject cs = false) as Hr.
  { assert (Forall (λ c, is_reject c = false) cs) as Hc.
    { unfold cs, risk_calls. cbv zeta. rewrite !Forall_app.
      split_and!; [by case_match; repeat constructor..|]. apply Forall_fmap, Forall_true. done. }
    apply not_true_is_false. intros (c & Hin & Hj)%existsb_exists.
    rewrite Forall_forall in Hc. rewrite (Hc c) in Hj; [done|by apply list_elem_of_In]. }
  pose proof (total_weight_nonneg cs). rewrite Hr.
  destruct (Z.ltb_spec (total_weight cs) (2 ^ 31)); [|done].
  assert (0 ≤ Z.min (total_weight cs) 100 ≤ 100) as Hb by lia. revert Hb.
  generalize (Z.min (total_weight cs) 100) as sc. intros sc Hb.
  assert (∀ a, score a = sc → action a = reject_action ↔ (sc <? 50) = false →
    ∀ l, let r1 := set_assessment a r in
    let r2 := Package.set_verdict (Package.risk_action r1) r1 in
    let r3 := if bool_decide (action a = reject_action) then Package.set_ok false r2 else r2 in
    let r4 := Package.add_factors l r3 in
    Package.ok r4 = Package.ok r && (Package.risk_score r4 <? 50) ∧
    0 ≤ Package.risk_score r4 ≤ 100 ∧
    Package.installed r4 = Package.installed r ∧ Package.metadata r4 = Package.metadata r ∧
    Package.coverage_confidence r4 = Package.coverage_confidence r) as Hgen.
  { intros a Hs Ha l. cbv zeta.
    destruct (bool_decide_reflect (action a = reject_action)) as [Hact|Hact]; cbn; rewrite Hs;
      (split_and!; [|lia..|done|done|done]).
    - rewrite (proj1 Ha Hact). by rewrite andb_false_r.
    - destruct (sc <? 50); [by rewrite andb_true_r|]. destruct Hact. by apply Ha. }
  unfold Engine.classify.
  destruct (Z.leb_spec 75 sc), (Z.leb_spec 50 sc), (Z.leb_spec 25 sc), (Z.eqb_spec sc 0);
    try lia; cbn [mbind option_bind negb];
    intros Hs; apply (inj Some) in Hs; subst r'; (eapply Hgen; [reflexivity|]);
    cbn [action]; rewrite Z.ltb_ge; split; first [done | lia].
Qed.

Lemma apply_delta_shape previous delta r :
  same_scan r (apply_delta previous delta r) ∧
  (Package.risk_score (apply_delta previous delta r) = Package.risk_score r ∨
   Package.risk_score (apply_delta previous delta r) = Z.min 100 (Package.risk_score r + 15)).
Proof. unfold apply_delta. case_match; (split; [by split_and!|]); auto. Qed.

Lemma store_scan_shape w package options r r' w' :
  store_scan O w package options r = (r', w') →
  same_scan r r' ∧
  (Package.risk_score r' = Package.risk_score r ∨
   Package.risk_score r' = Z.min 100 (Package.risk_score r + 15)).
Proof.
  assert (∀ l, same_scan r (Package.add_factors l r) ∧
    (Package.risk_score (Package.add_factors l r) = Package.risk_score r ∨
     Package.risk_score (Package.add_factors l r) = Z.min 100 (Package.risk_score r + 15)))
    as Hf by (intros l; split; [by split_and!|by left]).
  unfold store_scan.
  destruct (if bool_decide _ then _ else _) as [[m|] v]; [by intros [= <- <-]|].
  destruct (open_database _ _ _ v _) as [[u|e] v1]; [|by intros [= <- <-]].
  destruct (record_scan O v1 package options r) as [r1 v2] eqn:E. intros [= <- <-]. revert E.
  unfold record_scan.
  destruct (previous_version _ _ _ _) as [[previous|e] d1]; [|by intros [= <- <-]].
  destruct (store _ d1 _ _) as [[stored|e] d2]; [|by intros [= <- <-]].
  destruct previous as [previous|]; [|intros [= <- <-]; split; [by split_and!|by left]].
  destruct (compare _ d2 _ _ _) as [[delta|e] d3]; intros [= <- <-].
  - destruct (apply_delta_shape previous delta (Package.set_baseline (so_baseline stored) r))
      as [(?&?&?&?) Hs]. by split.
  - split; [by split_and!|by left].
Qed.

(** A scan that has a root either ends early, refused and with the scores it
    had, or it reaches its end. *)
Lemma scan_session_shape fuel w package options s r r' w' :
  scan_session O fuel w package options s r = Some (r', w') →
  Package.installed r' = Package.installed r ∧ same_package (Package.metadata r) (Package.metadata r') ∧
  ((Package.ok r' = false ∧ Package.risk_score r' = Package.risk_score r ∧
    Package.coverage_confidence r' = Package.coverage_confidence r) ∨
   (isolated s = true ∧ 0 ≤ Package.coverage_confidence r' ≤ 100 ∧
    fs_exists (so_fs O) w (path_append (path s) "usr/bin/pacman") = false ∧
    ∃ score, 0 ≤ score ≤ 100 ∧ Package.ok r' = Package.ok r && (score <? 50) ∧
      (Package.risk_score r' = score ∨ Package.risk_score r' = Z.min 100 (score + 15)))).
Proof.
  unfold scan_session. destruct (isolated s); cbn [negb]; [|intros [= <- <-]; split_and!; auto; by split_and!].
  set (r0 := Package.add_events [event s] r).
  destruct (install_shape fuel w (path s) package options r0) as [v ->]. cbn [mbind option_bind].
  destruct (fs_exists (so_fs O) w _) eqn:Ex; [intros [= <- <-]; split_and!; auto; by split_and!|].
  set (r1 := set_differences _ _).
  destruct (stage_programs O fuel v (path s) package r1) as [[r2 v2]|] eqn:E; [|done].
  apply stage_programs_shape in E as (m & -> & Hm). cbn [mbind option_bind].
  destruct (observe_programs O v2 _ options _) as [[observed r3] v3] eqn:E.
  apply observe_programs_shape in E as (O1 & O2 & O3 & O4).
  destruct (assess_risk options observed r3) as [r4|] eqn:E; [|done].
  apply assess_risk_shape in E as (A1 & A2 & A3 & A4 & A5). cbn [mbind option_bind].
  destruct (store_scan O v3 package options _) as [r5 v5] eqn:E.
  apply store_scan_shape in E as [(S1 & S2 & S3 & S4) S5].
  destruct (write_artifacts _ v5 r5) as [written v6]. intros Hr. apply (inj Some) in Hr.
  assert (same_scan r5 r' ∧ Package.risk_score r' = Package.risk_score r5) as [(W1 & W2 & W3 & W4) W5].
  { injection Hr as <- <-. destruct written; (split; [by split_and!|done]). }
  clear Hr. cbn in *. split_and!.
  - congruence.
  - etrans; [exact Hm|]. rewrite O3 in A4. by rewrite <- A4, S3, <- W3.
  - right. split_and!; [done|lia..|done|]. exists (Package.risk_score r4).
    split_and!; [lia..| |rewrite W5; exact S5]. by rewrite W1, S1, A1, O1.
Qed.

End Stages.

(** ** The results of a scan *)

Section Scan.
Context {A W : Type} (O : ScanOps A W).

Lemma open_session_shape w options r r1 s w' :
  open_session O w options r = (Ok (s, r1), w') →
  same_scan r r1 ∧ Package.risk_score r1 = Package.risk_score r ∧
  ∃ v workspace,
    create (so_fs O) (so_pid O) (so_uid O) v (Package.rootfs options) workspace = (Ok s, w').
Proof.
  unfold open_session. destruct (fs_symlink _ w _); [done|].
  destruct (if fs_exists _ w _ then _ else _) as [[m|] w1]; [done|].
  destruct (unique_directory O 1000 0 w1 _ _) as [artifact w2]. destruct (bool_decide (artifact = "")); [done|].
  destruct (unique_directory O 1000 0 w2 _ _) as [workspace w3]. destruct (bool_decide (workspace = "")); [done|].
  destruct (create _ _ _ w3 _ workspace) as [[s'|e] w4] eqn:E; [|done].
  intros [= <- <- <-]. split_and!; [done..|eauto].
Qed.

Lemma open_session_error w options r r1 w' :
  open_session O w options r = (Err r1, w') →
  Package.ok r1 = false ∧ Package.installed r1 = Package.installed r ∧
  Package.risk_score r1 = Package.risk_score r ∧
  Package.coverage_confidence r1 = Package.coverage_confidence r.
Proof.
  unfold open_session. destruct (fs_symlink _ w _); [by intros [= <- <-]|].
  destruct (if fs_exists _ w _ then _ else _) as [[m|] w1]; [by intros [= <- <-]|].
  destruct (unique_directory O 1000 0 w1 _ _) as [artifact w2].
  destruct (bool_decide (artifact = "")); [by intros [= <- <-]|].
  destruct (unique_directory O 1000 0 w2 _ _) as [workspace w3].
  destruct (bool_decide (workspace = "")); [by intros [= <- <-]|].
  destruct (create _ _ _ w3 _ workspace) as [[s'|e] w4]; [done|by intros [= <- <-]].
Qed.

Lemma check_mirrors_shape options r :
  match check_mirrors options r with
  | Some r' => Package.ok r' = false ∧ Package.installed r' = Package.installed r ∧
               Package.risk_score r' = Package.risk_score r ∧
               Package.coverage_confidence r' = Package.coverage_confidence r
  | None => (Package.network options = "mirror" → Package.mirrors options ≠ []) ∧
            Forall (λ m, valid_mirror m = true) (Package.mirrors options)
  end.
Proof.
  unfold check_mirrors.
  destruct (bool_decide_reflect (Package.network options = "mirror")),
    (bool_decide_reflect (Package.mirrors options = [])); cbn [andb]; try done;
    (destruct (List.find _ _) as [m|] eqn:E; [done|]; split; [done|]);
    apply Forall_forall; intros m Hm; apply list_elem_of_In in Hm;
    apply (List.find_none _ _ E) in Hm; by destruct (valid_mirror m).
Qed.

(** The fields of a fresh result that inspection never sets. *)
Lemma inspect_fresh fuel package timeout r :
  inspect (so_host O) fuel package timeout = Some r →
  Package.installed r = false ∧ Package.risk_score r = 0 ∧ Package.coverage_confidence r = 0.
Proof.
  assert (∀ m, let r := verify_signature (so_host O) package timeout m in
    Package.installed r = false ∧ Package.risk_score r = 0 ∧ Package.coverage_confidence r = 0) as Hv.
  { intros m. unfold verify_signature. cbv zeta. by repeat case_match. }
  unfold inspect.
  destruct (negb (package_name _)); [by intros [= <-]|].
  destruct (negb (ph_regular _ _) || _); [by intros [= <-]|].
  destruct (read _ _ _ _ _) as [[info|e]|]; cbn [mbind option_bind]; [|by intros [= <-]|done].
  destruct (_ || _); [by intros [= <-]|]. destruct (negb _ && _); [by intros [= <-]|].
  destruct (list_archive _ _ _) as [[entries|e]|]; cbn [mbind option_bind]; [|by intros [= <-]|done].
  intros Hr. apply (inj Some) in Hr. subst r. apply Hv.
Qed.

Lemma reject_inspection_shape r :
  ∃ level, reject_inspection r = Some (Package.set_risk 0 level "reject" r).
Proof.
  unfold reject_inspection, Engine.assess, Engine.reject. cbn. eexists. reflexivity.
Qed.

(** A fresh result: nothing installed, no score. *)
Definition fresh_scores (r : Package.Result) : Prop :=
  Package.installed r = false ∧ Package.risk_score r = 0 ∧ Package.coverage_confidence r = 0.

(** A scan that got a root. *)
Record rooted (fuel : nat) (w : W) (package : string) (options : Package.Options) (r : Package.Result)
    (w' : W) : Prop := {
  ro_privileged : Package.privileged options = false;
  ro_mirrors : (Package.network options = "mirror" → Package.mirrors options ≠ []) ∧
               Forall (λ m, valid_mirror m = true) (Package.mirrors options);
  ro_session : ∃ r0 r1 s v1 v2,
    inspect (so_host O) fuel package (Package.timeout options) = Some r0 ∧ Package.ok r0 = true ∧
    same_scan r0 r1 ∧ fresh_scores r1 ∧
    open_session O w options r0 = (Ok (s, r1), v1) ∧
    scan_session O fuel v1 package options s r1 = Some (r, v2) ∧
    w' = (release (so_fs O) v2 s).1;
}.

Lemma scan_cases fuel w package options r w' :
  scan O fuel w package options = Some (r, w') →
  (Package.ok r = false ∧ fresh_scores r) ∨ rooted fuel w package options r w'.
Proof.
  unfold scan. destruct (Package.privileged options) eqn:Ep; [intros [= <- <-]; left; by split_and!|].
  destruct (inspect _ _ _ _) as [r0|] eqn:Ei; [|done]. cbn [mbind option_bind].
  pose proof (inspect_fresh _ _ _ _ Ei) as (F1 & F2 & F3).
  destruct (Package.ok r0) eqn:Hok; cbn [negb].
  2:{ destruct (reject_inspection_shape r0) as [l ->]. cbn. intros [= <- <-]. left. by split_and!. }
  pose proof (check_mirrors_shape options r0) as Hm.
  destruct (check_mirrors options r0) as [r1|].
  { intros [= <- <-]. left. destruct Hm as (? & ? & ? & ?). unfold fresh_scores. split_and!; congruence. }
  destruct (open_session O w options r0) as [[[s r1]|r1] w1] eqn:Eo.
  2:{ intros [= <- <-]. apply open_session_error in Eo as (? & ? & ? & ?). left.
      unfold fresh_scores. split_and!; congruence. }
  pose proof (open_session_shape _ _ _ _ _ _ Eo) as (S & S5 & _).
  destruct (scan_session _ _ _ _ _ _ _) as [[r2 w2]|] eqn:Hs; cbn [mbind option_bind]; [|done].
  intros [= <- <-]. right. split; [done|done|].
  exists r0, r1, s, w1, w2. split_and!; try done.
  destruct S as (_ & ? & _ & ?). unfold fresh_scores. split_and!; congruence.
Qed.

(** The root of a scan: the session that [open_session] made of two fresh
    snapshots, in which the scan took place, and whose release is the last thing
    the scan does; that removes all of its paths but those the file system
    refuses to. *)
Definition scanned_in (fuel : nat) (w : W) (package : string) (options : Package.Options)
    (r : Package.Result) (w' : W) : Prop :=
  ∃ r0 r1 s v1 v2,
    inspect (so_host O) fuel package (Package.timeout options) = Some r0 ∧
    open_session O w options r0 = (Ok (s, r1), v1) ∧ built_from_snapshots (so_fs O) s ∧
    scan_session O fuel v1 package options s r1 = Some (r, v2) ∧
    w' = (release (so_fs O) v2 s).1 ∧
    ∀ p, p ∈ owned s → p ≠ "" → p ∉ refused (so_fs O) v2 s → fs_exists (so_fs O) w' p = false.

Lemma scan_sound `{!RootfsLaws (so_fs O)} fuel w package options r w' :
  scan O fuel w package options = Some (r, w') → Package.ok r = true →
  Package.privileged options = false ∧
  inspected (so_host O) package (Package.timeout options) (Package.metadata r) ∧
  (Package.network options = "mirror" → Package.mirrors options ≠ []) ∧
  Forall (λ m, valid_mirror m = true) (Package.mirrors options) ∧
  scanned_in fuel w package options r w' ∧
  Package.risk_score r < 65.
Proof.
  intros [[H _] | [Hp Hm Hs]]%scan_cases Hok; [by rewrite H in Hok|].
  destruct Hs as (r0 & r1 & s & v1 & v2 & Ei & Hok0 & (S1 & S2 & S3 & S4) & _ & Ho & Hs & ->).
  pose proof (scan_session_shape _ _ _ _ _ _ _ _ _ Hs) as (I1 & I2 & [(H & _) | (Hi & _ & _ & score & Hb & Hsc & Hrisk)]);
    [by rewrite H in Hok|].
  rewrite Hok, S1, Hok0 in Hsc. destruct (Z.ltb_spec score 50); [|done].
  split_and!; [done| |apply Hm..| |destruct Hrisk; lia].
  - eapply inspected_same; [etrans; [exact S3|exact I2]|]. by eapply inspect_sound.
  - pose proof (open_session_shape _ _ _ _ _ _ Ho) as (_ & _ & v & workspace & Hc).
    exists r0, r1, s, v1, v2. split_and!; [done|done|by eapply create_isolated|done|done|].
    intros p ???. by apply release_gone.
Qed.

(** A package that a scan reports as good was not scanned with privileges,
    passed the inspection (name, architecture, safe paths, signature), was
    scanned under valid mirrors in a root made of two fresh snapshots that is
    released when the scan returns, and was assessed below 50 before the
    difference to an earlier version was added. *)
Theorem scan_accepts_only `{!RootfsLaws (so_fs O)} fuel w package options r w' :
  scan O fuel w package options = Some (r, w') → Package.ok r = true →
  Package.privileged options = false ∧
  inspected (so_host O) package (Package.timeout options) (Package.metadata r) ∧
  (Package.network options = "mirror" → Package.mirrors options ≠ []) ∧
  Forall (λ m, valid_mirror m = true) (Package.mirrors options) ∧
  scanned_in fuel w package options r w' ∧
  Package.risk_score r < 65.
Proof. apply scan_sound. Qed.

(** C23: the two scores of a scan are percentages, whatever the package, the
    observation and the database did. *)
Theorem scan_scores_bounded fuel w package options r w' :
  scan O fuel w package options = Some (r, w') →
  0 ≤ Package.risk_score r ≤ 100 ∧ 0 ≤ Package.coverage_confidence r ≤ 100.
Proof.
  intros [[_ (_ & -> & ->)] | [_ _ Hs]]%scan_cases; [lia|].
  destruct Hs as (r0 & r1 & s & v1 & v2 & _ & _ & _ & (_ & F2 & F3) & _ & Hs & _).
  apply scan_session_shape in Hs as (_ & _ & [(_ & -> & ->) | (_ & Hc & _ & score & Hb & _ & Hrisk)]);
    [lia|]. split; [destruct Hrisk; lia|done].
Qed.

(** C38: the scan never installs a package: where the root has a pacman, reading
    the package leaves the end-of-file bit of its stream unset and every scan
    ends with a staging failure; where it has none, nothing is installed. *)
Theorem scan_never_installs fuel w package options r w' :
  scan O fuel w package options = Some (r, w') →
  Package.installed r = false ∧
  ∀ s v r0 r1 v1, isolated s = true →
    fs_exists (so_fs O) v (path_append (path s) "usr/bin/pacman") = true →
    scan_session O fuel v package options s r0 = Some (r1, v1) →
    Package.ok r1 = false ∧ Package.error r1 = "package staging failed".
Proof.
  intros Hscan. split.
  - apply scan_cases in Hscan as [[_ (-> & _)] | [_ _ Hs]]; [done|].
    destruct Hs as (r0 & r1 & s & v1 & v2 & _ & _ & _ & (F1 & _) & _ & Hs & _).
    apply scan_session_shape in Hs as [-> _]. done.
  - intros s v r0 r1 v1 Hi Hp. unfold scan_session. rewrite Hi. cbn [negb].
    destruct (install_shape O fuel v (path s) package options (Package.add_events [event s] r0)) as [v2 ->].
    rewrite Hp. cbn [mbind option_bind]. by intros [= <- <-].
Qed.

(** A scan that finds a package's behaviour changed since an earlier
    version raises the score, and says reject when that reaches 50, but the
    result stays good: only the first assessment clears [ok]. *)
Theorem delta_reject_keeps_ok w package options r previous w1 stored w2 delta w3 :
  let identity := identity_of O w package options r in
  previous_version (so_sqlite O) w (i_name identity) (i_version identity) = (Ok (Some previous), w1) →
  store (so_sqlite O) w1 identity (events_of r) = (Ok stored, w2) →
  compare (so_sqlite O) w2 (i_name identity) previous (i_version identity) = (Ok delta, w3) →
  compared delta = true → identity_changed delta = true →
  Package.ok r = true → 35 ≤ Package.risk_score r →
  let r' := (record_scan O w package options r).1 in
  Package.verdict r' = "reject" ∧ Package.risk_action r' = "reject" ∧ Package.ok r' = true.
Proof.
  intros identity Hp Hs Hc Hcomp Hid Hok Hr. cbv zeta. unfold record_scan. fold identity.
  rewrite Hp, Hs, Hc. cbn [fst]. unfold apply_delta. rewrite Hcomp, Hid. cbn [andb orb].
  cbn. destruct (Z.leb_spec 50 (Z.min 100 (Package.risk_score r + 15))); [done|lia].
Qed.

End Scan.
(** ** A scan of the sample package *)

(** A host whose root has no pacman, on a given file system and database. *)
Definition sample_ops {W} (fs : RootfsOps W) (Q : Sqlite W) : ScanOps MemReader W := {|
  so_host := sample_host;
  so_fs := fs;
  so_files := {| ro_open_root w _ := (None, w); ro_openat2 w _ _ _ := (None, w);
                 ro_write w _ _ := (Err 5, w); ro_close w _ := (true, w) |};
  so_artifacts := {| ar_mkdirs w _ := (None, w); ar_write w _ _ := (true, w) |};
  so_sqlite := Q;
  so_sqlite_open w _ := (Ok (), w);
  so_sqlite_close w := w;
  so_pid := 7;
  so_uid := 1000;
  so_clock w := (5, w);
  so_temp := "/tmp";
  so_mkdir w p := (CreatedNew, (fs_mkdirs fs w p).2);
  so_walk _ _ := None;
  so_content _ _ := Some "package";
  so_run_captured w _ _ _ := (Capture.no_capture, w);
  so_observed w _ tasks _ := (replicate (length tasks) empty_result, w);
  so_setuid _ _ := false;
|}.

(** A database that refuses everything. *)
Definition no_database {W} : Sqlite W := {|
  sq_exec w _ := (Err "unavailable", w);
  sq_prepare w _ := (Err "unavailable", w);
  sq_query w _ _ := (([], Some "unavailable"), w);
  sq_last_rowid _ := 0;
|}.

Definition sample_options : Package.Options :=
  Package.mkOptions false false false false 4 30 "json" "off" [] [] "/srv/arch" "/tmp/execell-package"
    "/tmp/execell-package/observations.db" "" 1.

Definition sample_world : list string := ["/srv"; "/srv/arch"; "/tmp"].

Lemma scan_accepts_only_witness :
  ∃ r w', scan (sample_ops memory_root no_database) 50 sample_world sample_path sample_options =
          Some (r, w') ∧
    Package.risk_score r = 20 ∧
    inspected sample_host sample_path 30 (Package.metadata r).
Proof.
  eexists _, _. split; [vm_compute; reflexivity|]. split; [reflexivity|].
  eapply (scan_accepts_only (sample_ops memory_root no_database) 50 sample_world sample_path
            sample_options); vm_compute; reflexivity.
Defined.

Lemma scan_scores_bounded_witness :
  ∃ r w', scan (sample_ops memory_root no_database) 50 sample_world sample_path sample_options =
          Some (r, w') ∧
    0 ≤ Package.risk_score r ≤ 100 ∧ 0 ≤ Package.coverage_confidence r ≤ 100.
Proof.
  eexists _, _. split; [vm_compute; reflexivity|].
  eapply (scan_scores_bounded (sample_ops memory_root no_database) 50 sample_world sample_path
            sample_options); vm_compute; reflexivity.
Defined.

(** The root has a pacman. *)
Lemma scan_never_installs_witness :
  let w := "/srv/.execell-session-7-1000-0/usr/bin/pacman" :: sample_world in
  ∃ r w', scan (sample_ops memory_root no_database) 50 w sample_path sample_options = Some (r, w') ∧
    Package.error r = "package staging failed" ∧ Package.installed r = false.
Proof.
  intros w. eexists _, _. split; [vm_compute; reflexivity|]. split; [reflexivity|].
  eapply (scan_never_installs (sample_ops memory_root no_database) 50 w sample_path
            sample_options); vm_compute; reflexivity.
Defined.

(** No file system at all. *)
Definition no_files {W} : RootfsOps W := {|
  fs_symlink _ _ := false;
  fs_exists _ _ := false;
  fs_btrfs _ _ := false;
  fs_mkdirs w _ := (None, w);
  fs_remove w _ := (None, w);
  fs_opendir w _ := (None, w);
  fs_close w _ := w;
  fs_snap_create w _ _ _ _ := (false, w);
  fs_subvol_create w _ _ := (false, w);
  fs_fork w _ := (-1, w);
  fs_stop w _ := w;
  fs_next w := (0, w);
|}.

(** A new version of the sample, assessed at 40, on a database that holds an
    earlier one. *)
Definition known_package : Package.Result :=
  Package.set_risk 40 "medium" "audit"
    (Package.set_ok true
       (Package.set_metadata
          (Package.mkMetadata sample_path "demo" "2" "any" [] [] [] [] [] [] "valid")
          Package.no_result)).

Definition known_database : Memory := (store memory_db empty_db (sample "1" "a") [sample_event "x"]).2.

Lemma delta_reject_keeps_ok_witness :
  let r' := (record_scan (sample_ops no_files memory_db) known_database sample_path sample_options
               known_package).1 in
  Package.verdict r' = "reject" ∧ Package.risk_action r' = "reject" ∧ Package.ok r' = true.
Proof.
  eapply (delta_reject_keeps_ok (sample_ops no_files memory_db) known_database sample_path
            sample_options known_package);
    first [lia | vm_compute; reflexivity | cbn; lia].
Defined.
