(* ===== verification/Returns.v ===== *)
(** * The program returns

    The loops over the files of an archive, over short and interrupted writes
    and over interrupted waits end when the system makes progress, and with
    them the inspection of a package, a whole scan, and the parent of a
    sandbox: every large enough fuel gives the same result. *)

From S2P Require Import Prelude CxxString Fuel Stop FsPath Capture Archive ArchiveSpec.
From S2P Require Import Tracer Sandbox SandboxSetup Owner SandboxRun.
From S2P Require Import Risk Network Package Fingerprint Inspect Rootfs Diff Artifacts.
From S2P Require Import Observation Observe Storage Scan ScanSpec.

(** ** Archives *)

Section Archives.
Context {A : Type} (L : Libarchive A) (left : A → nat) `{!ArchiveProgress L left}.

Lemma discard_entry_eventually reader total limit :
  eventually (λ x, (left x.2 ≤ left reader)%nat) (λ n, discard_entry L n reader total limit).
Proof.
  remember (left reader) as m eqn:Hm. revert reader total Hm.
  induction m as [m IH] using lt_wf_ind. intros reader total ->. turn discard_entry.
  destruct (read_data L reader 65536) as [[c b] r] eqn:E. apply (data_progress L (μ := left)) in E as [Hle Hlt].
  destruct (Z.eqb_spec c 0); [by apply eventually_ret|].
  destruct (Z.ltb_spec c 0); [by apply eventually_ret|]. cbv zeta.
  destruct (_ <? _); [by apply eventually_ret|].
  eapply eventually_weaken; [|apply (IH (left r)); [lia|done]]. cbn. intros. lia.
Qed.

Lemma list_loop_eventually limits reader es unpacked :
  returns (λ n, list_loop L n limits reader es unpacked).
Proof.
  remember (left reader) as m eqn:Hm. revert reader es unpacked Hm.
  induction m as [m IH] using lt_wf_ind. intros reader es unpacked ->. turn list_loop.
  destruct (read_next_header L reader) as [[raw|] r] eqn:E; [|done]. apply (header_progress L (μ := left)) in E.
  destruct (_ <=? _); [done|]. destruct (entry_of raw limits) as [entry|]; [|done].
  destruct (_ <? _); [done|].
  eapply eventually_bind; [apply discard_entry_eventually|].
  intros [[discarded unpacked'] r'] Hr'. cbn in Hr'. destruct (negb discarded); [done|].
  apply (IH (left r')); [lia|done].
Qed.

Lemma list_eventually limits : returns (λ n, list_archive L n limits).
Proof. unfold list_archive. destruct (open L limits); [apply list_loop_eventually|done]. Qed.

Lemma fill_eventually reader wanted offset : returns (λ n, fill L n reader wanted offset).
Proof.
  remember (left reader) as m eqn:Hm. revert reader offset Hm.
  induction m as [m IH] using lt_wf_ind. intros reader offset ->. turn fill.
  destruct (offset <? wanted); [|done].
  destruct (read_data L reader _) as [[c b] r] eqn:E. apply (data_progress L (μ := left)) in E as [_ Hlt].
  destruct (Z.leb_spec c 0); [done|].
  eapply eventually_bind; [apply (IH (left r)); [auto|done]|]. intros rest _. done.
Qed.

Lemma read_loop_eventually limits reader safe max_bytes :
  returns (λ n, read_loop L n limits reader safe max_bytes).
Proof.
  remember (left reader) as m eqn:Hm. revert reader Hm.
  induction m as [m IH] using lt_wf_ind. intros reader ->. turn read_loop.
  destruct (read_next_header L reader) as [[raw|] r] eqn:E; [|done]. apply (header_progress L (μ := left)) in E.
  destruct (entry_of raw limits) as [entry|]; [|done].
  destruct (negb (bool_decide (e_path entry = safe))).
  - eapply eventually_bind; [apply discard_entry_eventually|].
    intros [[discarded total'] r'] Hr'. cbn in Hr'. destruct (negb discarded); [done|].
    apply (IH (left r')); [lia|done].
  - destruct (_ || _); [done|]. apply fill_eventually.
Qed.

Lemma read_eventually limits wanted max_bytes : returns (λ n, read L n limits wanted max_bytes).
Proof.
  unfold read. destruct (safe_path _ _); [|done].
  destruct (open L limits); [apply read_loop_eventually|done].
Qed.

End Archives.

(** ** The parent of a sandbox *)

(** Signals interrupt writes and waits finitely often; a write that is asked to
    take something takes something. *)
Class ParentProgress {W} (K : Kernel W) (F : FileOps W) (writes waits : W → nat) := {
  file_write_taken w fd s n w' :
    f_write F w fd s = (Ok n, w') → s ≠ "" → 0 < n ∧ (writes w' ≤ writes w)%nat;
  file_write_interrupted w fd s w' :
    f_write F w fd s = (Err EINTR, w') → (writes w' < writes w)%nat;
  wait_interrupted w pid options w' :
    k_waitpid K w pid options = (Err Tracer.EINTR, w') → (waits w' < waits w)%nat;
}.

Section Parent.
Context {W : Type} (K : Kernel W) (F : FileOps W) (P : ParentOps W) (uid gid : Z).
Context (writes waits : W → nat) `{!ParentProgress K F writes waits}.

Lemma wait_for_eventually w pid options : returns (λ n, wait_for K n w pid options).
Proof.
  remember (waits w) as m eqn:Hm. revert w Hm.
  induction m as [m IH] using lt_wf_ind. intros w ->. turn wait_for.
  destruct (k_waitpid K w pid options) as [[r|e] w'] eqn:E; [done|].
  destruct (Z.eqb_spec e Tracer.EINTR) as [->|]; [|done]. apply wait_interrupted in E. by eapply IH.
Qed.

Lemma write_loop_eventually w fd rest : returns (λ n, write_loop F n w fd rest).
Proof.
  remember (writes w + str_length rest)%nat as m eqn:Hm. revert w rest Hm.
  induction m as [m IH] using lt_wf_ind. intros w rest ->. turn write_loop.
  case_bool_decide as Hr; [done|].
  assert (0 < str_length rest)%nat by (destruct rest; [done|unfold str_length; simpl; lia]).
  destruct (f_write F w fd rest) as [[n|e] w'] eqn:E.
  - apply file_write_taken in E as [Hn Hw]; [|done]. eapply IH; [|reflexivity].
    rewrite str_length_drop. lia.
  - destruct (Z.eqb_spec e EINTR) as [->|]; [|done]. apply file_write_interrupted in E.
    eapply IH; [|reflexivity]. lia.
Qed.

Lemma write_file_eventually w path value : returns (λ n, write_file F n w path value).
Proof.
  unfold write_file. destruct (f_open F w path) as [[fd|e] w1]; [|done].
  eapply eventually_bind; [apply write_loop_eventually|]. by intros [[] w2] _.
Qed.
Hint Resolve wait_for_eventually write_loop_eventually write_file_eventually : core.

Lemma configure_cgroup_eventually w pid b : returns (λ n, configure_cgroup F n w pid b).
Proof.
  unfold configure_cgroup. case_bool_decide; [done|]. cbv zeta beta.
  destruct (memory_max b =? 0), (pids_max b =? 0), (cpu_quota_us b =? 0);
    repeat first [done | eapply eventually_bind; [done|]; intros [[] ?] _].
Qed.

Lemma setup_user_namespace_eventually w pid b :
  returns (λ n, setup_user_namespace F P uid gid n w pid b).
Proof.
  unfold setup_user_namespace. cbv zeta beta.
  assert (∀ w p q v, returns (λ n, '(ok, w) ← write_file F n w p v;
                                   if (ok : bool) then write_file F n w q v else Some (false, w))) as Hm.
  { intros w1 p q v. eapply eventually_bind; [done|]. by intros [[] w2] _. }
  destruct (map_ids P w _ _ _ _) as [[] w1]; [|apply Hm].
  destruct (map_ids P w1 _ _ _ _) as [[] w2]; [done|apply Hm].
Qed.

Lemma run_parent_eventually w pid r s c :
  returns (λ n, run_parent K F P uid gid n w pid r s c).
Proof.
  assert (∀ w, returns (λ n, fail_run K P n w pid r s)) as Hg.
  { intros w1. unfold fail_run. cbv zeta. eapply eventually_bind; [done|]. by intros [? ?] _. }
  assert (∀ w r, returns (λ n, fail_mapping K P n w pid r s)) as Hgm.
  { intros w1 r1. unfold fail_mapping. cbv zeta. destruct (UniqueFd.reset _ _ _ _).
    eapply eventually_bind; [done|]. by intros [? ?] _. }
  assert (∀ w, returns (λ n, await_child K P n w pid s)) as Ha.
  { intros w1. unfold await_child. cbv zeta. destruct (UniqueFd.reset _ _ _ _).
    eapply eventually_bind; [done|]. by intros [[[]|] ?] _. }
  unfold run_parent. destruct (p_setpgid P w pid) as [error w1].
  destruct (match error with None => false | Some e => _ end); [done|].
  eapply eventually_bind; [apply configure_cgroup_eventually|]. intros [ok w2] _.
  destruct (negb ok); [done|]. destruct (UniqueFd.reset _ _ _ _) as [w3 r3].
  destruct (user_namespace c); [|done].
  eapply eventually_bind; [apply setup_user_namespace_eventually|]. by intros [[] w4] _.
Qed.

(** The parent of a sandbox returns with an exit code once the child's end can
    be waited for, whatever fails on the way. *)
Theorem sandbox_run_returns env access sym w c :
  ∃ n x, ∀ fuel, (n ≤ fuel)%nat → SandboxRun.run K F P uid gid env access sym fuel w c = Some x.
Proof.
  assert (returns (λ n, SandboxRun.run K F P uid gid env access sym n w c))
    as (n & x & _ & Hx); [|by exists n, x].
  unfold SandboxRun.run. destruct (validate env access sym c); [|done].
  destruct (p_pipe P w) as [[[r s]|] w1]; [|done]. destruct (k_fork K w1) as [[pid|e] w2]; [|done].
  eapply eventually_bind; [apply run_parent_eventually|]. by intros [code w3] _.
Qed.

End Parent.

(** ** Writes into a root *)

(** Signals interrupt finitely often, and a write takes a part of the data. *)
Class WriteProgress {W} (R : RootOps W) (interrupts : W → nat) := {
  write_taken w fd s n w' :
    ro_write R w fd s = (Ok n, w') → 0 ≤ n ∧ (interrupts w' ≤ interrupts w)%nat;
  write_interrupted w fd s w' :
    ro_write R w fd s = (Err 4, w') → (interrupts w' < interrupts w)%nat;
}.

Section Writes.
Context {W : Type} (R : RootOps W) (interrupts : W → nat) `{!WriteProgress R interrupts}.

Lemma root_write_eventually w fd rest : returns (λ n, root_write_loop R n w fd rest).
Proof.
  remember (interrupts w + str_length rest)%nat as m eqn:Hm. revert w rest Hm.
  induction m as [m IH] using lt_wf_ind. intros w rest ->. turn root_write_loop.
  case_bool_decide as Hr; [done|].
  assert (0 < str_length rest)%nat by (destruct rest; [done|unfold str_length; simpl; lia]).
  destruct (ro_write R w fd rest) as [[count|e] w'] eqn:E.
  - apply write_taken in E as [Hn Hi]. destruct (Z.eqb_spec count 0); [done|].
    eapply IH; [|reflexivity]. rewrite str_length_drop. lia.
  - destruct (Z.eqb_spec e 4) as [->|]; [|done]. apply write_interrupted in E.
    eapply IH; [|reflexivity]. lia.
Qed.

Lemma write_root_file_eventually w root relative data exclusive :
  returns (λ n, write_root_file R n w root relative data exclusive).
Proof.
  unfold write_root_file. destruct (ro_open_root R w root) as [[fd|] w1]; [|done].
  destruct (ro_openat2 R w1 fd _ _) as [[fd'|] w2]; [|done]. cbv zeta.
  eapply eventually_bind; [apply root_write_eventually|]. by intros [[] w3] _.
Qed.

End Writes.

(** ** Inspection *)

(** A package has no more paths than an archive may have entries, and nothing
    staged from it yet. *)
Definition within_limits (m : Package.Metadata) : Prop :=
  Z.of_nat (length (Package.scripts m)) ≤ max_entries default_limits ∧
  Z.of_nat (length (Package.hooks m)) ≤ max_entries default_limits ∧
  Package.executables m = [].

Section Inspection.
Context {A : Type} (H : PackageHost A) (left : A → nat).
Context `{!∀ package, ArchiveProgress (ph_archive H package) left}.

Lemma verify_signature_same package timeout m :
  let m' := Package.metadata (verify_signature H package timeout m) in
  Package.scripts m' = Package.scripts m ∧ Package.hooks m' = Package.hooks m ∧
  Package.executables m' = Package.executables m.
Proof. cbv zeta. unfold verify_signature. by repeat case_match. Qed.

Lemma listed_within fuel package entries :
  list_archive (ph_archive H package) fuel default_limits = Some (Ok entries) →
  Z.of_nat (length entries) ≤ max_entries default_limits.
Proof.
  unfold list_archive. destruct (open _ _) as [r|]; [|done].
  intros (_ & _ & Hn)%list_loop_limits; [done|done|done|constructor|done..].
Qed.

Lemma inspect_within fuel package timeout r :
  inspect H fuel package timeout = Some r → within_limits (Package.metadata r).
Proof.
  assert (∀ error p n v a d s, within_limits (Package.metadata
    (failed error (Package.mkMetadata p n v a d [] [] [] [] [] s)))) as Hf.
  { by intros. }
  unfold inspect. destruct (negb (package_name _)); [intros [= <-]; apply Hf|].
  destruct (negb (ph_regular _ _) || _); [intros [= <-]; apply Hf|].
  destruct (read _ _ _ _ _) as [[info|e]|]; cbn [mbind option_bind]; [|intros [= <-]; apply Hf|done].
  destruct (_ || _); [intros [= <-]; apply Hf|]. destruct (negb _ && _); [intros [= <-]; apply Hf|].
  destruct (list_archive _ _ _) as [[entries|e]|] eqn:El; cbn [mbind option_bind];
    [|intros [= <-]; apply Hf|done].
  apply listed_within in El. intros Hr. apply (inj Some) in Hr. subst r.
  match goal with |- within_limits (Package.metadata (verify_signature _ ?p ?t ?m)) =>
    destruct (verify_signature_same p t m) as (E1 & E2 & E3) end.
  unfold within_limits. rewrite E1, E2, E3. cbn [Package.scripts Package.hooks Package.executables].
  assert (∀ f, Z.of_nat (length (List.filter f (map e_path entries))) ≤ max_entries default_limits) as Hl.
  { intros f. pose proof (List.filter_length_le f (map e_path entries)) as Hle.
    rewrite length_map in Hle. lia. }
  by split_and!.
Qed.

Lemma inspect_eventually package timeout :
  eventually (λ r, within_limits (Package.metadata r)) (λ n, inspect H n package timeout).
Proof.
  assert (returns (λ n, inspect H n package timeout)) as (n & r & _ & Hr).
  { unfold inspect. destruct (negb _); [done|]. destruct (_ || _); [done|].
    eapply eventually_bind; [by eapply read_eventually|]. intros [info|e] _; [|done].
    destruct (_ || _); [done|]. destruct (_ && _); [done|].
    eapply eventually_bind; [by eapply list_eventually|]. by intros [entries|e] _. }
  exists n, r. split; [by eapply inspect_within, (Hr n)|done].
Qed.

End Inspection.

(** ** A scan *)

(** No observation of a file records more than five risk factors. *)
Lemma run_one_factors h root path script options :
  (length (r_risk_factors (run_one h root path script options)) ≤ 5)%nat.
Proof.
  assert (∀ c, (length (output_flags c) ≤ 5)%nat) as Hf.
  { intros c. unfold output_flags. cbv zeta. rewrite !length_app. repeat case_match; cbn; lia. }
  unfold run_one. destruct (is_absolute path || _); [cbn; lia|].
  destruct (negb (h_regular h _)); [cbn; lia|]. destruct (h_session h) as [isolated_root|]; [|cbn; lia].
  destruct (negb (h_regular h _)); [cbn; lia|]. cbv zeta. destruct (negb _ && _); [cbn; lia|].
  apply Hf.
Qed.

(** The partial results of an observation are those of an execution of its
    worker pool. *)
Class PooledObservation {A W} (O : ScanOps A W) :=
  pooled_observation w root tasks options partial w' :
    so_observed O w root tasks options = (partial, w') →
    ∃ possible p,
      rtc (observe_step possible root options tasks) (observe_start options tasks) p ∧
      cleared p ∧ partial = p_partial p.

Lemma slot_factors possible root options tasks i x :
  slot_result possible root options tasks i x → (length (r_risk_factors x) ≤ 6)%nat.
Proof.
  destruct 1 as [t h seconds _ _ _|t h seconds part what _ _ _ [_ _ _ _ Hf _]].
  - etrans; [apply run_one_factors|lia].
  - destruct Hf as [k Hk]. apply (f_equal length) in Hk. rewrite length_app in Hk.
    cbn. rewrite length_app. cbn.
    pose proof (run_one_factors h root (t_path t) (t_script t) (task_options options seconds)). lia.
Qed.

(** One partial result for each task, with the factors of a run (five at most)
    or of an expiry, and one for an exception. *)
Lemma bounded_observation {A W} (O : ScanOps A W) `{!PooledObservation O} w root tasks options partial w' :
  so_observed O w root tasks options = (partial, w') →
  (length partial ≤ length tasks)%nat ∧
  Forall (λ x, (length (r_risk_factors x) ≤ 6)%nat) partial.
Proof.
  intros E. destruct (pooled_observation _ _ _ _ _ _ E) as (possible & p & Hr & Hc & ->).
  destruct (pool_slots _ _ _ _ _ _ Hr Hc) as (Hl & m & Hm). split; [lia|].
  apply Forall_lookup. intros i x Hx. destruct (Hm i x Hx) as [H1 H2].
  destruct (decide (i < m)%nat) as [Hi|Hi]; [|rewrite H2 by lia; cbn; lia].
  destruct (H1 Hi) as [Hs| ->]; [by eapply slot_factors|].
  destruct (tasks !! i); cbn; lia.
Qed.

Lemma merged_factors start partial :
  Forall (λ x, (length (r_risk_factors x) ≤ 6)%nat) partial →
  (length (r_risk_factors (foldl append_result start partial)) ≤
   length (r_risk_factors start) + 6 * length partial)%nat.
Proof.
  revert start. induction partial as [|x partial IH]; intros start Hf; [cbn; lia|].
  inversion Hf as [|? ? Hx Hf']; subst. cbn [foldl length]. etrans; [by apply IH|].
  cbn [append_result r_risk_factors]. rewrite length_app. lia.
Qed.

Lemma observe_factors options present setuid tasks partial :
  Forall (λ x, (length (r_risk_factors x) ≤ 6)%nat) partial →
  (length (r_risk_factors (observe options present setuid tasks partial)) ≤
   6 * length partial + 3)%nat.
Proof.
  intros Hf. unfold observe. cbv zeta. cbn [foldl].
  set (start := mkResult _ _ _ _ [] []).
  pose proof (merged_factors start partial Hf) as Hm. cbn in Hm.
  cbn [append_result r_risk_factors]. rewrite !length_app.
  destruct (present "etc/systemd/system" || _), (present "etc/cron.d" || _ || _), setuid; cbn; lia.
Qed.

(** The weights of an assessment fit the [int] of the score. *)
Lemma risk_calls_weight options observed r :
  total_weight (risk_calls options observed r) ≤
  120 + 10 * Z.of_nat (length (r_risk_factors observed)).
Proof.
  assert (∀ l, total_weight (map (CAdd "observation" 10) l) = 10 * Z.of_nat (length l)) as Ho.
  { induction l as [|x l IH]; [done|]. cbn [map total_weight foldr call_weight length].
    change (foldr _ 0 ?t) with (total_weight t). rewrite IH. lia. }
  assert (∀ (b : bool) n w x, total_weight (if b then [CAdd n w x] else []) ≤ Z.max 0 w) as Hw.
  { intros [] n w x; cbn; lia. }
  unfold risk_calls. cbv zeta. rewrite !total_weight_app, Ho.
  repeat match goal with |- context [total_weight (if ?b then [CAdd ?n ?w ?x] else [])] =>
    pose proof (Hw b n w x); generalize dependent (total_weight (if b then [CAdd n w x] else [])); intros
  end. lia.
Qed.

Lemma open_session_metadata {A W} (O : ScanOps A W) w options r s r1 w' :
  open_session O w options r = (Ok (s, r1), w') → Package.metadata r1 = Package.metadata r.
Proof.
  unfold open_session. destruct (fs_symlink _ w _); [done|].
  destruct (if fs_exists _ w _ then _ else _) as [[m|] w1]; [done|].
  destruct (unique_directory O 1000 0 w1 _ _) as [artifact w2].
  destruct (bool_decide (artifact = "")); [done|].
  destruct (unique_directory O 1000 0 w2 _ _) as [workspace w3].
  destruct (bool_decide (workspace = "")); [done|].
  destruct (create _ _ _ w3 _ workspace) as [[s'|e] w4]; [by intros [= _ <- _]|done].
Qed.

Section Scan.
Context {A W : Type} (O : ScanOps A W) (left : A → nat) (interrupts : W → nat).
Context `{!∀ package, ArchiveProgress (ph_archive (so_host O) package) left}.
Context `{!WriteProgress (so_files O) interrupts, !PooledObservation O}.

Lemma install_eventually w root package options r :
  eventually (λ x, match x.1 with
                   | Ok r' => Package.metadata r' = Package.metadata r
                   | Err _ => True
                   end) (λ n, install O n w root package options r).
Proof.
  unfold install. destruct (fs_exists _ _ _); [|by apply eventually_ret]. cbv zeta.
  destruct (read_buffer _) as [data input]. destruct (negb (eofbit input)); [by apply eventually_ret|].
  eapply eventually_bind; [by eapply write_root_file_eventually|]. intros [written w1] _.
  destruct (negb written); [by apply eventually_ret|].
  destruct (so_run_captured O _ _ _ _) as [installed w2].
  destruct (_ || _); by apply eventually_ret.
Qed.

Lemma stage_eventually w root package path : returns (λ n, stage O n w root package path).
Proof.
  unfold stage. cbv zeta. destruct (fs_exists _ _ _); [done|].
  eapply eventually_bind; [by eapply read_eventually|]. intros [content|e] _; [|done].
  eapply eventually_bind; [by eapply write_root_file_eventually|]. by intros [] _.
Qed.

Lemma stage_all_eventually w root package paths : returns (λ n, stage_all O n w root package paths).
Proof.
  revert w. induction paths as [|path paths IH]; intros w; cbn [stage_all]; [done|].
  eapply eventually_bind; [apply stage_eventually|]. intros w1 _. apply IH.
Qed.

Lemma find_executables_eventually w root package files m :
  eventually (λ x, Package.scripts x.1 = Package.scripts m ∧ Package.hooks x.1 = Package.hooks m ∧
                   (length (Package.executables x.1) ≤
                    length (Package.executables m) + length files)%nat)
    (λ n, find_executables O n w root package files m).
Proof.
  revert w m. induction files as [|path files IH]; intros w m; cbn [find_executables].
  { apply eventually_ret. cbn. split_and!; [done..|lia]. }
  eapply eventually_bind; [by eapply read_eventually|].
  assert (∀ w, eventually (λ x, Package.scripts x.1 = Package.scripts m ∧
      Package.hooks x.1 = Package.hooks m ∧ (length (Package.executables x.1) ≤
        length (Package.executables m) + length (path :: files))%nat)
      (λ n, find_executables O n w root package files m)) as Hskip.
  { intros w1. eapply eventually_weaken; [|apply IH]. cbn. intros x (? & ? & ?). split_and!; [done..|lia]. }
  intros [content|e] _; [|apply Hskip]. destruct (negb (is_program content)); [apply Hskip|].
  eapply eventually_bind; [apply stage_eventually|]. intros w1 _.
  eapply eventually_weaken; [|apply IH]. cbn. intros x (E1 & E2 & Hx).
  rewrite length_app in Hx. cbn in Hx. split_and!; [done..|lia].
Qed.

(** The tasks of an observation are at most this many. *)
Definition few_tasks (m : Package.Metadata) : Prop :=
  Z.of_nat (length (queue (Package.scripts m) (Package.hooks m) (Package.executables m))) ≤
  2 * max_entries default_limits + 128.

Lemma stage_programs_eventually w root package r :
  within_limits (Package.metadata r) →
  eventually (λ x, few_tasks (Package.metadata x.1)) (λ n, stage_programs O n w root package r).
Proof.
  intros (Hs & Hh & He). unfold stage_programs. cbv zeta.
  eapply eventually_bind; [apply find_executables_eventually|]. intros [m w1]. cbn [fst].
  intros (E1 & E2 & Hx).
  eapply eventually_bind; [apply stage_all_eventually|]. intros w2 _.
  eapply eventually_bind; [apply stage_all_eventually|]. intros w3 _. apply eventually_ret.
  unfold few_tasks, queue. cbn. rewrite !length_app, !length_map, E1, E2.
  rewrite He, length_take in Hx. cbn in Hx. unfold executable_limit in Hx. cbn in Hs, Hh. lia.
Qed.

Lemma observe_programs_few w root options r observed r' w' :
  few_tasks (Package.metadata r) → observe_programs O w root options r = (observed, r', w') →
  ∃ r2, assess_risk options observed r' = Some r2.
Proof.
  unfold few_tasks, observe_programs. cbv zeta. intros Ht.
  destruct (so_observed O w _ _ _) as [partial w1] eqn:E.
  apply (bounded_observation O) in E as [Hl Hf].
  intros [= <- _ _]. unfold assess_risk. rewrite assess_run.
  match goal with |- context [total_weight (risk_calls ?o ?x ?r)] =>
    pose proof (risk_calls_weight o x r) as Hw end.
  pose proof (observe_factors (observation_options options)
    (λ p, fs_exists (so_fs O) w1 (path_append root p)) (so_setuid O w1 root)
    (queue (Package.scripts (Package.metadata r)) (Package.hooks (Package.metadata r))
       (Package.executables (Package.metadata r))) partial Hf) as Hfac.
  cbn in Ht. rewrite (proj2 (Z.ltb_lt _ _)) by lia. cbv zeta.
  destruct (Engine.classify _ _). by eexists.
Qed.

Lemma scan_session_eventually w package options s r :
  within_limits (Package.metadata r) → returns (λ n, scan_session O n w package options s r).
Proof.
  intros Hr. unfold scan_session. destruct (negb (isolated s)); [done|]. cbv zeta.
  eapply eventually_bind; [apply install_eventually|]. intros [[r1|r1] w1] Hm; cbn [fst] in Hm; [|done].
  eapply eventually_bind; [apply stage_programs_eventually; cbn; by rewrite Hm|].
  intros [r2 w2] Ht. cbn [fst] in Ht.
  destruct (observe_programs O w2 _ options r2) as [[observed r3] w3] eqn:E.
  destruct (observe_programs_few _ _ _ _ _ _ _ Ht E) as [r4 ->]. cbn [mbind option_bind].
  destruct (store_scan O w3 package options _) as [r5 w4].
  by destruct (write_artifacts _ _ _) as [written w5].
Qed.

(** C26: a scan returns whatever the package, the system and the observation
    do: when an archive has finitely many headers and bytes, signals interrupt
    a write finitely often and the partial results of an observation are those
    of its worker pool, every large enough fuel gives the same result; in particular
    the sum of the risk weights never overflows. *)
Theorem scan_returns w package options :
  ∃ n x, ∀ fuel, (n ≤ fuel)%nat → scan O fuel w package options = Some x.
Proof.
  assert (returns (λ n, scan O n w package options)) as (n & x & _ & Hx); [|by exists n, x].
  unfold scan. destruct (Package.privileged options); [done|].
  eapply eventually_bind; [by eapply inspect_eventually|]. intros r0 Hr.
  destruct (negb (Package.ok r0)).
  { destruct (reject_inspection_shape r0) as [l ->]. apply returns_ret. }
  destruct (check_mirrors options r0) as [r1|]; [done|].
  destruct (open_session O w options r0) as [[[s r1]|r1] w1] eqn:Eo; [|done].
  eapply eventually_bind; [|by intros [r2 w2] _].
  apply scan_session_eventually. by rewrite (open_session_metadata _ _ _ _ _ _ _ Eo).
Qed.

End Scan.

(** The scan of the sample package: its archive is in memory, and what is
    staged is refused. *)
Lemma scan_returns_witness :
  ∃ n x, ∀ fuel, (n ≤ fuel)%nat →
    scan (sample_ops memory_root no_database) fuel sample_world sample_path sample_options = Some x.
Proof.
  unshelve eapply (@scan_returns _ _ (sample_ops memory_root no_database)
                     (λ r, (mem_weight r.1 + str_length r.2)%nat) (λ _, 0%nat)).
  - intros package. apply mem_progress.
  - split; cbn; [by intros|]. intros w fd s w1 [= ].
  - intros w root tasks options partial w' [= <- <-]. exists (λ _, False).
    destruct (pool_may_run_nothing empty_result (slot_result (λ _, False) root options tasks)
      (λ i, from_option expired_result empty_result (tasks !! i)) (length tasks)
      (worker_count options tasks)) as (p & Hr & Hc & Hp).
    exists p. split; [exact Hr|]. split; [exact Hc|]. by rewrite Hp.
Defined.

Lemma sandbox_run_returns_witness :
  ∃ n x, ∀ fuel, (n ≤ fuel)%nat →
    SandboxRun.run calm_kernel calm_files calm_parent 1000 1000 None (λ _, false) (λ _, false) fuel
      (false, "") default_config = Some x.
Proof.
  unshelve eapply (@sandbox_run_returns _ calm_kernel calm_files calm_parent 1000 1000
                     (λ _, 0%nat) (λ _, 0%nat)).
  split; cbn; [|discriminate|discriminate].
  intros w fd s n w' [= <- _] Hs. destruct s; [done|]. unfold size, str_length. cbn. lia.
Defined.
