(* ===== verification/Aur.v ===== *)
(** * Reading a PKGBUILD (include/execell/package/aur.hpp, src/package/aur.cpp)

    The manifest of a PKGBUILD: its identity, its sources with their hashes, the
    phases it defines and the constructs that look suspicious.  The text is not
    executed; what is read is the first line that assigns a variable. *)

From S2P Require Import Prelude CxxString Lines.

(** ** Data *)

Record Source := mkSource { src_value : string; src_hash : string }.

Record Manifest := mkManifest {
  m_name : string;
  m_version : string;
  m_release : string;
  m_architectures : list string;
  m_sources : list Source;
  m_phases : list string;
  m_findings : list string;
}.

(** ** Assignments *)

(** [while (line.starts_with(" ") || line.starts_with("\t")) line.remove_prefix(1);] *)
Fixpoint trim_blanks (line : string) : string :=
  match line with
  | String c rest => if bool_decide (c = " "%char) || bool_decide (c = tab) then trim_blanks rest else line
  | "" => ""
  end.

(** A value in a pair of quotes loses them. *)
Definition unquote (line : string) : string :=
  let enclosed c := starts_with line (str c) && ends_with line (str c) in
  if (2 <=? str_length line)%nat && (enclosed "'"%char || enclosed dquote)
  then substr line 1 (str_length line - 2) else line.

(** The body of the loop on a line: the value if the line assigns the key. *)
Definition assigned (prefix line : string) : option string :=
  let line := trim_blanks line in
  if starts_with line prefix then Some (unquote (trim_blanks (str_drop (str_length prefix) line)))
  else None.

(** The loop of [assignment]. *)
Fixpoint assignment_loop (fuel : nat) (text prefix : string) (position : nat) : option string :=
  match fuel with
  | O => None
  | S fuel =>
      if (position <? str_length text)%nat then
        match assigned prefix (line_rest text position) with
        | Some value => Some value
        | None =>
            match find_char text newline position with
            | None => Some ""
            | Some last => assignment_loop fuel text prefix (last + 1)
            end
        end
      else Some ""
  end.

(** [assignment]; the loop advances by a line at least. *)
Definition assignment (text key : string) : string :=
  default "" (assignment_loop (S (str_length text)) text (key +:+ "=") 0).

(** ** Words *)

(** The characters [operator>>] skips. *)
Definition isspace (c : ascii) : bool :=
  bool_decide (c = " "%char) || ((9 <=? code c) && (code c <=? 13)).

(** Extraction of words up to the end of a stream; [word] is what was read of
    the current one. *)
Fixpoint extract_words (word : string) (s : string) : list string :=
  let close := if bool_decide (word = "") then [] else [word] in
  match s with
  | "" => close
  | String c s => if isspace c then close ++ extract_words "" s else extract_words (word +:+ str c) s
  end.

(** The first loop of [words]. *)
Fixpoint blank_delimiters (s : string) : string :=
  match s with
  | "" => ""
  | String c s =>
      String (if bool_decide (c = "("%char) || bool_decide (c = ")"%char) ||
                 bool_decide (c = dquote) || bool_decide (c = "'"%char) then " "%char else c)
        (blank_delimiters s)
  end.

Definition words (value : string) : list string := extract_words "" (blank_delimiters value).

(** ** The manifest *)

Definition phase_names : list string := ["prepare"; "build"; "check"; "package"; "pkgver"].

Definition suspicious : list string :=
  ["eval"; "curl | sh"; "wget | sh"; "systemctl"; "sudo"; "setcap"; "chmod +s"; "mount "; "insmod";
   "modprobe"].

(** Every source with the hash at its index. *)
Fixpoint pair_sources (sources hashes : list string) : list Source :=
  match sources with
  | [] => []
  | s :: sources => mkSource s (default "" (head hashes)) :: pair_sources sources (tail hashes)
  end.

(** The part of [parse] that works on the text. *)
Definition parse_text (text : string) : expected Manifest string :=
  if contains_char text "000"%char then Err "PKGBUILD contains NUL byte"
  else
    let name := assignment text "pkgname" in
    let version := assignment text "pkgver" in
    let architectures := words (assignment text "arch") in
    let findings :=
      map (λ p, "PKGBUILD contains suspicious construct: " +:+ p)
        (List.filter (contains_str text) suspicious) in
    if bool_decide (name = "") || bool_decide (version = "")
    then Err "PKGBUILD missing pkgname or pkgver"
    else
      Ok (mkManifest name version (assignment text "pkgrel") architectures
            (pair_sources (words (assignment text "source")) (words (assignment text "sha256sums")))
            (List.filter (λ phase, contains_str text (phase +:+ "()")) phase_names)
            (findings ++ (if bool_decide (architectures = []) then ["architecture declaration missing"]
                          else []))).

(** [parse], from the status, the size and the content of the file; a size that
    cannot be read is the largest one. *)
Definition parse (regular : bool) (file_size : expected Z string) (content : option string)
    (max_bytes : Z) : expected Manifest string :=
  if negb regular then Err "PKGBUILD is not a regular file"
  else if max_bytes <? match file_size with Ok n => n | Err _ => 2 ^ 64 - 1 end
  then Err "PKGBUILD exceeds size limit"
  else
    match content with
    | None => Err "PKGBUILD open failed"
    | Some text => parse_text text
    end.

Definition default_max_bytes : Z := 2 ^ 20.

(** ** The first line that assigns *)

(** The reference: the value of the first line with an assignment. *)
Fixpoint first_assigned (prefix : string) (lines : list string) : string :=
  match lines with
  | [] => ""
  | line :: lines => match assigned prefix line with Some v => v | None => first_assigned prefix lines end
  end.

Lemma assigned_empty key : assigned (key +:+ "=") "" = None.
Proof. unfold assigned. cbn [trim_blanks]. by destruct key. Qed.

Lemma assignment_loop_lines fuel text key position :
  (position ≤ str_length text)%nat → (str_length text - position < fuel)%nat →
  assignment_loop fuel text (key +:+ "=") position =
  Some (first_assigned (key +:+ "=") (split_on newline (str_drop position text))).
Proof.
  revert position. induction fuel as [|fuel IH]; intros position Hp Hf; [lia|].
  cbn [assignment_loop]. unfold line_rest. rewrite find_char_drop, split_on_find by done.
  set (s := str_drop position text).
  assert (str_length s = (str_length text - position)%nat) as Hs by apply str_length_drop.
  destruct (Nat.ltb_spec position (str_length text)) as [Hlt|Hge].
  - destruct (find_suffix _ s) as [n|] eqn:E; cbn [fmap option_fmap option_map first_assigned].
    + pose proof (find_fits _ _ _ E) as Hfit. change (str_length (str newline)) with 1%nat in Hfit.
      unfold substr. fold s. replace (position + n - position)%nat with n by lia.
      destruct (assigned _ (str_take n s)); [done|]. rewrite IH by lia. unfold s.
      rewrite str_drop_drop. do 3 f_equal. f_equal. lia.
    + unfold substr. fold s. rewrite str_take_length by lia. by destruct (assigned _ s).
  - assert (s = "") as -> by (destruct s; [done|unfold str_length in *; simpl in *; lia]).
    cbn [find_suffix starts_with str fmap option_fmap option_map first_assigned].
    by rewrite assigned_empty.
Qed.

Lemma assignment_lines text key :
  assignment text key = first_assigned (key +:+ "=") (split_on newline text).
Proof. unfold assignment. rewrite assignment_loop_lines by lia. by rewrite str_drop_0. Qed.

(** The index loop that looks for an assignment returns the value on the
    first line of the text that assigns the variable, without the blanks around
    it and its quotes, or nothing when no line does. *)
Theorem assignment_first_line text key :
  assignment text key = first_assigned (key +:+ "=") (split_on newline text).
Proof. apply assignment_lines. Qed.

Lemma pair_sources_values sources hashes : map src_value (pair_sources sources hashes) = sources.
Proof. revert hashes. induction sources as [|s sources IH]; intros hashes; [done|]. cbn. by rewrite IH. Qed.

Lemma parse_text_sources text m :
  parse_text text = Ok m → map src_value (m_sources m) = words (assignment text "source").
Proof.
  unfold parse_text. destruct (contains_char _ _); [done|]. destruct (_ || _); [done|].
  intros [= <-]. apply pair_sources_values.
Qed.

Lemma unquote_paren s : unquote (String "("%char s) = String "("%char s.
Proof. unfold unquote. cbn zeta. rewrite !starts_with_str. cbn. by rewrite andb_false_r. Qed.

Lemma words_paren s : words (String "("%char s) = words s.
Proof. done. Qed.

(** A PKGBUILD whose array of sources begins on the third line. *)
Definition pkgbuild (name version first rest : string) : string :=
  ("pkgname=" +:+ name) +:+ String newline (("pkgver=" +:+ version) +:+
  String newline (("source=(" +:+ first) +:+ String newline rest)).

Lemma pkgbuild_source name version first rest :
  str_elem newline name = false → str_elem newline version = false → str_elem newline first = false →
  assignment (pkgbuild name version first rest) "source" = String "("%char first.
Proof.
  intros Hn Hv Hf. rewrite assignment_lines. unfold pkgbuild.
  rewrite !split_newline_cons by (rewrite str_elem_app; by apply orb_false_iff).
  cbn [first_assigned].
  change (assigned _ ("pkgname=" +:+ name)) with (@None string).
  change (assigned _ ("pkgver=" +:+ version)) with (@None string).
  change (assigned _ ("source=(" +:+ first)) with (Some (unquote (String "("%char first))).
  apply unquote_paren.
Qed.

(** An array of sources that spans lines is cut at the end of its first
    line: whatever follows, in particular further sources, is not part of the
    manifest, so nothing that is decided on the manifest applies to it. *)
Theorem sources_end_with_line name version first rest m :
  str_elem newline name = false → str_elem newline version = false → str_elem newline first = false →
  parse_text (pkgbuild name version first rest) = Ok m →
  map src_value (m_sources m) = words first.
Proof.
  intros Hn Hv Hf Hm. by rewrite (parse_text_sources _ _ Hm), pkgbuild_source, words_paren.
Qed.

Lemma sources_end_with_line_witness :
  ∃ m, parse_text (pkgbuild "demo" "1" "https://good.example/a"
                     ("https://evil.example/b)" +:+ str newline +:+ "arch=(any)")) = Ok m ∧
    m_architectures m = ["any"] ∧ map src_value (m_sources m) = ["https://good.example/a"].
Proof.
  eexists. split; [vm_compute; reflexivity|]. split; [reflexivity|].
  apply (sources_end_with_line "demo" "1" "https://good.example/a"
           ("https://evil.example/b)" +:+ str newline +:+ "arch=(any)")); vm_compute; reflexivity.
Defined.

(** A PKGBUILD on one line per variable. *)
Example parse_sample :
  let line l := l +:+ str newline in
  parse_text (line "pkgname='demo'" +:+ line "pkgver=1.2" +:+ line "  pkgrel=3" +:+ line "arch=(x86_64 any)" +:+
              line "source=(a.tar b.tar)" +:+ line "sha256sums=('00' SKIP)" +:+ line "build() { sudo make; }") =
  Ok (mkManifest "demo" "1.2" "3" ["x86_64"; "any"] [mkSource "a.tar" "00"; mkSource "b.tar" "SKIP"]
        ["build"] ["PKGBUILD contains suspicious construct: sudo"]).
Proof. vm_compute. reflexivity. Qed.
