(* ===== verification/Build.v ===== *)
(** * Building a package (include/execell/package/build.hpp,
      src/package/build.cpp)

    A PKGBUILD is parsed, the hosts of its sources are checked, and makepkg runs
    on it in a sandbox over a fresh root, once for the sources, once for the
    package and once for every repetition.  The system is a parameter. *)

From S2P Require Import Prelude CxxString FsPath StrOrder Capture Seccomp Sandbox.
From S2P Require Import Fingerprint Rootfs Aur.

(** ** Data *)

Module Build.

Record Options := mkOptions {
  rootfs : string;
  workspace : string;
  artifact_root : string;
  timeout : Z;
  network : bool;
  allowed_hosts : list string;
  cgroup_root : string;
  repetitions : nat;
  output_limit : Z;
}.

Record Result := mkResult {
  ok : bool;
  timed_out : bool;
  status : Z;
  error : string;
  findings : list string;
  phases : list string;
  events : list string;
  artifacts : list string;
  reproducible : bool;
}.

(** [Result{}] *)
Definition no_result : Result := mkResult false false (-1) "" [] [] [] [] true.

(** Assignments to the members of a result. *)
Definition fail (message : string) (r : Result) : Result :=
  mkResult (ok r) (timed_out r) (status r) message (findings r) (phases r) (events r) (artifacts r)
    (reproducible r).
Definition add_findings (l : list string) (r : Result) : Result :=
  mkResult (ok r) (timed_out r) (status r) (error r) (findings r ++ l) (phases r) (events r)
    (artifacts r) (reproducible r).
Definition add_events (l : list string) (r : Result) : Result :=
  mkResult (ok r) (timed_out r) (status r) (error r) (findings r) (phases r) (events r ++ l)
    (artifacts r) (reproducible r).
Definition set_run (c : Captured) (r : Result) : Result :=
  mkResult (ok r) (c_timed_out c) (c_status c) (error r) (findings r) (phases r) (events r)
    (artifacts r) (reproducible r).
Definition set_artifacts (l : list string) (r : Result) : Result :=
  mkResult (ok r) (timed_out r) (status r) (error r) (findings r) (phases r) (events r) l
    (reproducible r).
Definition mismatch (r : Result) : Result :=
  mkResult (ok r) (timed_out r) (status r) (error r) (findings r) (phases r) (events r)
    (artifacts r) false.
Definition set_ok (b : bool) (r : Result) : Result :=
  mkResult b (timed_out r) (status r) (error r) (findings r) (phases r) (events r) (artifacts r)
    (reproducible r).

End Build.

(** ** The sources *)

(** The body of the loop of [json_escape]. *)
Definition build_escape_char (c : ascii) : string :=
  if bool_decide (c = dquote) || bool_decide (c = backslash) then String backslash (str c) else str c.

Definition build_escape (s : string) : string := concat_str (map build_escape_char (String.list_ascii_of_string s)).

Definition host_from_source (source : string) : string :=
  match find_str source "://" 0 with
  | None => ""
  | Some scheme =>
      let host := str_drop (scheme + 3) source in
      match find_first_of host "/:" 0 with None => host | Some last => str_take last host end
  end.

(** [allowed] *)
Definition host_allowed (host : string) (allowlist : list string) : bool :=
  existsb (λ entry, bool_decide (host = entry)) allowlist.

(** The loop over the sources before the build: the first host that is
    rejected. *)
Definition rejected_host (options : Build.Options) (sources : list Source) : option string :=
  List.find (λ host, negb (bool_decide (host = "")) && Build.network options &&
                     negb (host_allowed host (Build.allowed_hosts options)))
    (map (λ s, host_from_source (src_value s)) sources).

(** The event of a source. *)
Definition source_event (s : Source) : string :=
  quoted "{'type':'source','url':'" +:+ build_escape (src_value s) +:+
  quoted "','sha256':'" +:+ build_escape (src_hash s) +:+
  quoted "','host':'" +:+ build_escape (host_from_source (src_value s)) +:+ quoted "'}".

(** The sandbox makepkg runs in. *)
Definition build_config (root : string) (options : Build.Options) : Config :=
  mkConfig namespaces true true true true true false true true true true false
    (u64 (Build.timeout options)) (2 * 1024 * 1024 * 1024) 256 (512 * 1024 * 1024) root "/build"
    default_package_syscalls (mkCgroup (Build.cgroup_root options) 0 0 0 100000).

Definition source_command : list string := ["/usr/bin/makepkg"; "--noconfirm"; "--nodeps"; "--nobuild"].
Definition build_command : list string :=
  ["/usr/bin/makepkg"; "--noconfirm"; "--nodeps"; "--noextract"; "--noprepare"].

(** ** The build *)

Record BuildOps (W : Type) := mkBuildOps {
  bo_fs : RootfsOps W;
  bo_pid : Z;
  bo_uid : Z;
  (** status and size of a file, and its content when it can be opened *)
  bo_regular : W → string → bool;
  bo_size : W → string → expected Z string;
  bo_content : W → string → option string;
  (** an [ofstream] that is opened and written to, which says whether it is in
      a good state, and its destruction at the end of the function *)
  bo_stream : W → string → string → bool * W;
  bo_close_stream : W → W;
  bo_run_captured : W → list string → Config → Z → Z → Captured * W;
  (** [directory_iterator]: the entries, and whether each is a regular file; an
      error gives no entries *)
  bo_entries : W → string → list (string * expected bool unit);
  (** [copy_file] *)
  bo_copy : W → string → string → bool * W;
}.
Arguments bo_fs {W}.
Arguments bo_pid {W}.
Arguments bo_uid {W}.
Arguments bo_regular {W}.
Arguments bo_size {W}.
Arguments bo_content {W}.
Arguments bo_stream {W}.
Arguments bo_close_stream {W}.
Arguments bo_run_captured {W}.
Arguments bo_entries {W}.
Arguments bo_copy {W}.

Section Build.
Context {W : Type} (O : BuildOps W).

(** The loop that collects the artifacts: their fingerprints and their
    destinations; an error that an iteration leaves ends the next one. *)
Fixpoint collect (w : W) (artifact_root : string) (error : bool)
    (entries : list (string * expected bool unit)) (hashes : list (string * string))
    (artifacts : list string) : list (string * string) * list string * W :=
  match entries with
  | [] => (hashes, artifacts, w)
  | (path, regular) :: entries =>
      if error then (hashes, artifacts, w)
      else
        match regular with
        | Err _ => collect w artifact_root true entries hashes artifacts
        | Ok regular =>
            if regular && contains_str (filename path) ".pkg.tar." then
              let hashes := map_set (filename path) (file_fingerprint (bo_content O w path)) hashes in
              let destination := path_append artifact_root (filename path) in
              match bo_copy O w path destination with
              | (true, w) => collect w artifact_root false entries hashes (artifacts ++ [destination])
              | (false, w) => collect w artifact_root true entries hashes artifacts
              end
            else collect w artifact_root false entries hashes artifacts
        end
  end.

(** The comparison of a repetition with the first hashes. *)
Fixpoint check_hashes (w : W) (build_root : string) (hashes : list (string * string))
    (r : Build.Result) : Build.Result :=
  match hashes with
  | [] => r
  | (name, original) :: hashes =>
      let current := file_fingerprint (bo_content O w (path_append build_root name)) in
      check_hashes w build_root hashes
        (if bool_decide (current = original) then r
         else Build.add_findings ["non-deterministic artifact: " +:+ name] (Build.mismatch r))
  end.

(** The loop over the repetitions that are left. *)
Fixpoint repeat_builds (n : nat) (w : W) (build_root : string) (config : Config)
    (options : Build.Options) (hashes : list (string * string)) (r : Build.Result)
    : Build.Result * W :=
  match n with
  | 0%nat => (r, w)
  | S n =>
      let '(rebuild, w) := bo_run_captured O w build_command config (Build.timeout options)
                             (Build.output_limit options) in
      if c_timed_out rebuild || negb (c_status rebuild =? 0)
      then (Build.add_findings ["repeat build failed"] (Build.mismatch r), w)
      else repeat_builds n w build_root config options hashes (check_hashes w build_root hashes r)
  end.

(** The end of [run]: the artifacts, the repetitions and the outcome. *)
Definition finish_build (w : W) (build_root : string) (config : Config) (options : Build.Options)
    (r : Build.Result) : Build.Result * W :=
  match fs_mkdirs (bo_fs O) w (Build.artifact_root options) with
  | (Some message, w) => (Build.fail ("artifact directory creation failed: " +:+ message) r, w)
  | (None, w) =>
      let '(hashes, artifacts, w) :=
        collect w (Build.artifact_root options) false (bo_entries O w build_root) [] [] in
      let r := Build.set_artifacts artifacts r in
      let '(r, w) :=
        repeat_builds (Build.repetitions options - 1) w build_root config options hashes r in
      let r := if Build.reproducible r then r else Build.add_events ["reproducibility_mismatch"] r in
      let empty := bool_decide (Build.artifacts r = []) in
      let r := Build.set_ok (negb empty && Build.reproducible r) r in
      (if empty then Build.fail "makepkg produced no package artifact" r
       else if negb (Build.reproducible r) then Build.fail "reproducibility mismatch" r else r, w)
  end.

(** The two runs of makepkg. *)
Definition run_phases (w : W) (build_root : string) (config : Config) (options : Build.Options)
    (sources : list Source) (r : Build.Result) : Build.Result * W :=
  let r := Build.add_events
             ("source_download_start"
              :: (if Build.network options then "network_requested_isolated" else "network_disabled")
              :: map source_event sources) r in
  let '(source_phase, w) := bo_run_captured O w source_command config (Build.timeout options)
                              (Build.output_limit options) in
  let r := Build.add_events
             [if c_timed_out source_phase then "source_download_timeout" else "source_download_complete"]
             (Build.set_run source_phase r) in
  if c_timed_out source_phase then (Build.fail "AUR source phase timed out" r, w)
  else if negb (c_status source_phase =? 0) then (Build.fail "AUR source phase failed" r, w)
  else
    let r := Build.add_events ["build_start"] r in
    let '(build_phase, w) := bo_run_captured O w build_command config (Build.timeout options)
                               (Build.output_limit options) in
    let r := Build.add_events
               [if c_timed_out build_phase then "build_timeout" else "build_complete"]
               (Build.set_run build_phase r) in
    if c_timed_out build_phase then (Build.fail "AUR build timed out" r, w)
    else if negb (c_status build_phase =? 0) then (Build.fail "makepkg build phase failed" r, w)
    else finish_build w build_root config options r.

(** What follows the creation of the root: the PKGBUILD is staged; its stream
    is destroyed when the function returns. *)
Definition build_session (w : W) (pkgbuild : string) (options : Build.Options) (s : Session)
    (sources : list Source) (r : Build.Result) : Build.Result * W :=
  if negb (isolated s) then (Build.fail "build rejected: Btrfs rootfs isolation unavailable" r, w)
  else
    let build_root := path_append (path s) "build" in
    match fs_mkdirs (bo_fs O) w build_root with
    | (Some message, w) => (Build.fail ("build directory creation failed: " +:+ message) r, w)
    | (None, w) =>
        let content := bo_content O w pkgbuild in
        let '(staged, w) := bo_stream O w (path_append build_root "PKGBUILD") (default "" content) in
        let '(r, w) :=
          if negb (bool_decide (is_Some content)) || negb staged
          then (Build.fail "PKGBUILD staging failed" r, w)
          else run_phases w build_root (build_config (path s) options) options sources r in
        (r, bo_close_stream O w)
    end.

(** [run] *)
Definition build (w : W) (pkgbuild : string) (options : Build.Options) : Build.Result * W :=
  match parse (bo_regular O w pkgbuild) (bo_size O w pkgbuild) (bo_content O w pkgbuild)
          default_max_bytes with
  | Err e => (Build.fail e Build.no_result, w)
  | Ok m =>
      let r := Build.mkResult false false (-1) "" (m_findings m) (m_phases m) [] [] true in
      match rejected_host options (m_sources m) with
      | Some host =>
          (Build.add_findings ["network source rejected by allowlist: " +:+ host]
             (Build.fail ("source host is not allowlisted: " +:+ host) r), w)
      | None =>
          match fs_mkdirs (bo_fs O) w (Build.workspace options) with
          | (Some message, w) => (Build.fail ("build workspace creation failed: " +:+ message) r, w)
          | (None, w) =>
              match create (bo_fs O) (bo_pid O) (bo_uid O) w (Build.rootfs options)
                      (Build.workspace options) with
              | (Err e, w) => (Build.fail e r, w)
              | (Ok s, w) =>
                  let '(r, w) := build_session w pkgbuild options s (m_sources m) r in
                  (r, (release (bo_fs O) w s).1)
              end
          end
      end
  end.

End Build.
