(* ===== verification/BuildSpec.v ===== *)
(** * What a build guarantees

    The conditions under which Build reports success, and two ways in which the
    code fails its intent: a source that names an allowed host as its user, and
    the stream of the staged PKGBUILD that is closed too late. *)

From S2P Require Import Prelude CxxString FsPath StrOrder Capture Seccomp Sandbox.
From S2P Require Import Fingerprint Rootfs Aur Build.

(** ** Repetitions *)

Section Facts.
Context {W : Type} (O : BuildOps W).

(** [n] builds, from one world to another, that end well, in time and leave
    files with the given fingerprints. *)
Fixpoint reproduced (n : nat) (w : W) (build_root : string) (config : Config)
    (options : Build.Options) (hashes : list (string * string)) (w' : W) : Prop :=
  match n with
  | 0%nat => w' = w
  | S n =>
      let '(c, w) := bo_run_captured O w build_command config (Build.timeout options)
                       (Build.output_limit options) in
      c_timed_out c = false ∧ c_status c = 0 ∧
      Forall (λ e, file_fingerprint (bo_content O w (path_append build_root e.1)) = e.2) hashes ∧
      reproduced n w build_root config options hashes w'
  end.

Lemma check_hashes_same w build_root hashes r :
  Build.reproducible (check_hashes O w build_root hashes r) = true →
  Build.reproducible r = true ∧
  Forall (λ e, file_fingerprint (bo_content O w (path_append build_root e.1)) = e.2) hashes.
Proof.
  revert r. induction hashes as [|[name original] hashes IH]; intros r; cbn [check_hashes]; [done|].
  case_bool_decide as Hc; intros H; apply IH in H as [Hr Hall]; [|done].
  split; [done|]. by constructor.
Qed.

(** What a stage of the build leaves of the result. *)
Definition same_outcome (r r' : Build.Result) : Prop :=
  Build.ok r' = Build.ok r ∧ Build.timed_out r' = Build.timed_out r ∧
  Build.status r' = Build.status r ∧ Build.artifacts r' = Build.artifacts r.

Lemma check_hashes_outcome w build_root hashes r : same_outcome r (check_hashes O w build_root hashes r).
Proof.
  revert r. induction hashes as [|[name original] hashes IH]; intros r; cbn [check_hashes]; [by split_and!|].
  case_bool_decide; [apply IH|].
  destruct (IH (Build.add_findings ["non-deterministic artifact: " +:+ name] (Build.mismatch r)))
    as (?&?&?&?). by split_and!.
Qed.

Lemma repeat_builds_spec n w build_root config options hashes r r' w' :
  repeat_builds O n w build_root config options hashes r = (r', w') →
  same_outcome r r' ∧
  (Build.reproducible r' = true →
   Build.reproducible r = true ∧ reproduced n w build_root config options hashes w').
Proof.
  revert w r. induction n as [|n IH]; intros w r; cbn [repeat_builds reproduced].
  { intros [= <- <-]. split; [by split_and!|done]. }
  destruct (bo_run_captured O w _ _ _ _) as [c w1].
  destruct (c_timed_out c) eqn:Et; cbn [orb]; [intros [= <- <-]; split; [by split_and!|done]|].
  destruct (Z.eqb_spec (c_status c) 0) as [Hs|Hs]; cbn [negb];
    [|intros [= <- <-]; split; [by split_and!|done]].
  intros H. apply IH in H as [Ho Hr]. split.
  - pose proof (check_hashes_outcome w1 build_root hashes r). unfold same_outcome in *.
    destruct_and!. split_and!; congruence.
  - intros Hrep. apply Hr in Hrep as [Hrep Hn]. apply check_hashes_same in Hrep as [Hrep Hall]. done.
Qed.

(** An artifact: a package in the artifact directory whose fingerprint was
    taken. *)
Definition artifact_of (artifact_root : string) (hashes : list (string * string)) (a : string) : Prop :=
  ∃ name, a = path_append artifact_root name ∧ contains_str name ".pkg.tar." = true ∧
          name ∈ map fst hashes.

Lemma collect_artifacts w artifact_root error entries hashes artifacts :
  let '(hashes', artifacts', _) := collect O w artifact_root error entries hashes artifacts in
  Forall (artifact_of artifact_root hashes) artifacts →
  Forall (artifact_of artifact_root hashes') artifacts'.
Proof.
  revert w error hashes artifacts.
  assert (∀ h h' l, (∀ n, n ∈ map fst h → n ∈ map fst h') →
    Forall (artifact_of artifact_root h) l → Forall (artifact_of artifact_root h') l) as Hmore.
  { intros h h' l Hh Hl. eapply Forall_impl; [exact Hl|].
    intros a (name & H1 & H2 & H3). exists name. split_and!; [done..|by apply Hh]. }
  induction entries as [|[path regular] entries IH]; intros w error hashes artifacts;
    cbn [collect]; [tauto|]. destruct error; [tauto|]. destruct regular as [regular|e]; [|by apply IH].
  destruct (regular && contains_str (filename path) ".pkg.tar.") eqn:E; [|by apply IH].
  apply andb_true_iff in E as [_ E].
  set (hashes' := map_set _ _ hashes).
  assert (∀ n, n ∈ map fst hashes → n ∈ map fst hashes') as Hh
    by (intros n Hn; apply map_set_keys; by right).
  destruct (bo_copy O w path _) as [[] w1].
  - specialize (IH w1 false hashes' (artifacts ++ [path_append artifact_root (filename path)])).
    destruct (collect O w1 _ _ _ _ _) as [[h l] w2]. intros Ha. apply IH, Forall_app.
    split; [by eapply Hmore|]. repeat constructor. exists (filename path). split_and!; [done..|].
    apply map_set_keys. by left.
  - specialize (IH w1 true hashes' artifacts). destruct (collect O w1 _ _ _ _ _) as [[h l] w2].
    intros Ha. apply IH. by eapply Hmore.
Qed.

(** ** Success *)

(** A run of makepkg in the sandbox that ends in time with status zero. *)
Definition phase (w : W) (command : list string) (config : Config) (options : Build.Options) (w' : W)
    : Prop :=
  ∃ c, bo_run_captured O w command config (Build.timeout options) (Build.output_limit options) = (c, w') ∧
       c_timed_out c = false ∧ c_status c = 0.

(** A build that ended well, from the staged PKGBUILD to its end: the sources
    are fetched, the package is built, the fingerprints of the packages are
    taken as they are copied, and the repetitions leave the same ones. *)
Definition built (w : W) (build_root : string) (config : Config) (options : Build.Options)
    (artifacts : list string) (w' : W) : Prop :=
  ∃ w1 w2 w3 hashes w4,
    phase w source_command config options w1 ∧
    phase w1 build_command config options w2 ∧
    fs_mkdirs (bo_fs O) w2 (Build.artifact_root options) = (None, w3) ∧
    collect O w3 (Build.artifact_root options) false (bo_entries O w3 build_root) [] []
      = (hashes, artifacts, w4) ∧
    artifacts ≠ [] ∧ Forall (artifact_of (Build.artifact_root options) hashes) artifacts ∧
    reproduced (Build.repetitions options - 1) w4 build_root config options hashes w'.

(** What comes before: the root is created, and the PKGBUILD staged in it. *)
Definition staged (w : W) (pkgbuild : string) (options : Build.Options) (s : Session) (w' : W) : Prop :=
  ∃ w1 w2 w3 text,
    fs_mkdirs (bo_fs O) w (Build.workspace options) = (None, w1) ∧
    create (bo_fs O) (bo_pid O) (bo_uid O) w1 (Build.rootfs options) (Build.workspace options)
      = (Ok s, w2) ∧
    fs_mkdirs (bo_fs O) w2 (path_append (path s) "build") = (None, w3) ∧
    bo_content O w3 pkgbuild = Some text ∧
    bo_stream O w3 (path_append (path_append (path s) "build") "PKGBUILD") text = (true, w').

Lemma finish_build_ok w build_root config options r r' w' :
  finish_build O w build_root config options r = (r', w') →
  Build.ok r = false → Build.ok r' = true →
  ∃ w3 hashes w4,
    fs_mkdirs (bo_fs O) w (Build.artifact_root options) = (None, w3) ∧
    collect O w3 (Build.artifact_root options) false (bo_entries O w3 build_root) [] []
      = (hashes, Build.artifacts r', w4) ∧
    Build.artifacts r' ≠ [] ∧
    Forall (artifact_of (Build.artifact_root options) hashes) (Build.artifacts r') ∧
    reproduced (Build.repetitions options - 1) w4 build_root config options hashes w'.
Proof.
  unfold finish_build. intros Hf Hok Hok'.
  destruct (fs_mkdirs _ w _) as [[m|] w1]; [injection Hf as <- <-; cbn in Hok'; congruence|].
  pose proof (collect_artifacts w1 (Build.artifact_root options) false (bo_entries O w1 build_root) [] []) as Ha.
  destruct (collect O w1 _ _ _ _ _) as [[hashes artifacts] w2] eqn:Ec.
  destruct (repeat_builds _ _ _ _ _ _ _ _) as [r1 w3] eqn:Er.
  apply repeat_builds_spec in Er as [(O1 & O2 & O3 & O4) Hrep]. cbn in O1, O2, O3, O4.
  destruct (Build.reproducible r1) eqn:Hr1.
  - destruct (bool_decide_reflect (Build.artifacts r1 = [])) as [He|He]; cbn [negb] in Hf;
      rewrite ?Hr1 in Hf; cbn in Hf; rewrite ?Hr1 in Hf; cbn in Hf;
      injection Hf as <- <-; cbn in Hok'; [done|].
    cbn. rewrite O4 in *. exists w1, hashes, w2. split_and!; [done..|by apply Ha|by apply Hrep].
  - cbn in Hf. rewrite Hr1, andb_false_r in Hf.
    destruct (bool_decide (Build.artifacts r1 = [])); injection Hf as <- <-; done.
Qed.

Lemma run_phases_ok w build_root config options sources r r' w' :
  run_phases O w build_root config options sources r = (r', w') →
  Build.ok r = false → Build.ok r' = true →
  built w build_root config options (Build.artifacts r') w'.
Proof.
  unfold run_phases. intros Hf Hok Hok'.
  destruct (bo_run_captured O w _ _ _ _) as [c1 w1] eqn:E1.
  destruct (c_timed_out c1) eqn:T1; [injection Hf as <- <-; cbn in Hok'; congruence|].
  destruct (Z.eqb_spec (c_status c1) 0); cbn [negb] in Hf; [|injection Hf as <- <-; cbn in Hok'; congruence].
  destruct (bo_run_captured O w1 _ _ _ _) as [c2 w2] eqn:E2.
  destruct (c_timed_out c2) eqn:T2; [injection Hf as <- <-; cbn in Hok'; congruence|].
  destruct (Z.eqb_spec (c_status c2) 0); cbn [negb] in Hf; [|injection Hf as <- <-; cbn in Hok'; congruence].
  apply finish_build_ok in Hf as (w3 & hashes & w4 & H1 & H2 & H3 & H4 & H5); [|done..].
  exists w1, w2, w3, hashes, w4. split_and!; try done; [by exists c1|by exists c2].
Qed.

Lemma rejected_host_none options sources :
  rejected_host options sources = None → Build.network options = true →
  Forall (λ s, host_from_source (src_value s) = "" ∨
               host_from_source (src_value s) ∈ Build.allowed_hosts options) sources.
Proof.
  unfold rejected_host. intros Hn Hnet. apply Forall_forall. intros s Hin.
  assert (In (host_from_source (src_value s)) (map (λ s, host_from_source (src_value s)) sources)) as Hs
    by (apply (in_map (λ s, host_from_source (src_value s))), list_elem_of_In, Hin).
  pose proof (List.find_none _ _ Hn _ Hs) as Hf. cbv beta in Hf. rewrite Hnet in Hf.
  destruct (bool_decide_reflect (host_from_source (src_value s) = "")) as [|_]; [by left|right].
  cbn [negb andb] in Hf. apply negb_false_iff in Hf. unfold host_allowed in Hf.
  apply existsb_exists in Hf as (h & Hh & ->%bool_decide_eq_true). by apply list_elem_of_In.
Qed.


End Facts.

(** ** A host as a user *)

Lemma find_delimiter set user c rest :
  str_elem c set = true → str_forall (λ d, negb (str_elem d set)) user = true →
  find_suffix (λ t, match t with "" => false | String d _ => str_elem d set end)
    (user +:+ String c rest) = Some (str_length user).
Proof.
  intros Hc. induction user as [|d user IH]; intros Hu.
  - change ("" +:+ String c rest) with (String c rest). cbn [find_suffix]. by rewrite Hc.
  - cbn [str_forall] in Hu. apply andb_true_iff in Hu as [Hd Hu]. apply negb_true_iff in Hd.
    rewrite app_String. cbn [find_suffix]. rewrite Hd. by rewrite IH.
Qed.

Lemma host_from_userinfo user rest :
  str_forall (λ d, negb (str_elem d "/:")) user = true →
  host_from_source ("https://" +:+ user +:+ ":" +:+ rest) = user.
Proof.
  intros Hu. unfold host_from_source.
  change (find_str ("https://" +:+ user +:+ ":" +:+ rest) "://" 0) with (Some 5%nat). cbv iota.
  change (str_drop (5 + 3) ("https://" +:+ user +:+ ":" +:+ rest)) with (user +:+ String ":"%char rest).
  unfold find_first_of. cbn [Nat.leb str_drop]. rewrite find_delimiter by done.
  apply str_take_app.
Qed.

(** The allowlist can be passed by naming an allowed host as the user of
    the URL: whatever follows the colon, the real host included, is ignored. *)
Theorem userinfo_passes_allowlist options user rest hash sources :
  str_forall (λ d, negb (str_elem d "/:")) user = true → user ∈ Build.allowed_hosts options →
  rejected_host options (mkSource ("https://" +:+ user +:+ ":" +:+ rest) hash :: sources) =
  rejected_host options sources.
Proof.
  intros Hu Hin. unfold rejected_host. cbn [map src_value List.find]. rewrite host_from_userinfo by done.
  assert (host_allowed user (Build.allowed_hosts options) = true) as ->; [|by rewrite andb_false_r].
  apply existsb_exists. exists user. split; [by apply list_elem_of_In|by apply bool_decide_eq_true].
Qed.

Definition guarded_options : Build.Options :=
  Build.mkOptions "/srv/arch" "/tmp/work" "/tmp/out" 300 true ["good.example"] "" 2 (2 ^ 20).

Lemma userinfo_passes_allowlist_witness :
  rejected_host guarded_options [mkSource "https://evil.example/f" ""] = Some "evil.example" ∧
  rejected_host guarded_options [mkSource "https://good.example:x@evil.example/f" ""] = None.
Proof.
  split; [vm_compute; reflexivity|].
  apply (userinfo_passes_allowlist guarded_options "good.example" "x@evil.example/f" "" []);
    [vm_compute; reflexivity|]. apply list_elem_of_In. by left.
Defined.

(** ** The staged PKGBUILD *)

(** What the code meets: text that fits the buffer of an output stream reaches
    the file when the stream is destroyed, and makepkg does not accept an empty
    PKGBUILD. *)
Class StagingLaws {W} (O : BuildOps W) : Prop := {
  stream_buffered w p data w' :
    bo_stream O w p data = (true, w') → size data < 8191 → bo_content O w' p = Some "";
  makepkg_needs_pkgbuild w root options c w' :
    bo_content O w (path_append (path_append root "build") "PKGBUILD") = Some "" →
    bo_run_captured O w source_command (build_config root options) (Build.timeout options)
      (Build.output_limit options) = (c, w') → c_status c ≠ 0;
}.

(** A PKGBUILD that fits the buffer of a stream is never built: the stream
    it is staged through is still open when makepkg runs, so makepkg finds an
    empty file. *)
Theorem small_pkgbuild_never_builds {W} (O : BuildOps W) `{!StagingLaws O} w pkgbuild options :
  (∀ v text, bo_content O v pkgbuild = Some text → size text < 8191) →
  Build.ok (build O w pkgbuild options).1 = false.
Proof.
  intros Hsmall. unfold build.
  destruct (parse _ _ _ _) as [m|e]; [|done].
  destruct (rejected_host options (m_sources m)) as [h|]; [done|].
  destruct (fs_mkdirs _ w _) as [[e|] w1]; [done|].
  destruct (create _ _ _ w1 _ _) as [[s|e] w2]; [|done].
  unfold build_session. destruct (isolated s); cbn [negb]; [|done].
  destruct (fs_mkdirs _ w2 _) as [[e|] w4]; [done|].
  destruct (bo_stream O w4 _ _) as [staged w5] eqn:Es.
  destruct (bo_content O w4 pkgbuild) as [text|] eqn:Et; [|done]. cbn [is_Some default] in Es.
  rewrite (bool_decide_true (is_Some (Some text))) by done. cbn [negb orb].
  destruct staged; [|done]. cbn [negb]. apply stream_buffered in Es; [|by eapply Hsmall].
  unfold run_phases.
  destruct (bo_run_captured O w5 _ _ _ _) as [c w6] eqn:Er.
  apply (makepkg_needs_pkgbuild _ _ _ _ _ Es) in Er.
  destruct (c_timed_out c); [done|]. by destruct (Z.eqb_spec (c_status c) 0).
Qed.

(** ** A host in memory *)

(** The paths that exist, with a further state. *)
Definition lift_root {X} : RootfsOps (list string * X) :=
  let O := memory_root in
  let on {A} (f : list string → A * list string) (w : list string * X) : A * (list string * X) :=
    ((f w.1).1, ((f w.1).2, w.2)) in
  {|
    fs_symlink w p := fs_symlink O w.1 p;
    fs_exists w p := fs_exists O w.1 p;
    fs_btrfs w p := fs_btrfs O w.1 p;
    fs_mkdirs w p := on (λ v, fs_mkdirs O v p) w;
    fs_remove w p := on (λ v, fs_remove O v p) w;
    fs_opendir w p := on (λ v, fs_opendir O v p) w;
    fs_close w fd := (fs_close O w.1 fd, w.2);
    fs_snap_create w a b name ro := on (λ v, fs_snap_create O v a b name ro) w;
    fs_subvol_create w a name := on (λ v, fs_subvol_create O v a name) w;
    fs_fork w args := on (λ w, fs_fork O w args) w;
    fs_stop w g := (fs_stop O w.1 g, w.2);
    fs_next w := on (fs_next O) w;
  |}.

#[export] Instance lift_root_laws {X} : RootfsLaws (@lift_root X).
Proof.
  split; cbn.
  - intros w p w' [= <-]. by apply (remove_gone (O := memory_root)) with (w := w.1).
  - intros w p q. apply (remove_only (O := memory_root)).
  - done.
Qed.

(** The path and the text of a stream that is open. *)
Definition BuildWorld : Type := list string * option (string * string).

Definition sample_pkgbuild : string :=
  "pkgname=demo" +:+ str newline +:+ "pkgver=1" +:+ str newline +:+ "arch=(any)" +:+ str newline.

(** A host whose streams hold their text back when [buffered], and whose makepkg
    needs a PKGBUILD and leaves one artifact. *)
Definition build_ops (buffered : bool) : BuildOps BuildWorld := {|
  bo_fs := lift_root;
  bo_pid := 7;
  bo_uid := 1000;
  bo_regular _ _ := true;
  bo_size _ _ := Ok (size sample_pkgbuild);
  bo_content w p :=
    match w.2 with
    | Some (q, text) =>
        if bool_decide (p = q) then Some (if buffered then "" else text) else Some sample_pkgbuild
    | None => Some sample_pkgbuild
    end;
  bo_stream w p text := (true, (w.1, Some (p, text)));
  bo_close_stream w := (w.1, None);
  bo_run_captured w _ config _ _ :=
    let pkgbuild := path_append (path_append (rootfs config) "build") "PKGBUILD" in
    let text :=
      match w.2 with
      | Some (q, text) => if bool_decide (pkgbuild = q) then if buffered then "" else text
                          else sample_pkgbuild
      | None => sample_pkgbuild
      end in
    (mkCaptured (if bool_decide (text = "") then 12 else 0) false false "" "", w);
  bo_entries _ dir := [(path_append dir "demo-1-any.pkg.tar.zst", Ok true); (path_append dir "PKGBUILD", Ok true)];
  bo_copy w _ _ := (true, w);
|}.

#[export] Instance build_ops_staging : StagingLaws (build_ops true).
Proof.
  split.
  - intros w p data w' [= <-] _. cbn. by rewrite bool_decide_true.
  - intros w root options c w' He [= <- <-]. cbn in *.
    destruct w as [ps [[q text]|]]; cbn in *; [|done]. case_bool_decide; [by rewrite bool_decide_true|done].
Qed.

Lemma small_pkgbuild_never_builds_witness :
  Build.ok (build (build_ops true) (["/srv"; "/srv/arch"], None) "/src/PKGBUILD" guarded_options).1 = false.
Proof.
  apply (small_pkgbuild_never_builds (build_ops true)).
  intros [ps [[q text]|]] t; cbn; [case_bool_decide|]; intros [= <-]; vm_compute; reflexivity.
Defined.

