(* ===== verification/Analyze.v ===== *)
(** * Analysis of a program (include/execell/analyze/analyze.hpp,
      src/analyze/analyze.cpp)

    A program runs under the tracer, or captured in a sandbox; its events are
    summed up and judged by the policy, and the outcome is assessed and written
    as JSON.  In the first mode the run is that of Tracer, with a policy
    reporter over a summary and a JSON reporter. *)

From S2P Require Import Prelude CxxString FsPath Json Event Report Policy Risk.
From S2P Require Import Tracer Capture Seccomp Sandbox.

(** ** Data *)

Inductive Format := terminal | json_format.

#[export] Instance Format_eq_dec : EqDecision Format.
Proof. solve_decision. Defined.

Module Analyze.

Record Options := mkOptions {
  format : Format;
  policy : Policy.Config;
  timeout : Z;
  output_limit : Z;
  sandbox : bool;
  sandbox_config : Sandbox.Config;
}.

Record Result := mkResult {
  exit_status : Z;
  timed_out : bool;
  output_limited : bool;
  session : string;
  events_json : string;
  attestation : string;
  observed_findings : list Finding;
  policy_findings : list Finding;
  summary : Summary.t;
  assessment : Assessment;
}.

(** [Result{}] *)
Definition no_result (session : string) : Result :=
  mkResult (-1) false false session "" "" [] [] Summary.empty (mkAssessment 0 none allow [] []).

(** *** The reporter below the policy *)

Record downstream := mkDownstream { d_summary : Summary.t; d_json : JsonReporter.t }.

(** [Reporter::report] *)
Definition report (d : downstream) (e : Event) : downstream :=
  mkDownstream (Summary.report (d_summary d) e) (JsonReporter.report (d_json d) e).

#[global] Instance reporter : Reporter downstream := {
  report := report;
  stop_requested _ := false;
}.

End Analyze.

Definition new_policy (options : Analyze.Options) : PolicyReporter.t Analyze.downstream :=
  PolicyReporter.new (Analyze.policy options) (Analyze.mkDownstream Summary.empty JsonReporter.new).

(** ** Assessment *)

(** The calls of [assessment]. *)
Definition assessment_calls (s : Summary.t) (violations : list Violation) (status : Z)
    (timed_out output_limited : bool) : list Risk.call :=
  let when (b : bool) c : list Risk.call := if b then [c] else [] in
  map (λ v, CReject "policy_violation" (rule v +:+ ": " +:+ resource v)) violations ++
  when (negb (Summary.network_attempts s =? 0))
    (CAdd "network_activity" 20 "target attempted network activity") ++
  when (negb (Summary.processes_spawned s =? 0))
    (CAdd "child_process" 5 "target spawned a child process") ++
  when (negb (Summary.failures s =? 0))
    (CAdd "failed_syscall" 10 "target generated failed system calls") ++
  when timed_out (CReject "timeout" "analysis wall-clock limit exceeded") ++
  when output_limited (CReject "output_limit" "analysis output limit exceeded") ++
  when (negb (status =? 0))
    (CReject "target_failure" ("target exited with status " +:+ to_string status)).

(** [assessment] *)
Definition analysis_assessment (s : Summary.t) (violations : list Violation) (status : Z)
    (timed_out output_limited : bool) : option Assessment :=
  Risk.Engine.assess (Risk.run (assessment_calls s violations status timed_out output_limited)).

Definition verdict (a : Assessment) : string :=
  if bool_decide (action a = audit) then "review" else action_text (action a).

(** The loop over the findings of the assessment: those of the policy, with the
    resource, process and sequence of its first violation, and the others. *)
Definition locate_finding (violations : list Violation) (f : Finding) : Finding :=
  match violations with
  | [] => f
  | v :: _ =>
      mkFinding (f_id f) (resource v) (ctx_pid (context v)) (ctx_sequence (context v))
        (f_explanation f) (f_weight f)
  end.

Definition is_policy_finding (f : Finding) : bool := bool_decide (f_id f = "policy_violation").

Definition policy_findings_of (violations : list Violation) (findings : list Finding) : list Finding :=
  map (locate_finding violations) (List.filter is_policy_finding findings).

Definition observed_findings_of (findings : list Finding) : list Finding :=
  List.filter (λ f, negb (is_policy_finding f)) findings.

(** [append_event] *)
Definition append_event (type : string) (events : string) : string :=
  if (str_length events <? 2)%nat then events
  else
    let body := str_take (str_length events - 1) events in
    body +:+ (if bool_decide (body = "[") then "" else ",") +:+
    quoted "{'schema_version':1,'type':'" +:+ type +:+ quoted "','pid':0,'sequence':0}]".

(** ** The document *)

(** The body of the loop of [string_json]. *)
Definition string_json_char (c : ascii) : string :=
  (if bool_decide (c = dquote) || bool_decide (c = backslash) then str backslash else "") +:+
  (if bool_decide (c = newline) then "\n"
   else if bool_decide (c = carriage_return) then "\r"
   else if bool_decide (c = tab) then "\t"
   else str c).

Definition string_json (s : string) : string :=
  str dquote +:+ escape_with string_json_char s +:+ str dquote.

(** A finding of the first two lists. *)
Definition finding_text (f : Finding) : string :=
  quoted "{'id':" +:+ string_json (f_id f) +:+ quoted ",'weight':" +:+ to_string (f_weight f) +:+
  quoted ",'explanation':" +:+ string_json (f_explanation f) +:+ "}".

(** A finding of the third. *)
Definition located_text (f : Finding) : string :=
  quoted "{'id':" +:+ string_json (f_id f) +:+ quoted ",'resource':" +:+ string_json (f_resource f) +:+
  quoted ",'pid':" +:+ to_string (f_pid f) +:+ quoted ",'sequence':" +:+ to_string (f_sequence f) +:+
  quoted ",'weight':" +:+ to_string (f_weight f) +:+
  quoted ",'explanation':" +:+ string_json (f_explanation f) +:+ "}".

(** What [json] prints before the events. *)
Definition analysis_head (r : Analyze.Result) : string :=
  quoted "{'schema_version':2,'verdict':" +:+ string_json (verdict (Analyze.assessment r)) +:+
  quoted ",'risk_level':" +:+ string_json (level_text (level (Analyze.assessment r))) +:+
  quoted ",'risk_score':" +:+ to_string (score (Analyze.assessment r)) +:+
  quoted ",'exit_status':" +:+ to_string (Analyze.exit_status r) +:+
  quoted ",'timed_out':" +:+ bool_text (Analyze.timed_out r) +:+
  quoted ",'output_limited':" +:+ bool_text (Analyze.output_limited r) +:+
  quoted ",'session':" +:+ string_json (Analyze.session r) +:+
  quoted ",'attestation':" +:+ string_json (Analyze.attestation r) +:+
  quoted ",'observed_findings':[" +:+ join "," (map finding_text (Analyze.observed_findings r)) +:+
  quoted "],'policy_findings':[" +:+ join "," (map finding_text (Analyze.policy_findings r)) +:+ "]" +:+
  quoted ",'findings':[" +:+ join "," (map located_text (findings (Analyze.assessment r))) +:+
  quoted "],'events':".

(** [json] *)
Definition analysis_json (r : Analyze.Result) : string :=
  analysis_head r +:+ Analyze.events_json r +:+ "}".

(** [print], as what it writes on standard output. *)
Definition print_analysis (r : Analyze.Result) : string :=
  let a := Analyze.assessment r in
  Summary.print (Analyze.summary r) +:+
  "Verdict: " +:+ verdict a +:+ str newline +:+
  "Risk level: " +:+ level_text (level a) +:+ str newline +:+
  "Risk score: " +:+ to_string (score a) +:+ str newline +:+
  "Session: " +:+ quoted_path (Analyze.session r) +:+ str newline +:+
  "Attestation: " +:+ Analyze.attestation r +:+ str newline +:+
  "Observed findings: " +:+ to_string (Z.of_nat (length (Analyze.observed_findings r))) +:+ str newline +:+
  "Policy findings: " +:+ to_string (Z.of_nat (length (Analyze.policy_findings r))) +:+ str newline +:+
  "Findings:" +:+ str newline +:+
  concat_str (map (λ f, "- " +:+ f_id f +:+ " (" +:+ to_string (f_weight f) +:+ "): " +:+
                        f_explanation f +:+ str newline) (findings a)).

(** ** The run *)

Record AnalyzeOps (W : Type) := mkAnalyzeOps {
  an_kernel : Kernel W;
  an_pid : Z;
  an_temp : string;
  (** [create_directories]: whether it failed *)
  an_mkdirs : W → string → bool * W;
  an_dup : W → Z → Z * W;
  (** [open("/dev/null", O_WRONLY | O_CLOEXEC)] *)
  an_open_null : W → Z * W;
  an_dup2 : W → Z → Z → Z * W;
  an_close : W → Z → W;
  an_run_captured : W → list string → Sandbox.Config → Z → Z → Captured * W;
  (** a file written through a stream whose state is not asked for *)
  an_write : W → string → string → W;
}.
Arguments an_kernel {W}.
Arguments an_pid {W}.
Arguments an_temp {W}.
Arguments an_mkdirs {W}.
Arguments an_dup {W}.
Arguments an_open_null {W}.
Arguments an_dup2 {W}.
Arguments an_close {W}.
Arguments an_run_captured {W}.
Arguments an_write {W}.

Section Run.
Context {W : Type} (O : AnalyzeOps W).

(** [session_path] *)
Definition session_path (w : W) : string * W :=
  let path := path_append (an_temp O) ("execell-session-" +:+ to_string (an_pid O)) in
  let '(error, w) := an_mkdirs O w path in
  (if error then "" else path, w).

(** The traced run, its standard output silenced when the result is JSON. *)
Definition run_traced (fuel : nat) (w : W) (options : Analyze.Options)
    : option (Z * PolicyReporter.t Analyze.downstream * W) :=
  let policy := new_policy options in
  if bool_decide (Analyze.format options = json_format) then
    let '(saved, w) := an_dup O w 1 in
    let '(quiet, w) := an_open_null O w in
    let '(failed, w) :=
      if (saved <? 0) || (quiet <? 0) then (true, w)
      else let '(r, w) := an_dup2 O w quiet 1 in (r <? 0, w) in
    if (failed : bool) then
      let w := if 0 <=? quiet then an_close O w quiet else w in
      let w := if 0 <=? saved then an_close O w saved else w in
      Some (125, policy, w)
    else
      '(status, policy, w) ← Tracer.run (an_kernel O) fuel policy w;
      let w := (an_dup2 O w saved 1).2 in
      Some (status, policy, an_close O (an_close O w quiet) saved)
  else Tracer.run (an_kernel O) fuel policy w.

(** The result from what the run left: the end of [run]. *)
Definition conclude (session attestation : string) (status : Z) (timed_out output_limited : bool)
    (policy : PolicyReporter.t Analyze.downstream) : option Analyze.Result :=
  let json := JsonReporter.finish (Analyze.d_json (PolicyReporter.downstream policy)) in
  let summary := Analyze.d_summary (PolicyReporter.downstream policy) in
  let violations := Policy.Engine.violations (PolicyReporter.engine policy) in
  a ← analysis_assessment summary violations status timed_out output_limited;
  let events := JsonReporter.output json in
  let events := if timed_out then append_event "analysis.timeout" events else events in
  let events := if output_limited then append_event "analysis.output_limit" events else events in
  Some (Analyze.mkResult status timed_out output_limited session events attestation
          (observed_findings_of (findings a)) (policy_findings_of violations (findings a)) summary a).

(** The three files of the session. *)
Definition write_session (w : W) (r : Analyze.Result) : W :=
  let w := an_write O w (path_append (Analyze.session r) "events.json") (Analyze.events_json r) in
  let w := an_write O w (path_append (Analyze.session r) "attestation.txt")
             (Analyze.attestation r +:+ str newline) in
  an_write O w (path_append (Analyze.session r) "summary.json") (analysis_json r +:+ str newline).

(** [analyze::run] *)
Definition analyze (fuel : nat) (w : W) (args : list string) (options : Analyze.Options)
    : option (Analyze.Result * W) :=
  let '(session, w) := session_path w in
  if bool_decide (args = []) || bool_decide (session = "") then Some (Analyze.no_result session, w)
  else
    if Analyze.sandbox options then
      let '(captured, w) := an_run_captured O w args (Analyze.sandbox_config options)
                              (Analyze.timeout options) (Analyze.output_limit options) in
      r ← conclude session (attestation (Analyze.sandbox_config options)) (c_status captured)
            (c_timed_out captured) (c_output_limited captured) (new_policy options);
      Some (r, write_session w r)
    else
      '(status, policy, w) ← run_traced fuel w options;
      r ← conclude session "backend=ptrace; sandbox=false; policy=observer" status false false policy;
      Some (r, write_session w r).

End Run.
