(* ===== verification/AnalyzeSpec.v ===== *)
(** * What an analysis reports

    The verdict of Analyze in terms of the trace and the policy, the document it
    prints for a traced run, and two cases in which the code loses what it was
    asked to find. *)

From S2P Require Import Prelude CxxString FsPath Json Event Report Policy Risk Package.
From S2P Require Import Tracer Capture Seccomp Sandbox Analyze.

(** ** The assessment *)

Lemma total_weight_violations (vs : list Violation) f :
  (∀ v, call_weight (f v) = 0) → total_weight (map f vs) = 0.
Proof.
  intros Hf. induction vs as [|v vs IH]; [done|].
  change (total_weight (map f (v :: vs))) with (call_weight (f v) + total_weight (map f vs)).
  rewrite Hf, IH. done.
Qed.

Definition flag (b : bool) (n : Z) : Z := if b then n else 0.

Lemma total_weight_when (b : bool) c : total_weight (if b then [c] else []) = flag b (call_weight c).
Proof. destruct b; cbn; lia. Qed.

Lemma existsb_when (b : bool) c : existsb is_reject (if b then [c] else []) = b && is_reject c.
Proof. destruct b; cbn; [by rewrite orb_false_r|done]. Qed.

Section Calls.
Context (s : Summary.t) (violations : list Violation) (status : Z) (timed_out output_limited : bool).

Let calls := assessment_calls s violations status timed_out output_limited.
Let network := negb (Summary.network_attempts s =? 0).
Let child := negb (Summary.processes_spawned s =? 0).
Let failed := negb (Summary.failures s =? 0).

Lemma assessment_weight : total_weight calls = flag network 20 + flag child 5 + flag failed 10.
Proof.
  unfold calls, assessment_calls. cbv zeta. rewrite !total_weight_app, total_weight_violations by done.
  rewrite !total_weight_when. unfold flag. cbn [call_weight].
  fold network child failed.
  destruct network, child, failed, timed_out, output_limited, (negb (status =? 0)); cbn; lia.
Qed.

Lemma assessment_rejects :
  existsb is_reject calls =
  negb (bool_decide (violations = [])) || timed_out || output_limited || negb (status =? 0).
Proof.
  unfold calls, assessment_calls. cbv zeta. rewrite !existsb_app, !existsb_when. cbn [is_reject].
  rewrite !andb_false_r, !andb_true_r. cbn [orb]. rewrite !orb_assoc. do 3 f_equal.
  destruct violations as [|v vs]; [done|]. by rewrite (bool_decide_false (v :: vs = [])).
Qed.

Lemma analysis_assessment_spec :
  ∃ a, analysis_assessment s violations status timed_out output_limited = Some a ∧
    (verdict a = "reject" ↔ existsb is_reject calls = true) ∧
    (verdict a = "review" ↔ existsb is_reject calls = false ∧ network = true ∧
                            (child || failed = true)) ∧
    findings a = map (Risk.Engine.finding_of ∘ factor_of) calls.
Proof.
  unfold analysis_assessment. fold calls. rewrite assess_run. pose proof assessment_weight as Hw.
  destruct (Z.ltb_spec (total_weight calls) (2 ^ 31)) as [_|Hbig];
    [|unfold flag in Hw; destruct network, child, failed; lia].
  cbv zeta. destruct (Risk.Engine.classify _ _) as [l a] eqn:E. eexists. split; [done|].
  unfold verdict. cbn [action findings]. revert E. unfold Risk.Engine.classify. rewrite Hw.
  unfold flag. destruct (existsb is_reject calls), network, child, failed; cbn; intros [= <- <-];
    split_and!; try done; split; naive_solver.
Qed.

End Calls.

(** ** The result of a traced run *)

(** C30: the verdict as the code decides it, which is not as the plan of the
    command scores it ([plan_not_followed]).  Whatever the tracer reports, the
    analysis has a verdict: reject exactly when the policy asked to stop, a limit
    was hit or the program failed, review exactly when it was not rejected but
    attempted network activity together with a child process or a failed system
    call; so allow otherwise, however many calls failed. *)
Theorem analysis_verdict_exact session attestation status timed_out output_limited options es :
  let policy := report_all (new_policy options) es in
  let s := Analyze.d_summary (PolicyReporter.downstream policy) in
  ∃ r, conclude session attestation status timed_out output_limited policy = Some r ∧
    (verdict (Analyze.assessment r) = "reject" ↔
     stop_requested policy = true ∨ timed_out = true ∨ output_limited = true ∨ status ≠ 0) ∧
    (verdict (Analyze.assessment r) = "review" ↔
     verdict (Analyze.assessment r) ≠ "reject" ∧ Summary.network_attempts s ≠ 0 ∧
     (Summary.processes_spawned s ≠ 0 ∨ Summary.failures s ≠ 0)).
Proof.
  intros policy s.
  destruct (analysis_assessment_spec s (Policy.Engine.violations (PolicyReporter.engine policy)) status
              timed_out output_limited) as (a & Ha & Hrej & Hrev & _).
  rewrite assessment_rejects in Hrej, Hrev.
  unfold conclude. fold s. rewrite Ha. cbn [mbind option_bind]. eexists. split; [done|].
  cbn [Analyze.assessment].
  assert (stop_requested policy =
    negb (bool_decide (Policy.Engine.violations (PolicyReporter.engine policy) = []))) as ->.
  { unfold policy, new_policy. by apply PolicyReporter.denied_violations. }
  set (vs := negb (bool_decide _)) in *.
  split.
  - rewrite Hrej, !orb_true_iff, negb_true_iff, Z.eqb_neq. tauto.
  - rewrite Hrev, Hrej, not_true_iff_false, orb_true_iff, !negb_true_iff, !Z.eqb_neq. tauto.
Qed.

(** The score and the verdict of plan-analyze-workflow-foundation.md: 70 for
    each policy violation, 10 for each failed call, 20 for each network attempt
    and 5 for each process; reject with a violation or from 70, review from 30,
    allow below that. *)
Definition plan_score (violations : nat) (s : Summary.t) : Z :=
  70 * Z.of_nat violations + 10 * Summary.failures s + 20 * Summary.network_attempts s
  + 5 * Summary.processes_spawned s.

Definition plan_verdict (violations : nat) (s : Summary.t) : string :=
  let score := plan_score violations s in
  if negb (violations =? 0)%nat || (70 <=? score) then "reject"
  else if 30 <=? score then "review" else "allow".

Definition quiet_options : Analyze.Options :=
  Analyze.mkOptions json_format (Policy.mkConfig [] [] [] 0) 30 (2 ^ 20) false default_config.

Definition failing_calls : list Event := replicate 3 (SyscallFailed 2 "open" 13 (mkContext 7 1)).
Definition calling_home : list Event :=
  [ProcessSpawned 8 7 (mkContext 7 1); NetworkConnected 4 "10.0.0.1:80" (mkContext 7 2)].

(** Three calls that fail are allowed where the plan reviews them, and a
    child with one network attempt is reviewed where the plan allows it: each
    kind of activity counts once, and only network activity leads to a review. *)
Theorem plan_not_followed session attestation :
  let run es := conclude session attestation 0 false false (report_all (new_policy quiet_options) es) in
  (∃ r, run failing_calls = Some r ∧ verdict (Analyze.assessment r) = "allow" ∧
        plan_verdict 0 (Analyze.summary r) = "review") ∧
  (∃ r, run calling_home = Some r ∧ verdict (Analyze.assessment r) = "review" ∧
        plan_verdict 0 (Analyze.summary r) = "allow").
Proof. cbv zeta. split; eexists; (split; [vm_compute; reflexivity|]); split; reflexivity. Qed.

(** In a sandbox the analysis reports nothing of what the program did: the
    policy is never consulted, so two analyses that differ in it alone give the
    same result, with an empty summary, no policy finding, and an event list
    that is a lone bracket. *)
Theorem sandbox_ignores_policy {W} (O : AnalyzeOps W) fuel w args format p q timeout limit config :
  let options p := Analyze.mkOptions format p timeout limit true config in
  analyze O fuel w args (options p) = analyze O fuel w args (options q) ∧
  ∀ r w', analyze O fuel w args (options p) = Some (r, w') →
    Analyze.policy_findings r = [] ∧ Analyze.summary r = Summary.empty ∧
    (Analyze.events_json r = "" ∨ Analyze.events_json r = "]").
Proof.
  intros options. unfold analyze. destruct (session_path O w) as [session w1].
  destruct (_ || _); [split; [done|]; intros r w' [= <- <-]; auto|].
  subst options. cbn [Analyze.sandbox Analyze.sandbox_config Analyze.timeout Analyze.output_limit].
  destruct (an_run_captured O w1 args config timeout limit) as [c w2].
  split; [done|]. intros r w'. unfold conclude.
  change (Analyze.d_summary _) with Summary.empty.
  change (Policy.Engine.violations _) with (@nil Violation).
  destruct (analysis_assessment_spec Summary.empty [] (c_status c) (c_timed_out c) (c_output_limited c))
    as (a & -> & _ & _ & Hf). cbn [mbind option_bind].
  intros [= <- <-]. cbn. split_and!; [|done|right; by destruct (c_timed_out c), (c_output_limited c)].
  unfold policy_findings_of. rewrite Hf. clear.
  unfold assessment_calls. cbn. by destruct (c_timed_out c), (c_output_limited c), (c_status c).
Qed.

(** Every policy finding carries the place of the first violation: with
    two violations, both findings name the first resource, process and
    sequence, although each explanation names its own. *)
Theorem policy_findings_name_first session attestation status timed_out output_limited policy r v vs :
  conclude session attestation status timed_out output_limited policy = Some r →
  Policy.Engine.violations (PolicyReporter.engine policy) = v :: vs →
  map f_explanation (Analyze.policy_findings r) = map (λ v, rule v +:+ ": " +:+ resource v) (v :: vs) ∧
  Forall (λ f, f_resource f = resource v ∧ f_pid f = ctx_pid (context v) ∧
               f_sequence f = ctx_sequence (context v)) (Analyze.policy_findings r).
Proof.
  unfold conclude. intros Hc Hv. rewrite Hv in Hc.
  destruct (analysis_assessment_spec (Analyze.d_summary (PolicyReporter.downstream policy)) (v :: vs)
              status timed_out output_limited) as (a & Ha & _ & _ & Hf).
  rewrite Ha in Hc. cbn [mbind option_bind] in Hc. injection Hc as <-.
  cbn [Analyze.policy_findings]. unfold policy_findings_of. split; [|apply Forall_fmap, Forall_true; done].
  rewrite map_map. cbn [locate_finding f_explanation]. rewrite Hf.
  unfold assessment_calls. cbv zeta. rewrite map_app, List.filter_app, map_app, map_map.
  assert (∀ l, Forall (λ f, is_policy_finding f = false) l → List.filter is_policy_finding l = []) as Hnone.
  { induction 1 as [|f l Hfl _ IH]; [done|]. cbn. by rewrite Hfl. }
  rewrite (Hnone (map _ (_ ++ _))).
  - rewrite app_nil_r. clear. generalize (v :: vs). intros l.
    induction l as [|x l IH]; [done|]. cbn. by rewrite <- IH.
  - apply Forall_fmap. rewrite !Forall_app. split_and!; by case_match; repeat constructor.
Qed.

(** ** The document of a traced run *)

Definition textual_event (e : Event) : bool :=
  let ok := from_option (str_forall textual) true in
  ok (path_of e) && ok (endpoint_of e) && ok (fst <$> rule_of e) && ok (snd <$> rule_of e) &&
  ok (fst <$> syscall_of e).

Definition chars_member (kv : string * json) : bool :=
  str_forall textual kv.1 && json_chars textual kv.2.

Lemma event_json_chars e : textual_event e = true → json_chars textual (JsonReporter.event_json e) = true.
Proof.
  unfold textual_event. rewrite !andb_true_iff. intros ((((Hp & He) & Hr) & Hs) & Hn).
  unfold JsonReporter.event_json. cbn [json_chars]. change (forallb _ ?l) with (forallb chars_member l).
  rewrite !forallb_app, !andb_true_iff.
  split_and!; destruct e; cbn [forallb JsonReporter.members path_of bytes_of fd_of mode_of endpoint_of
    rule_of syscall_of status_of parent_pid_of fst snd fmap option_fmap option_map from_option] in *;
    unfold chars_member; cbn [fst snd json_chars]; rewrite ?Hp, ?He, ?Hr, ?Hs, ?Hn; reflexivity.
Qed.

(** The two encoders of strings agree on such characters. *)
Lemma encoders_agree c : textual c = true → JsonReporter.write_json_char c = string_json_char c.
Proof. intros H. destruct c as [[] [] [] [] [] [] [] []]; try discriminate H; reflexivity. Qed.

Lemma string_json_encodes s : str_forall textual s = true → encodes_str string_json_char s.
Proof. exact (textual_encodes_str s). Qed.

(** The violations of a trace, and the events that report them. *)
Definition textual_violation (v : Violation) : bool :=
  str_forall textual (rule v) && str_forall textual (resource v).

Lemma evaluate_textual g e :
  textual_event e = true → forallb textual_violation (Policy.Engine.violations g) = true →
  forallb textual_violation (Policy.Engine.violations (Policy.Engine.evaluate g e).2) = true.
Proof.
  intros He Hg. destruct (Policy.Engine.evaluate_outcome g e) as [_|r s Hf _]; [done|].
  cbn [snd Policy.Engine.violations]. rewrite forallb_app, Hg. cbn. rewrite andb_true_r.
  unfold textual_event in He. rewrite !andb_true_iff in He. destruct He as ((((Hp & Hend) & _) & _) & Hn).
  unfold textual_violation. cbn.
  destruct Hf; cbn; try done; unfold Policy.Engine.resource_of, Policy.Engine.syscall_name_of;
    destruct e; cbn in *; done.
Qed.

Lemma engine_after_textual g es :
  forallb textual_event es = true → forallb textual_violation (Policy.Engine.violations g) = true →
  forallb textual_violation (Policy.Engine.violations (PolicyReporter.engine_after g es)) = true.
Proof.
  revert g. induction es as [|e es IH]; intros g; [done|]. cbn [forallb]. rewrite andb_true_iff.
  intros [He Hes] Hg. unfold PolicyReporter.engine_after. cbn [foldl].
  apply (IH _ Hes). by apply evaluate_textual.
Qed.

Lemma annotate_textual g es :
  forallb textual_event es = true → forallb textual_violation (Policy.Engine.violations g) = true →
  forallb textual_event (PolicyReporter.annotate g es) = true.
Proof.
  revert g. induction es as [|e es IH]; intros g; [done|]. cbn [forallb PolicyReporter.annotate].
  rewrite andb_true_iff. intros [He Hes] Hg. pose proof (evaluate_textual g e He Hg) as Hv.
  destruct (Policy.Engine.evaluate g e) as [d g']. cbn [snd] in Hv. cbn [forallb].
  rewrite He, forallb_app, (IH _ Hes Hv). rewrite andb_true_r.
  destruct d; [done|]. destruct (last (Policy.Engine.violations g')) as [v|] eqn:El; [|done].
  apply last_Some_elem_of in El. rewrite forallb_forall in Hv.
  apply list_elem_of_In, Hv in El. unfold textual_violation in El. rewrite andb_true_iff in El.
  destruct El as [Hr Hs]. unfold textual_event. cbn. by rewrite Hr, Hs.
Qed.

Definition textual_finding (f : Finding) : bool :=
  str_forall textual (f_id f) && str_forall textual (f_resource f) && str_forall textual (f_explanation f).

Lemma numeral_textual z : str_forall textual (to_string z) = true.
Proof.
  destruct (to_string_numeral z) as [Hn _]. revert Hn. generalize (to_string z).
  intros s. induction s as [|c s IH]; [done|]. cbn [str_forall]. rewrite !andb_true_iff.
  intros [Hc Hs]. split; [|auto].
  destruct c as [[] [] [] [] [] [] [] []]; try discriminate Hc; reflexivity.
Qed.

Lemma findings_textual s violations status t o a :
  forallb textual_violation violations = true →
  findings a = map (Risk.Engine.finding_of ∘ factor_of) (assessment_calls s violations status t o) →
  Forall (λ f, textual_finding f = true) (findings a).
Proof.
  intros Hv ->. apply Forall_fmap. unfold assessment_calls. cbv zeta. rewrite !Forall_app.
  split_and!; try (by case_match; repeat constructor).
  - apply Forall_fmap, Forall_forall. intros v Hin. rewrite forallb_forall in Hv.
    apply list_elem_of_In, Hv in Hin. unfold textual_violation in Hin. rewrite andb_true_iff in Hin.
    destruct Hin as [Hr Hs]. unfold textual_finding. cbn. rewrite !str_forall_app, Hr, Hs. done.
  - case_match; repeat constructor. unfold textual_finding. cbn [compose Risk.Engine.finding_of factor_of
      f_id f_resource f_explanation Risk.name explanation]. rewrite str_forall_app, numeral_textual. done.
Qed.

(** The documents of a finding in the first two lists and in the third. *)
Definition finding_json (f : Finding) : json :=
  JObj [("id", JStr (f_id f)); ("weight", JNum (f_weight f)); ("explanation", JStr (f_explanation f))].

Definition located_json (f : Finding) : json :=
  JObj [("id", JStr (f_id f)); ("resource", JStr (f_resource f)); ("pid", JNum (f_pid f));
        ("sequence", JNum (f_sequence f)); ("weight", JNum (f_weight f));
        ("explanation", JStr (f_explanation f))].

(** The document of a result with a list of events. *)
Definition analysis_value (r : Analyze.Result) (events : list Event) : json :=
  let a := Analyze.assessment r in
  JObj [("schema_version", JNum 2); ("verdict", JStr (verdict a));
        ("risk_level", JStr (level_text (level a))); ("risk_score", JNum (score a));
        ("exit_status", JNum (Analyze.exit_status r)); ("timed_out", JBool (Analyze.timed_out r));
        ("output_limited", JBool (Analyze.output_limited r)); ("session", JStr (Analyze.session r));
        ("attestation", JStr (Analyze.attestation r));
        ("observed_findings", JArr (map finding_json (Analyze.observed_findings r)));
        ("policy_findings", JArr (map finding_json (Analyze.policy_findings r)));
        ("findings", JArr (map located_json (findings a)));
        ("events", JArr (map JsonReporter.event_json events))].

Lemma finding_print f : finding_text f = print_json string_json_char (finding_json f).
Proof.
  unfold finding_text, finding_json, string_json. cbn [print_json map join fst snd].
  unfold print_string. autorewrite with execell_str. reflexivity.
Qed.

Lemma located_print f : located_text f = print_json string_json_char (located_json f).
Proof.
  unfold located_text, located_json, string_json. cbn [print_json map join fst snd].
  unfold print_string. autorewrite with execell_str. reflexivity.
Qed.

Lemma print_list {A} enc (text : A → string) (f : A → json) l :
  (∀ a, text a = print_json enc (f a)) →
  "[" +:+ join "," (map text l) +:+ "]" = print_json enc (JArr (map f l)).
Proof. intros H. cbn [print_json]. rewrite map_map. do 3 f_equal. by apply map_ext. Qed.

Lemma analysis_print r events :
  Analyze.events_json r = print_json string_json_char (JArr (map JsonReporter.event_json events)) →
  analysis_json r = print_json string_json_char (analysis_value r events).
Proof.
  intros He. unfold analysis_json, analysis_head. rewrite He. unfold analysis_value, string_json.
  pose proof (print_list string_json_char finding_text finding_json (Analyze.observed_findings r) finding_print) as H1.
  pose proof (print_list string_json_char finding_text finding_json (Analyze.policy_findings r) finding_print) as H2.
  pose proof (print_list string_json_char located_text located_json (findings (Analyze.assessment r)) located_print) as H3.
  set (p1 := JArr (map finding_json (Analyze.observed_findings r))) in *.
  set (p2 := JArr (map finding_json (Analyze.policy_findings r))) in *.
  set (p3 := JArr (map located_json _)) in *. set (p4 := JArr (map JsonReporter.event_json events)) in *.
  clearbody p1 p2 p3 p4. cbn [print_json map join fst snd]. rewrite <- H1, <- H2, <- H3.
  unfold print_string. autorewrite with execell_str. reflexivity.
Qed.

Lemma downstream_json d es :
  Analyze.d_json (report_all d es) = report_all (Analyze.d_json d) es.
Proof. revert d. induction es as [|e es IH]; intros d; [done|]. apply (IH (Analyze.report d e)). Qed.

Lemma annotate_nonempty g es : es ≠ [] → PolicyReporter.annotate g es ≠ [].
Proof. destruct es as [|e es]; [done|]. cbn. by destruct (Policy.Engine.evaluate g e). Qed.

(** The stream of events, printed with the encoder of the other strings. *)
Lemma events_stream es :
  es ≠ [] → forallb textual_event es = true →
  JsonReporter.output (JsonReporter.finish (report_all JsonReporter.new es)) =
  print_json string_json_char (JArr (map JsonReporter.event_json es)).
Proof.
  intros Hne Hc. rewrite JsonReporter.output_report_all by done.
  rewrite (map_ext _ _ JsonReporter.event_text_print).
  rewrite <- (print_json_agree JsonReporter.write_json_char string_json_char textual
                (JArr (map JsonReporter.event_json es)) encoders_agree).
  - cbn [print_json]. rewrite map_map. unfold JsonReporter.finish.
    cbn [JsonReporter.finished JsonReporter.output]. by rewrite app_assoc_str.
  - cbn [json_chars]. apply forallb_forall. intros v (e & <- & Hin)%in_map_iff.
    apply event_json_chars. rewrite forallb_forall in Hc. by apply Hc.
Qed.

Lemma verdict_textual a : str_forall textual (verdict a) = true.
Proof. unfold verdict. by destruct (action a). Qed.

Lemma level_textual l : str_forall textual (level_text l) = true.
Proof. by destruct l. Qed.

Lemma chars_map {A} (f : A → json) l :
  Forall (λ a, json_chars textual (f a) = true) l → forallb (json_chars textual) (map f l) = true.
Proof. induction 1 as [|a l Ha _ IH]; [done|]. cbn [map forallb]. by rewrite Ha. Qed.

Lemma finding_chars f : textual_finding f = true → json_chars textual (finding_json f) = true.
Proof.
  unfold textual_finding. rewrite !andb_true_iff. intros [[Hi Hr] Hx].
  unfold finding_json. cbn [json_chars forallb fst snd]. by rewrite Hi, Hx.
Qed.

Lemma located_chars f : textual_finding f = true → json_chars textual (located_json f) = true.
Proof.
  unfold textual_finding. rewrite !andb_true_iff. intros [[Hi Hr] Hx].
  unfold located_json. cbn [json_chars forallb fst snd]. by rewrite Hi, Hr, Hx.
Qed.

Lemma locate_textual violations f :
  forallb textual_violation violations = true → textual_finding f = true →
  textual_finding (locate_finding violations f) = true.
Proof.
  destruct violations as [|v vs]; [done|]. cbn [forallb]. rewrite andb_true_iff.
  unfold textual_violation, textual_finding. rewrite !andb_true_iff. intros [[Hr Hs] _] [[Hi _] Hx].
  cbn. done.
Qed.

Lemma findings_split (l : list Finding) P violations :
  forallb textual_violation violations = true → Forall (λ f, textual_finding f = true) l →
  Forall (λ f, textual_finding f = true) (List.filter P l) ∧
  Forall (λ f, textual_finding f = true) (map (locate_finding violations) (List.filter P l)).
Proof.
  intros Hv Hl. assert (Forall (λ f, textual_finding f = true) (List.filter P l)) as Hf.
  { apply Forall_forall. intros f [Hin _]%list_elem_of_In%filter_In. rewrite Forall_forall in Hl.
    by apply Hl, list_elem_of_In. }
  split; [done|]. apply Forall_fmap. eapply Forall_impl; [exact Hf|]. intros f. by apply locate_textual.
Qed.

(** C31: the analysis of a run under the tracer (without --sandbox, where no
    limit is hit) prints one JSON document when something was traced and the
    strings of the trace, the session and the attestation hold no control
    character other than a newline, a carriage return or a tab; it reads back as the verdict, the scores, the
    findings and the trace: every event that was reported, in order, each denied
    one followed by its violation. *)
Theorem analysis_reads_back session attestation status options es r :
  es ≠ [] → forallb textual_event es = true → str_forall textual session = true →
  str_forall textual attestation = true →
  conclude session attestation status false false (report_all (new_policy options) es) = Some r →
  parse_document (analysis_json r) =
  Some (analysis_value r (PolicyReporter.annotate (Policy.Engine.new (Analyze.policy options)) es)).
Proof.
  intros Hne Hes Hsession Hatt Hc.
  pose proof (engine_after_textual (Policy.Engine.new (Analyze.policy options)) es Hes eq_refl) as Hv.
  pose proof (annotate_textual (Policy.Engine.new (Analyze.policy options)) es Hes eq_refl) as Ha.
  set (aes := PolicyReporter.annotate _ es) in *.
  unfold conclude in Hc. rewrite PolicyReporter.report_all_engine in Hc.
  change (PolicyReporter.engine (new_policy options)) with (Policy.Engine.new (Analyze.policy options)) in Hc.
  set (vs := Policy.Engine.violations _) in *.
  destruct (analysis_assessment_spec (Analyze.d_summary (PolicyReporter.downstream
    (report_all (new_policy options) es))) vs status false false) as (a & Has & _ & _ & Hf).
  rewrite Has in Hc. cbn [mbind option_bind] in Hc. injection Hc as <-.
  apply (findings_textual _ _ _ _ _ _ Hv) in Hf.
  rewrite (analysis_print _ aes).
  - apply parse_print, (json_chars_encodable _ textual); [exact string_json_encodes|].
    unfold analysis_value. cbn [json_chars forallb fst snd Analyze.assessment Analyze.exit_status
      Analyze.timed_out Analyze.output_limited Analyze.session Analyze.attestation
      Analyze.observed_findings Analyze.policy_findings].
    rewrite verdict_textual, level_textual, Hsession, Hatt.
    destruct (findings_split (findings a) is_policy_finding vs Hv Hf) as [_ Hp].
    destruct (findings_split (findings a) (λ f, negb (is_policy_finding f)) vs Hv Hf) as [Ho _].
    rewrite !chars_map; [done|..].
    + apply Forall_forall. intros e Hin. apply event_json_chars. rewrite forallb_forall in Ha.
      by apply Ha, list_elem_of_In.
    + eapply Forall_impl; [exact Hf|]. apply located_chars.
    + eapply Forall_impl; [exact Hp|]. apply finding_chars.
    + eapply Forall_impl; [exact Ho|]. apply finding_chars.
  - cbn [Analyze.events_json]. rewrite PolicyReporter.report_all_downstream, downstream_json.
    apply events_stream; [by apply annotate_nonempty|done].
Qed.

(** A program that opens a denied file and then attempts to connect. *)
Definition analysis_options : Analyze.Options :=
  Analyze.mkOptions json_format (Policy.mkConfig ["/etc/shadow"] ["10.0.0.1"] [] 0) 30 (2 ^ 20) false
    default_config.

Definition analysis_events : list Event :=
  [TraceStarted 7 (mkContext 7 0); FileOpened 3 "/etc/shadow" (mkContext 7 1);
   NetworkConnected 4 "10.0.0.1:80" (mkContext 7 2)].

Lemma analysis_reads_back_witness :
  ∃ r, conclude "/tmp/s" "backend=ptrace" 0 false false (report_all (new_policy analysis_options) analysis_events) = Some r ∧
    verdict (Analyze.assessment r) = "reject" ∧
    parse_document (analysis_json r) =
    Some (analysis_value r (PolicyReporter.annotate (Policy.Engine.new (Analyze.policy analysis_options))
            analysis_events)).
Proof.
  eexists. split; [vm_compute; reflexivity|]. split; [reflexivity|].
  eapply (analysis_reads_back "/tmp/s" "backend=ptrace" 0 analysis_options analysis_events);
    first [discriminate | vm_compute; reflexivity].
Defined.

Lemma policy_findings_name_first_witness :
  ∃ r, conclude "/tmp/s" "backend=ptrace" 0 false false (report_all (new_policy analysis_options) analysis_events) = Some r ∧
    map f_resource (Analyze.policy_findings r) = ["/etc/shadow"; "/etc/shadow"] ∧
    map f_explanation (Analyze.policy_findings r) =
      ["denied-path: /etc/shadow"; "denied-endpoint: 10.0.0.1:80"].
Proof.
  eexists. split; [vm_compute; reflexivity|]. split; [reflexivity|].
  refine (proj1 (policy_findings_name_first "/tmp/s" "backend=ptrace" 0 false false
            (report_all (new_policy analysis_options) analysis_events) _
            (mkViolation "denied-path" "/etc/shadow" (mkContext 7 1))
            [mkViolation "denied-endpoint" "10.0.0.1:80" (mkContext 7 2)] _ _));
    vm_compute; reflexivity.
Defined.
