(* ===== verification/Cli.v ===== *)
(** * The command line (include/execell/cli/invocation.hpp, src/main.cpp)

    The words of the command line are read into a command with its options; the
    commands on packages are then run, and the outcome becomes an exit code and
    a text. *)

From S2P Require Import Prelude CxxString FsPath Json Charconv Event Report Policy Seccomp Sandbox.
From S2P Require Import Network Package Storage Rootfs Artifacts Scan Build Analyze.

Definition EXIT_SUCCESS : Z := 0.
Definition EXIT_FAILURE : Z := 1.

(** ** Options of analyze and inspect *)

Definition set_format (f : Format) (o : Analyze.Options) : Analyze.Options :=
  Analyze.mkOptions f (Analyze.policy o) (Analyze.timeout o) (Analyze.output_limit o)
    (Analyze.sandbox o) (Analyze.sandbox_config o).
Definition set_policy (p : Policy.Config) (o : Analyze.Options) : Analyze.Options :=
  Analyze.mkOptions (Analyze.format o) p (Analyze.timeout o) (Analyze.output_limit o)
    (Analyze.sandbox o) (Analyze.sandbox_config o).
Definition set_limits (timeout output_limit : Z) (o : Analyze.Options) : Analyze.Options :=
  Analyze.mkOptions (Analyze.format o) (Analyze.policy o) timeout output_limit
    (Analyze.sandbox o) (Analyze.sandbox_config o).
Definition set_sandbox (o : Analyze.Options) : Analyze.Options :=
  Analyze.mkOptions (Analyze.format o) (Analyze.policy o) (Analyze.timeout o)
    (Analyze.output_limit o) true (Analyze.sandbox_config o).

Definition no_policy : Policy.Config := Policy.mkConfig [] [] [] 0.

(** [Options{}] *)
Definition default_analyze : Analyze.Options :=
  Analyze.mkOptions terminal no_policy 30 (2 ^ 20) false default_config.

(** The policy options that both commands have. *)
Definition policy_option (opt value : string) (p : Policy.Config) : option Policy.Config :=
  if bool_decide (opt = "--deny-path") then
    Some (Policy.mkConfig (denied_paths p ++ [value]) (denied_endpoints p) (denied_syscalls p)
            (Policy.max_processes p))
  else if bool_decide (opt = "--deny-endpoint") then
    Some (Policy.mkConfig (denied_paths p) (denied_endpoints p ++ [value]) (denied_syscalls p)
            (Policy.max_processes p))
  else if bool_decide (opt = "--deny-syscall") then
    Some (Policy.mkConfig (denied_paths p) (denied_endpoints p) (denied_syscalls p ++ [value])
            (Policy.max_processes p))
  else
    parsed ← parse_u64 value;
    Some (Policy.mkConfig (denied_paths p) (denied_endpoints p) (denied_syscalls p) parsed).

Definition policy_options : list string :=
  ["--deny-path"; "--deny-endpoint"; "--deny-syscall"; "--max-processes"].

(** The loop over the options of analyze; [None] is [EXIT_FAILURE]. *)
Fixpoint analyze_options (args : list string) (o : Analyze.Options)
    : option (Analyze.Options * list string) :=
  match args with
  | [] => Some (o, [])
  | opt :: rest =>
      if negb (starts_with opt "--") then Some (o, args)
      else if bool_decide (opt = "--sandbox") then analyze_options rest (set_sandbox o)
      else if bool_decide (opt ∈ "--format" :: "--timeout" :: "--output-limit" :: policy_options) then
        match rest with
        | [] => None
        | value :: rest =>
            if bool_decide (opt = "--format") then
              if bool_decide (value = "json") then analyze_options rest (set_format json_format o)
              else if bool_decide (value = "terminal") then analyze_options rest (set_format terminal o)
              else None
            else if bool_decide (opt = "--timeout") || bool_decide (opt = "--output-limit") then
              match parse_u64 value with
              | None => None
              | Some parsed =>
                  if parsed =? 0 then None
                  else analyze_options rest
                         (if bool_decide (opt = "--timeout")
                          then set_limits (s64 parsed) (Analyze.output_limit o) o
                          else set_limits (Analyze.timeout o) parsed o)
              end
            else
              match policy_option opt value (Analyze.policy o) with
              | None => None
              | Some p => analyze_options rest (set_policy p o)
              end
        end
      else None
  end.

(** The loop over the options of inspect: the policy, and whether the format is
    JSON. *)
Fixpoint inspect_options (args : list string) (p : Policy.Config) (json : bool)
    : option (Policy.Config * bool * list string) :=
  match args with
  | [] => Some (p, json, [])
  | opt :: rest =>
      if negb (bool_decide (opt ∈ "--format" :: policy_options)) then Some (p, json, args)
      else
        match rest with
        | [] => None
        | value :: rest =>
            if bool_decide (opt = "--format") then
              if bool_decide (value = "json") then inspect_options rest p true
              else if bool_decide (value = "terminal") then inspect_options rest p false
              else None
            else
              match policy_option opt value p with
              | None => None
              | Some p => inspect_options rest p json
              end
        end
  end.

(** ** Options of sandbox *)

Definition set_backend (b : Backend) (c : Sandbox.Config) : Sandbox.Config :=
  mkConfig b (user_namespace c) (mount_namespace c) (network_namespace c) (drop_capabilities c)
    (no_new_privileges c) (read_only_root c) (clean_environment c) (drop_to_unprivileged_user c)
    (mount_proc c) (mount_run c) (trace_events c) (cpu_seconds c) (address_space_bytes c)
    (Sandbox.max_processes c) (max_file_bytes c) (rootfs c) (working_directory c)
    (seccomp_allowlist c) (cgroup c).
Definition set_switches (network trace : bool) (c : Sandbox.Config) : Sandbox.Config :=
  mkConfig (backend c) (user_namespace c) (mount_namespace c) network (drop_capabilities c)
    (no_new_privileges c) (read_only_root c) (clean_environment c) (drop_to_unprivileged_user c)
    (mount_proc c) (mount_run c) trace (cpu_seconds c) (address_space_bytes c)
    (Sandbox.max_processes c) (max_file_bytes c) (rootfs c) (working_directory c)
    (seccomp_allowlist c) (cgroup c).
Definition set_resources (cpu memory : Z) (c : Sandbox.Config) : Sandbox.Config :=
  mkConfig (backend c) (user_namespace c) (mount_namespace c) (network_namespace c)
    (drop_capabilities c) (no_new_privileges c) (read_only_root c) (clean_environment c)
    (drop_to_unprivileged_user c) (mount_proc c) (mount_run c) (trace_events c) cpu memory
    (Sandbox.max_processes c) (max_file_bytes c) (rootfs c) (working_directory c)
    (seccomp_allowlist c) (cgroup c).

(** The loop over the options of sandbox. *)
Fixpoint sandbox_options (args : list string) (c : Sandbox.Config)
    : option (Sandbox.Config * list string) :=
  match args with
  | [] => Some (c, [])
  | opt :: rest =>
      if negb (starts_with opt "--") then Some (c, args)
      else if bool_decide (opt = "--network")
      then sandbox_options rest (set_switches true (trace_events c) c)
      else if bool_decide (opt = "--trace-events")
      then sandbox_options rest (set_switches (network_namespace c) true c)
      else
        match rest with
        | [] => None
        | value :: rest =>
            if bool_decide (opt = "--backend") then
              if bool_decide (value = "namespace") then sandbox_options rest (set_backend namespaces c)
              else if bool_decide (value = "vm") then sandbox_options rest (set_backend vm c)
              else None
            else
              match parse_u64 value with
              | None => None
              | Some parsed =>
                  if bool_decide (opt = "--cpu")
                  then sandbox_options rest (set_resources parsed (address_space_bytes c) c)
                  else if bool_decide (opt = "--memory")
                  then sandbox_options rest (set_resources (cpu_seconds c) parsed c)
                  else None
              end
        end
  end.

(** ** Options of package *)

(** The value of [--timeout], with or without its unit. *)
Definition strip_seconds (value : string) : string :=
  if ends_with value "s" then str_take (str_length value - 1) value else value.

(** [std::from_chars] with the bounds an option has. *)
Definition parse_between (low high : Z) (value : string) : option Z :=
  parsed ← parse_u64 value;
  if (low <=? parsed) && (parsed <=? high) then Some parsed else None.

(** The options of package that take a value. *)
Definition package_option (opt value : string) (o : Package.Options) : option Package.Options :=
  let '(Package.mkOptions pr ra bd cp wk to fm nw mi ah rf sr db cg br) := o in
  if bool_decide (opt = "--format") then
    if bool_decide (value ∈ ["terminal"; "json"; "jsonl"])
    then Some (Package.mkOptions pr ra bd cp wk to value nw mi ah rf sr db cg br) else None
  else if bool_decide (opt = "--network") then
    if bool_decide (value ∈ ["off"; "mirror"])
    then Some (Package.mkOptions pr ra bd cp wk to fm value mi ah rf sr db cg br) else None
  else if bool_decide (opt = "--mirror") then
    if valid_mirror value
    then Some (Package.mkOptions pr ra bd cp wk to fm nw (mi ++ [value]) ah rf sr db cg br) else None
  else if bool_decide (opt = "--allow-host") then
    if bool_decide (value = "") || contains_char value "/"%char || contains_char value "000"%char
    then None
    else Some (Package.mkOptions pr ra bd cp wk to fm nw mi (ah ++ [value]) rf sr db cg br)
  else if bool_decide (opt = "--rootfs") then
    Some (Package.mkOptions pr ra bd cp wk to fm nw mi ah value sr db cg br)
  else if bool_decide (opt = "--timeout") then
    parsed ← parse_between 1 (2 ^ 64) (strip_seconds value);
    Some (Package.mkOptions pr ra bd cp wk (s64 parsed) fm nw mi ah rf sr db cg br)
  else if bool_decide (opt = "--workers") then
    parsed ← parse_between 1 128 value;
    Some (Package.mkOptions pr ra bd cp parsed to fm nw mi ah rf sr db cg br)
  else if bool_decide (opt = "--database") then
    Some (Package.mkOptions pr ra bd cp wk to fm nw mi ah rf sr value cg br)
  else if bool_decide (opt = "--cgroup-root") then
    Some (Package.mkOptions pr ra bd cp wk to fm nw mi ah rf sr db value br)
  else if bool_decide (opt = "--rebuild") then
    repetitions ← parse_between 1 3 value;
    Some (Package.mkOptions pr ra bd cp wk to fm nw mi ah rf sr db cg repetitions)
  else None.

(** [--run-all] and [--byte-diff]. *)
Definition set_flags (run_all byte_diff : bool) (o : Package.Options) : Package.Options :=
  let '(Package.mkOptions pr _ _ cp wk to fm nw mi ah rf sr db cg br) := o in
  Package.mkOptions pr run_all byte_diff cp wk to fm nw mi ah rf sr db cg br.

(** The loop over the options of package. *)
Fixpoint package_options (args : list string) (o : Package.Options)
    : option (Package.Options * list string) :=
  match args with
  | [] => Some (o, [])
  | opt :: rest =>
      if negb (starts_with opt "--") then Some (o, args)
      else if bool_decide (opt = "--privileged") || bool_decide (opt = "--yes") then None
      else if bool_decide (opt = "--run-all")
      then package_options rest (set_flags true (Package.byte_diff o) o)
      else if bool_decide (opt = "--byte-diff")
      then package_options rest (set_flags (Package.run_all o) true o)
      else
        match rest with
        | [] => None
        | value :: rest =>
            match package_option opt value o with
            | None => None
            | Some o => package_options rest o
            end
        end
  end.

(** The two checks after the loop. *)
Definition network_consistent (o : Package.Options) : bool :=
  negb (bool_decide (Package.network o = "mirror") && bool_decide (Package.mirrors o = [])) &&
  negb (bool_decide (Package.network o = "off") && negb (bool_decide (Package.mirrors o = []))).

(** ** Commands *)

Inductive PackageCommand :=
| Doctor
| ScanPackage (path : string)
| ComparePackage (name from to : string)
| BuildPackage (path : string)
| FetchPackage (target : string)
| ReportSession (session : string)
| Cleanup.

(** The chain of tests on [action] with the arguments that are left. *)
Definition package_command (action : string) (args : list string) : option PackageCommand :=
  if bool_decide (action = "doctor") then Some Doctor
  else
    match args with
    | path :: rest =>
        if bool_decide (action = "scan") then Some (ScanPackage path)
        else if bool_decide (action = "compare") then
          match rest with
          | from :: to :: _ => Some (ComparePackage path from to)
          | _ => None
          end
        else if bool_decide (action = "build") then Some (BuildPackage path)
        else if bool_decide (action = "fetch") then Some (FetchPackage path)
        else if bool_decide (action = "report") then Some (ReportSession path)
        else if bool_decide (action = "cleanup") then Some Cleanup else None
    | [] => if bool_decide (action = "cleanup") then Some Cleanup else None
    end.

(** A command line that is understood; the arguments of a program are never
    empty. *)
Inductive Invocation :=
| Run (args : list string)
| Trace (json : bool) (args : list string)
| AnalyzeProgram (options : Analyze.Options) (args : list string)
| InspectProgram (policy : Policy.Config) (json : bool) (args : list string)
| SandboxProgram (config : Sandbox.Config) (args : list string)
| PackageAction (options : Package.Options) (command : PackageCommand).

(** ** The usage message *)

(** [version] *)
Definition version : string := "0.2.0".

(** A line of [print_usage] that begins with the name of the program. *)
Definition usage_line (executable rest : string) : string :=
  "  " +:+ executable +:+ rest +:+ str newline.

(** [print_usage], on standard output. *)
Definition usage (executable : string) : string :=
  "ExeCell " +:+ version +:+ str newline +:+
  "Usage:" +:+ str newline +:+
  usage_line executable " run <program>   [arguments...]" +:+
  usage_line executable " trace <program> [arguments...]" +:+
  usage_line executable " trace --format json <program> [arguments...]" +:+
  usage_line executable " inspect <program> [arguments...]" +:+
  usage_line executable " inspect --deny-path PATH <program> [arguments...]" +:+
  usage_line executable " inspect --max-processes N <program> [arguments...]" +:+
  usage_line executable
    " analyze [--format terminal|json] [--sandbox] [--timeout S] [--output-limit BYTES] [policy options] <program> [arguments...]" +:+
  usage_line executable
    " sandbox [--backend namespace|vm] [--network] [--trace-events] [--cpu N] [--memory BYTES] <program> [arguments...]" +:+
  usage_line executable
    " package scan|build|compare|doctor|fetch|report|cleanup [options] [path]" +:+
  "    options: --timeout 30s --workers N --rebuild N --database PATH --cgroup-root PATH --network off|mirror --mirror URL --allow-host HOST --run-all --byte-diff"
  +:+ str newline.

(** Why a command line is refused: with the usage message, or with a diagnostic
    on standard error. *)
Inductive Refusal := Usage | Diagnostic.

Definition or_refuse {T} (read : option T) (why : Refusal) : expected T Refusal :=
  match read with None => Err why | Some v => Ok v end.

(** The branches of [main] for the commands with options, up to the call of the
    command. *)
Definition read_analyze (args : list string) : expected Invocation Refusal :=
  try! (options, target) := or_refuse (analyze_options args default_analyze) Diagnostic in
  (if bool_decide (target = []) then Err Usage else Ok (AnalyzeProgram options target)).

Definition read_inspect (args : list string) : expected Invocation Refusal :=
  try! (policy, json, target) := or_refuse (inspect_options args no_policy false) Diagnostic in
  (if bool_decide (target = []) then Err Usage else Ok (InspectProgram policy json target)).

Definition read_sandbox (args : list string) : expected Invocation Refusal :=
  try! (config, target) := or_refuse (sandbox_options args default_config) Diagnostic in
  (if bool_decide (target = []) then Err Usage else Ok (SandboxProgram config target)).

Definition read_package (action : string) (rest : list string) : expected Invocation Refusal :=
  try! (options, words) := or_refuse (package_options rest Package.default_options) Diagnostic in
  (if negb (network_consistent options) then Err Diagnostic
   else try! command := or_refuse (package_command action words) Usage in
        Ok (PackageAction options command)).

(** [main] up to the call of a command, from the arguments after the name of
    the program; a refusal is followed by [EXIT_FAILURE]. *)
Definition read_command_line (argv : list string) : expected Invocation Refusal :=
  match argv with
  | command :: first :: rest =>
      let args := first :: rest in
      if bool_decide (command = "run") then Ok (Run args)
      else if bool_decide (command = "trace") then
        match args with
        | format :: json :: program :: rest =>
            if bool_decide (format = "--format") && bool_decide (json = "json")
            then Ok (Trace true (program :: rest)) else Ok (Trace false args)
        | _ => Ok (Trace false args)
        end
      else if bool_decide (command = "analyze") then read_analyze args
      else if bool_decide (command = "inspect") then read_inspect args
      else if bool_decide (command = "sandbox") then read_sandbox args
      else if bool_decide (command = "package") then read_package first rest
      else Err Usage
  | _ => Err Usage
  end.

(** The command that is read, if one is. *)
Definition parse_command_line (argv : list string) : option Invocation :=
  match read_command_line argv with Ok invocation => Some invocation | Err _ => None end.

(** ** Outcomes *)

Definition exit_code_of (ok : bool) : Z := if ok then EXIT_SUCCESS else EXIT_FAILURE.

(** The exit code of analyze: the verdict is looked up in the printed document. *)
Definition analyze_exit (r : Analyze.Result) : Z :=
  exit_code_of (contains_str (analysis_json r) (quoted "'verdict':'allow'")).

(** What doctor prints and returns; [has] is [access(path, X_OK) == 0]. *)
Definition doctor (json : bool) (c : Capabilities) (has : string → bool) : string * Z :=
  let word b := if json then bool_text b else if b then "yes" else "no" in
  ((if json then
      quoted "{'schema_version':1,'btrfs':" +:+ word (cap_btrfs c) +:+
      quoted ",'rootless':" +:+ word (cap_rootless c) +:+
      quoted ",'mount_namespace':" +:+ word (cap_mount_namespace c) +:+
      quoted ",'user_namespace':" +:+ word (cap_user_namespace c) +:+
      quoted ",'pacman':" +:+ word (has "/usr/bin/pacman") +:+
      quoted ",'makepkg':" +:+ word (has "/usr/bin/makepkg") +:+
      quoted ",'gpgv':" +:+ word (has "/usr/bin/gpgv") +:+ "}" +:+ str newline
    else
      "btrfs: " +:+ word (cap_btrfs c) +:+ str newline +:+
      "rootless: " +:+ word (cap_rootless c) +:+ str newline +:+
      "mount namespace: " +:+ word (cap_mount_namespace c) +:+ str newline +:+
      "user namespace: " +:+ word (cap_user_namespace c) +:+ str newline +:+
      "pacman: " +:+ word (has "/usr/bin/pacman") +:+ str newline +:+
      "makepkg: " +:+ word (has "/usr/bin/makepkg") +:+ str newline +:+
      "gpgv: " +:+ word (has "/usr/bin/gpgv") +:+ str newline),
   exit_code_of (cap_btrfs c && cap_rootless c && cap_mount_namespace c)).

(** The options of a build that follow from those of the command. *)
Definition build_options (o : Package.Options) : Build.Options :=
  Build.mkOptions (Package.rootfs o) (path_append (Package.session_root o) "build-workspace")
    (path_append (Package.session_root o) "build-artifacts") (Package.timeout o)
    (bool_decide (Package.network o = "mirror")) (Package.allowed_hosts o) (Package.cgroup_root o)
    (Z.to_nat (Package.build_repetitions o)) (2 ^ 20).

Section Commands.
Context {A W : Type} (S : ScanOps A W) (B : BuildOps W) (C : CleanupOps W).
(** [rootfs::detect] on a path, and [access] *)
Context (capabilities : string → Capabilities) (has : string → bool).

(** The loop over the artifacts of a build. *)
Fixpoint scan_artifacts (fuel : nat) (w : W) (options : Package.Options) (artifacts : list string)
    (packages_ok : bool) : option (string * bool * W) :=
  match artifacts with
  | [] => Some ("", packages_ok, w)
  | artifact :: artifacts =>
      '(scanned, w) ← scan S fuel w artifact options;
      '(text, packages_ok, w) ←
        scan_artifacts fuel w options artifacts (packages_ok && Package.ok scanned);
      Some ("artifact: " +:+ quoted_path artifact +:+ " verdict=" +:+ Package.verdict scanned +:+
            str newline +:+ text, packages_ok, w)
  end.

Definition run_build (fuel : nat) (w : W) (path : string) (options : Package.Options)
    : option (string * Z * W) :=
  let '(built, w) := build B w path (build_options options) in
  let text :=
    (if Build.ok built then "build: ok" else "build: rejected") +:+ str newline +:+
    (if bool_decide (Build.error built = "") then ""
     else "error: " +:+ Build.error built +:+ str newline) +:+
    concat_str (map (λ f, "finding: " +:+ f +:+ str newline) (Build.findings built)) in
  if negb (Build.ok built) then Some (text, EXIT_FAILURE, w)
  else
    '(more, packages_ok, w) ← scan_artifacts fuel w options (Build.artifacts built) true;
    Some (text +:+ more, exit_code_of packages_ok, w).

(** The package command: what it prints and its exit code. *)
Definition run_package (fuel : nat) (w : W) (options : Package.Options) (command : PackageCommand)
    : option (string * Z * W) :=
  let finish (r : Package.Result) (w : W) := (print r options, exit_code_of (Package.ok r), w) in
  match command with
  | Doctor =>
      let '(text, code) :=
        doctor (bool_decide (Package.format options = "json"))
          (capabilities (if bool_decide (Package.rootfs options = "") then "/"
                         else Package.rootfs options)) has in
      Some (text, code, w)
  | ScanPackage path => '(r, w) ← scan S fuel w path options; Some (finish r w)
  | ComparePackage name from to =>
      let '(r, w) :=
        compare_versions (so_sqlite S) (so_sqlite_open S) (so_sqlite_close S)
          (fs_mkdirs (so_fs S)) w name from to options in
      Some (finish r w)
  | BuildPackage path => run_build fuel w path options
  | FetchPackage target => Some (finish (fetch target options) w)
  | ReportSession session =>
      Some (finish (report (so_content S w (path_append session "summary.json")) session) w)
  | Cleanup => let '(r, w) := cleanup C w options in Some (finish r w)
  end.

End Commands.
