(* ===== verification/CliSpec.v ===== *)
(** * What the command line guarantees

    The options a package command runs with are well formed, they read back from
    the words they are written as, and an exit code of zero says what a scan
    promises. *)

From S2P Require Import Prelude CxxString FsPath Json Charconv Event Report Policy Seccomp Sandbox.
From S2P Require Import Network Package Inspect Storage Rootfs Artifacts Scan ScanSpec Build Analyze Cli.

(** ** Well-formed options *)

(** What the loop over the options maintains. *)
Record options_wf (o : Package.Options) : Prop := {
  wf_rootless : Package.privileged o = false ∧ Package.confirm_privileged o = false;
  wf_format : Package.format o ∈ ["terminal"; "json"; "jsonl"];
  wf_network : Package.network o ∈ ["off"; "mirror"];
  wf_mirrors : Forall (λ m, valid_mirror m = true) (Package.mirrors o);
  wf_hosts : Forall (λ h, h ≠ "" ∧ contains_char h "/"%char = false ∧
                          contains_char h "000"%char = false) (Package.allowed_hosts o);
  wf_workers : 1 ≤ Package.workers o ≤ 128;
  wf_repetitions : 1 ≤ Package.build_repetitions o ≤ 3;
  wf_timeout : - 2 ^ 63 ≤ Package.timeout o < 2 ^ 63 ∧ Package.timeout o ≠ 0;
}.

Lemma default_options_wf : options_wf Package.default_options.
Proof. split; cbn; try done; try lia; try (split; [lia|done]); set_solver. Qed.

Lemma parse_between_Some low high v n : parse_between low high v = Some n → low ≤ n ≤ high ∧ n < 2 ^ 64.
Proof.
  unfold parse_between. destruct (parse_u64 v) as [k|] eqn:E; [|done]. cbn [mbind option_bind].
  apply parse_u64_iff in E as (_ & _ & _ & E).
  destruct (Z.leb_spec low k), (Z.leb_spec k high); cbn; try done. intros [= <-]. lia.
Qed.

Lemma s64_nonzero n : 1 ≤ n < 2 ^ 64 → - 2 ^ 63 ≤ s64 n < 2 ^ 63 ∧ s64 n ≠ 0.
Proof. intros Hn. unfold s64. rewrite u64_small by lia. case_match; lia. Qed.

Lemma set_flags_wf ra bd o : options_wf o → options_wf (set_flags ra bd o).
Proof. intros []. destruct o. by split; cbn in *. Qed.

Lemma package_option_wf opt value o o' :
  options_wf o → package_option opt value o = Some o' → options_wf o'.
Proof.
  intros [H1 H2 H3 H4 H5 H6 H7 H8]. destruct o as [pr ra bd cp wk to fm nw mi ah rf sr db cg br].
  cbn in *. unfold package_option.
  repeat (case_bool_decide; [|]); cbn [orb].
  all: try (intros [= <-]; by split).
  all: try done.
  - destruct (valid_mirror value) eqn:E; intros [= <-]. split; cbn; try done.
    apply Forall_app. by repeat constructor.
  - destruct (contains_char value "/"%char) eqn:E1; [done|].
    destruct (contains_char value "000"%char) eqn:E2; [done|]. intros [= <-]. split; cbn; try done.
    apply Forall_app. by repeat constructor.
  - destruct (parse_between _ _ _) as [n|] eqn:E; [|done]. intros [= <-].
    apply parse_between_Some in E. split; cbn; try done. apply s64_nonzero. lia.
  - destruct (parse_between _ _ _) as [n|] eqn:E; [|done]. intros [= <-].
    apply parse_between_Some in E. split; cbn; try done; lia.
  - destruct (parse_between _ _ _) as [n|] eqn:E; [|done]. intros [= <-].
    apply parse_between_Some in E. split; cbn; try done; lia.
Qed.

Lemma package_options_wf fuel args o o' words :
  (length args ≤ fuel)%nat → options_wf o → package_options args o = Some (o', words) → options_wf o'.
Proof.
  revert args o. induction fuel as [|fuel IH]; intros [|opt rest] o Hf Hwf; cbn [length] in Hf; try lia;
    cbn [package_options]; try (by intros [= <- <-]).
  destruct (negb (starts_with opt "--")); [by intros [= <- <-]|]. destruct (_ || _); [done|].
  case_bool_decide; [apply IH; [lia|by apply set_flags_wf]|].
  case_bool_decide; [apply IH; [lia|by apply set_flags_wf]|].
  destruct rest as [|value rest]; [done|]. cbn [length] in Hf.
  destruct (package_option opt value o) as [o1|] eqn:E; [|done].
  apply IH; [lia|]. by eapply package_option_wf.
Qed.

Lemma package_action_wf argv o c :
  parse_command_line argv = Some (PackageAction o c) → options_wf o ∧ network_consistent o = true.
Proof.
  unfold parse_command_line, read_command_line, read_analyze, read_inspect, read_sandbox, read_package,
    or_refuse. destruct argv as [|command [|first rest]]; [done|done|].
  case_bool_decide; [done|]. case_bool_decide; [repeat case_match; by intros; simplify_eq|].
  case_bool_decide.
  { destruct (analyze_options _ _) as [[? ?]|]; [|done]. cbn. by case_bool_decide. }
  case_bool_decide.
  { destruct (inspect_options _ _ _) as [[[? ?] ?]|]; [|done]. cbn. by case_bool_decide. }
  case_bool_decide.
  { destruct (sandbox_options _ _) as [[? ?]|]; [|done]. cbn. by case_bool_decide. }
  case_bool_decide; [|done].
  destruct (package_options rest Package.default_options) as [[o1 words]|] eqn:E; [|done].
  cbn [expected_bind]. destruct (network_consistent o1) eqn:En; cbn [negb]; [|done].
  destruct (package_command first words); [|done]. intros [= <- <-].
  split; [|done]. eapply package_options_wf; [reflexivity|apply default_options_wf|exact E].
Qed.

(** C32: the options a package command runs with are well formed: never
    privileged, a known format and network policy, mirrors exactly when the
    policy is mirror and all of them valid, hosts that are names, one to 128
    workers and one to three builds; the timeout is not zero, but it is the
    number of the command line as a signed one. *)
Theorem package_options_valid argv o c :
  parse_command_line argv = Some (PackageAction o c) →
  options_wf o ∧ (Package.network o = "mirror" ↔ Package.mirrors o ≠ []).
Proof.
  intros [Hwf Hn]%package_action_wf. split; [done|].
  unfold network_consistent in Hn. apply andb_true_iff in Hn as [H1 H2].
  pose proof (wf_network o Hwf) as Hnet. rewrite !elem_of_cons, elem_of_nil in Hnet.
  destruct Hnet as [E | [E | []]]; rewrite E in *; cbn in H1, H2.
  - destruct (bool_decide_reflect (Package.mirrors o = [])); [done|by cbn in H2].
  - destruct (bool_decide_reflect (Package.mirrors o = [])); [by cbn in H1|done].
Qed.

(** ** Options as words *)

(** A way to write options on the command line. *)
Definition option_words (o : Package.Options) : list string :=
  (if Package.run_all o then ["--run-all"] else []) ++
  (if Package.byte_diff o then ["--byte-diff"] else []) ++
  ["--format"; Package.format o; "--network"; Package.network o] ++
  flat_map (λ m, ["--mirror"; m]) (Package.mirrors o) ++
  flat_map (λ h, ["--allow-host"; h]) (Package.allowed_hosts o) ++
  ["--rootfs"; Package.rootfs o; "--timeout"; to_string (Package.timeout o) +:+ "s";
   "--workers"; to_string (Package.workers o); "--database"; Package.database o;
   "--cgroup-root"; Package.cgroup_root o; "--rebuild"; to_string (Package.build_repetitions o)].

(** An option with its value is consumed. *)
Lemma package_options_value opt value rest o o' :
  starts_with opt "--" = true → opt ∉ ["--privileged"; "--yes"; "--run-all"; "--byte-diff"] →
  package_option opt value o = Some o' →
  package_options (opt :: value :: rest) o = package_options rest o'.
Proof.
  intros Hs Hn Ho. rewrite !not_elem_of_cons in Hn. destruct Hn as (H1 & H2 & H3 & H4 & _).
  cbn [package_options]. rewrite Hs, Ho, !bool_decide_false by done. done.
Qed.

Local Ltac not_flag := rewrite !not_elem_of_cons; split_and!; try discriminate; apply not_elem_of_nil.

Lemma mirror_words pr ra bd cp wk to fm nw mi ah rf sr db cg br ms rest :
  Forall (λ m, valid_mirror m = true) ms →
  package_options (flat_map (λ m, ["--mirror"; m]) ms ++ rest)
    (Package.mkOptions pr ra bd cp wk to fm nw mi ah rf sr db cg br) =
  package_options rest (Package.mkOptions pr ra bd cp wk to fm nw (mi ++ ms) ah rf sr db cg br).
Proof.
  intros Hm. revert mi. induction Hm as [|m ms Hm _ IH]; intros mi; [by rewrite app_nil_r|].
  cbn [flat_map app].
  rewrite (package_options_value "--mirror" m _ _
             (Package.mkOptions pr ra bd cp wk to fm nw (mi ++ [m]) ah rf sr db cg br));
    [|reflexivity|not_flag
     |by cbn [package_option]; cbn; rewrite Hm].
  rewrite IH. by rewrite <- app_assoc.
Qed.

Lemma host_words pr ra bd cp wk to fm nw mi ah rf sr db cg br hs rest :
  Forall (λ h, h ≠ "" ∧ contains_char h "/"%char = false ∧ contains_char h "000"%char = false) hs →
  package_options (flat_map (λ h, ["--allow-host"; h]) hs ++ rest)
    (Package.mkOptions pr ra bd cp wk to fm nw mi ah rf sr db cg br) =
  package_options rest (Package.mkOptions pr ra bd cp wk to fm nw mi (ah ++ hs) rf sr db cg br).
Proof.
  intros Hh. revert ah. induction Hh as [|h hs (H1 & H2 & H3) _ IH]; intros ah; [by rewrite app_nil_r|].
  cbn [flat_map app].
  rewrite (package_options_value "--allow-host" h _ _
             (Package.mkOptions pr ra bd cp wk to fm nw mi (ah ++ [h]) rf sr db cg br));
    [|reflexivity|not_flag|].
  - rewrite IH. by rewrite <- app_assoc.
  - unfold package_option.
    change (bool_decide ("--allow-host" = "--format")) with false.
    change (bool_decide ("--allow-host" = "--network")) with false.
    change (bool_decide ("--allow-host" = "--mirror")) with false.
    change (bool_decide ("--allow-host" = "--allow-host")) with true. cbv iota.
    by rewrite bool_decide_false, H2, H3.
Qed.

Lemma parse_between_print low high n :
  0 ≤ n < 2 ^ 64 → low ≤ n ≤ high → parse_between low high (to_string n) = Some n.
Proof.
  intros Hn Hb. unfold parse_between. rewrite parse_u64_print by done. cbn [mbind option_bind].
  destruct (Z.leb_spec low n), (Z.leb_spec n high); try lia. done.
Qed.

Lemma strip_seconds_unit s : strip_seconds (s +:+ "s") = s.
Proof.
  unfold strip_seconds. assert (ends_with (s +:+ "s") "s" = true) as -> by (apply ends_with_spec; by exists s).
  rewrite str_length_app, Nat.add_sub. apply str_take_app.
Qed.

(** The flags and the first two options, from the default options on. *)
Lemma leading_words (ra bd : bool) (fm nw : string) rest :
  fm ∈ ["terminal"; "json"; "jsonl"] → nw ∈ ["off"; "mirror"] →
  package_options
    ((if ra then ["--run-all"] else []) ++ (if bd then ["--byte-diff"] else []) ++
     ["--format"; fm; "--network"; nw] ++ rest) Package.default_options =
  package_options rest
    (Package.mkOptions false ra bd false 4 30 fm nw [] [] "" "/tmp/execell-package"
       "/tmp/execell-package/observations.db" "" 1).
Proof.
  intros Hf Hn.
  trans (package_options (["--format"; fm; "--network"; nw] ++ rest)
           (set_flags ra bd Package.default_options)); [by destruct ra, bd|].
  cbn [set_flags Package.default_options app].
  etrans; [eapply (package_options_value "--format"); [reflexivity|not_flag|]|].
  { change (package_option "--format" fm _) with
      (if bool_decide (fm ∈ ["terminal"; "json"; "jsonl"])
       then Some (Package.mkOptions false ra bd false 4 30 fm "off" [] [] "" "/tmp/execell-package"
                    "/tmp/execell-package/observations.db" "" 1) else None).
    by rewrite bool_decide_true. }
  eapply (package_options_value "--network"); [reflexivity|not_flag|].
  change (package_option "--network" nw _) with
    (if bool_decide (nw ∈ ["off"; "mirror"])
     then Some (Package.mkOptions false ra bd false 4 30 fm nw [] [] "" "/tmp/execell-package"
                  "/tmp/execell-package/observations.db" "" 1) else None).
  by rewrite bool_decide_true.
Qed.

(** The options after the mirrors and the hosts. *)
Lemma trailing_words ra bd wk0 to0 fm nw mi ah rf0 sr db0 cg0 br0 rf to wk db cg br words :
  0 < to < 2 ^ 63 → 1 ≤ wk ≤ 128 → 1 ≤ br ≤ 3 →
  package_options
    (["--rootfs"; rf; "--timeout"; to_string to +:+ "s"; "--workers"; to_string wk; "--database"; db;
      "--cgroup-root"; cg; "--rebuild"; to_string br] ++ words)
    (Package.mkOptions false ra bd false wk0 to0 fm nw mi ah rf0 sr db0 cg0 br0) =
  package_options words (Package.mkOptions false ra bd false wk to fm nw mi ah rf sr db cg br).
Proof.
  intros Ht Hw Hb. cbn [app].
  etrans; [eapply (package_options_value "--rootfs"); [reflexivity|not_flag|reflexivity]|].
  etrans; [eapply (package_options_value "--timeout"); [reflexivity|not_flag|]|].
  { change (package_option "--timeout" ?v _) with
      (parsed ← parse_between 1 (2 ^ 64) (strip_seconds v);
       Some (Package.mkOptions false ra bd false wk0 (s64 parsed) fm nw mi ah rf sr db0 cg0 br0)).
    rewrite strip_seconds_unit, parse_between_print by lia. cbn [mbind option_bind].
    rewrite s64_small by lia. reflexivity. }
  etrans; [eapply (package_options_value "--workers"); [reflexivity|not_flag|]|].
  { change (package_option "--workers" ?v _) with
      (parsed ← parse_between 1 128 v;
       Some (Package.mkOptions false ra bd false parsed to fm nw mi ah rf sr db0 cg0 br0)).
    by rewrite parse_between_print by lia. }
  etrans; [eapply (package_options_value "--database"); [reflexivity|not_flag|reflexivity]|].
  etrans; [eapply (package_options_value "--cgroup-root"); [reflexivity|not_flag|reflexivity]|].
  eapply (package_options_value "--rebuild"); [reflexivity|not_flag|].
  change (package_option "--rebuild" ?v _) with
    (repetitions ← parse_between 1 3 v;
     Some (Package.mkOptions false ra bd false wk to fm nw mi ah rf sr db cg repetitions)).
  by rewrite parse_between_print by lia.
Qed.

(** The options read back from their words; [session_root] is not an option. *)
Lemma option_words_read o words :
  options_wf o → 0 < Package.timeout o → Package.session_root o = "/tmp/execell-package" →
  package_options (option_words o ++ words) Package.default_options = package_options words o.
Proof.
  intros [[H1 H1'] H2 H3 H4 H5 H6 H7 [H8 _]] Ht Hs.
  destruct o as [pr ra bd cp wk to fm nw mi ah rf sr db cg br]. cbn in *. subst pr cp sr.
  unfold option_words. cbn [Package.run_all Package.byte_diff Package.format Package.network
    Package.mirrors Package.allowed_hosts Package.rootfs Package.timeout Package.workers
    Package.database Package.cgroup_root Package.build_repetitions].
  etrans; [by rewrite <- !app_assoc, <- !app_comm_cons, <- !app_assoc; apply leading_words|].
  rewrite mirror_words, host_words by done. apply trailing_words; lia.
Qed.

(** C33: every well-formed set of options can be given on the command line and
    is read back as it is, with the command and its arguments after it. *)
Theorem package_arguments_read_back o path :
  options_wf o → network_consistent o = true → 0 < Package.timeout o →
  Package.session_root o = "/tmp/execell-package" → starts_with path "--" = false →
  parse_command_line ("package" :: "scan" :: option_words o ++ [path]) =
  Some (PackageAction o (ScanPackage path)).
Proof.
  intros Hwf Hn Ht Hs Hp.
  assert (package_options (option_words o ++ [path]) Package.default_options = Some (o, [path])) as Ho.
  { rewrite option_words_read by done. cbn [package_options]. by rewrite Hp. }
  unfold parse_command_line, read_command_line, read_analyze, read_inspect, read_sandbox, read_package,
    or_refuse.
  change (bool_decide ("package" = "run")) with false.
  change (bool_decide ("package" = "trace")) with false.
  change (bool_decide ("package" = "analyze")) with false.
  change (bool_decide ("package" = "inspect")) with false.
  change (bool_decide ("package" = "sandbox")) with false.
  change (bool_decide ("package" = "package")) with true. cbv iota.
  rewrite Ho. cbn [expected_bind]. rewrite Hn. reflexivity.
Qed.

(** ** The exit code of a scan *)

(** When execell is told to scan a package and exits with zero, the scan
    ran with well-formed options and under a consistent network policy, the package passed the
    inspection, was scanned in a root of its own which was then released, and its
    score is below 65: no error path of the command line or of the scan ends with
    success. *)
Theorem scan_exits_zero {A W} (S : ScanOps A W) (B : BuildOps W) (C : CleanupOps W)
    `{!RootfsLaws (so_fs S)} capabilities has fuel w argv o path text w' :
  parse_command_line argv = Some (PackageAction o (ScanPackage path)) →
  run_package S B C capabilities has fuel w o (ScanPackage path) = Some (text, EXIT_SUCCESS, w') →
  ∃ r, text = print r o ∧ options_wf o ∧
    inspected (so_host S) path (Package.timeout o) (Package.metadata r) ∧
    (Package.network o = "mirror" → Package.mirrors o ≠ []) ∧
    Forall (λ m, valid_mirror m = true) (Package.mirrors o) ∧
    scanned_in S fuel w path o r w' ∧
    Package.risk_score r < 65.
Proof.
  intros [Hwf _]%package_action_wf Hrun. cbn [run_package] in Hrun.
  destruct (scan S fuel w path o) as [[r v]|] eqn:Es; [|done]. cbn [mbind option_bind] in Hrun.
  destruct (Package.ok r) eqn:Hok; [|by injection Hrun].
  injection Hrun as <- <-. exists r. split; [done|].
  by apply scan_sound in Es as (_ & H2 & H3 & H4 & H5 & H6).
Qed.

(** The options of the sample scan. *)
Definition sample_argv : list string :=
  ["package"; "scan"; "--rootfs"; "/srv/arch"; "--format"; "json"; sample_path].

Definition idle_cleanup {W} : CleanupOps W := {|
  cl_directory _ _ := Ok false; cl_symlink _ _ := false; cl_entries _ _ := Ok [];
  cl_remove w _ := (None, w); cl_temp _ := Ok "/tmp" |}.

Definition idle_build {W} (fs : RootfsOps W) : BuildOps W := {|
  bo_fs := fs; bo_pid := 7; bo_uid := 1000; bo_regular _ _ := false; bo_size _ _ := Ok 0;
  bo_content _ _ := None; bo_stream w _ _ := (false, w); bo_close_stream w := w;
  bo_run_captured w _ _ _ _ := (Capture.no_capture, w); bo_entries _ _ := [];
  bo_copy w _ _ := (false, w) |}.

Lemma package_options_valid_witness :
  ∃ o, parse_command_line sample_argv = Some (PackageAction o (ScanPackage sample_path)) ∧
       options_wf o ∧ (Package.network o = "mirror" ↔ Package.mirrors o ≠ []).
Proof.
  eexists. split; [vm_compute; reflexivity|].
  eapply (package_options_valid sample_argv). vm_compute. reflexivity.
Defined.

Definition busy_options : Package.Options :=
  Package.mkOptions false true false false 8 90 "json" "mirror" ["https://mirror.example"]
    ["good.example"] "/srv/arch" "/tmp/execell-package" "/var/lib/e.db" "/sys/fs/cgroup/e" 3.

Lemma package_arguments_read_back_witness :
  parse_command_line ("package" :: "scan" :: option_words busy_options ++ [sample_path]) =
  Some (PackageAction busy_options (ScanPackage sample_path)).
Proof.
  apply package_arguments_read_back; try (vm_compute; reflexivity).
  split; cbn; try done; try lia.
  - rewrite !elem_of_cons. auto.
  - rewrite !elem_of_cons. auto.
  - repeat constructor.
  - repeat constructor; done.
Defined.

Lemma scan_exits_zero_witness :
  ∃ o text w', parse_command_line sample_argv = Some (PackageAction o (ScanPackage sample_path)) ∧
    run_package (sample_ops memory_root no_database) (idle_build memory_root) idle_cleanup
      (λ _, mkRootCapabilities true true true true true) (λ _, true) 50 sample_world o
      (ScanPackage sample_path) = Some (text, EXIT_SUCCESS, w') ∧
    ∃ r, text = print r o ∧ Package.risk_score r < 65.
Proof.
  eexists _, _, _. split; [vm_compute; reflexivity|]. split; [vm_compute; reflexivity|].
  edestruct (scan_exits_zero (sample_ops memory_root no_database) (idle_build memory_root) idle_cleanup
    (λ _, mkRootCapabilities true true true true true) (λ _, true) 50 sample_world sample_argv)
    as (r & Ht & _ & _ & _ & _ & _ & Hr); [vm_compute; reflexivity|vm_compute; reflexivity|].
  exists r. split; [exact Ht|exact Hr].
Defined.

(** A timeout of 2^63 seconds or more is accepted and becomes negative. *)
Example huge_timeout :
  (λ c, match c with PackageAction o _ => Package.timeout o | _ => 0 end) <$>
    parse_command_line ["package"; "scan"; "--timeout"; "9223372036854775808"; "a.pkg.tar.zst"] =
  Some (- 2 ^ 63).
Proof. vm_compute. reflexivity. Qed.
