(* ===== verification/Main.v ===== *)
(** * The program (main of src/main.cpp)

    The command line is read by Cli; here each command is run by its component:
    the process runner, the tracer with its reporter, the analysis, the policy
    in front of a reporter, the sandbox, the package commands.  The outcome is
    what ExeCell itself writes to standard output, and its exit code. *)

From S2P Require Import Prelude CxxString FsPath Stop Event Report Policy Tracer Capture.
From S2P Require Import Sandbox SandboxSetup SandboxRun TracerSession Package Rootfs Artifacts Scan Build Analyze Cli.

(** What the commands ask of the system. *)
Record MainOps (A W : Type) := mkMainOps {
  mo_kernel : Kernel W;
  mo_analyze : AnalyzeOps W;
  mo_files : FileOps W;
  mo_parent : ParentOps W;
  mo_uid : Z;
  mo_gid : Z;
  mo_env_path : option string;
  mo_access_x : string → bool;
  mo_symlink : string → bool;
  mo_scan : ScanOps A W;
  mo_build : BuildOps W;
  mo_cleanup : CleanupOps W;
  mo_capabilities : string → Capabilities;
  mo_has : string → bool;
}.
Arguments mo_kernel {A W}.
Arguments mo_analyze {A W}.
Arguments mo_files {A W}.
Arguments mo_parent {A W}.
Arguments mo_uid {A W}.
Arguments mo_gid {A W}.
Arguments mo_env_path {A W}.
Arguments mo_access_x {A W}.
Arguments mo_symlink {A W}.
Arguments mo_scan {A W}.
Arguments mo_build {A W}.
Arguments mo_cleanup {A W}.
Arguments mo_capabilities {A W}.
Arguments mo_has {A W}.

(** The line [process::run] prints about a status. *)
Definition status_line (status : Z) : string :=
  if WIFEXITED status
  then "[execell] process exited with code " +:+ to_string (WEXITSTATUS status) +:+ str newline
  else if WIFSIGNALED status
  then "[execell] process terminated by signal " +:+ to_string (WTERMSIG status) +:+ str newline
  else "".

Section Main.
Context {A W : Type} (O : MainOps A W).

(** [process::run] with what it prints. *)
Definition run_command (w : W) : string * Z * W :=
  match k_fork (mo_kernel O) w with
  | (Err _, w) => ("", process_run false None, w)
  | (Ok pid, w) =>
      let spawned := "execell: spawned pid " +:+ to_string pid +:+ str newline in
      match k_waitpid (mo_kernel O) w pid 0 with
      | (Err _, w) => (spawned, process_run true None, w)
      | (Ok (_, status), w) => (spawned +:+ status_line status, process_run true (Some status), w)
      end
  end.

Definition trace_command (fuel : nat) (w : W) (json : bool) : option (string * Z * W) :=
  if json then
    '(result, reporter, w) ← Tracer.run (mo_kernel O) fuel JsonReporter.new w;
    Some (JsonReporter.output (JsonReporter.finish reporter), result, w)
  else
    '(result, output, w) ← run_terminal (mo_kernel O) fuel w;
    Some (output, result, w).

Definition analyze_command (fuel : nat) (w : W) (options : Analyze.Options) (target : list string)
    : option (string * Z * W) :=
  '(result, w) ← analyze (mo_analyze O) fuel w target options;
  Some (if bool_decide (Analyze.format options = json_format)
        then analysis_json result +:+ str newline else print_analysis result,
        analyze_exit result, w).

Definition inspect_command (fuel : nat) (w : W) (policy_config : Policy.Config) (json_format : bool)
    : option (string * Z * W) :=
  if json_format then
    '(result, policy, w) ←
      Tracer.run (mo_kernel O) fuel (PolicyReporter.new policy_config JsonReporter.new) w;
    Some (JsonReporter.output (JsonReporter.finish (PolicyReporter.downstream policy)), result, w)
  else
    '(result, policy, w) ←
      Tracer.run (mo_kernel O) fuel (PolicyReporter.new policy_config Summary.empty) w;
    Some (Summary.print (PolicyReporter.downstream policy), result, w).

Definition sandbox_command (fuel : nat) (w : W) (config : Config) : option (string * Z * W) :=
  '(code, _, w) ←
    SandboxRun.run (mo_kernel O) (mo_files O) (mo_parent O) (mo_uid O) (mo_gid O) (mo_env_path O)
      (mo_access_x O) (mo_symlink O) fuel w config;
  Some ("", code, w).

(** The command that was read. *)
Definition dispatch (fuel : nat) (w : W) (invocation : Invocation) : option (string * Z * W) :=
  match invocation with
  | Run _ => Some (run_command w)
  | Trace json _ => trace_command fuel w json
  | AnalyzeProgram options target => analyze_command fuel w options target
  | InspectProgram policy json _ => inspect_command fuel w policy json
  | SandboxProgram config _ => sandbox_command fuel w config
  | PackageAction options command =>
      run_package (mo_scan O) (mo_build O) (mo_cleanup O) (mo_capabilities O) (mo_has O) fuel w
        options command
  end.

(** [main], from the name of the program and the arguments after it. *)
Definition main (fuel : nat) (w : W) (program : string) (argv : list string)
    : option (string * Z * W) :=
  match read_command_line argv with
  | Err Usage => Some (usage program, EXIT_FAILURE, w)
  | Err Diagnostic => Some ("", EXIT_FAILURE, w)
  | Ok invocation => dispatch fuel w invocation
  end.

End Main.
