(* ===== verification/MainSpec.v ===== *)
(** * What the program prints about a trace

    From the words of the command line to the document on standard output: the
    commands trace, inspect and analyze in terms of the trace of the program
    that was run, and the command run in terms of its wait status. *)

From S2P Require Import Prelude CxxString Json Event Stop Memory SyscallDecoder Report Policy Tracer.
From S2P Require Import TracerScript TracerSpec TracerReports Archive ArchiveSpec Risk Capture.
From S2P Require Import Sandbox SandboxSetup SandboxRun Network Package Inspect Rootfs Artifacts Scan ScanSpec Build.
From S2P Require Import Analyze AnalyzeSpec Cli CliSpec Main.

Lemma parsed_command argv i : parse_command_line argv = Some i → read_command_line argv = Ok i.
Proof. unfold parse_command_line. destruct (read_command_line argv); by intros [= ->]. Qed.

Section Main.
Context {A W : Type} (O : MainOps A W).

(** The trace of a run and its exit code: nothing when the program could not be
    traced, otherwise a complete trace of the process that was forked. *)
Definition traced (w : W) (code : Z) (es : list Event) : Prop :=
  (es = [] ∧ code = EXIT_FAILURE) ∨
  ∃ root, (k_fork (mo_kernel O) w).1 = Ok root ∧ final_trace root code es.

(** The command trace in JSON: what it prints is one document that reads back
    as the complete trace of the program, and it exits as the program did. *)
Theorem trace_json_reads_back fuel w program argv args text code w' :
  parse_command_line argv = Some (Trace true args) →
  main O fuel w program argv = Some (text, code, w') →
  ∃ es, traced w code es ∧
    (es ≠ [] → forallb JsonReporter.clean_event es = true →
     parse_document text = Some (JArr (map JsonReporter.event_json es))).
Proof.
  intros Hp%parsed_command. unfold main. rewrite Hp. cbn [dispatch trace_command].
  destruct (Tracer.run (mo_kernel O) fuel JsonReporter.new w) as [[[c r] v]|] eqn:E; [|done].
  cbn [mbind option_bind]. intros [= <- <- <-].
  destruct (run_reports _ _ _ _ _ _ _ E) as (es & -> & Ht).
  exists es. split; [done|]. apply JsonReporter.output_parses.
Qed.

(** C12: the command inspect in JSON, from the command line to the document it
    prints.  When an event is printed, and no string of the printed events has a
    control character below 16 other than a newline, a carriage return or a tab
    (the writer's escape of those is malformed), the document reads back as the trace of the program, each event that a rule of the policy
    denies followed by its violation.  That trace is complete and its exit code
    is the program's; or it is what was seen of it before the tracer failed, and
    the exit code is 1.  When no event is printed, the output is the malformed
    document of a single bracket. *)
Theorem inspect_json_reads_back fuel w program argv policy args text code w' :
  parse_command_line argv = Some (InspectProgram policy true args) →
  main O fuel w program argv = Some (text, code, w') →
  ∃ es, traced w code es ∧
    (es = [] → text = "]") ∧
    (es ≠ [] →
     let shown := PolicyReporter.annotate (Policy.Engine.new policy) es in
     forallb JsonReporter.clean_event shown = true →
     parse_document text = Some (JArr (map JsonReporter.event_json shown))).
Proof.
  intros Hp%parsed_command. unfold main. rewrite Hp. cbn [dispatch inspect_command].
  destruct (Tracer.run _ _ _ _) as [[[c r] v]|] eqn:E; [|done].
  cbn [mbind option_bind]. intros [= <- <- <-].
  destruct (run_reports _ _ _ _ _ _ _ E) as (es & -> & Ht).
  exists es. split; [done|]. split; [by intros ->|]. intros Hne Hc.
  rewrite PolicyReporter.report_all_downstream. apply JsonReporter.output_parses; [|done].
  by apply annotate_nonempty.
Qed.

(** C1: when the program is told to scan a package and exits with zero, the
    scan ran with well-formed options and under a consistent network policy, the
    package passed the inspection, and its score is below 65: no error path of
    the command line or of the scan ends with success.  The scan took place in
    the session it opened for itself, made of two fresh snapshots; the release of
    that session is the last thing the program does, and of its paths only those
    are left that the file system refuses to remove. *)
Theorem main_scan_exits_zero `{!RootfsLaws (so_fs (mo_scan O))} fuel w program argv o path text w' :
  parse_command_line argv = Some (PackageAction o (ScanPackage path)) →
  main O fuel w program argv = Some (text, EXIT_SUCCESS, w') →
  ∃ r, text = print r o ∧ options_wf o ∧
    inspected (so_host (mo_scan O)) path (Package.timeout o) (Package.metadata r) ∧
    (Package.network o = "mirror" → Package.mirrors o ≠ []) ∧
    Forall (λ m, valid_mirror m = true) (Package.mirrors o) ∧
    scanned_in (mo_scan O) fuel w path o r w' ∧
    Package.risk_score r < 65.
Proof.
  intros Hp. unfold main. rewrite (parsed_command _ _ Hp). cbn [dispatch]. intros Hm.
  by eapply scan_exits_zero.
Qed.

(** A command line that is refused runs nothing; what is printed is the usage
    message or, when the diagnostic goes to standard error, nothing. *)
Theorem refused_runs_nothing fuel w program argv :
  parse_command_line argv = None →
  ∃ text, main O fuel w program argv = Some (text, EXIT_FAILURE, w) ∧
          (text = usage program ∨ text = "").
Proof.
  unfold parse_command_line, main. destruct (read_command_line argv) as [i|[]]; [done|eauto..].
Qed.

(** A word that is not one of the commands of the usage message, and a command
    without an argument, are answered with it. *)
Theorem unknown_command_shows_usage fuel w program argv :
  (length argv < 2)%nat ∨
  (∃ command rest, argv = command :: rest ∧
     command ∉ ["run"; "trace"; "inspect"; "analyze"; "sandbox"; "package"]) →
  main O fuel w program argv = Some (usage program, EXIT_FAILURE, w).
Proof.
  unfold main, read_command_line. intros [Hl|(command & rest & -> & Hc)].
  - destruct argv as [|a [|b argv]]; cbn in *; [done|done|lia].
  - rewrite !not_elem_of_cons in Hc. destruct Hc as (? & ? & ? & ? & ? & ? & _).
    destruct rest as [|first rest]; [done|].
    by rewrite !bool_decide_eq_false_2 by done.
Qed.

(** The command analyze without a sandbox: the result is concluded from the
    complete trace of the program and its exit code, unless standard output
    could not be silenced (125, and no event). *)
Theorem analyze_traced fuel w target options text code w' :
  target ≠ [] → Analyze.sandbox options = false → an_kernel (mo_analyze O) = mo_kernel O →
  analyze_command O fuel w options target = Some (text, code, w') →
  code = analyze_exit (Analyze.no_result "") ∨
  ∃ session attestation status es r v,
    conclude session attestation status false false (report_all (new_policy options) es) = Some r ∧
    ((es = [] ∧ status = 125) ∨ traced v status es) ∧ code = analyze_exit r ∧
    (Analyze.format options = json_format → text = analysis_json r +:+ str newline).
Proof.
  intros Ht Hs HK. unfold analyze_command, analyze.
  destruct (session_path _ w) as [session w1] eqn:Es. rewrite (bool_decide_false (target = [])) by done. cbn [orb].
  destruct (bool_decide_reflect (session = "")) as [->|_].
  { cbn [mbind option_bind]. intros [= _ <- _]. by left. }
  rewrite Hs. destruct (run_traced _ fuel w1 options) as [[[status policy] w2]|] eqn:E; [|done].
  cbn [mbind option_bind].
  destruct (conclude _ _ _ _ _ _) as [r|] eqn:Ec; [|done]. cbn [mbind option_bind].
  intros [= <- <- _]. right.
  assert (∃ v es, policy = report_all (new_policy options) es ∧
            ((es = [] ∧ status = 125) ∨ traced v status es)) as (v & es & -> & Hes).
  { revert E. unfold run_traced. rewrite HK. destruct (bool_decide (Analyze.format options = json_format)).
    - destruct (an_dup _ w1 1) as [saved v1]. destruct (an_open_null _ v1) as [quiet v2].
      destruct (if (saved <? 0) || (quiet <? 0) then _ else _) as [[] v3].
      + intros [= <- <- _]. exists v3, []. auto.
      + destruct (Tracer.run _ _ _ _) as [[[c p] v4]|] eqn:E; [|done]. cbn [mbind option_bind].
        intros [= <- <- _]. destruct (run_reports _ _ _ _ _ _ _ E) as (es & -> & Ht').
        exists v3, es. auto.
    - intros E. destruct (run_reports _ _ _ _ _ _ _ E) as (es & -> & Ht'). exists w1, es. auto. }
  exists session, "backend=ptrace; sandbox=false; policy=observer", status, es, r, v.
  split; [done|]. split; [done|]. split; [done|]. intros Hf. by rewrite bool_decide_true.
Qed.

(** The command run exits with the status of the program, or 128 plus the
    signal that killed it. *)
Theorem run_exit_code w pid w1 w2 stop :
  k_fork (mo_kernel O) w = (Ok pid, w1) →
  k_waitpid (mo_kernel O) w1 pid 0 = (Ok (pid, encode_status stop), w2) →
  (∀ n, stop = WExited n → 0 ≤ n < 256 → (run_command O w).1.2 = n) ∧
  (∀ s core, stop = WKilled s core → 1 ≤ s ≤ 64 → (run_command O w).1.2 = 128 + s).
Proof.
  intros Hf Hw. unfold run_command. rewrite Hf, Hw. cbn [fst snd]. unfold process_run. cbn [negb].
  split.
  - intros n -> Hn. by apply exit_code_exited.
  - intros s core -> Hs. by apply exit_code_killed.
Qed.

End Main.

(** ** A program that opens a forbidden file *)

Definition script_analyze : AnalyzeOps Script := {|
  an_kernel := script_kernel 7;
  an_pid := 9;
  an_temp := "/tmp";
  an_mkdirs w _ := (false, w);
  an_dup w _ := (5, w);
  an_open_null w := (6, w);
  an_dup2 w _ _ := (1, w);
  an_close w _ := w;
  an_run_captured w _ _ _ _ := (no_capture, w);
  an_write w _ _ := w;
|}.

Definition script_ops : MainOps MemReader Script := {|
  mo_kernel := script_kernel 7;
  mo_analyze := script_analyze;
  mo_files := {| f_open w _ := (Err 2, w); f_write w _ _ := (Err 5, w); f_close w _ := (true, w) |};
  mo_parent := {| p_pipe w := (None, w); p_close w _ := w; p_setpgid w _ := (None, w);
                  p_tool w _ _ := (None, w); p_write_ready w _ := w |};
  mo_uid := 1000;
  mo_gid := 1000;
  mo_env_path := None;
  mo_access_x _ := false;
  mo_symlink _ := false;
  mo_scan := sample_ops no_files no_database;
  mo_build := idle_build no_files;
  mo_cleanup := idle_cleanup;
  mo_capabilities _ := mkRootCapabilities false false false false false;
  mo_has _ := false;
|}.

(** The initial stop, a child, its end and the end of the program. *)
Definition spawning : Script :=
  script [sc_signal 7 SIGTRAP; sc_event 7 PTRACE_EVENT_FORK 8; sc_exit 8 0; sc_exit 7 3].

Definition spawning_argv : list string :=
  ["inspect"; "--format"; "json"; "--deny-path"; "/etc/shadow"; "/bin/true"].

Lemma inspect_json_reads_back_witness :
  ∃ text w', main script_ops 20 spawning "execell" spawning_argv = Some (text, 3, w') ∧
    ∃ es, traced script_ops spawning 3 es ∧ (es = [] → text = "]").
Proof.
  eexists _, _. split; [vm_compute; reflexivity|].
  edestruct (inspect_json_reads_back script_ops 20 spawning "execell" spawning_argv)
    as (es & H1 & H2 & _); [vm_compute; reflexivity|vm_compute; reflexivity|].
  exists es. split; [exact H1|exact H2].
Defined.

(** A system on which only packages can be handled. *)
Definition idle_kernel {W} : Kernel W := {|
  k_fork w := (Err 11, w);
  k_waitpid w _ _ := (Err 10, w);
  k_ptrace_syscall w _ _ := (Err 3, w);
  k_ptrace_setoptions w _ _ := (Err 3, w);
  k_ptrace_getregs w _ := (Err 3, w);
  k_ptrace_geteventmsg w _ := (Err 3, w);
  k_kill w _ _ := (false, w);
  k_tracee _ _ := blank_tracee;
|}.

Definition package_ops : MainOps MemReader (list string) := {|
  mo_kernel := idle_kernel;
  mo_analyze := {| an_kernel := idle_kernel; an_pid := 9; an_temp := "/tmp"; an_mkdirs w _ := (false, w);
                   an_dup w _ := (5, w); an_open_null w := (6, w); an_dup2 w _ _ := (1, w);
                   an_close w _ := w; an_run_captured w _ _ _ _ := (no_capture, w);
                   an_write w _ _ := w |};
  mo_files := {| f_open w _ := (Err 2, w); f_write w _ _ := (Err 5, w); f_close w _ := (true, w) |};
  mo_parent := {| p_pipe w := (None, w); p_close w _ := w; p_setpgid w _ := (None, w);
                  p_tool w _ _ := (None, w); p_write_ready w _ := w |};
  mo_uid := 1000;
  mo_gid := 1000;
  mo_env_path := None;
  mo_access_x _ := false;
  mo_symlink _ := false;
  mo_scan := sample_ops memory_root no_database;
  mo_build := idle_build memory_root;
  mo_cleanup := idle_cleanup;
  mo_capabilities _ := mkRootCapabilities true true true true true;
  mo_has _ := true;
|}.

Lemma main_scan_exits_zero_witness :
  ∃ text w', main package_ops 50 sample_world "execell" sample_argv = Some (text, EXIT_SUCCESS, w') ∧
    ∃ o r, text = print r o ∧ Package.risk_score r < 65.
Proof.
  eexists _, _. split; [vm_compute; reflexivity|].
  edestruct (@main_scan_exits_zero _ _ package_ops memory_root_laws 50 sample_world "execell" sample_argv)
    as (r & Ht & _ & _ & _ & _ & _ & Hr); [vm_compute; reflexivity|vm_compute; reflexivity|].
  eexists _, r. split; [exact Ht|exact Hr].
Defined.
