(* ===== verification/Fixture.v ===== *)
(** * The manual fixture (examples/manual_fixture.cpp)

    The program the manual traces, as the system calls it makes.  What it
    writes to standard error is left out, and so are the calls of the loader
    and of the buffers of standard output.  [strerror] and the program
    /bin/true are parameters. *)

From S2P Require Import Prelude CxxString Event Stop FdTable Syscall Memory.
From S2P Require Import SyscallDecoder Report Risk Policy Tracer Analyze AnalyzeSpec.
From S2P Require Import Fuel Program Monitor.

(** ** The C library *)

Definition O_RDONLY : Z := 0.
Definition O_WRONLY : Z := 1.
Definition O_CREAT : Z := 64.
Definition O_TRUNC : Z := 512.
Definition O_CLOEXEC : Z := 524288.
Definition SOCK_STREAM : Z := 1.
Definition SOCK_NONBLOCK : Z := 2048.
Definition SOCK_CLOEXEC : Z := 524288.
Definition STDOUT_FILENO : Z := 1.
(** The flags of [fork] in glibc: SIGCHLD and the identifier of the child. *)
Definition fork_flags : Z := 18874385.

(** Where the string, the buffer or the address of a call lies. *)
Definition buffer : Z := 4096.

Definition c_bytes (s : string) : list ascii := String.list_ascii_of_string s ++ replicate 8 nul.

(** A call with its arguments and what lies in the buffer. *)
Definition request_of (number rdi rsi rdx r10 : Z) (bytes : list ascii) : request :=
  mkRequest (mkRegs (u64 rdi) (u64 rsi) (u64 rdx) (u64 r10) 0 0 (u64 (-38)) number)
    (mkTracee (peek_of (mem_of_list buffer bytes)) (λ _, None) "").

(** What a wrapper of the C library returns, -1 for an error; the error number
    is then the negated result. *)
Definition value_of (r : reply) : Z :=
  if (-4096 <? rp_result r) && (rp_result r <? 0) then -1 else rp_result r.
Definition errno_of (r : reply) : Z := - rp_result r.

(** For a result of type [ssize_t], and for one of type [int] or [pid_t]. *)
Definition libc_size (rq : request) : prog Z := r ← call rq; mret (value_of r).
Definition libc (rq : request) : prog Z := v ← libc_size rq; mret (s32 v).

Definition open_request (path : string) (flags mode : Z) : request :=
  request_of SYS_openat AT_FDCWD buffer flags mode (c_bytes path).
Definition write_request (fd : Z) (text : string) : request :=
  request_of SYS_write fd buffer (size text) 0 (c_bytes text).
Definition close_request (fd : Z) : request := request_of SYS_close fd 0 0 0 [].
Definition unlink_request (path : string) : request :=
  request_of SYS_unlink buffer 0 0 0 (c_bytes path).
Definition fchmod_request (fd mode : Z) : request := request_of SYS_fchmod fd mode 0 0 [].
Definition fork_request : request := request_of SYS_clone fork_flags 0 0 0 [].
Definition waitpid_request (pid options : Z) : request :=
  request_of SYS_wait4 pid buffer options 0 [].
(** The vectors of arguments and of the environment are left out. *)
Definition exec_request (path : string) : request :=
  request_of SYS_execve buffer 0 0 0 (c_bytes path).
Definition socket_request (domain type protocol : Z) : request :=
  request_of SYS_socket domain type protocol 0 [].
Definition listen_request (fd backlog : Z) : request := request_of SYS_listen fd backlog 0 0 [].

(** A [sockaddr_in] *)
Definition sockaddr_in (a b c d port : Z) : list ascii :=
  map (λ z, ascii_of_N (Z.to_N z)) [AF_INET; 0; port / 256; port mod 256; a; b; c; d]
  ++ replicate 8 nul.
Definition bind_request (fd : Z) (address : list ascii) : request :=
  request_of SYS_bind fd buffer 16 0 address.
Definition connect_request (fd : Z) (address : list ascii) : request :=
  request_of SYS_connect fd buffer 16 0 address.

(** [waitpid(child, &status, 0) >= 0], and the status. *)
Definition waitpid (pid : Z) : prog (bool * Z) :=
  r ← call (waitpid_request pid 0);
  let waited := 0 <=? s32 (value_of r) in
  mret (waited, if waited then rp_out r else 0).

(** ** The program *)

Definition demo_path : string := "/tmp/execell-manual-demo.txt".
Definition risk_marker : string := "/tmp/execell-risk-marker.sh".

Section Fixture.
Context (strerror : Z → string) (bin_true : prog Z).

Definition line (text : string) : prog () := say (text +:+ str newline).

Definition demo_text : string := "ExeCell manual fixture" +:+ str newline.

Definition file_demo : prog bool :=
  fd ← libc (open_request demo_path (O_CREAT + O_WRONLY + O_TRUNC) 384);
  if fd <? 0 then mret false
  else
    written ← libc_size (write_request fd demo_text);
    if negb (written =? size demo_text) then
      _ ← libc (close_request fd); mret false
    else
      closed ← libc (close_request fd);
      failed ← (if closed <? 0 then mret true
                else removed ← libc (unlink_request demo_path); mret (removed <? 0));
      if (failed : bool) then mret false
      else _ ← line "file demo completed"; mret true.

Definition process_demo : prog bool :=
  child ← libc fork_request;
  if child <? 0 then mret false
  else if child =? 0 then
    _ ← libc_size (write_request STDOUT_FILENO ("child process completed" +:+ str newline)); Exit 0
  else
    '(waited, status) ← waitpid child;
    if negb waited || negb (WIFEXITED status) || negb (WEXITSTATUS status =? 0) then mret false
    else _ ← line "process demo completed"; mret true.

Definition network_demo : prog bool :=
  fd ← libc (socket_request AF_INET SOCK_STREAM 0);
  if fd <? 0 then mret false
  else
    bound ← libc (bind_request fd (sockaddr_in 127 0 0 1 0));
    listening ← (if bound =? 0 then r ← libc (listen_request fd 1); mret (r =? 0) else mret false);
    closed ← libc (close_request fd);
    if (closed <? 0) || negb listening then mret false
    else _ ← line "network demo completed (loopback listener only)"; mret true.

Definition risk_file_probe (path : string) : prog bool :=
  r ← call (open_request path (O_RDONLY + O_CLOEXEC) 0);
  let fd := s32 (value_of r) in
  if fd <? 0 then
    _ ← line ("risk probe blocked: " +:+ path +:+ " (" +:+ strerror (errno_of r) +:+ ")"); mret true
  else
    _ ← libc (close_request fd);
    _ ← line ("risk probe opened: " +:+ path +:+ " (no data read)"); mret true.

Definition marker_text : string :=
  "#!/bin/sh" +:+ str newline +:+ "printf 'safe marker\n'" +:+ str newline.

(** The loop over the paths. *)
Fixpoint risk_probes (ok : bool) (paths : list string) : prog bool :=
  match paths with
  | [] => mret ok
  | path :: paths => probed ← risk_file_probe path; risk_probes (probed && ok) paths
  end.

(** From the creation of the marker to its removal. *)
Definition risk_mark (marker_fd : Z) (ok : bool) : prog bool :=
  written ← libc_size (write_request marker_fd marker_text);
  let ok := (written =? size marker_text) && ok in
  changed ← libc (fchmod_request marker_fd 448);
  let ok := (changed =? 0) && ok in
  closed ← libc (close_request marker_fd);
  let ok := (closed =? 0) && ok in
  removed ← libc (unlink_request risk_marker);
  let ok := (removed =? 0) && ok in
  _ ← line "risk marker created and removed safely";
  mret ok.

Definition risk_connect : prog () :=
  network_fd ← libc (socket_request AF_INET (SOCK_STREAM + SOCK_NONBLOCK + SOCK_CLOEXEC) 0);
  if 0 <=? network_fd then
    _ ← libc (connect_request network_fd (sockaddr_in 192 0 2 1 9));
    _ ← libc (close_request network_fd); mret ()
  else mret ().

Definition risk_demo : prog bool :=
  ok ← risk_probes true ["/etc/shadow"; "/proc/self/environ"; "/root/.ssh/id_rsa"];
  marker_fd ← libc (open_request risk_marker (O_CREAT + O_WRONLY + O_TRUNC + O_CLOEXEC) 448);
  if marker_fd <? 0 then mret false
  else
    ok ← risk_mark marker_fd ok;
    child ← libc fork_request;
    if child <? 0 then mret false
    else if child =? 0 then
      replaced ← libc (exec_request "/bin/true");
      if replaced <? 0 then Exit 127 else code ← bin_true; Exit code
    else
      '(waited, status) ← waitpid child;
      let ok := waited && WIFEXITED status && (WEXITSTATUS status =? 0) && ok in
      _ ← risk_connect;
      _ ← line "risk simulation completed without host modification";
      mret ok.

Definition usage (program : string) : prog () :=
  line ("Usage: " +:+ program +:+ " [all|file|process|network|risk|fail]").

(** [ok = demo() && ok] when the mode asks for it. *)
Definition when (asked : bool) (demo : prog bool) (ok : bool) : prog bool :=
  if asked then done_ ← demo; mret (done_ && ok) else mret ok.

Definition modes : list string := ["all"; "file"; "process"; "network"; "risk"].

Definition main (argv : list string) : prog Z :=
  let program := default "" (argv !! 0%nat) in
  let mode := default "all" (argv !! 1%nat) in
  if bool_decide (mode = "--help") || bool_decide (mode = "-h") then
    _ ← usage program; mret 0
  else if bool_decide (mode = "fail") then mret 42
  else if negb (bool_decide (mode ∈ modes)) then
    _ ← usage program; mret 2
  else
    let all := bool_decide (mode = "all") in
    ok ← when (all || bool_decide (mode = "file")) file_demo true;
    ok ← when (all || bool_decide (mode = "process")) process_demo ok;
    ok ← when (all || bool_decide (mode = "network")) network_demo ok;
    ok ← when (bool_decide (mode = "risk")) risk_demo ok;
    mret (if (ok : bool) then 0 else 1).

End Fixture.

(** ** The program alone *)

Section Alone.
Context (strerror : Z → string) (bin_true : prog Z).
Context {X : Type} (sys : X → request → reply * X).

Abbreviation fixture := (main strerror bin_true).

(** The mode that fails, the modes that are none, and the help. *)
Lemma fail_mode program x :
  execute sys (fixture [program; "fail"]) x = mkExecution [] (WExited 42) "" x.
Proof. reflexivity. Qed.

Lemma unknown_mode program mode x :
  mode ∉ "fail" :: "--help" :: "-h" :: modes →
  ex_calls (execute sys (fixture [program; mode]) x) = [] ∧
  ex_status (execute sys (fixture [program; mode]) x) = WExited 2.
Proof.
  rewrite !not_elem_of_cons. intros (Hf & Hh & Hs & Hm). unfold main. cbn -[modes].
  rewrite !bool_decide_false by done. done.
Qed.

Definition demo_open : request := open_request demo_path (O_CREAT + O_WRONLY + O_TRUNC) 384.

Lemma file_main program :
  fixture [program; "file"] =
  (ok ← (done_ ← file_demo; mret (done_ && true)); mret (if (ok : bool) then 0 else 1)).
Proof. reflexivity. Qed.

(** How the mode file ends: with 0 when the file was removed, with 1 otherwise;
    it is removed only when all of the text was written and the close succeeded. *)
Inductive file_ends : execution X → Prop :=
| file_removed o w c u y :
    0 ≤ s32 (value_of o) → value_of w = size demo_text →
    0 ≤ s32 (value_of c) → 0 ≤ s32 (value_of u) →
    file_ends (mkExecution
      [(demo_open, o); (write_request (s32 (value_of o)) demo_text, w);
       (close_request (s32 (value_of o)), c); (unlink_request demo_path, u)]
      (WExited 0) ("file demo completed" +:+ str newline) y)
| file_kept calls y :
    (∀ u, (unlink_request demo_path, u) ∈ calls → s32 (value_of u) < 0) →
    file_ends (mkExecution calls (WExited 1) "" y).

Ltac run := cbn -[demo_path demo_text Z.eqb Z.ltb s32 value_of size demo_open write_request
                  close_request unlink_request].
(** The number of a call tells it from another. *)
Ltac other_calls :=
  run; unfold with_call; cbn [ex_calls ex_status ex_output ex_system];
  apply file_kept; intros ?; rewrite !elem_of_cons, elem_of_nil;
  intros Hu; repeat (destruct Hu as [Hu|Hu]);
  first [done | apply (f_equal (λ c : made, reg_orig_rax (rq_registers c.1))) in Hu; discriminate Hu
        | by simplify_eq].

Ltac next_reply r := run; match goal with |- context [sys ?x ?rq] => destruct (sys x rq) as [r ?] end.
Ltac test b := run; destruct b.

(** Its calls have no event. *)
Lemma no_event n rdi rsi rdx r10 bytes r :
  n ∈ [SYS_openat; SYS_write; SYS_close; SYS_unlink] →
  event_of (request_of n rdi rsi rdx r10 bytes, r) = None.
Proof.
  intros Hn. unfold event_of. cbn [fst snd request_of rq_registers reg_orig_rax].
  destruct (rp_result r <? 0); [done|]. rewrite !elem_of_cons, elem_of_nil in Hn.
  by repeat (destruct Hn as [->|Hn]).
Qed.

Ltac go := cbn -[plain demo_path demo_text Z.eqb Z.ltb s32 value_of size demo_open write_request
                  close_request unlink_request].

Lemma file_plain program x : plain sys (fixture [program; "file"]) x.
Proof.
  assert (∀ n a b c e l r, n ∈ [SYS_openat; SYS_write; SYS_close; SYS_unlink] →
    event_of (request_of n a b c e l, r) = None) as He by (intros; by apply no_event).
  assert (∀ rq k y, (∀ r, event_of (rq, r) = None) → (∀ r y, plain sys (k r) y) →
    plain sys (Call rq k) y) as Hcall.
  { intros rq k y Hev Hk. cbn [plain]. destruct (sys y rq). by split. }
  rewrite file_main. unfold file_demo, libc, libc_size, call, line, say. fold demo_open.
  apply Hcall; [intros; apply He; set_solver|]. intros o y1. go. case_match; [done|].
  apply Hcall; [intros; apply He; set_solver|]. intros w y2. go. case_match; go.
  - apply Hcall; [intros; apply He; set_solver|]. done.
  - apply Hcall; [intros; apply He; set_solver|]. intros c y3. go. case_match; [done|]. go.
    apply Hcall; [intros; apply He; set_solver|]. intros u y4. go. case_match; done.
Qed.

Lemma file_mode program x : file_ends (execute sys (fixture [program; "file"]) x).
Proof.
  rewrite file_main.
  unfold file_demo, libc, libc_size, call, line, say. fold demo_open.
  next_reply o. test (Z.ltb_spec (s32 (value_of o)) 0); [other_calls|].
  next_reply w. test (Z.eqb_spec (value_of w) (size demo_text)); [|next_reply c; other_calls].
  next_reply c. test (Z.ltb_spec (s32 (value_of c)) 0); [other_calls|].
  next_reply u. test (Z.ltb_spec (s32 (value_of u)) 0); [other_calls|].
  by apply file_removed.
Qed.

End Alone.

(** ** The program under a path policy *)

Lemma demo_open_entry root :
  on_entry (rq_tracee demo_open) root (entry_registers demo_open) new_decoder =
  (set_path demo_path (cleared SYS_openat), None).
Proof. vm_compute. reflexivity. Qed.

Lemma demo_open_exit root fd out t :
  0 ≤ fd < 2 ^ 31 →
  on_exit root (exit_registers (demo_open, mkReply fd out)) (set_path demo_path (cleared SYS_openat)) t
  = (FdTable.track fd demo_path t, Some (FileOpened fd demo_path empty_context)).
Proof.
  intros Hfd. unfold on_exit.
  cbn -[u64 s64 s32 Z.leb demo_path]. rewrite u64_small, s64_small, s32_small by lia.
  by destruct (Z.leb_spec 0 fd); [|lia].
Qed.

Section Denied.
Context (strerror : Z → string) (bin_true : prog Z).
Context {X : Type} (sys : X → request → reply * X) (root : Z).
Variables (options : Analyze.Options) (d : string) (n : Z).
Hypothesis denies : Analyze.policy options = mkConfig [d] [] [] n.
Hypothesis prefix : starts_with demo_path d = true.
Hypothesis proper : d ≠ "".

Abbreviation fixture := (main strerror bin_true).

Lemma policy_started o :
  o = hear root (Some (TraceStarted root empty_context)) (new_policy options, 0) →
  stop_requested o.1 = false ∧ Engine.config (PolicyReporter.engine o.1) = mkConfig [d] [] [] n.
Proof.
  intros ->. cbn. unfold PolicyReporter.report, Engine.evaluate. cbn. rewrite denies. cbn.
  destruct d; [done|]. by cbn.
Qed.

Lemma policy_opened (o : Listener) fd path :
  Engine.config (PolicyReporter.engine o.1) = mkConfig [d] [] [] n →
  starts_with path d = true →
  stop_requested (hear root (Some (FileOpened fd path empty_context)) o).1 = true.
Proof.
  intros Hc Hp. set (e := set_context (mkContext root o.2) (FileOpened fd path empty_context)).
  change (PolicyReporter.denied (PolicyReporter.report o.1 e) = true).
  unfold PolicyReporter.report. pose proof (Engine.evaluate_outcome (PolicyReporter.engine o.1) e) as He.
  destruct (Engine.evaluate _ e) as [dec g]. inversion He as [Ha|r s Hf _]; subst.
  - exfalso. eapply Ha. apply (Engine.forbids_path _ _ _ d); [rewrite Hc; by left|].
    by apply starts_with_spec in Hp.
  - by case_match.
Qed.

Lemma denied_run program x fd out x1 :
  0 ≤ fd < 2 ^ 31 → sys x demo_open = (mkReply fd out, x1) →
  (supervise sys root (fixture [program; "file"]) (new_policy options) x).1 =
  mkExecution [(demo_open, mkReply fd out)] (WKilled SIGKILL false) "" x1.
Proof.
  intros Hfd Hs. unfold supervise. set (o := hear root _ _).
  destruct (policy_started o eq_refl) as [Ho Hc]. unfold unless_stopped at 1. rewrite Ho.
  rewrite file_main. unfold file_demo, libc, libc_size, call. fold demo_open.
  cbn -[hear demo_open on_entry on_exit demo_path unless_stopped].
  rewrite demo_open_entry. unfold unless_stopped at 1. cbn -[hear demo_open on_exit unless_stopped].
  change (hear root None o) with o. change (PolicyReporter.denied o.1) with (stop_requested o.1).
  rewrite Ho, Hs, demo_open_exit by done. unfold unless_stopped.
  by rewrite (policy_opened o fd demo_path).
Qed.

(** The analysis of a run that was killed. *)
Lemma killed_rejects session attestation policy :
  ∃ r, conclude session attestation 137 false false policy = Some r ∧
    verdict (Analyze.assessment r) = "reject".
Proof.
  unfold conclude.
  destruct (analysis_assessment_spec (Analyze.d_summary (PolicyReporter.downstream policy))
    (Engine.violations (PolicyReporter.engine policy)) 137 false false) as (a & -> & Hrej & _).
  eexists. split; [done|]. cbn [Analyze.assessment]. rewrite Hrej, assessment_rejects.
  by rewrite !orb_true_r.
Qed.

(** C14: a policy acts on a call that has been made.  Under an analysis that
    denies a directory of the demonstration file, the mode file of the fixture
    creates the file and is killed at the exit of that one call: the analysis
    rejects, and the file, which the program alone removes whenever it ends
    with 0, is left behind. *)
Theorem denied_file_is_left program session attestation x fd out x1 :
  0 ≤ fd < 2 ^ 31 → sys x demo_open = (mkReply fd out, x1) →
  let alone := execute sys (fixture [program; "file"]) x in
  eventually (λ '(code, policy, m),
      code = 137 ∧ m = mkMachine Gone None [(demo_open, mkReply fd out)] "" x1 trace_options ∧
      ∃ r, conclude session attestation code false false policy = Some r ∧
        verdict (Analyze.assessment r) = "reject")
    (λ fuel, Tracer.run (machine_kernel sys root) fuel (new_policy options)
       (load (fixture [program; "file"]) x)) ∧
  (ex_status alone = WExited 0 →
   ∃ u, (unlink_request demo_path, u) ∈ ex_calls alone ∧ 0 ≤ s32 (value_of u)).
Proof.
  intros Hfd Hs alone. split.
  - eapply eventually_weaken;
      [|by eapply (run_supervises sys root (machine_kernel sys root) (λ m, m)), file_plain].
    intros [[code policy] m].
    pose proof (denied_run program x fd out x1 Hfd Hs) as Hd. revert Hd.
    destruct (supervise _ _ _ _ _) as [e o]. cbn [fst]. intros -> (-> & -> & ->).
    split_and!; [done|done|]. apply killed_rejects.
  - unfold alone. destruct (file_mode strerror bin_true sys program x) as [o w c u|calls y]; [|done].
    intros _. exists u. split; [|done]. do 3 right. by left.
Qed.

End Denied.

(** A system with one file, which exists or not. *)
Definition one_file (exists_ : bool) (rq : request) : reply * bool :=
  let nr := reg_orig_rax (rq_registers rq) in
  if nr =? SYS_openat then (mkReply 3 0, true)
  else if nr =? SYS_write then (mkReply (reg_rdx (rq_registers rq)) 0, exists_)
  else if nr =? SYS_unlink then (mkReply 0 0, false)
  else (mkReply 0 0, exists_).

Definition deny_tmp : Analyze.Options :=
  Analyze.mkOptions terminal (mkConfig ["/tmp"] [] [] 0) 10 65536 false Sandbox.default_config.

Definition no_text (errno : Z) : string := "".

(** Analysed the file is left; alone it is removed. *)
Lemma denied_file_is_left_witness :
  eventually (λ '(code, _, m), code = 137 ∧ ma_system m = true)
    (λ fuel, Tracer.run (machine_kernel one_file 7) fuel (new_policy deny_tmp)
       (load (main no_text (Ret 0) ["fixture"; "file"]) false)) ∧
  ex_system (execute one_file (main no_text (Ret 0) ["fixture"; "file"]) false) = false.
Proof.
  split; [|vm_compute; reflexivity].
  eapply eventually_weaken;
    [|apply (@denied_file_is_left no_text (Ret 0) bool one_file 7 deny_tmp "/tmp" 0
        eq_refl eq_refl ltac:(discriminate) "fixture" "" "" false 3 0 true
        ltac:(lia) ltac:(vm_compute; reflexivity))].
  intros [[code policy] m] (-> & -> & _). split; reflexivity.
Defined.

(** ** Attempts that fail *)

(** Rules on paths and endpoints do not see a call that failed. *)
Lemma failed_call_allowed g paths endpoints n pid name errno ctx :
  Engine.config g = mkConfig paths endpoints [] n → "" ∉ paths →
  (Engine.evaluate g (SyscallFailed pid name errno ctx)).1 = allow.
Proof.
  intros Hc Hp. destruct (Engine.evaluate_outcome g (SyscallFailed pid name errno ctx)) as [|r s Hf _];
    [done|]. exfalso. rewrite Hc in Hf. inversion Hf as [d Hd [rest Hr]|d Hd Hne _|Hs|Hs]; subst.
  - apply Hp. destruct d; [done|]. discriminate Hr.
  - by apply Hne.
  - by apply elem_of_nil in Hs.
  - discriminate Hs.
Qed.

Definition risk_connect_request (fd : Z) : request :=
  connect_request fd (sockaddr_in 192 0 2 1 9).

Lemma risk_connect_entry root fd :
  on_entry (rq_tracee (risk_connect_request fd)) root (entry_registers (risk_connect_request fd))
    new_decoder
  = (set_endpoint "192.0.2.1:9" (set_fd (s32 (u64 fd)) (cleared SYS_connect)), None).
Proof.
  assert (read_endpoint (rq_tracee (risk_connect_request fd)) root (u64 buffer) (u64 16)
    = "192.0.2.1:9") as He by (vm_compute; reflexivity).
  unfold on_entry. cbn -[read_endpoint s32 u64 rq_tracee]. by rewrite He.
Qed.

(** The connection the mode risk attempts is not denied by a rule on its
    endpoint: it is non-blocking and fails with EINPROGRESS, and the event of a
    failed call has the error number but not the endpoint the decoder has read. *)
Theorem risk_connect_unnoticed root fd out errno t g endpoints n ctx :
  1 ≤ errno < 4096 → Engine.config g = mkConfig [] endpoints [] n →
  let rq := risk_connect_request fd in
  let d := (on_entry (rq_tracee rq) root (entry_registers rq) new_decoder).1 in
  pending_endpoint d = "192.0.2.1:9" ∧
  ∃ e, on_exit root (exit_registers (rq, mkReply (- errno) out)) d t = (t, Some e) ∧
    (Engine.evaluate g (set_context ctx e)).1 = allow.
Proof.
  intros He Hc rq d. unfold d, rq. rewrite risk_connect_entry. split; [done|].
  exists (SyscallFailed root "connect" errno empty_context). split.
  - unfold on_exit, exit_rest. cbn [decode frame_result exit_registers reg_rax rp_result fst snd].
    rewrite s64_neg_small by lia.
    destruct (Z.leb_spec 0 (- errno)); [lia|]. destruct (Z.ltb_spec (- errno) 0); [|lia].
    destruct (Z.eqb_spec (- errno) 0); [lia|].
    rewrite !andb_false_r. cbn -[s32 Z.opp]. rewrite Z.opp_involutive, s32_small by lia. done.
  - eapply failed_call_allowed; [exact Hc|apply not_elem_of_nil].
Qed.

(** The policy test of the manual: a rule on the address of the connection. *)
Lemma risk_connect_unnoticed_witness :
  let g := Engine.new (mkConfig [] ["192.0.2.1"] [] 0) in
  ∃ e, on_exit 7 (exit_registers (risk_connect_request 4, mkReply (-115) 0))
         (on_entry (rq_tracee (risk_connect_request 4)) 7
            (entry_registers (risk_connect_request 4)) new_decoder).1 FdTable.empty
       = (FdTable.empty, Some e) ∧
    (Engine.evaluate g (set_context (mkContext 7 9) e)).1 = allow.
Proof.
  apply (risk_connect_unnoticed 7 4 0 115 FdTable.empty
    (Engine.new (mkConfig [] ["192.0.2.1"] [] 0)) ["192.0.2.1"] 0 (mkContext 7 9)); [lia|reflexivity].
Defined.

(** ** The program traced without a rule *)

Definition allow_all : Analyze.Options :=
  Analyze.mkOptions terminal (mkConfig [] [] [] 0) 10 65536 false Sandbox.default_config.


(** A program that opens a file between two signals: a SIGTSTP that it would
    stop for, and a SIGTERM that ends it. *)
Definition interrupted : prog Z :=
  Signal SIGTSTP (λ b, Call demo_open (λ _, Signal 15 (λ b, if b : bool then Die 15 false else Ret 0))).

