(* ===== verification/UnitTests.v ===== *)
(** * The repository's unit tests (src/tests)

    The tests that use no process of their own, run on the model: each is the
    list of its assertions, in order, and each list evaluates to true.  They
    tie the definitions to what the authors of the program expect of it. *)

From S2P Require Import Prelude CxxString Event Stop FdTable Memory TracerScript Report Policy.
From S2P Require Import Risk Sandbox Tracer Syscall Network Storage StorageSpec Aur.

Definition passes (assertions : list bool) : bool := forallb id assertions.

Definition holds {E A} (r : expected A E) : bool := match r with Ok _ => true | Err _ => false end.

(** ** fd_table_test.cpp *)

Definition fd_table_test : list bool :=
  let t1 := FdTable.track 2 "/tmp/typed" FdTable.empty in
  let t2 := FdTable.track 3 "/tmp/input" (FdTable.close 2 t1) in
  let t3 := FdTable.duplicate 3 7 t2 in
  let t4 := FdTable.duplicate 3 7 (FdTable.track 7 "/tmp/output" t3) in
  let t5 := FdTable.close 3 t4 in
  let t6 := FdTable.duplicate 3 7 t5 in
  let t7 := FdTable.close_range 4 8 (FdTable.track 8 "/tmp/b" (FdTable.track 4 "/tmp/a" t6)) in
  [FdTable.contains 2 t1;
   FdTable.contains 3 t2;
   bool_decide (FdTable.lookup 3 t2 = Some "/tmp/input");
   bool_decide (FdTable.lookup 7 t3 = Some "/tmp/input");
   bool_decide (FdTable.lookup 7 t4 = Some "/tmp/input");
   negb (FdTable.contains 3 t5);
   negb (FdTable.contains 7 t6);
   negb (FdTable.contains 4 t7);
   negb (FdTable.contains 8 t7)].

Example fd_table_test_passes : passes fd_table_test = true.
Proof. vm_compute. reflexivity. Qed.

(** ** stop_test.cpp *)

Definition stop_test : list bool :=
  let kind_is status kind := bool_decide (stop_kind (classify_stop 1 status) = kind) in
  [kind_is (Z.shiftl 7 8) exited;
   kind_is 15 signaled;
   kind_is (Z.lor (Z.shiftl (Z.lor SIGTRAP 128) 8) 127) syscall;
   kind_is (Z.lor (Z.lor (Z.shiftl PTRACE_EVENT_CLONE 16) (Z.shiftl SIGTRAP 8)) 127) ptrace_event].

Example stop_test_passes : passes stop_test = true.
Proof. vm_compute. reflexivity. Qed.

(** ** memory_test.cpp *)

(** [PTRACE_PEEKDATA] on a process that is not a tracee. *)
Definition memory_test (peek : peekdata) (pid : Z) : list bool :=
  let invalid := read_process_memory_string peek pid 1 in
  [bool_decide (read_status invalid = invalid_address);
   bool_decide (read_value invalid = "")].

Lemma memory_test_passes peek pid :
  (∀ address, peek pid address = (-1, ESRCH)) → passes (memory_test peek pid) = true.
Proof.
  intros Hp. unfold memory_test, read_process_memory_string. change max_words with (S 511).
  cbn [read_loop]. by rewrite Hp.
Qed.

(** ** json_reporter_test.cpp *)

Definition json_reporter_test : list bool :=
  let event := FileOpened 3 ("quote" +:+ str dquote +:+ "newline" +:+ str newline) (mkContext 7 1) in
  let json := JsonReporter.output
    (JsonReporter.finish (JsonReporter.finish (JsonReporter.report JsonReporter.new event))) in
  [bool_decide (String.get 0 json = Some "["%char);
   bool_decide (String.get (str_length json - 1) json = Some "]"%char);
   contains_str json ("quote" +:+ str backslash +:+ str dquote +:+ "newline" +:+ str backslash +:+ "n")].

Example json_reporter_test_passes : passes json_reporter_test = true.
Proof. vm_compute. reflexivity. Qed.

(** ** risk_network_test.cpp *)

Definition level_is (g : Risk.Engine.t) (l : Level) : bool :=
  bool_decide (level <$> Risk.Engine.assess g = Some l).
Definition action_is (g : Risk.Engine.t) (a : Action) : bool :=
  bool_decide (action <$> Risk.Engine.assess g = Some a).

Definition risk_network_test : list bool :=
  let mirrors := ["https://mirror.example/repo"] in
  let engine := Risk.Engine.add Risk.Engine.new "scripts" 15
    "maintainer scripts execute package-provided code" in
  let rejected := Risk.Engine.reject engine "signature" "signature verification failed" in
  let weighted := Risk.Engine.add Risk.Engine.new "medium" 25 "medium factor" in
  let heavier := Risk.Engine.add weighted "high" 25 "high factor" in
  [valid_mirror "https://mirror.example/repo";
   negb (valid_mirror "file:///tmp/repo");
   allowed "https://mirror.example:443/pkg" mirrors;
   negb (allowed "http://other.example/pkg" mirrors);
   level_is engine low;
   action_is engine Risk.allow;
   level_is rejected critical;
   action_is rejected reject_action;
   level_is weighted medium;
   level_is heavier high].

Example risk_network_test_passes : passes risk_network_test = true.
Proof. vm_compute. reflexivity. Qed.

(** ** policy_sandbox_test.cpp *)

(** Its run of a sandbox apart. *)
Definition policy_sandbox_test (validate : Sandbox.Config → expected unit string) : list bool :=
  let config := Policy.mkConfig ["/etc"] [] [] 0 in
  let event := FileOpened 0 "/etc/hostname" empty_context in
  let policy_reporter := PolicyReporter.report (PolicyReporter.new config Summary.empty) event in
  let with_cgroup budget :=
    let d := default_config in
    Sandbox.mkConfig (backend d) (user_namespace d) (mount_namespace d) (network_namespace d)
      (drop_capabilities d) (no_new_privileges d) (read_only_root d) (clean_environment d)
      (drop_to_unprivileged_user d) (mount_proc d) (mount_run d) (trace_events d) (cpu_seconds d)
      (address_space_bytes d) (max_processes d) (max_file_bytes d) (rootfs d)
      (working_directory d) (seccomp_allowlist d) budget in
  let with_flags user privileges root allowlist :=
    let d := default_config in
    Sandbox.mkConfig (backend d) user (mount_namespace d) (network_namespace d)
      (drop_capabilities d) privileges root (clean_environment d)
      (drop_to_unprivileged_user d) (mount_proc d) (mount_run d) (trace_events d) (cpu_seconds d)
      (address_space_bytes d) (max_processes d) (max_file_bytes d) (rootfs d)
      (working_directory d) allowlist (cgroup d) in
  [bool_decide ((Policy.Engine.evaluate (Policy.Engine.new config) event).1 = deny);
   PolicyReporter.denied policy_reporter;
   negb (holds (validate (with_flags false true false [])));
   negb (holds (validate (with_flags true false false [1])));
   holds (validate (with_flags true true true []));
   negb (holds (validate (with_cgroup (mkCgroup "relative-cgroup" 0 0 0 100000))));
   holds (validate (with_cgroup (mkCgroup "" 0 0 0 100000)))].

Lemma policy_sandbox_test_passes env_path access_x is_symlink :
  passes (policy_sandbox_test (validate env_path access_x is_symlink)) = true.
Proof. vm_compute. reflexivity. Qed.

(** ** storage_test.cpp *)

(** On the database in memory of StorageSpec. *)
Definition storage_test : list bool :=
  let first := mkIdentity "fixture" "1" "x86_64" "signed" "commit-a" "deps-a" "hash-a" "-O2"
    "static-a" "dynamic-a" in
  let second := mkIdentity "fixture" "2" "x86_64" "signed" "commit-b" "deps-b" "hash-b" "-O2"
    "static-a" "dynamic-a" in
  let created := mkStored "filesystem" "create" "/etc/fixture" "mode=755" false in
  let connected := mkStored "network" "connect" "example.test:443" "success" true in
  let '(baseline, db1) := store memory_db empty_db first [created] in
  let '(observation, db2) := store memory_db db1 second [created; connected] in
  let '(delta, _) := compare memory_db db2 "fixture" "1" "2" in
  match baseline, observation, delta with
  | Ok baseline, Ok observation, Ok delta =>
      [so_baseline baseline;
       0 <? so_id baseline;
       negb (so_baseline observation);
       compared delta;
       from_baseline delta;
       source_changed delta;
       dependencies_changed delta;
       identity_changed delta;
       bool_decide (length (added_events delta) = 1%nat);
       bool_decide (removed_events delta = [])]
  | _, _, _ => [false]
  end.

Example storage_test_passes : passes storage_test = true.
Proof. vm_compute. reflexivity. Qed.

(** ** aur_test.cpp *)

Definition aur_test : list bool :=
  let quoted s := "('" +:+ s +:+ "')" in
  let line s := s +:+ str newline in
  let text := line "pkgname=fixture" +:+ line "pkgver=1.2" +:+ line "pkgrel=1" +:+
    line ("arch=" +:+ quoted "x86_64") +:+
    line ("source=" +:+ quoted "https://example.test/source.tar.gz") +:+
    line ("sha256sums=" +:+ quoted "abc") +:+ line "build() { curl | sh; }" in
  match Aur.parse true (Ok (size text)) (Some text) default_max_bytes with
  | Ok parsed =>
      [bool_decide (m_name parsed = "fixture");
       bool_decide (m_version parsed = "1.2");
       bool_decide (length (m_sources parsed) = 1%nat);
       negb (bool_decide (m_findings parsed = []))]
  | Err _ => [false]
  end.

Example aur_test_passes : passes aur_test = true.
Proof. vm_compute. reflexivity. Qed.
